(* ===== verification/_CoqProject ===== *)
-Q . S2P
Prelude.v
Bytes.v
Panics.v
Interop.v
StaticCall.v
FilterValues.v
Bridge.v
Abi.v
Fep.v
AggchainProof.v
Binding.v
ProofInputs.v
Config.v
Executor.v
Contracts.v
Vkey.v
Builder.v
Runs.v
Proposer.v
Service.v
GuestRuns.v
Conversion.v
Rpc.v
Codec.v
Tonic.v
AggkitRpc.v
Truthful.v
Answered.v
AgglayerRpc.v
Engine.v
Shutdown.v
AggkitGrpc.v
AgglayerGrpc.v
Text.v
Serde.v
Derive.v
AggkitSerde.v
AgglayerSerde.v
DescriptorSets.v
Descriptor.v
BuildScripts.v
Binaries.v
AgglayerAnswers.v
ConfigSerde.v
EndToEnd.v
