(* ===== verification/Prelude.v ===== *)
(** * The aggkit and agglayer provers

    This library models the provers of this repository, two gRPC servers that produce
    SP1 proofs, and the guest program whose execution one of them proves.

    ** The program

    The _aggkit prover_ answers a request to prove a range of L2 blocks.  Its handler
    checks and converts the request ([AggkitRpc], [Conversion]) and calls the aggchain
    proof service ([Service]).  In normal mode the service first asks the proposer
    ([Proposer]) for a full execution proof aggregated over the range; in optimistic mode
    the trusted sequencer's signature takes its place.  The builder ([Builder]) then reads
    the chain data over RPC ([Contracts]), assembles the witness of the guest program, and
    has the executor ([Executor]) prove it.  The guest ([AggchainProof]) verifies the full
    execution proof ([Fep]) and the bridge constraints ([Bridge]) and only then commits
    the public values.  The _agglayer prover_ ([AgglayerRpc]) is a thinner server, in
    front of the same executor with the pessimistic proof program.

    Both are reached through generated clients and servers ([AggkitGrpc], [AgglayerGrpc]),
    run on the same engine ([Engine], [Shutdown]), are configured the same way ([Config],
    [ConfigSerde]), and are started from a command line ([Binaries]).  Build scripts embed
    the programs and their keys ([BuildScripts]).

    ** Files, and the code each one models (under [src/crates])

    - [Prelude]: results, panics, the state-passing monad [io] of effectful code, tactics,
      and lemmas on lists and strings.  [Bytes]: machine integers and byte arrays.
      [Text]: decimal integers and printed arrays.  [Interop], [Abi], [Rpc], [Tonic]:
      interfaces of the third-party code.  [Codec]: a codec for the sample messages.
    - [Panics]: [prover-executor/src/utils.rs], the wrappers that turn panics into errors.
    - [Executor]: [prover-executor/src/{lib,error}.rs].  [executor_new] builds a primary
      and a fallback service; [executor_call] is [Executor::call]; [local_call] and
      [network_call] are the two provers.  [Runs]: what the executor answers when SP1 proves
      the executions of a program, and only those; both servers rest on it.
    - [StaticCall], [FilterValues], [Bridge]: [aggchain-proof-core/src/bridge].
      [Bridge.verify] is [BridgeConstraintsInput::verify], one definition per check;
      [FilterValues.filter_values] consumes removals from a counting map.
    - [Fep]: [aggchain-proof-core/src/{full_execution_proof,vkey_hash,error}.rs].
      [verify_fep] is [FepInputs::verify], in both modes.
    - [AggchainProof]: [aggchain-proof-core/src/proof.rs] and
      [aggchain-proof-program/src/main.rs], whose [main] is [AggchainProof.main].
    - [Binding]: what the public values of an accepted witness bind.
    - [ProofInputs]: [aggchain-proof-types/src]; [Conversion]: [aggkit-prover-types/src],
      its error type and [conversion/v1].
    - [Contracts]: [aggchain-proof-contracts/src] and [prover-alloy/src]: the RPC client,
      the Erigon decorator, and the prefetching of L2 state into sketches.
    - [Vkey]: [aggkit-prover-types/src/{vkey,vkey_hash}.rs], [proposer-elfs/src/lib.rs].
    - [Builder]: [aggchain-proof-builder/src]; [Proposer]: [proposer-client/src] and
      [proposer-service/src]; [Service]: [aggchain-proof-service/src].
    - [GuestRuns]: the runs of the guest on the stdins that the builder writes, where the
      host ([Builder], [Proposer]) and the guest ([AggchainProof]) meet; and the dummy program
      ([prover-dummy-program]), a guest that commits nothing.
    - [AggkitRpc]: [aggkit-prover/src/rpc.rs]; [AgglayerRpc]:
      [agglayer-prover/src/{rpc,fake,prover}.rs] and [agglayer-prover-types/src/error.rs].
    - [Truthful]: what a response of [AggkitRpc] says about its request; [Answered]: the
      requests that get one; [EndToEnd]: what a client learns from one, from the command line
      on.  [AgglayerAnswers]: the same for the agglayer prover, which answers exactly the
      requests on whose input its program commits.
    - [AggkitGrpc], [AgglayerGrpc]: [generated/*.tonic.rs] of the two crates of types;
      what their clients and servers share is in [Tonic].
    - [Serde], [AggkitSerde], [AgglayerSerde]: [generated/*.serde.rs], the JSON form of the
      messages; the visitor that all of them instantiate is in [Serde].
    - [DescriptorSets], [Descriptor]: the descriptor sets of [generated/*.rs], byte by byte,
      a reader of the protobuf wire format, and the prost attributes of the messages.
    - [Config]: the structs, defaults and operations of [prover-utils], [prover-config],
      [prover-logger], [aggkit-prover-config] and [agglayer-prover-config].
    - [Derive], [ConfigSerde]: the configuration files.  [Derive] is what serde's derive
      makes of a struct whose fields have keys, aliases, defaults and conditions; every
      configuration struct is one such description in [ConfigSerde].
    - [Engine]: [prover-engine/src/lib.rs] and its two users, up to the [select!];
      [Shutdown]: from there on, the main task and the two servers as a transition system.
    - [BuildScripts]: [prover-elf-utils/src/elf_info.rs] and the four build scripts.
    - [Binaries]: [aggkit-prover/src/{main,lib,cli/mod}.rs], [agglayer-prover/src/lib.rs],
      and the starts of the test servers.

    ** How the code is represented

    A fallible function returns an [outcome]: [Ok], [Err] or an unwinding [Panic], and
    [?] is its bind.  Effectful code has type [io W E A = W → outcome E A * W] over an
    abstract world [W], the state behind the clients and the SDK; what is awaited in
    sequence is bound in sequence.  A shared, mutated object (the stdin of a prover, the
    buffered service) is threaded through that state or returned.  A process ([Binaries])
    adds the events of the engine and the output streams to the world of the services.  A
    trait is a record of operations or a class, and a trait object a value of it; generic
    code takes it as an argument.  A [u64] is a [Z] with its range as a hypothesis, casts
    truncate with [mod], checked operations panic where Rust's do, and [[u8; n]] is a
    vector.  Serialized values are trees of serde's data model ([Serde.content]).

    Third-party code is a class whose fields are the functions the program calls
    ([Hashing], [Ecdsa], [UnifiedBridge], [EvmClient], [SolAbi], [P3Fields], [Sp1Sdk],
    [Tokio], [TowerLayers], [Node], [HostExecutor], [InteropGrpc], [Tonic], [Axum],
    [Pbjson], [Toml], …); the classes named [...Laws] state what its documentation
    promises, and a theorem takes only the laws it needs.  The promises of SP1 are
    named for what they give: [Sp1Sound] (a verified proof is of a run of the guest),
    [RunsSound] and [RunsComplete] (a proof made for an input that verifies is of a run on
    this input; a run can be proven, in the mode and the size that the caller can use),
    [DeferredProofLaws] (a written proof verifies inside the guest), [GuestRunsLaws] (the
    guest reads what was written, and the public values are what it committed).
    [PromptRuntime] is the assumption that nothing times out.  Each file ends with a module of
    concrete instances ([BridgeSample], [BuilderSample], [RpcSample], …) on which the
    definitions are run and the theorems are applied, so that no set of hypotheses is
    vacuous.

    ** What the theorems show

    - _The whole._  [EndToEnd.client_learns]: every response of a running aggkit prover to
      its clients carries params and an exit root for which the guest accepted a witness; it
      takes SP1 to be sound, and speaks of the bridge constraints and the full execution
      proof themselves.  [Truthful.answered_requests_true]: the response is about what was
      asked, since the contracts answered so that the request describes what happened on L2.
      [GuestRuns.built_witness_accepted]: of the witnesses that the
      builder writes the guest accepts those that describe what happened on L2, and in normal
      mode the proposer's proof always verifies inside it
      ([GuestRuns.normal_request_accepted]).  [Answered.true_normal_request_answered] and
      [true_optimistic_request_answered]: such requests get a response, as long as the
      contracts answer, SP1 proves, nothing times out and the digest of the aggregation key
      packs.  [AgglayerAnswers.agglayer_answers_executions]: with such an SP1 and runtime the
      agglayer prover answers exactly the requests on whose input its program commits, with
      a proof of that.  A removed GER or an unset claim in the range cannot be expressed
      ([GuestRuns.removals_refused]).
    - _What is bound._  [Binding.l2_blocks_determine_claims]: the hashes of the two L2 blocks
      determine what is committed about them, or a hash function fails, or a contract tells
      the callers of the two witnesses apart;
      [Binding.block_hashes_not_bound]: the hashes themselves are not committed.
      [Fep.aggchain_params_binding] and [Fep.signature_commitment_binding]: what the params
      and the sequencer's signature commit to.  [Bridge.validated_chain_binding]: a validated
      hash chain determines its elements, or a collision is exhibited.
    - _The guest is right._  [Bridge.verify_refines_spec]: the imperative checks accept
      exactly the inputs of a declarative specification, in which the removal filter is a
      multiset difference.  An error states a fact ([Bridge.verify_errors_genuine]).
      [Fep.verify_fep_spec] gives every outcome of the full execution proof in each mode,
      [Fep.to_hash_bn254_spec] when the packing of a key digest aborts.
      [AggchainProof.main_commits] and [main_rejects]: public values are committed for
      valid witnesses, and for no other.
    - _The host prepares what the guest checks._  [Contracts.prefetch_complete]: the
      sketches hold every storage access of the guest.  [Builder.retrieve_chain_data_ok]
      and [built_witness_checks]: the witness is assembled from the request and the
      chain, and passes the guest's set checks.  [ProofInputs.sorted_inserted_gers_spec] and
      [_deterministic]: the replay order is fixed although a [HashMap] and an unstable
      sort produce it.  [Builder.claim_block_num_exact]: the width of the block number.
    - _Only verified proofs leave a server._  [Executor.executor_proof_verified] (a proof was
      made for the input and the mode of the request, and verified), then
      [Builder.builder_proof_verified], [Service.service_proof_verified],
      [AggkitRpc.rpc_proof_verified] and [Binaries.aggkit_prover_end_to_end] on one side,
      [AgglayerRpc.agglayer_proof_verified] and [Proposer.proposer_proof_verified] on the
      others; at the clients of the agglayer prover,
      [AgglayerGrpc.agglayer_client_proof_verified].
    - _Errors and panics._  Which error each layer returns and when
      ([Executor.executor_call_err], [AggkitRpc.rpc_rejects_invalid],
      [Conversion.request_error_pinpoints], …), and that panics of the SDK are contained
      ([Executor.network_call_contains_panics], [Builder.builder_call_no_panic],
      [AgglayerRpc.generate_proof_contains_panics]).
    - _Data._  [Conversion.request_conversion_ok] and [context_complete],
      [Service.custom_chain_data_layout], [Contracts.parse_l2_output_root_ok],
      [Contracts.hex_quantity_value], [Proposer.mock_request_id_roundtrip].
    - _The generated code is the interface it was generated from._  Clients reach the
      handlers of their methods ([AggkitGrpc.aggkit_client_reaches_service]).  Messages are
      written well and read back ([AggkitSerde.messages_well_written],
      [AgglayerSerde.agglayer_messages_well_written]), in any order and under either name
      ([AggkitSerde.request_read_by_name]), and refused for stated reasons
      ([AggkitSerde.request_refusals]).  The encoded descriptors describe the attributes,
      the JSON names and the paths ([Descriptor.aggkit_descriptor_describes]).  The
      constants that a build script writes are read back as the keys of the programs
      ([BuildScripts.proposer_elfs_consistent]).
    - _Configuration._  A file without sections is the default configuration
      ([ConfigSerde.missing_sections_default]); what a command prints is a file of the same
      configuration exactly when it has no log outputs
      ([ConfigSerde.validated_config_reloads], [default_config_reloads]).
    - _The engine._  It serves what was added to it ([Engine.engine_serves]).  Once a signal
      has arrived it returns, in every fair run ([Shutdown.shutdown_inevitable]), and it
      returns only on a signal and gracefully ([Shutdown.shutdown_graceful]); it does not
      watch the token or its servers itself, and waits for a signal when these stop
      ([Shutdown.no_signal_no_return], [deserted]).

    ** Bounds and fuel

    Few functions recurse on fuel.  [Contracts.hex_digits]: 16 digits are enough for a
    [u64], as [hex_quantity_value] proves.  [Descriptor.write_varint_go] gets
    more fuel than the number it writes, and divides it at each step.  The readers of printed arrays and of generated source
    ([Text.read_items], [BuildScripts.read_consts], [read_modules]) and of wire messages
    ([Descriptor.read_fields]) get the length of their input, and the round-trip lemmas
    prove that enough for everything that is written.  Every other recursion is structural.
    Runs of the engine are infinite sequences of states ([Shutdown.engine_run]); what makes
    them end is fairness ([Shutdown.fair]), not a bound.

    ** What is not modelled

    The internals of third-party code (the SP1 SDK, the zkVM, the EVM, alloy, tonic, tower,
    tokio, serde's derive beyond the attributes in use, the TOML grammar) are interfaces or
    descriptions of their documented behaviour.  Of the generated protobuf code, the binary
    encoding itself is prost's.  Socket addresses are IPv4.  The tools the build
    scripts call ([sp1_build], [vergen], [tonic_build]) are interfaces too.  The parsing of
    command lines, logging output and the tests are left out. *)

From stdpp Require Export base tactics option list gmap strings pretty sorting.

(** ** Rust control flow: results, panics *)

(** The payload of a Rust panic, a [Box<dyn Any + Send>]: an owned [String]
    ([panic!] with arguments), a [&'static str] (a literal), or any other value. *)
Inductive panic_payload : Type :=
  | PayloadString (s : string)
  | PayloadStr (s : string)
  | PayloadOther.

#[export] Instance panic_payload_eq_dec : EqDecision panic_payload.
Proof. solve_decision. Defined.

(** What a call to a Rust function of type [Result<A, E>] ends in: a value, an
    error value, or an unwinding panic.  An infallible function is an [outcome]
    whose error type is [Empty_set]. *)
Inductive outcome (E A : Type) : Type :=
  | Ok (a : A)
  | Err (e : E)
  | Panic (p : panic_payload).

Arguments Ok {E A} a.
Arguments Err {E A} e.
Arguments Panic {E A} p.

#[export] Instance outcome_eq_dec `{EqDecision E, EqDecision A} : EqDecision (outcome E A).
Proof. solve_decision. Defined.

#[export] Instance Ok_inj {E A} : Inj (=) (=) (@Ok E A).
Proof. by intros ?? [= ->]. Qed.

(** The [?] operator: errors and panics leave the function at once. *)
#[export] Instance outcome_ret {E} : MRet (outcome E) := λ A a, Ok a.

#[export] Instance outcome_bind {E} : MBind (outcome E) := λ A B f m,
  match m with
  | Ok a => f a
  | Err e => Err e
  | Panic p => Panic p
  end.

#[export] Instance outcome_fmap {E} : FMap (outcome E) := λ A B f m,
  match m with
  | Ok a => Ok (f a)
  | Err e => Err e
  | Panic p => Panic p
  end.

(** [Result::map_err]. *)
Definition map_err {E E' A} (f : E → E') (m : outcome E A) : outcome E' A :=
  match m with
  | Ok a => Ok a
  | Err e => Err (f e)
  | Panic p => Panic p
  end.

(** An infallible computation among fallible ones. *)
Definition never {E A} (m : outcome Empty_set A) : outcome E A :=
  map_err (λ e : Empty_set, match e with end) m.

(** [Option::ok_or]. *)
Definition ok_or {E A} (e : E) (o : option A) : outcome E A :=
  match o with
  | Some a => Ok a
  | None => Err e
  end.

(** [Result::unwrap] and [Result::expect]: an error becomes a panic whose payload is
    the formatted message. *)
Definition unwrap {E E' A} (msg : E → string) (m : outcome E A) : outcome E' A :=
  match m with
  | Ok a => Ok a
  | Err e => Panic (PayloadString (msg e))
  | Panic p => Panic p
  end.

Definition is_ok {E A} (m : outcome E A) : bool :=
  match m with Ok _ => true | _ => false end.

Definition is_panic {E A} (m : outcome E A) : bool :=
  match m with Panic _ => true | _ => false end.

(** [iter.map(f).collect::<Result<Vec<_>, _>>()]: the first failure wins. *)
Fixpoint traverse {E A B} (f : A → outcome E B) (l : list A) : outcome E (list B) :=
  match l with
  | [] => Ok []
  | a :: l => b ← f a; bs ← traverse f l; Ok (b :: bs)
  end.

(** ** Stateful computations *)

(** A computation over a world [W]: RPC endpoints, provers, metric counters, ...
    It ends in an [outcome] and a world, whichever way it ends. *)
Definition io (W E A : Type) : Type := W → outcome E A * W.

#[export] Instance io_ret {W E} : MRet (io W E) := λ A a w, (Ok a, w).

#[export] Instance io_bind {W E} : MBind (io W E) := λ A B f m w,
  match m w with
  | (Ok a, w') => f a w'
  | (Err e, w') => (Err e, w')
  | (Panic p, w') => (Panic p, w')
  end.

(** A pure fallible step inside a stateful computation. *)
Definition lift {W E A} (m : outcome E A) : io W E A := λ w, (m, w).

Definition io_map_err {W E E' A} (f : E → E') (m : io W E A) : io W E' A :=
  λ w, let '(r, w') := m w in (map_err f r, w').

Definition throw {W E A} (e : E) : io W E A := λ w, (Err e, w).

(** ** Lemmas on outcomes *)

Section outcome_lemmas.
Context {E A B : Type}.
Implicit Types (m : outcome E A) (f : A → outcome E B).

Lemma outcome_bind_ok m f b :
  m ≫= f = Ok b ↔ ∃ a, m = Ok a ∧ f a = Ok b.
Proof. split; [destruct m; naive_solver|]. by intros (a & -> & ?). Qed.

Lemma outcome_bind_err m f e :
  m ≫= f = Err e ↔ m = Err e ∨ ∃ a, m = Ok a ∧ f a = Err e.
Proof. destruct m; naive_solver. Qed.

Lemma outcome_bind_panic m f p :
  m ≫= f = Panic p ↔ m = Panic p ∨ ∃ a, m = Ok a ∧ f a = Panic p.
Proof. destruct m; naive_solver. Qed.

Lemma outcome_fmap_ok (g : A → B) m b :
  g <$> m = Ok b ↔ ∃ a, m = Ok a ∧ b = g a.
Proof. destruct m; naive_solver. Qed.

Lemma ok_or_ok (e : E) (o : option A) a : ok_or e o = Ok a ↔ o = Some a.
Proof. destruct o; naive_solver. Qed.

Lemma ok_or_err (e e' : E) (o : option A) : ok_or e o = Err e' ↔ o = None ∧ e' = e.
Proof. destruct o; naive_solver. Qed.

Lemma map_err_ok {E'} (g : E → E') m a : map_err g m = Ok a ↔ m = Ok a.
Proof. destruct m; naive_solver. Qed.

Lemma never_ok (m0 : outcome Empty_set A) a : never (E:=E) m0 = Ok a ↔ m0 = Ok a.
Proof. destruct m0 as [?|[]|?]; simpl; split; congruence. Qed.

Lemma map_err_err {E'} (g : E → E') m e :
  map_err g m = Err e ↔ ∃ e0, m = Err e0 ∧ e = g e0.
Proof. destruct m; naive_solver. Qed.

Lemma map_err_panic {E'} (g : E → E') m p : map_err g m = Panic p ↔ m = Panic p.
Proof. destruct m; naive_solver. Qed.

Lemma is_ok_true m : is_ok m = true ↔ ∃ a, m = Ok a.
Proof. destruct m; naive_solver. Qed.

End outcome_lemmas.

Section traverse.
Context {E A B : Type}.
Implicit Types (f : A → outcome E B).

Lemma traverse_ok f l bs : traverse f l = Ok bs ↔ Forall2 (λ a b, f a = Ok b) l bs.
Proof.
  revert bs. induction l as [|a l IH]; intros bs; simpl.
  - split; [intros [= <-]; constructor|]. by inversion 1.
  - split.
    + intros (b & Hb & H)%outcome_bind_ok.
      apply outcome_bind_ok in H as (bs' & Hbs & [= <-]).
      constructor; [done|]. by apply IH.
    + inversion 1 as [|? b ? bs' Hb Hbs]; subst. rewrite Hb. simpl.
      by rewrite (proj2 (IH _) Hbs).
Qed.

(** A failing traversal stopped at the first element on which [f] fails. *)
Lemma traverse_err f l e :
  traverse f l = Err e ↔
  ∃ l1 a l2 bs, l = l1 ++ a :: l2 ∧ Forall2 (λ a b, f a = Ok b) l1 bs ∧ f a = Err e.
Proof.
  induction l as [|a l IH]; simpl.
  - split; [done|]. intros (l1 & a & l2 & _ & Hl & _). by destruct l1.
  - rewrite outcome_bind_err. split.
    + intros [Ha | (b & Hb & [Hl | (? & _ & [=])]%outcome_bind_err)].
      * exists [], a, l, []. naive_solver.
      * apply IH in Hl as (l1 & a' & l2 & bs & -> & ? & ?).
        exists (a :: l1), a', l2, (b :: bs). naive_solver.
    + intros (l1 & a' & l2 & bs & Hl & Hf & He). destruct l1 as [|a1 l1]; simplify_eq/=.
      * by left.
      * inversion Hf as [|? b ? bs' Hb Hbs]; subst. right. exists b; split; [done|].
        apply outcome_bind_err. left. apply IH. eauto 10.
Qed.
End traverse.

Section io_lemmas.
Context {W E A B : Type}.
Implicit Types (m : io W E A) (f : A → io W E B).

Lemma io_bind_ok m f w b w' :
  (m ≫= f) w = (Ok b, w') ↔ ∃ a w1, m w = (Ok a, w1) ∧ f a w1 = (Ok b, w').
Proof.
  unfold mbind, io_bind. destruct (m w) as [[a|e|p] w1]; naive_solver.
Qed.

Lemma io_bind_eq_ok m f w a w1 : m w = (Ok a, w1) → (m ≫= f) w = f a w1.
Proof. unfold mbind, io_bind. by intros ->. Qed.

Lemma io_bind_eq_err m f w e w1 : m w = (Err e, w1) → (m ≫= f) w = (Err e, w1).
Proof. unfold mbind, io_bind. by intros ->. Qed.

Lemma io_bind_eq_panic m f w p w1 : m w = (Panic p, w1) → (m ≫= f) w = (Panic p, w1).
Proof. unfold mbind, io_bind. by intros ->. Qed.

Lemma io_map_err_ok {E'} (g : E → E') m w a w' :
  io_map_err g m w = (Ok a, w') ↔ m w = (Ok a, w').
Proof. unfold io_map_err. destruct (m w) as [[?|?|?] ?]; naive_solver. Qed.

Lemma lift_ok (r : outcome E A) (w : W) a w' :
  lift r w = (Ok a, w') ↔ r = Ok a ∧ w' = w.
Proof. unfold lift. naive_solver. Qed.
End io_lemmas.

(** ** Which errors a computation can end in

    [errs m P]: if [m] ends in an error, the error satisfies [P].  The rules follow
    the structure of the code, so that [errs_step] walks through a [?] chain. *)
Definition errs {E A} (m : outcome E A) (P : E → Prop) : Prop := ∀ e, m = Err e → P e.

Section errs.
Context {E A B : Type}.

Lemma errs_ok (a : A) (P : E → Prop) : errs (Ok a) P.
Proof. by intros e. Qed.

Lemma errs_err (e : E) (P : E → Prop) : P e → errs (A:=A) (Err e) P.
Proof. by intros ? ? [= <-]. Qed.

Lemma errs_bind (m : outcome E A) (f : A → outcome E B) P :
  errs m P → (∀ a, m = Ok a → errs (f a) P) → errs (m ≫= f) P.
Proof. intros Hm Hf e [?|(a & Ha & He)]%outcome_bind_err; [by apply Hm|by eapply Hf]. Qed.

Lemma errs_map_err {E'} (g : E' → E) (m : outcome E' A) P :
  errs m (λ e, P (g e)) → errs (map_err g m) P.
Proof. intros Hm e (e0 & He & ->)%map_err_err. by apply Hm. Qed.

Lemma errs_ok_or (e : E) (o : option A) (P : E → Prop) : P e → errs (ok_or e o) P.
Proof. intros HP ? [_ ->]%ok_or_err. done. Qed.

Lemma errs_weaken (m : outcome E A) (P Q : E → Prop) :
  errs m P → (∀ e, P e → Q e) → errs m Q.
Proof. intros Hm HPQ e He. by apply HPQ, Hm. Qed.
End errs.

Create HintDb errs.
#[export] Hint Resolve errs_ok : errs.

Ltac errs_step :=
  match goal with
  | |- errs (_ ≫= _) _ => apply errs_bind; [|intros ? ?]
  | |- errs (map_err _ _) _ => apply errs_map_err
  | |- errs (Err _) _ => apply errs_err
  | |- errs (Ok _) _ => apply errs_ok
  | |- errs (ok_or _ _) _ => apply errs_ok_or
  | |- errs (if decide _ then _ else _) _ => case_decide
  | |- errs (let '(_, _) := ?p in _) _ => destruct p
  end.

(** ** Strings

    Strings that end differently are told apart by their lists of characters. *)

Lemma list_ascii_of_string_app s1 s2 :
  String.list_ascii_of_string (s1 +:+ s2) =
  String.list_ascii_of_string s1 ++ String.list_ascii_of_string s2.
Proof. induction s1 as [|c s1 IH]; [done|]. simpl. by rewrite IH. Qed.

Lemma length_list_ascii_of_string s :
  length (String.list_ascii_of_string s) = String.length s.
Proof. induction s as [|c s IH]; [done|]. simpl. by rewrite IH. Qed.

#[export] Instance list_ascii_of_string_inj : Inj (=) (=) String.list_ascii_of_string.
Proof.
  intros s1 s2 Heq. by rewrite <-(String.string_of_list_ascii_of_string s1), Heq,
    String.string_of_list_ascii_of_string.
Qed.

Lemma suffix_inj s1 s2 t : s1 +:+ t = s2 +:+ t → s1 = s2.
Proof.
  intros Heq. apply (inj String.list_ascii_of_string).
  apply (app_inv_tail (String.list_ascii_of_string t)).
  by rewrite <-!list_ascii_of_string_app, Heq.
Qed.

Lemma suffix_neq n s1 s2 t1 t2 :
  take n (reverse (String.list_ascii_of_string t1)) ≠
    take n (reverse (String.list_ascii_of_string t2)) →
  (n <= String.length t1)%nat → (n <= String.length t2)%nat →
  s1 +:+ t1 ≠ s2 +:+ t2.
Proof.
  intros Hne H1 H2 Heq. apply Hne.
  apply (f_equal String.list_ascii_of_string) in Heq.
  rewrite !list_ascii_of_string_app in Heq. apply (f_equal reverse) in Heq.
  rewrite !reverse_app in Heq. apply (f_equal (take n)) in Heq.
  rewrite !take_app_le in Heq; [done|..];
    by rewrite length_reverse, length_list_ascii_of_string.
Qed.

Lemma unwrap_ok {E E' A} (msg : E → string) (m : outcome E A) a :
  unwrap (E':=E') msg m = Ok a ↔ m = Ok a.
Proof. destruct m; simpl; split; congruence. Qed.

(** ** Lists *)

(** Equal images of two lists: the lists are equal, or two elements differ whose images do
    not. *)
Lemma fmap_eq_or_collide `{EqDecision A} {B} (f : A → B) (l1 l2 : list A) :
  f <$> l1 = f <$> l2 →
  l1 = l2 ∨ ∃ i x y, l1 !! i = Some x ∧ l2 !! i = Some y ∧ x ≠ y ∧ f x = f y.
Proof.
  revert l2. induction l1 as [|x l1 IH]; intros [|y l2]; csimpl; try done; [by left|].
  intros [= Hf Hl]. destruct (decide (x = y)) as [<-|Hne].
  - destruct (IH l2 Hl) as [->|(i & z & u & Hz & Hu & ?)]; [by left|right].
    by exists (S i), z, u.
  - right. by exists 0%nat, x, y.
Qed.

(** ** Automation *)

(** Rewriting rules that expose the successful path of a computation. *)
Create Rewrite HintDb outcome.
#[export] Hint Rewrite @outcome_bind_ok @outcome_fmap_ok @ok_or_ok @map_err_ok
  @io_bind_ok @io_map_err_ok @lift_ok : outcome.

(** [outcome_inv] decomposes every hypothesis of the form "this computation
    returned [Ok]" into its steps. *)
Ltac outcome_inv_step :=
  match goal with
  | H : _ ≫= _ = Ok _ |- _ => apply outcome_bind_ok in H as (? & ? & H)
  | H : _ <$> _ = Ok _ |- _ => apply outcome_fmap_ok in H as (? & H & ?)
  | H : ok_or _ _ = Ok _ |- _ => apply ok_or_ok in H
  | H : map_err _ _ = Ok _ |- _ => apply map_err_ok in H
  | H : unwrap _ _ = Ok _ |- _ => apply unwrap_ok in H
  | H : (_ ≫= _) _ = (Ok _, _) |- _ => apply io_bind_ok in H as (? & ? & ? & H)
  | H : io_map_err _ _ _ = (Ok _, _) |- _ => apply io_map_err_ok in H
  | H : lift _ _ = (Ok _, _) |- _ => apply lift_ok in H as [H ?]
  | H : mret _ = Ok _ |- _ => injection H as H
  | H : mret _ _ = (Ok _, _) |- _ => injection H as ?
  | H : throw _ _ = (Ok _, _) |- _ => discriminate H
  | H : (if decide ?P then _ else _) = _ |- _ => destruct (decide P)
  | H : (if decide ?P then _ else _) _ = _ |- _ => destruct (decide P)
  | H : @Err _ _ _ = Ok _ |- _ => discriminate H
  | H : @Panic _ _ _ = Ok _ |- _ => discriminate H
  end.
Ltac outcome_inv := repeat (outcome_inv_step; simplify_eq/=).

(** [io_step H as x w Hx]: the first step of the successful computation [H] returned [x]
    in world [w]. *)
Tactic Notation "io_step" hyp(H) "as" ident(x) ident(w) ident(Hx) :=
  apply io_bind_ok in H as (x & w & Hx & H).
