(* ===== verification/Bytes.v ===== *)
(** Fixed-width integers and byte arrays.

    A [u8] is a [Byte.byte]; [[u8; n]] is a vector of [n] bytes, so the lengths Rust
    enforces by typing are enforced by typing here too.  An unsigned integer of width
    [w] is a [Z] in [0, 2^w); the wrap-around is written out where the code can
    reach it. *)

From stdpp Require Export vector countable.
From Stdlib Require Export Strings.Byte.
From S2P Require Import Prelude.

Open Scope Z_scope.

(** ** Bytes *)

Abbreviation byte := Byte.byte.
Abbreviation bytes := (list Byte.byte).

#[export] Instance byte_eq_dec : EqDecision byte := Byte.byte_eq_dec.

Definition b2z (b : byte) : Z := Z.of_N (Byte.to_N b).
Definition z2b (z : Z) : byte := default x00 (Byte.of_N (Z.to_N (z mod 256))).

Lemma b2z_range b : 0 <= b2z b < 256.
Proof. unfold b2z. pose proof (Byte.to_N_bounded b). lia. Qed.

Lemma b2z_z2b z : b2z (z2b z) = z mod 256.
Proof.
  unfold b2z, z2b. pose proof (Z.mod_pos_bound z 256 ltac:(lia)).
  destruct (Byte.of_N (Z.to_N (z mod 256))) as [b|] eqn:Hb; simpl.
  - apply Byte.to_of_N in Hb. lia.
  - apply Byte.of_N_None_iff in Hb. lia.
Qed.

Lemma z2b_b2z b : z2b (b2z b) = b.
Proof.
  unfold b2z, z2b. pose proof (Byte.to_N_bounded b).
  rewrite Z.mod_small, N2Z.id by lia. by rewrite Byte.of_to_N.
Qed.

#[export] Instance b2z_inj : Inj (=) (=) b2z.
Proof. intros x y Hxy. by rewrite <-(z2b_b2z x), Hxy, z2b_b2z. Qed.

(** ** Fixed-size arrays *)

(** [[u8; n]]. *)
Abbreviation u8s n := (vec Byte.byte n).

(** [<[u8; n]>::try_from(slice)]: succeeds exactly on slices of length [n]. *)
Fixpoint to_array (n : nat) (l : bytes) : option (u8s n) :=
  match n, l with
  | O, [] => Some [#]
  | S n, b :: l => (λ v, b ::: v) <$> to_array n l
  | _, _ => None
  end.

Lemma to_array_Some n l v : to_array n l = Some v ↔ l = vec_to_list v.
Proof.
  split.
  - revert l v. induction n as [|n IH]; intros [|b l] v; simpl; try done.
    + intros [= <-]. done.
    + destruct (to_array n l) as [u|] eqn:Hu; [|done]. simpl. intros [= <-].
      simpl. by f_equal; apply IH.
  - intros ->. induction v as [|b n v IH]; simpl; [done|]. by rewrite IH.
Qed.

Lemma to_array_None n l : to_array n l = None ↔ length l ≠ n.
Proof.
  revert l. induction n as [|n IH]; intros [|b l]; simpl; try naive_solver lia.
  rewrite fmap_None, IH. lia.
Qed.

Lemma to_array_vec {n} (v : u8s n) : to_array n (vec_to_list v) = Some v.
Proof. by apply to_array_Some. Qed.

(** ** Big-endian encodings *)

(** The [n] low bytes of [z], least significant first ([to_le_bytes]). *)
Fixpoint le_bytes (n : nat) (z : Z) : u8s n :=
  match n with
  | O => [#]
  | S n => z2b z ::: le_bytes n (z / 256)
  end.

(** [to_be_bytes] of an integer of [n] bytes. *)
Definition be_bytes (n : nat) (z : Z) : bytes := reverse (vec_to_list (le_bytes n z)).

(** The integer a little-endian, resp. big-endian, byte string denotes. *)
Fixpoint le_value (bs : bytes) : Z :=
  match bs with
  | [] => 0
  | b :: bs => b2z b + 256 * le_value bs
  end.

Definition be_value (bs : bytes) : Z := le_value (reverse bs).

Lemma le_value_range bs : 0 <= le_value bs < 256 ^ Z.of_nat (length bs).
Proof.
  induction bs as [|b bs IH]; simpl le_value; [simpl; lia|].
  pose proof (b2z_range b).
  rewrite length_cons, Nat2Z.inj_succ, Z.pow_succ_r by lia. lia.
Qed.

Lemma le_value_app l1 l2 :
  le_value (l1 ++ l2) = le_value l1 + 256 ^ Z.of_nat (length l1) * le_value l2.
Proof.
  induction l1 as [|b l1 IH]; [simpl; lia|].
  simpl app. simpl le_value. rewrite IH, length_cons, Nat2Z.inj_succ, Z.pow_succ_r by lia.
  lia.
Qed.

Lemma le_value_le_bytes n z : le_value (vec_to_list (le_bytes n z)) = z mod 256 ^ Z.of_nat n.
Proof.
  revert z. induction n as [|n IH]; intros z; simpl le_bytes; simpl vec_to_list; simpl le_value.
  - by rewrite Z.mod_1_r.
  - rewrite b2z_z2b, IH, Nat2Z.inj_succ, Z.pow_succ_r by lia.
    rewrite Z.rem_mul_r by lia. lia.
Qed.

Lemma le_value_inj l1 l2 : length l1 = length l2 → le_value l1 = le_value l2 → l1 = l2.
Proof.
  revert l2. induction l1 as [|b1 l1 IH]; intros [|b2 l2]; simpl; try done.
  intros [= Hlen] Hv. pose proof (b2z_range b1). pose proof (b2z_range b2).
  f_equal; [apply (inj b2z); lia | apply IH; [done|lia]].
Qed.

Lemma length_be_bytes n z : length (be_bytes n z) = n.
Proof. unfold be_bytes. by rewrite length_reverse, length_vec_to_list. Qed.

Lemma be_value_be_bytes n z : be_value (be_bytes n z) = z mod 256 ^ Z.of_nat n.
Proof. unfold be_value, be_bytes. by rewrite reverse_involutive, le_value_le_bytes. Qed.

Lemma be_value_range bs : 0 <= be_value bs < 256 ^ Z.of_nat (length bs).
Proof. unfold be_value. rewrite <-(length_reverse bs). apply le_value_range. Qed.

Lemma be_value_app l1 l2 :
  be_value (l1 ++ l2) = be_value l1 * 256 ^ Z.of_nat (length l2) + be_value l2.
Proof. unfold be_value. rewrite reverse_app, le_value_app, length_reverse. lia. Qed.

Lemma be_value_inj l1 l2 : length l1 = length l2 → be_value l1 = be_value l2 → l1 = l2.
Proof.
  intros Hlen Hv. apply (inj reverse), le_value_inj; [by rewrite !length_reverse|done].
Qed.

Lemma be_bytes_be_value bs : be_bytes (length bs) (be_value bs) = bs.
Proof.
  apply be_value_inj; [by rewrite length_be_bytes|].
  rewrite be_value_be_bytes. apply Z.mod_small, be_value_range.
Qed.

Lemma be_bytes_inj n z1 z2 :
  0 <= z1 < 256 ^ Z.of_nat n → 0 <= z2 < 256 ^ Z.of_nat n →
  be_bytes n z1 = be_bytes n z2 → z1 = z2.
Proof.
  intros H1 H2 Heq. apply (f_equal be_value) in Heq.
  by rewrite !be_value_be_bytes, !Z.mod_small in Heq.
Qed.

(** [n.to_be_bytes()] as an array. *)
Fixpoint vec_snoc {A} {n} (v : vec A n) (x : A) : vec A (S n) :=
  match v with
  | [#] => [# x]
  | y ::: v => y ::: vec_snoc v x
  end.

Fixpoint be_array (n : nat) (z : Z) : u8s n :=
  match n with
  | O => [#]
  | S n => vec_snoc (be_array n (z / 256)) (z2b z)
  end.

Lemma vec_to_list_snoc {A n} (v : vec A n) x :
  vec_to_list (vec_snoc v x) = vec_to_list v ++ [x].
Proof. induction v as [|y n v IH]; simpl; [done|]. by rewrite IH. Qed.

Lemma vec_to_list_be_array n z : vec_to_list (be_array n z) = be_bytes n z.
Proof.
  unfold be_bytes. revert z.
  induction n as [|n IH]; intros z; simpl; [done|].
  by rewrite vec_to_list_snoc, reverse_cons, IH.
Qed.

Lemma be_array_be_value {n} (v : u8s n) : be_array n (be_value (vec_to_list v)) = v.
Proof.
  apply vec_to_list_inj2. rewrite vec_to_list_be_array.
  rewrite <-(length_vec_to_list v) at 1. apply be_bytes_be_value.
Qed.

(** Byte arrays as map keys, numbered by the integer they denote. *)
#[export] Program Instance u8s_countable n : Countable (u8s n) :=
  inj_countable' (λ v, be_value (vec_to_list v)) (be_array n) _.
Next Obligation. intros n v. apply be_array_be_value. Qed.

(** ** Unsigned integers *)

Definition U16_MAX : Z := 2 ^ 16 - 1.
Definition U32_MAX : Z := 2 ^ 32 - 1.
Definition U64_MAX : Z := 2 ^ 64 - 1.

Definition in_width (w : Z) (z : Z) : Prop := 0 <= z < 2 ^ w.

(** The value [z] is truncated to by an [as] cast to a type of [w] bits. *)
Definition as_width (w : Z) (z : Z) : Z := z mod 2 ^ w.

Lemma as_width_id w z : in_width w z → as_width w z = z.
Proof. apply Z.mod_small. Qed.

Lemma as_width_range w z : 0 <= w → in_width w (as_width w z).
Proof. intros. apply Z.mod_pos_bound. lia. Qed.

(** [a + b] on [u64]: with overflow checks an overflow panics, without it wraps. *)
Definition u64_add (overflow_checks : bool) {E} (a b : Z) : outcome E Z :=
  if decide (a + b <= U64_MAX) then Ok (a + b)
  else if overflow_checks then Panic (PayloadStr "attempt to add with overflow")
  else Ok (as_width 64 (a + b)).

Lemma u64_add_ok oc {E} a b : a + b <= U64_MAX → u64_add oc (E:=E) a b = Ok (a + b).
Proof. intros. unfold u64_add. by rewrite decide_True. Qed.

Create Rewrite HintDb bytes.
#[export] Hint Rewrite length_be_bytes be_value_be_bytes vec_to_list_be_array
  @length_vec_to_list @vec_to_list_snoc @to_array_vec : bytes.

Create HintDb widths.
#[export] Hint Resolve as_width_range b2z_range : widths.
