(* ===== verification/Panics.v ===== *)
(** Panic containment around SP1 calls: [crates/prover-executor/src/utils.rs].

    Every call into the SP1 SDK is wrapped so that a panic of the SDK becomes an
    error report instead of taking the service down.  The wrappers differ in where
    they run the call (inline, blocking pool, in place, as a future); what they
    return is the same. *)

From S2P Require Import Prelude.

Record Sp1PanicError : Type := { message : string }.

#[export] Instance Sp1PanicError_eq_dec : EqDecision Sp1PanicError.
Proof. solve_decision. Defined.

(** [impl From<Box<dyn Any + Send>> for Sp1PanicError]. *)
Definition sp1_panic_error_from (original_error : panic_payload) : Sp1PanicError :=
  {| message :=
       match original_error with
       | PayloadString message => message
       | PayloadStr message => message
       | PayloadOther => "<unknown message type>"
       end |}.

(** The [eyre::Report]s this program builds, as the terms that build them: from a
    caught panic, from another error (its text), or by adding a context message. *)
Inductive report : Type :=
  | ReportPanic (e : Sp1PanicError)
  | ReportMsg (msg : string)
  | ReportContext (ctx : string) (source : report).

#[export] Instance report_eq_dec : EqDecision report.
Proof. solve_decision. Defined.

(** [Display] of a report: the text of its outermost error. *)
Definition report_display (r : report) : string :=
  match r with
  | ReportPanic e => "Panic occurred during SP1 call: " +:+ message e
  | ReportMsg msg => msg
  | ReportContext ctx _ => ctx
  end.

(** [std::panic::catch_unwind]: the closure's own result is left untouched. *)
Definition catch_unwind {E R} (f : outcome E R) : panic_payload + (E + R) :=
  match f with
  | Ok r => inr (inr r)
  | Err e => inr (inl e)
  | Panic p => inl p
  end.

(** [sp1_fast(f)]: the closure returns [Result<R, E>]; its panics become reports.
    An infallible closure is one whose [E] is [Empty_set]. *)
Definition sp1_fast {E R} (f : outcome E R) : outcome report (E + R) :=
  match catch_unwind f with
  | inr r => Ok r
  | inl error => Err (ReportPanic (sp1_panic_error_from error))
  end.

(** [sp1_block_in_place(f)]: as [sp1_fast], with a context on the report. *)
Definition sp1_block_in_place {E R} (f : outcome E R) : outcome report (E + R) :=
  map_err (ReportContext "Failed running blocking task in place for SP1 call") (sp1_fast f).

(** The same for a closure with effects. *)
Definition io_block_in_place {W E R} (f : io W E R) : io W report (E + R) := λ w,
  let '(r, w') := f w in (sp1_block_in_place r, w').

(** [sp1_async(f)]: the future is polled to completion; its effects up to a panic
    remain. *)
Definition sp1_async {W E R} (f : io W E R) : io W report (E + R) := λ w,
  let '(r, w') := f w in (sp1_fast r, w').

(** tokio's blocking pool: runs a closure on another thread; joining it fails only
    when the runtime drops the task. *)
Class Tokio (W : Type) := {
  spawn_blocking {R : Type} : io W Empty_set R → io W string R;
}.

(** The closure given to [spawn_blocking] cannot fail or panic: [sp1_fast] has
    turned everything into a value. *)
Definition sp1_fast_closure {W E R} (f : io W E R) : io W Empty_set (report + (E + R)) :=
  λ w, let '(r, w') := f w in
       (Ok match catch_unwind r with
           | inr r => inr r
           | inl error => inl (ReportPanic (sp1_panic_error_from error))
           end, w').

(** [sp1_blocking(f)]. *)
Definition sp1_blocking {W} `{!Tokio W} {E R} (f : io W E R) : io W report (E + R) :=
  res ← io_map_err
          (λ join_error, ReportContext "Failed running blocking task for SP1 call"
                                       (ReportMsg join_error))
          (spawn_blocking (sp1_fast_closure f));
  match res with
  | inl error => throw error
  | inr r => mret r
  end.

(** The value of an infallible closure. *)
Definition infallible {R} (r : Empty_set + R) : R :=
  match r with
  | inl e => match e with end
  | inr r => r
  end.

(** [res?.map_err(g)?] on the nested result of a wrapped fallible closure, the outer
    report going through [f]. *)
Definition flatten {E E' R} (f : report → E') (g : E → E')
    (res : outcome report (E + R)) : outcome E' R :=
  match map_err f res with
  | Ok (inr r) => Ok r
  | Ok (inl e) => Err (g e)
  | Err e => Err e
  | Panic p => Panic p
  end.

Definition io_flatten {W E E' R} (f : report → E') (g : E → E')
    (m : io W report (E + R)) : io W E' R :=
  λ w, let '(r, w') := m w in (flatten f g r, w').

(** ** Containment *)

Section containment.
Context {W E R : Type}.

Lemma sp1_fast_spec (f : outcome E R) :
  sp1_fast f = match f with
               | Ok r => Ok (inr r)
               | Err e => Ok (inl e)
               | Panic p => Err (ReportPanic (sp1_panic_error_from p))
               end.
Proof. by destruct f. Qed.

Lemma flatten_sp1_fast_ok {E'} f g (m : outcome E R) r :
  flatten (E':=E') f g (sp1_fast m) = Ok r ↔ m = Ok r.
Proof. destruct m; cbn; split; congruence. Qed.

Lemma flatten_sp1_fast_no_panic {E'} f g (m : outcome E R) p :
  flatten (E':=E') f g (sp1_fast m) ≠ Panic p.
Proof. by destruct m. Qed.

Lemma io_flatten_sp1_async_ok {E'} f g (m : io W E R) w r w' :
  io_flatten (E':=E') f g (sp1_async m) w = (Ok r, w') ↔ m w = (Ok r, w').
Proof.
  unfold io_flatten, sp1_async. destruct (m w) as [[?|?|?] ?]; cbn; split; congruence.
Qed.

Lemma io_flatten_sp1_async_no_panic {E'} f g (m : io W E R) w :
  is_panic (io_flatten (E':=E') f g (sp1_async m) w).1 = false.
Proof. unfold io_flatten, sp1_async. by destruct (m w) as [[?|?|?] ?]. Qed.
End containment.

(** On a runtime that runs the closure and joins it, [sp1_blocking] is [sp1_async]. *)
Definition tokio_direct {W} : Tokio W :=
  {| spawn_blocking R f := λ w,
       match f w with
       | (Ok r, w') => (Ok r, w')
       | (Err e, _) => match e with end
       | (Panic p, w') => (Panic p, w')
       end |}.

Lemma sp1_blocking_direct {W E R} (f : io W E R) w :
  sp1_blocking (Tokio0:=tokio_direct) f w = sp1_async f w.
Proof.
  unfold sp1_blocking, sp1_async, sp1_fast_closure, mbind, io_bind, io_map_err. simpl.
  by destruct (f w) as [[?|?|?] ?].
Qed.
