(* ===== verification/Interop.v ===== *)
(** The third-party code the provers rely on, as interfaces.

    Nothing here is defined by the repository: hashes and signatures
    ([agglayer_primitives], [sha2], [alloy_primitives]), the Merkle and commitment
    code of [unified_bridge], the contract-call executor [sp1_cc_client_executor].
    Each is a class whose fields are the functions the code calls; a fallible or
    panicking library function is an [outcome].  The records are the library
    structs whose fields the repository reads or writes. *)

From S2P Require Import Prelude Bytes Panics.

(** ** Data of the interop crates *)

Abbreviation Digest := (u8s 32).
Abbreviation Address := (u8s 20).
(** [U256], as its value. *)
Abbreviation U256 := Z.

(** [unified_bridge::L1InfoTreeLeafInner] and [L1InfoTreeLeaf]. *)
Record L1InfoTreeLeafInner : Type := {
  global_exit_root : Digest;
  block_hash : Digest;
  timestamp : Z;
}.

Record L1InfoTreeLeaf : Type := {
  l1_info_tree_index : Z;
  rer : Digest;
  mer : Digest;
  inner : L1InfoTreeLeafInner;
}.

(** [unified_bridge::GlobalIndexWithLeafHash]. *)
Record GlobalIndexWithLeafHash : Type := {
  global_index : U256;
  bridge_exit_hash : Digest;
}.

(** [unified_bridge::ImportedBridgeExitCommitmentVersion]. *)
Inductive ImportedBridgeExitCommitmentVersion : Type := V2 | V3.

(** [unified_bridge::AggchainProofPublicValues]. *)
Record AggchainProofPublicValues : Type := {
  apv_prev_local_exit_root : Digest;
  apv_new_local_exit_root : Digest;
  apv_l1_info_root : Digest;
  apv_origin_network : Z;
  apv_commit_imported_bridge_exits : Digest;
  apv_aggchain_params : Digest;
}.

#[export] Instance L1InfoTreeLeafInner_eq_dec : EqDecision L1InfoTreeLeafInner.
Proof. solve_decision. Defined.
#[export] Instance L1InfoTreeLeaf_eq_dec : EqDecision L1InfoTreeLeaf.
Proof. solve_decision. Defined.
#[export] Instance GlobalIndexWithLeafHash_eq_dec : EqDecision GlobalIndexWithLeafHash.
Proof. solve_decision. Defined.
#[export] Instance AggchainProofPublicValues_eq_dec : EqDecision AggchainProofPublicValues.
Proof. solve_decision. Defined.

(** ** Hashes and signatures *)

Class Hashing := {
  (** [agglayer_primitives::keccak]. *)
  keccak256 : bytes → Digest;
  keccak256_combine : list (u8s 32) → Digest;
  (** [sha2::Sha256::digest]. *)
  sha256_digest : bytes → u8s 32;
}.

Class Ecdsa := {
  Signature : Type;
  SignatureError : Type;
  (** [Signature::recover_address_from_prehash]. *)
  recover_address_from_prehash : Signature → u8s 32 → outcome SignatureError Address;
}.

(** ** [unified_bridge] *)

Class UnifiedBridge := {
  MerkleProof : Type;
  (** The field [root] and the method [verify(leaf, index)]. *)
  mp_root : MerkleProof → Digest;
  mp_verify : MerkleProof → Digest → Z → bool;
  (** [L1InfoTreeLeaf::hash] and [L1InfoTreeLeaf::ger]. *)
  leaf_hash : L1InfoTreeLeaf → Digest;
  leaf_ger : L1InfoTreeLeaf → Digest;
  (** [GlobalIndexWithLeafHash::commitment]. *)
  claim_commitment : GlobalIndexWithLeafHash → Digest;
  (** [ImportedBridgeExitCommitmentValues { claims }.commitment(version)]. *)
  imported_bridge_exits_commitment :
    list GlobalIndexWithLeafHash → ImportedBridgeExitCommitmentVersion → Digest;
}.

(** ** Concrete instances

    Small computable instances, for evaluating the models on concrete inputs.  They
    are not meant to be secure. *)

Module Toy.
Definition mix (bs : bytes) : Digest := be_array 32 (be_value bs * 31 + Z.of_nat (length bs)).

#[export] Instance hashing : Hashing := {|
  keccak256 := mix;
  keccak256_combine l := mix (concat (vec_to_list <$> l));
  sha256_digest := mix;
|}.

(** A signature is the address it recovers to; [None] is a malformed one. *)
#[export] Instance ecdsa : Ecdsa := {|
  Signature := option Address;
  SignatureError := unit;
  recover_address_from_prehash s _ := ok_or tt s;
|}.

(** A Merkle proof is a root and the leaf it proves, at any index. *)
#[export] Instance bridge : UnifiedBridge := {|
  MerkleProof := Digest * Digest;
  mp_root := fst;
  mp_verify p leaf _ := bool_decide (p.2 = leaf);
  leaf_hash l := mix (vec_to_list (global_exit_root (inner l)) ++
                      vec_to_list (block_hash (inner l)) ++
                      be_bytes 8 (timestamp (inner l)));
  leaf_ger l := global_exit_root (inner l);
  claim_commitment c := mix (be_bytes 32 (global_index c) ++ vec_to_list (bridge_exit_hash c));
  imported_bridge_exits_commitment l _ :=
    mix (concat ((λ c, be_bytes 32 (global_index c)) <$> l));
|}.
End Toy.
