(* ===== verification/StaticCall.v ===== *)
(** Static calls to L2 contracts against a state sketch:
    [crates/aggchain-proof-core/src/bridge/static_call.rs], and the errors of
    [crates/aggchain-proof-core/src/bridge/mod.rs]. *)

From S2P Require Import Prelude Bytes Panics Interop.

(** ** Stages and calls *)

Inductive HashChainType : Type :=
  | InsertedGER
  | ClaimedGlobalIndex
  | RemovedGER
  | UnsetGlobalIndex.

Inductive StaticCallStage : Type :=
  | PrevHashChain (t : HashChainType)
  | NewHashChain (t : HashChainType)
  | BridgeAddress
  | NewLer.

#[export] Instance HashChainType_eq_dec : EqDecision HashChainType.
Proof. solve_decision. Defined.
#[export] Instance StaticCallStage_eq_dec : EqDecision StaticCallStage.
Proof. solve_decision. Defined.

(** The functions of the [sol!] interfaces [GlobalExitRootManagerL2SovereignChain]
    and [BridgeL2SovereignChain]; none takes an argument. *)
Inductive SolCall : Type :=
  | insertedGERHashChainCall
  | removedGERHashChainCall
  | bridgeAddressCall
  | getRootCall
  | claimedGlobalIndexHashChainCall
  | unsetGlobalIndexHashChainCall.

#[export] Instance SolCall_eq_dec : EqDecision SolCall.
Proof. solve_decision. Defined.

(** [C::Return]: what each function returns. *)
Definition Return (c : SolCall) : Type :=
  match c with
  | bridgeAddressCall => Address
  | _ => Digest
  end.

(** [sp1_cc_client_executor::ContractInput::new_call] and the public values its
    execution returns. *)
Record ContractInput : Type := new_call {
  contract_address : Address;
  caller : Address;
  calldata : SolCall;
}.

#[export] Instance ContractInput_eq_dec : EqDecision ContractInput.
Proof. solve_decision. Defined.

Record ContractPublicValues : Type := {
  contractOutput : bytes;
  anchorHash : Digest;
}.

(** The client executor and the ABI decoder. *)
Class EvmClient := {
  EvmSketchInput : Type;
  ClientError : Type;
  SolError : Type;
  ClientExecutor : Type;
  (** [ClientExecutor::eth(state_sketch)]. *)
  ClientExecutor_eth : EvmSketchInput → outcome ClientError ClientExecutor;
  (** [ClientExecutor::execute(call)]. *)
  ClientExecutor_execute : ClientExecutor → ContractInput → outcome report ContractPublicValues;
  (** [C::abi_decode_returns_validate(output)]. *)
  abi_decode_returns_validate (c : SolCall) : bytes → outcome SolError (Return c);
}.

(** ** Errors *)

Section errors.
Context `{!EvmClient}.

Inductive StaticCallError : Type :=
  | ClientInitialization (e : ClientError)
  | ClientExecution (e : report)
  | DecodeContractOutput (e : SolError).

Inductive BridgeConstraintsError : Type :=
  | InvalidMerklePathGERToL1Root
      (inserted_ger : Digest) (l1_info_leaf_index : Z) (l1_info_root : Digest)
  | MismatchBlockHash (retrieved input : Digest) (stage : StaticCallStage)
  | MismatchHashChain
      (prev_hash_chain computed input : Digest) (hash_chain_type : HashChainType)
  | MismatchNewLocalExitRoot (retrieved input : Digest)
  | MismatchConstrainedBridgeExits (computed input : Digest)
  | MismatchConstrainedInsertedGers (computed input : list Digest)
  | StaticCallErrorAt (stage : StaticCallStage) (source : StaticCallError)
  | HashChainOverflow.

(** [BridgeConstraintsError::static_call_error]. *)
Definition static_call_error (source : StaticCallError) (stage : StaticCallStage)
    : BridgeConstraintsError :=
  StaticCallErrorAt stage source.
End errors.

(** ** The call *)

Record StaticCallWithContext : Type := {
  sc_address : Address;
  sc_stage : StaticCallStage;
  sc_block_hash : Digest;
}.

Section static_call.
Context `{!EvmClient}.

Definition execute_helper (self : StaticCallWithContext) (state_sketch : EvmSketchInput)
    (calldata : SolCall) (caller_address : Address)
    : outcome StaticCallError (Return calldata * Digest) :=
  executor ← map_err ClientInitialization (ClientExecutor_eth state_sketch);
  cc_public_values ← map_err ClientExecution
    (ClientExecutor_execute executor (new_call (sc_address self) caller_address calldata));
  decoded_contract_output ← map_err DecodeContractOutput
    (abi_decode_returns_validate calldata (contractOutput cc_public_values));
  Ok (decoded_contract_output, anchorHash cc_public_values).

Definition execute (self : StaticCallWithContext) (caller_address : Address)
    (state_sketch : EvmSketchInput) (calldata : SolCall)
    : outcome BridgeConstraintsError (Return calldata) :=
  '(decoded_return, retrieved_block_hash) ←
    map_err (λ e, static_call_error e (sc_stage self))
      (execute_helper self state_sketch calldata caller_address);
  if decide (retrieved_block_hash ≠ sc_block_hash self) then
    Err (MismatchBlockHash retrieved_block_hash (sc_block_hash self) (sc_stage self))
  else Ok decoded_return.

(** *** Specification

    [evm_returns sketch caller addr call v h]: the state of block [h], as described
    by the sketch, answers [v] to the call. *)
Definition evm_returns (state_sketch : EvmSketchInput) (caller addr : Address)
    (call : SolCall) (v : Return call) (h : Digest) : Prop :=
  ∃ executor out,
    ClientExecutor_eth state_sketch = Ok executor ∧
    ClientExecutor_execute executor (new_call addr caller call) = Ok out ∧
    abi_decode_returns_validate call (contractOutput out) = Ok v ∧
    anchorHash out = h.

Lemma execute_helper_ok self sketch call caller v h :
  execute_helper self sketch call caller = Ok (v, h) ↔
  evm_returns sketch caller (sc_address self) call v h.
Proof.
  unfold execute_helper, evm_returns. split.
  - intros Hok. outcome_inv. eauto 10.
  - intros (ex & out & -> & Hout & Hdec & <-). simpl. rewrite Hout. simpl.
    by rewrite Hdec.
Qed.

(** The stage of a call only labels its errors. *)
Lemma execute_ok self caller sketch call v :
  execute self caller sketch call = Ok v ↔
  evm_returns sketch caller (sc_address self) call v (sc_block_hash self).
Proof.
  rewrite <-execute_helper_ok. unfold execute. split.
  - intros ([v' h] & Hh & Hif)%outcome_bind_ok. apply map_err_ok in Hh.
    case_decide; by simplify_eq.
  - intros ->. simpl. case_decide; [done|done].
Qed.

Lemma execute_returns {addr stage h caller sketch call v} :
  evm_returns sketch caller addr call v h →
  execute {| sc_address := addr; sc_stage := stage; sc_block_hash := h |}
    caller sketch call = Ok v.
Proof. intros. by apply execute_ok. Qed.

Lemma evm_returns_det sketch caller addr call v1 v2 h1 h2 :
  evm_returns sketch caller addr call v1 h1 → evm_returns sketch caller addr call v2 h2 →
  v1 = v2 ∧ h1 = h2.
Proof.
  intros (ex1 & out1 & E1 & X1 & D1 & A1) (ex2 & out2 & E2 & X2 & D2 & A2).
  rewrite E1 in E2; injection E2 as <-. rewrite X1 in X2; injection X2 as <-.
  rewrite D1 in D2; injection D2 as <-. by subst.
Qed.

(** The ways a call fails on a sketch: there is no executor for the sketch, the executor
    cannot execute the call, or the output does not decode. *)
Inductive call_fails (state_sketch : EvmSketchInput) (caller addr : Address) (call : SolCall)
    : StaticCallError → Prop :=
  | FailsInitialization e :
      ClientExecutor_eth state_sketch = Err e →
      call_fails state_sketch caller addr call (ClientInitialization e)
  | FailsExecution executor e :
      ClientExecutor_eth state_sketch = Ok executor →
      ClientExecutor_execute executor (new_call addr caller call) = Err e →
      call_fails state_sketch caller addr call (ClientExecution e)
  | FailsDecoding executor out e :
      ClientExecutor_eth state_sketch = Ok executor →
      ClientExecutor_execute executor (new_call addr caller call) = Ok out →
      abi_decode_returns_validate call (contractOutput out) = Err e →
      call_fails state_sketch caller addr call (DecodeContractOutput e).

Lemma execute_helper_err self sketch call caller src :
  execute_helper self sketch call caller = Err src ↔
  call_fails sketch caller (sc_address self) call src.
Proof.
  unfold execute_helper. split.
  - intros [He|(ex & Hex%map_err_ok & Hx)]%outcome_bind_err.
    { apply map_err_err in He as (e & He & ->). by constructor. }
    apply outcome_bind_err in Hx as [Hx|(out & Hout%map_err_ok & Hd)].
    { apply map_err_err in Hx as (e & Hx & ->). by econstructor. }
    apply outcome_bind_err in Hd as [Hd|(v & _ & [=])].
    apply map_err_err in Hd as (e & Hd & ->). by econstructor.
  - intros [e He|ex e Hex He|ex out e Hex Hout He]; [by rewrite He| |].
    + rewrite Hex. simpl. by rewrite He.
    + rewrite Hex. simpl. rewrite Hout. simpl. by rewrite He.
Qed.

(** A failed call reports its own stage and how it failed; a block hash mismatch is that of
    a block that answers the call, and that is not the expected one. *)
Lemma execute_err self caller sketch call e :
  execute self caller sketch call = Err e →
  (∃ src, e = StaticCallErrorAt (sc_stage self) src ∧
          call_fails sketch caller (sc_address self) call src) ∨
  (∃ v retrieved, e = MismatchBlockHash retrieved (sc_block_hash self) (sc_stage self) ∧
                  evm_returns sketch caller (sc_address self) call v retrieved ∧
                  retrieved ≠ sc_block_hash self).
Proof.
  unfold execute. intros [Hh | ([v h] & Hh & Hif)]%outcome_bind_err.
  - apply map_err_err in Hh as (src & Hsrc%execute_helper_err & ->). left. by eexists.
  - apply map_err_ok, execute_helper_ok in Hh. case_decide; simplify_eq. right. by eexists _, _.
Qed.
End static_call.

(** ** A concrete client

    A sketch is a block hash and the storage answers it was built with; a call that
    was not recorded fails.  Words are decoded by their length. *)
Module ToyEvm.
Definition decode_word (c : SolCall) : bytes → option (Return c) :=
  match c with
  | bridgeAddressCall => to_array 20
  | _ => to_array 32
  end.

#[export] Instance evm : EvmClient := {|
  EvmSketchInput := Digest * list (Address * SolCall * bytes);
  ClientError := Empty_set;
  SolError := unit;
  ClientExecutor := Digest * list (Address * SolCall * bytes);
  ClientExecutor_eth sketch := Ok sketch;
  ClientExecutor_execute sketch input :=
    match List.find (λ '(addr, c, _), bool_decide (addr = contract_address input ∧
                                                   c = calldata input)) sketch.2 with
    | Some (_, _, out) => Ok {| contractOutput := out; anchorHash := sketch.1 |}
    | None => Err (ReportMsg "missing state")
    end;
  abi_decode_returns_validate c out := ok_or tt (decode_word c out);
|}.
End ToyEvm.
