(* ===== verification/FilterValues.v ===== *)
(** Multiset difference of a hash chain's elements and its removals:
    [filter_values] of [crates/aggchain-proof-core/src/bridge/mod.rs].

    The code counts the removals in a [HashMap<K, usize>] and then walks the values,
    skipping a value as long as its key still has a removal to consume.  The
    specification removes, for each removed key in turn, the first value left that
    has this key. *)

From S2P Require Import Prelude Bytes Panics Interop StaticCall.

Section filter_values.
Context `{!EvmClient}.
Context `{Countable K} {V : Type}.
(** [usize::MAX]: 2^32 - 1 in the zkVM, 2^64 - 1 on the host. *)
Variable usize_max : Z.
Variable key_fn : V → K.

Implicit Types (m : gmap K Z) (k : K) (removed : list K) (values : list V).

(** One iteration of the counting loop:
    [*entry(value).or_insert(0) = count.checked_add(1)?]. *)
Definition count_removal (m : gmap K Z) (value : K)
    : outcome BridgeConstraintsError (gmap K Z) :=
  let count := default 0 (m !! value) in
  if decide (count + 1 <= usize_max) then Ok (<[value := count + 1]> m)
  else Err HashChainOverflow.

Fixpoint count_removals (removal_map : gmap K Z) (removed : list K)
    : outcome BridgeConstraintsError (gmap K Z) :=
  match removed with
  | [] => Ok removal_map
  | value :: removed =>
      removal_map ← count_removal removal_map value;
      count_removals removal_map removed
  end.

(** The [filter] pass, threading the map the closure mutates. *)
Fixpoint skip_removed (removal_map : gmap K Z) (values : list V) : list V :=
  match values with
  | [] => []
  | value :: values =>
      match removal_map !! key_fn value with
      | Some count =>
          if decide (count > 0) then
            skip_removed (<[key_fn value := count - 1]> removal_map) values
          else value :: skip_removed removal_map values
      | None => value :: skip_removed removal_map values
      end
  end.

Definition filter_values (removed : list K) (values : list V)
    : outcome BridgeConstraintsError (list V) :=
  removal_map ← count_removals ∅ removed;
  Ok (skip_removed removal_map values).

(** *** Specification *)

Fixpoint remove_first (k : K) (values : list V) : list V :=
  match values with
  | [] => []
  | value :: values =>
      if decide (key_fn value = k) then values else value :: remove_first k values
  end.

Definition remove_each (removed : list K) (values : list V) : list V :=
  foldl (λ vs k, remove_first k vs) values removed.

(** How often a key occurs. *)
Definition occurrences (k : K) (ks : list K) : nat := length (filter (λ x, x = k) ks).

Lemma occurrences_cons k k' ks :
  occurrences k (k' :: ks) = ((if decide (k' = k) then 1 else 0) + occurrences k ks)%nat.
Proof. unfold occurrences. rewrite filter_cons. by case_decide. Qed.

Lemma occurrences_not_elem k ks : k ∉ ks → occurrences k ks = 0%nat.
Proof.
  induction ks as [|k' ks IH]; intros Hk; [done|].
  rewrite occurrences_cons, decide_False by set_solver. apply IH. set_solver.
Qed.

(** *** Maps with the same pending removals

    The code never distinguishes an absent key from a zero count, so the right
    equality on removal maps is pointwise equality of counts. *)
Definition count_of (m : gmap K Z) (k : K) : Z := default 0 (m !! k).

Definition same_counts : relation (gmap K Z) := λ m1 m2, ∀ k, count_of m1 k = count_of m2 k.

#[local] Instance same_counts_equivalence : Equivalence same_counts.
Proof.
  split; [by intros ??|by intros ????|]. intros m1 m2 m3 H1 H2 k. by rewrite H1.
Qed.

Definition set_count (k : K) (c : Z) (m : gmap K Z) : gmap K Z := <[k := c]> m.

Lemma count_of_set_count m k k' c :
  count_of (set_count k c m) k' = if decide (k' = k) then c else count_of m k'.
Proof.
  unfold count_of, set_count. case_decide; subst; [by rewrite lookup_insert_eq|].
  by rewrite lookup_insert_ne.
Qed.

#[local] Instance set_count_proper k c : Proper (same_counts ==> same_counts) (set_count k c).
Proof. intros m1 m2 Hm k'. rewrite !count_of_set_count. by case_decide. Qed.

(** The filter pass in terms of counts. *)
Lemma skip_removed_cons m value values :
  skip_removed m (value :: values) =
    if decide (count_of m (key_fn value) > 0) then
      skip_removed (set_count (key_fn value) (count_of m (key_fn value) - 1) m) values
    else value :: skip_removed m values.
Proof.
  simpl. unfold count_of, set_count. by destruct (m !! key_fn value) as [c|] eqn:Hc.
Qed.

Lemma skip_removed_same m1 m2 values :
  same_counts m1 m2 → skip_removed m1 values = skip_removed m2 values.
Proof.
  revert m1 m2. induction values as [|v values IH]; intros m1 m2 Hm; [done|].
  rewrite !skip_removed_cons, (Hm (key_fn v)). case_decide.
  - apply IH. by rewrite Hm.
  - f_equal. by apply IH.
Qed.

#[local] Instance skip_removed_proper : Proper (same_counts ==> eq ==> eq) skip_removed.
Proof. intros m1 m2 Hm values ? <-. by apply skip_removed_same. Qed.

Lemma skip_removed_nothing m values :
  (∀ k, count_of m k <= 0) → skip_removed m values = values.
Proof.
  intros Hm. induction values as [|v values IH]; [done|].
  rewrite skip_removed_cons, decide_False by (pose proof (Hm (key_fn v)); lia).
  by rewrite IH.
Qed.

(** One more pending removal of [k] removes the first remaining [k]. *)
Lemma skip_removed_incr m k values :
  (∀ k', 0 <= count_of m k') →
  skip_removed (set_count k (count_of m k + 1) m) values =
    remove_first k (skip_removed m values).
Proof.
  revert m. induction values as [|v values IH]; intros m Hm; [done|].
  rewrite !skip_removed_cons. rewrite !count_of_set_count.
  destruct (decide (key_fn v = k)) as [<-|Hne].
  - rewrite (decide_True (P:=count_of m (key_fn v) + 1 > 0)) by (specialize (Hm (key_fn v)); lia).
    case_decide as Hc.
    + rewrite <-IH.
      * apply skip_removed_same. intros k'. rewrite !count_of_set_count.
        repeat case_decide; subst; try done; lia.
      * intros k'. rewrite count_of_set_count. specialize (Hm k').
        case_decide; lia.
    + simpl. rewrite decide_True by done.
      apply skip_removed_same. intros k'. rewrite !count_of_set_count.
      specialize (Hm (key_fn v)). repeat case_decide; subst; lia.
  - case_decide as Hc.
    + rewrite <-IH.
      * apply skip_removed_same. intros k'. rewrite !count_of_set_count.
        repeat case_decide; subst; done.
      * intros k'. rewrite count_of_set_count. specialize (Hm k').
        case_decide; lia.
    + simpl. rewrite decide_False by done. f_equal. by apply IH.
Qed.

(** *** Counting *)

Lemma count_of_empty k : count_of ∅ k = 0.
Proof. done. Qed.

Lemma set_count_nonneg m k :
  (∀ k', 0 <= count_of m k') → ∀ k', 0 <= count_of (set_count k (count_of m k + 1) m) k'.
Proof.
  intros Hm k'. rewrite count_of_set_count. pose proof (Hm k).
  case_decide; [lia|done].
Qed.

Lemma count_removal_ok m k m' :
  count_removal m k = Ok m' ↔ count_of m k + 1 <= usize_max ∧ m' = set_count k (count_of m k + 1) m.
Proof. unfold count_removal, count_of, set_count. case_decide; naive_solver. Qed.

Lemma count_removals_filter m removed m' values :
  (∀ k, 0 <= count_of m k) →
  count_removals m removed = Ok m' →
  skip_removed m' values = remove_each removed (skip_removed m values).
Proof.
  revert m. induction removed as [|k removed IH]; intros m Hm; simpl; [by intros [= ->]|].
  intros (m1 & Hm1 & Hrem)%outcome_bind_ok. apply count_removal_ok in Hm1 as [_ ->].
  rewrite (IH _ (set_count_nonneg _ _ Hm) Hrem).
  unfold remove_each. simpl. by rewrite skip_removed_incr.
Qed.

Lemma count_removals_bounded m removed :
  (∀ k, count_of m k + Z.of_nat (length removed) <= usize_max) →
  ∃ m', count_removals m removed = Ok m'.
Proof.
  revert m. induction removed as [|k removed IH]; intros m Hm; simpl; [by eexists|].
  assert (count_removal m k = Ok (set_count k (count_of m k + 1) m)) as ->.
  { apply count_removal_ok. split; [|done]. specialize (Hm k). simpl in Hm. lia. }
  simpl. apply IH. intros k'. rewrite count_of_set_count.
  pose proof (Hm k). specialize (Hm k'). simpl in *. case_decide; subst; lia.
Qed.

Lemma count_of_set_count_occurrences m k k' removed :
  count_of (set_count k (count_of m k + 1) m) k' + Z.of_nat (occurrences k' removed) =
    count_of m k' + Z.of_nat (occurrences k' (k :: removed)).
Proof. rewrite count_of_set_count, occurrences_cons. repeat case_decide; subst; try done; lia. Qed.

(** Counting fails exactly when some key has more removals than a [usize] holds. *)
Lemma count_removals_ok_iff m removed :
  (∀ k, count_of m k <= usize_max) →
  is_ok (count_removals m removed) = true ↔
  (∀ k, count_of m k + Z.of_nat (occurrences k removed) <= usize_max).
Proof.
  revert m. induction removed as [|k removed IH]; intros m Hm; simpl.
  - split; [intros _ k; specialize (Hm k); unfold occurrences; simpl; lia|done].
  - destruct (count_removal m k) as [m1|e|p] eqn:Hc; simpl.
    + apply count_removal_ok in Hc as [Hle ->]. rewrite IH.
      * by setoid_rewrite count_of_set_count_occurrences.
      * intros k'. rewrite count_of_set_count. case_decide; [lia|apply Hm].
    + split; [done|]. intros Hall. specialize (Hall k).
      rewrite occurrences_cons, decide_True in Hall by done.
      unfold count_removal in Hc. fold (count_of m k) in Hc. case_decide; [done|lia].
    + unfold count_removal in Hc. by case_decide.
Qed.

Lemma count_removals_errs m removed : errs (count_removals m removed) (λ e, e = HashChainOverflow).
Proof.
  revert m. induction removed as [|k removed IH]; intros m; simpl; repeat errs_step; [|by apply IH].
  unfold count_removal. by repeat errs_step.
Qed.

Lemma filter_values_errs removed values :
  errs (filter_values removed values) (λ e, e = HashChainOverflow).
Proof. unfold filter_values. repeat errs_step. apply count_removals_errs. Qed.

Lemma count_removals_no_panic m removed p : count_removals m removed ≠ Panic p.
Proof.
  revert m. induction removed as [|k removed IH]; intros m; simpl; [done|].
  unfold count_removal. case_decide; simpl; [apply IH|done].
Qed.

Lemma filter_values_overflow removed values :
  0 <= usize_max →
  filter_values removed values = Err HashChainOverflow ↔
  ∃ k, usize_max < Z.of_nat (occurrences k removed).
Proof.
  intros Hmax. pose proof (count_removals_ok_iff ∅ removed (λ k, Hmax)) as Hiff.
  assert (filter_values removed values = Err HashChainOverflow ↔
          is_ok (count_removals ∅ removed) = false) as ->.
  { unfold filter_values. pose proof (count_removals_errs ∅ removed) as Herr.
    destruct (count_removals ∅ removed) as [m|e|p] eqn:Hc; simpl; [done| |].
    - by rewrite (Herr e eq_refl).
    - by apply count_removals_no_panic in Hc. }
  rewrite <-not_true_iff_false, Hiff. split.
  - intros Hno.
    destruct (decide (Exists (λ k, usize_max < Z.of_nat (occurrences k removed)) removed))
      as [(k & _ & Hk)%Exists_exists|Hall]; [by exists k|].
    exfalso. apply Hno. intros k. rewrite count_of_empty.
    destruct (decide (k ∈ removed)) as [Hin|Hin]; [|rewrite occurrences_not_elem by done; lia].
    destruct (decide (usize_max < Z.of_nat (occurrences k removed))); [|lia].
    exfalso. apply Hall, Exists_exists. exists k. by rewrite <-list_elem_of_In.
  - intros [k Hk] Hall. specialize (Hall k). rewrite count_of_empty in Hall. lia.
Qed.

Lemma filter_values_ok removed values vs :
  filter_values removed values = Ok vs → vs = remove_each removed values.
Proof.
  unfold filter_values. intros (m & Hm & [= <-])%outcome_bind_ok.
  rewrite (count_removals_filter ∅ removed m) by done.
  by rewrite skip_removed_nothing.
Qed.

Lemma filter_values_bounded removed values :
  Z.of_nat (length removed) <= usize_max →
  filter_values removed values = Ok (remove_each removed values).
Proof.
  intros Hlen. destruct (count_removals_bounded ∅ removed) as [m Hm].
  { intros k. by rewrite count_of_empty. }
  assert (filter_values removed values = Ok (skip_removed m values)) as Heq.
  { unfold filter_values. by rewrite Hm. }
  rewrite Heq. f_equal. by apply filter_values_ok.
Qed.

(** *** Properties of the specification *)

Lemma remove_first_sublist k values : remove_first k values `sublist_of` values.
Proof.
  induction values as [|v values IH]; simpl; [done|].
  case_decide; by constructor.
Qed.

Lemma remove_each_sublist removed values : remove_each removed values `sublist_of` values.
Proof.
  unfold remove_each. revert values. induction removed as [|k removed IH]; intros values; [done|].
  simpl. etrans; [apply IH|apply remove_first_sublist].
Qed.

Lemma occurrences_remove_first k k' values :
  occurrences k' (key_fn <$> remove_first k values) =
    (occurrences k' (key_fn <$> values) - if decide (k = k') then 1 else 0)%nat.
Proof.
  induction values as [|v values IH]; [done|]. csimpl.
  destruct (decide (key_fn v = k)); csimpl; rewrite !occurrences_cons, ?IH;
    repeat case_decide; subst; try done; lia.
Qed.

Lemma occurrences_remove_each k removed values :
  occurrences k (key_fn <$> remove_each removed values) =
    (occurrences k (key_fn <$> values) - occurrences k removed)%nat.
Proof.
  unfold remove_each. revert values. induction removed as [|k' removed IH]; intros values; simpl.
  - symmetry. apply Nat.sub_0_r.
  - rewrite IH, occurrences_remove_first, occurrences_cons. lia.
Qed.

Lemma remove_first_comm k k' values :
  remove_first k (remove_first k' values) = remove_first k' (remove_first k values).
Proof.
  induction values as [|v values IH]; simpl; [done|].
  repeat (case_decide; simpl); subst; try done.
  f_equal. apply IH.
Qed.

(** Only the multiset of removals matters. *)
Lemma remove_each_Permutation removed removed' values :
  removed ≡ₚ removed' → remove_each removed values = remove_each removed' values.
Proof.
  intros Hp. revert values. unfold remove_each. induction Hp; intros values; simpl; try done.
  - by rewrite remove_first_comm.
  - by rewrite IHHp1.
Qed.
End filter_values.
