(* ===== verification/Bridge.v ===== *)
(** The bridge constraints of the aggchain proof program:
    [crates/aggchain-proof-core/src/bridge/mod.rs] and
    [crates/aggchain-proof-core/src/bridge/inserted_ger.rs].

    The program reads hash chains out of two L2 state sketches with static calls,
    rebuilds the chains from the witness, and checks that what the witness claims to
    have imported is what the chains commit to. *)

From S2P Require Import Prelude Bytes Panics Interop StaticCall FilterValues.

(** Address of the GlobalExitRootManagerL2SovereignChain contract. *)
Definition L2_GER_ADDR : Address := be_array 20 0xa40d5f56745a118d0906a34e69aec8c0db1cb8fa.

(** Version of the commitment on the imported bridge exits ([proof.rs]). *)
Definition IMPORTED_BRIDGE_EXIT_COMMITMENT_VERSION : ImportedBridgeExitCommitmentVersion := V3.

(** ** Inserted GERs *)

Record InsertedGER `{!UnifiedBridge} : Type := {
  ig_proof : MerkleProof;
  ig_l1_info_tree_leaf : L1InfoTreeLeaf;
  ig_block_number : Z;
  ig_block_index : Z;
}.

Section inserted_ger.
Context `{!UnifiedBridge}.

(** [InsertedGER::verify]. *)
Definition verify_inserted_ger (self : InsertedGER) (l1_info_root : Digest) : bool :=
  if decide (l1_info_root ≠ mp_root (ig_proof self)) then false
  else mp_verify (ig_proof self) (leaf_hash (ig_l1_info_tree_leaf self))
         (l1_info_tree_index (ig_l1_info_tree_leaf self)).

(** [InsertedGER::ger]. *)
Definition ger (self : InsertedGER) : Digest := leaf_ger (ig_l1_info_tree_leaf self).

(** The inclusion proof of [self] leads to the given root. *)
Definition included (root : Digest) (self : InsertedGER) : Prop :=
  mp_root (ig_proof self) = root ∧
  mp_verify (ig_proof self) (leaf_hash (ig_l1_info_tree_leaf self))
    (l1_info_tree_index (ig_l1_info_tree_leaf self)) = true.

Lemma verify_inserted_ger_true self root :
  verify_inserted_ger self root = true ↔ included root self.
Proof. unfold verify_inserted_ger, included. case_decide; naive_solver. Qed.
End inserted_ger.

(** ** Hash chains *)

Section hash_chain.
Context `{!Hashing}.

(** The fold of [validate_hash_chain]. *)
Definition rebuild_hash_chain (prev_hash_chain : Digest) (hashes : list Digest) : Digest :=
  foldl (λ acc hash, keccak256_combine [acc; hash]) prev_hash_chain hashes.

(** At some position the two chains hash different pairs to the same value. *)
Definition chains_collide (prev1 prev2 : Digest) (l1 l2 : list Digest) : Prop :=
  ∃ i h1 h2,
    let acc1 := rebuild_hash_chain prev1 (take i l1) in
    let acc2 := rebuild_hash_chain prev2 (take i l2) in
    l1 !! i = Some h1 ∧ l2 !! i = Some h2 ∧ (acc1, h1) ≠ (acc2, h2) ∧
    keccak256_combine [acc1; h1] = keccak256_combine [acc2; h2].

Lemma rebuild_hash_chain_snoc prev hashes h :
  rebuild_hash_chain prev (hashes ++ [h]) = keccak256_combine [rebuild_hash_chain prev hashes; h].
Proof. unfold rebuild_hash_chain. by rewrite foldl_snoc. Qed.

Lemma chains_collide_snoc prev1 prev2 l1 l2 h1 h2 :
  chains_collide prev1 prev2 l1 l2 → chains_collide prev1 prev2 (l1 ++ [h1]) (l2 ++ [h2]).
Proof.
  intros (i & x1 & x2 & Hx1 & Hx2 & Hc). exists i, x1, x2.
  pose proof (lookup_lt_Some _ _ _ Hx1). pose proof (lookup_lt_Some _ _ _ Hx2).
  rewrite !take_app_le by lia. split_and!; [by apply lookup_app_l_Some..|apply Hc|apply Hc].
Qed.

(** Equal ends of two chains: walking back from the end, either the elements agree
    or a collision shows. *)
Lemma rebuild_hash_chain_back prev1 prev2 l1 l2 :
  length l1 = length l2 →
  rebuild_hash_chain prev1 l1 = rebuild_hash_chain prev2 l2 →
  (prev1 = prev2 ∧ l1 = l2) ∨ chains_collide prev1 prev2 l1 l2.
Proof.
  revert l2. induction l1 as [|h1 l1 IH] using rev_ind; intros l2 Hlen Heq.
  - destruct l2; [|done]. left. done.
  - destruct l2 as [|h2 l2 _] using rev_ind; rewrite length_app in Hlen; simpl in Hlen; [lia|].
    rewrite length_app in Hlen. simpl in Hlen. assert (length l1 = length l2) as Hl by lia.
    rewrite !rebuild_hash_chain_snoc in Heq.
    destruct (decide ((rebuild_hash_chain prev1 l1, h1) = (rebuild_hash_chain prev2 l2, h2)))
      as [[= Hacc ->]|Hne].
    + destruct (IH l2 Hl Hacc) as [[-> ->]|?]; [by left|right].
      by apply chains_collide_snoc.
    + right. exists (length l1), h1, h2.
      rewrite take_app_length, take_app_length' by done.
      split_and!; [by rewrite list_lookup_middle|by rewrite list_lookup_middle|done|done].
Qed.

Lemma rebuild_hash_chain_split prev l k :
  rebuild_hash_chain prev l = rebuild_hash_chain (rebuild_hash_chain prev (take k l)) (drop k l).
Proof. unfold rebuild_hash_chain. by rewrite <-foldl_app, take_drop. Qed.

(** Two different chains from one head to one end break the hash function: the chains
    collide where they are as far from the end, or one of them returns to its head. *)
Inductive chain_broken (prev : Digest) (l1 l2 : list Digest) : Prop :=
  | BrokenCollision k1 k2 :
      chains_collide (rebuild_hash_chain prev (take k1 l1)) (rebuild_hash_chain prev (take k2 l2))
        (drop k1 l1) (drop k2 l2) →
      chain_broken prev l1 l2
  | BrokenCycle l k :
      l ∈ [l1; l2] → (0 < k <= length l)%nat → rebuild_hash_chain prev (take k l) = prev →
      chain_broken prev l1 l2.

Lemma chain_broken_sym prev l1 l2 : chain_broken prev l1 l2 → chain_broken prev l2 l1.
Proof.
  intros [k1 k2 (i & h1 & h2 & H1 & H2 & Hne & Heq)|l k Hl Hk Hc].
  - apply (BrokenCollision _ _ _ k2 k1). exists i, h2, h1. by split_and!.
  - apply (BrokenCycle _ _ _ l k); [set_solver|done|done].
Qed.

(** The end of a chain determines its elements, however many there are. *)
Lemma rebuild_hash_chain_inj prev l1 l2 :
  rebuild_hash_chain prev l1 = rebuild_hash_chain prev l2 → l1 = l2 ∨ chain_broken prev l1 l2.
Proof.
  assert (∀ l1 l2, (length l1 <= length l2)%nat →
    rebuild_hash_chain prev l1 = rebuild_hash_chain prev l2 →
    l1 = l2 ∨ chain_broken prev l1 l2) as Hle.
  { clear l1 l2. intros l1 l2 Hlen Heq. set (k := (length l2 - length l1)%nat).
    rewrite (rebuild_hash_chain_split prev l2 k) in Heq.
    apply rebuild_hash_chain_back in Heq as [[Hprev Hl]|Hc]; [| |by rewrite length_drop; lia].
    - destruct (decide (k = 0%nat)) as [Hk|Hk].
      + left. by rewrite Hl, Hk, drop_0.
      + right. apply (BrokenCycle _ _ _ l2 k); [set_solver|lia|done].
    - right. by apply (BrokenCollision _ _ _ 0 k); rewrite ?take_0, ?drop_0. }
  intros Heq. destruct (decide (length l1 <= length l2)%nat); [by apply Hle|].
  destruct (Hle l2 l1) as [->|?]; [lia|done|by left|right]. by apply chain_broken_sym.
Qed.
End hash_chain.

(** ** The input of the bridge constraints *)

Section data.
Context `{!UnifiedBridge, !EvmClient}.

Record BridgeWitness : Type := {
  inserted_gers : list InsertedGER;
  raw_inserted_gers : list Digest;
  removed_gers : list Digest;
  bridge_exits_claimed : list GlobalIndexWithLeafHash;
  global_indices_unset : list U256;
  prev_l2_block_sketch : EvmSketchInput;
  new_l2_block_sketch : EvmSketchInput;
  caller_address : Address;
}.

Record BridgeConstraintsInput : Type := {
  ger_addr : Address;
  prev_l2_block_hash : Digest;
  new_l2_block_hash : Digest;
  new_local_exit_root : Digest;
  l1_info_root : Digest;
  commit_imported_bridge_exits : Digest;
  bridge_witness : BridgeWitness;
}.
End data.

(** [find] fails exactly when every element passes. *)
Lemma find_negb_None {A} (f : A → bool) (P : A → Prop) (l : list A) :
  (∀ x, f x = true ↔ P x) →
  List.find (λ x, negb (f x)) l = None ↔ Forall P l.
Proof.
  intros HP. induction l as [|x l IH]; simpl; [by split|].
  rewrite Forall_cons_iff, <-(HP x). destruct (f x); simpl; [rewrite IH|]; naive_solver.
Qed.

(** ** The verification *)

Section verify.
Context `{!Hashing, !UnifiedBridge, !EvmClient}.
(** [usize::MAX] of the target. *)
Variable usize_max : Z.

Implicit Types self : BridgeConstraintsInput.

Definition fetch_hash_chains (self : BridgeConstraintsInput) (hash_chain : HashChainType)
    (address : Address) (calldata : SolCall)
    : outcome BridgeConstraintsError (Return calldata * Return calldata) :=
  prev_hash_chain ← execute
    {| sc_address := address; sc_stage := PrevHashChain hash_chain;
       sc_block_hash := prev_l2_block_hash self |}
    (caller_address (bridge_witness self)) (prev_l2_block_sketch (bridge_witness self)) calldata;
  new_hash_chain ← execute
    {| sc_address := address; sc_stage := NewHashChain hash_chain;
       sc_block_hash := new_l2_block_hash self |}
    (caller_address (bridge_witness self)) (new_l2_block_sketch (bridge_witness self)) calldata;
  Ok (prev_hash_chain, new_hash_chain).

Definition validate_hash_chain (hashes : list Digest) (prev_hash_chain new_hash_chain : Digest)
    (hash_chain_type : HashChainType) : outcome BridgeConstraintsError () :=
  let rebuilt_hash_chain := rebuild_hash_chain prev_hash_chain hashes in
  if decide (rebuilt_hash_chain ≠ new_hash_chain) then
    Err (MismatchHashChain prev_hash_chain rebuilt_hash_chain new_hash_chain hash_chain_type)
  else Ok ().

Definition verify_ger_hash_chains (self : BridgeConstraintsInput)
    : outcome BridgeConstraintsError () :=
  '(prev_hash_chain, new_hash_chain) ←
    fetch_hash_chains self StaticCall.InsertedGER (ger_addr self) insertedGERHashChainCall;
  _ ← validate_hash_chain (raw_inserted_gers (bridge_witness self))
        prev_hash_chain new_hash_chain StaticCall.InsertedGER;
  '(prev_hash_chain, new_hash_chain) ←
    fetch_hash_chains self RemovedGER (ger_addr self) removedGERHashChainCall;
  validate_hash_chain (removed_gers (bridge_witness self))
    prev_hash_chain new_hash_chain RemovedGER.

(** The elements of the claimed and unset hash chains. *)
Definition claims (self : BridgeConstraintsInput) : list Digest :=
  claim_commitment <$> bridge_exits_claimed (bridge_witness self).

Definition unset_claims (self : BridgeConstraintsInput) : list Digest :=
  (λ idx, be_array 32 idx) <$> global_indices_unset (bridge_witness self).

Definition verify_claims_hash_chains (self : BridgeConstraintsInput) (bridge_address : Address)
    : outcome BridgeConstraintsError () :=
  '(prev_hash_chain, new_hash_chain) ←
    fetch_hash_chains self ClaimedGlobalIndex bridge_address claimedGlobalIndexHashChainCall;
  _ ← validate_hash_chain (claims self) prev_hash_chain new_hash_chain ClaimedGlobalIndex;
  '(prev_hash_chain, new_hash_chain) ←
    fetch_hash_chains self UnsetGlobalIndex bridge_address unsetGlobalIndexHashChainCall;
  validate_hash_chain (unset_claims self) prev_hash_chain new_hash_chain UnsetGlobalIndex.

Definition verify_new_ler (self : BridgeConstraintsInput) (bridge_address : Address)
    : outcome BridgeConstraintsError () :=
  new_ler ← execute
    {| sc_address := bridge_address; sc_stage := NewLer;
       sc_block_hash := new_l2_block_hash self |}
    (caller_address (bridge_witness self)) (new_l2_block_sketch (bridge_witness self)) getRootCall;
  if decide (new_ler ≠ new_local_exit_root self) then
    Err (MismatchNewLocalExitRoot new_ler (new_local_exit_root self))
  else Ok ().

Definition fetch_bridge_address (self : BridgeConstraintsInput)
    : outcome BridgeConstraintsError Address :=
  execute
    {| sc_address := ger_addr self; sc_stage := BridgeAddress;
       sc_block_hash := new_l2_block_hash self |}
    (caller_address (bridge_witness self)) (new_l2_block_sketch (bridge_witness self))
    bridgeAddressCall.

Definition verify_constrained_global_indices (self : BridgeConstraintsInput)
    : outcome BridgeConstraintsError () :=
  constrained_claims ← filter_values usize_max global_index
    (global_indices_unset (bridge_witness self)) (bridge_exits_claimed (bridge_witness self));
  let computed_commitment :=
    imported_bridge_exits_commitment constrained_claims
      IMPORTED_BRIDGE_EXIT_COMMITMENT_VERSION in
  if decide (computed_commitment ≠ commit_imported_bridge_exits self) then
    Err (MismatchConstrainedBridgeExits computed_commitment (commit_imported_bridge_exits self))
  else Ok ().

Definition verify_inserted_gers (self : BridgeConstraintsInput)
    : outcome BridgeConstraintsError () :=
  filtered_hash_chain_gers ← filter_values usize_max (λ x : Digest, x)
    (removed_gers (bridge_witness self)) (raw_inserted_gers (bridge_witness self));
  let inserted_gers_compare := ger <$> inserted_gers (bridge_witness self) in
  if decide (filtered_hash_chain_gers ≠ inserted_gers_compare) then
    Err (MismatchConstrainedInsertedGers filtered_hash_chain_gers inserted_gers_compare)
  else
    let maybe_wrong_inserted_ger :=
      List.find (λ g, negb (verify_inserted_ger g (l1_info_root self)))
        (inserted_gers (bridge_witness self)) in
    match maybe_wrong_inserted_ger with
    | Some wrong_ger =>
        Err (InvalidMerklePathGERToL1Root (ger wrong_ger)
               (l1_info_tree_index (ig_l1_info_tree_leaf wrong_ger)) (l1_info_root self))
    | None => Ok ()
    end.

(** [BridgeConstraintsInput::verify]. *)
Definition verify (self : BridgeConstraintsInput) : outcome BridgeConstraintsError () :=
  _ ← verify_ger_hash_chains self;
  bridge_address ← fetch_bridge_address self;
  _ ← verify_claims_hash_chains self bridge_address;
  _ ← verify_new_ler self bridge_address;
  _ ← verify_constrained_global_indices self;
  verify_inserted_gers self.

(** *** What the verification establishes *)

(** The prev and new L2 states, as the sketches describe them. *)
Definition prev_state (self : BridgeConstraintsInput) (addr : Address) (call : SolCall)
    (v : Return call) : Prop :=
  evm_returns (prev_l2_block_sketch (bridge_witness self))
    (caller_address (bridge_witness self)) addr call v (prev_l2_block_hash self).

Definition new_state (self : BridgeConstraintsInput) (addr : Address) (call : SolCall)
    (v : Return call) : Prop :=
  evm_returns (new_l2_block_sketch (bridge_witness self))
    (caller_address (bridge_witness self)) addr call v (new_l2_block_hash self).

(** Between the two blocks, the four hash chains grew by exactly the witnessed
    elements; the bridge is the one the GER manager names; its root is the new local
    exit root; the claims left after the unsets are the committed ones; the GERs
    left after the removals are the proven ones, each included in the L1 info tree. *)
Record bridge_ok (self : BridgeConstraintsInput) : Prop := {
  ok_inserted : ∃ prev,
    prev_state self (ger_addr self) insertedGERHashChainCall prev ∧
    new_state self (ger_addr self) insertedGERHashChainCall
      (rebuild_hash_chain prev (raw_inserted_gers (bridge_witness self)));
  ok_removed : ∃ prev,
    prev_state self (ger_addr self) removedGERHashChainCall prev ∧
    new_state self (ger_addr self) removedGERHashChainCall
      (rebuild_hash_chain prev (removed_gers (bridge_witness self)));
  ok_bridge : ∃ bridge_address,
    new_state self (ger_addr self) bridgeAddressCall bridge_address ∧
    (∃ prev, prev_state self bridge_address claimedGlobalIndexHashChainCall prev ∧
       new_state self bridge_address claimedGlobalIndexHashChainCall
         (rebuild_hash_chain prev (claims self))) ∧
    (∃ prev, prev_state self bridge_address unsetGlobalIndexHashChainCall prev ∧
       new_state self bridge_address unsetGlobalIndexHashChainCall
         (rebuild_hash_chain prev (unset_claims self))) ∧
    new_state self bridge_address getRootCall (new_local_exit_root self);
  ok_claims :
    imported_bridge_exits_commitment
      (remove_each global_index (global_indices_unset (bridge_witness self))
         (bridge_exits_claimed (bridge_witness self)))
      V3 = commit_imported_bridge_exits self;
  ok_gers :
    ger <$> inserted_gers (bridge_witness self) =
    remove_each (λ x : Digest, x) (removed_gers (bridge_witness self))
      (raw_inserted_gers (bridge_witness self));
  ok_included : Forall (included (l1_info_root self)) (inserted_gers (bridge_witness self));
}.

(** The slices fit in the address space of the target. *)
Definition witness_fits (self : BridgeConstraintsInput) : Prop :=
  Z.of_nat (length (removed_gers (bridge_witness self))) <= usize_max ∧
  Z.of_nat (length (global_indices_unset (bridge_witness self))) <= usize_max.

(** The unset indices are 256-bit numbers. *)
Definition indices_wf (self : BridgeConstraintsInput) : Prop :=
  Forall (in_width 256) (global_indices_unset (bridge_witness self)).

Lemma validate_hash_chain_ok hashes prev new t :
  validate_hash_chain hashes prev new t = Ok () ↔ new = rebuild_hash_chain prev hashes.
Proof. unfold validate_hash_chain. case_decide; naive_solver. Qed.

Lemma fetch_hash_chains_ok self t addr call prev new :
  fetch_hash_chains self t addr call = Ok (prev, new) ↔
  prev_state self addr call prev ∧ new_state self addr call new.
Proof.
  unfold fetch_hash_chains, prev_state, new_state. split.
  - intros (p & Hp & (n & Hn & [= <- <-])%outcome_bind_ok)%outcome_bind_ok.
    by apply execute_ok in Hp, Hn.
  - intros [Hp Hn]. rewrite (execute_returns Hp). simpl. by rewrite (execute_returns Hn).
Qed.

(** Fetching a hash chain and validating it against the witnessed elements. *)
Ltac chain_ok :=
  match goal with
  | H : fetch_hash_chains ?self ?t ?addr ?call ≫= _ = Ok () |- _ =>
      let Hf := fresh in
      apply outcome_bind_ok in H as ([? ?] & Hf & H); cbn beta iota in H;
      apply (fetch_hash_chains_ok self t addr call) in Hf as [? ?]
  | H : validate_hash_chain _ _ _ _ ≫= _ = Ok () |- _ =>
      apply outcome_bind_ok in H as ([] & ->%validate_hash_chain_ok & H)
  | H : validate_hash_chain _ _ _ _ = Ok () |- _ => apply validate_hash_chain_ok in H as ->
  | H1 : prev_state _ _ ?call _, H2 : new_state _ _ ?call _
    |- context [fetch_hash_chains _ _ _ ?call] =>
      rewrite (proj2 (fetch_hash_chains_ok _ _ _ call _ _) (conj H1 H2)); cbn beta iota delta [mbind outcome_bind]
  | |- context [validate_hash_chain ?hs ?p ?n ?t] =>
      rewrite (proj2 (validate_hash_chain_ok hs p n t) eq_refl); cbn [mbind outcome_bind]
  end.

Lemma verify_ger_hash_chains_ok self :
  verify_ger_hash_chains self = Ok () ↔
  (∃ prev, prev_state self (ger_addr self) insertedGERHashChainCall prev ∧
     new_state self (ger_addr self) insertedGERHashChainCall
       (rebuild_hash_chain prev (raw_inserted_gers (bridge_witness self)))) ∧
  (∃ prev, prev_state self (ger_addr self) removedGERHashChainCall prev ∧
     new_state self (ger_addr self) removedGERHashChainCall
       (rebuild_hash_chain prev (removed_gers (bridge_witness self)))).
Proof.
  unfold verify_ger_hash_chains. split.
  - intros Hok. repeat chain_ok. split; eexists; split; eassumption.
  - intros [(? & ? & ?) (? & ? & ?)]. by repeat chain_ok.
Qed.

Lemma verify_claims_hash_chains_ok self addr :
  verify_claims_hash_chains self addr = Ok () ↔
  (∃ prev, prev_state self addr claimedGlobalIndexHashChainCall prev ∧
     new_state self addr claimedGlobalIndexHashChainCall
       (rebuild_hash_chain prev (claims self))) ∧
  (∃ prev, prev_state self addr unsetGlobalIndexHashChainCall prev ∧
     new_state self addr unsetGlobalIndexHashChainCall
       (rebuild_hash_chain prev (unset_claims self))).
Proof.
  unfold verify_claims_hash_chains. split.
  - intros Hok. repeat chain_ok. split; eexists; split; eassumption.
  - intros [(? & ? & ?) (? & ? & ?)]. by repeat chain_ok.
Qed.

Lemma fetch_bridge_address_ok self addr :
  fetch_bridge_address self = Ok addr ↔ new_state self (ger_addr self) bridgeAddressCall addr.
Proof.
  exact (execute_ok {| sc_address := ger_addr self; sc_stage := BridgeAddress;
    sc_block_hash := new_l2_block_hash self |} _ _ bridgeAddressCall addr).
Qed.

Lemma verify_new_ler_ok self addr :
  verify_new_ler self addr = Ok () ↔ new_state self addr getRootCall (new_local_exit_root self).
Proof.
  unfold verify_new_ler, new_state. split.
  - intros (ler & Hler & Hif)%outcome_bind_ok. apply (execute_ok _ _ _ getRootCall) in Hler.
    case_decide; by simplify_eq.
  - intros Hst. rewrite (execute_returns Hst). simpl. by case_decide.
Qed.

Lemma verify_constrained_global_indices_ok self :
  witness_fits self →
  verify_constrained_global_indices self = Ok () ↔
  imported_bridge_exits_commitment
    (remove_each global_index (global_indices_unset (bridge_witness self))
       (bridge_exits_claimed (bridge_witness self)))
    V3 = commit_imported_bridge_exits self.
Proof.
  intros [_ Hfit]. unfold verify_constrained_global_indices.
  rewrite filter_values_bounded by done. simpl. case_decide; naive_solver.
Qed.

Lemma verify_inserted_gers_ok self :
  witness_fits self →
  verify_inserted_gers self = Ok () ↔
  ger <$> inserted_gers (bridge_witness self) =
    remove_each (λ x : Digest, x) (removed_gers (bridge_witness self))
      (raw_inserted_gers (bridge_witness self)) ∧
  Forall (included (l1_info_root self)) (inserted_gers (bridge_witness self)).
Proof.
  intros [Hfit _]. unfold verify_inserted_gers.
  rewrite filter_values_bounded by done. simpl.
  case_decide as Hne; [split; [done|]; by intros [? _]|].
  rewrite <-(find_negb_None (λ g, verify_inserted_ger g (l1_info_root self)))
    by (intros; apply verify_inserted_ger_true).
  destruct (List.find _ _) eqn:Hf; naive_solver.
Qed.

(** *** Errors *)

(** The elements a hash chain type is rebuilt from. *)
Definition chain_elements (self : BridgeConstraintsInput) (t : HashChainType) : list Digest :=
  match t with
  | StaticCall.InsertedGER => raw_inserted_gers (bridge_witness self)
  | RemovedGER => removed_gers (bridge_witness self)
  | ClaimedGlobalIndex => claims self
  | UnsetGlobalIndex => unset_claims self
  end.

(** The head of a chain in a state: two are kept by the GER manager, two by the bridge
    that the new state names. *)
Definition at_bridge self (P : Address → Prop) : Prop :=
  ∃ bridge, new_state self (ger_addr self) bridgeAddressCall bridge ∧ P bridge.

Definition head_in self (state : Address → ∀ call, Return call → Prop) (t : HashChainType)
    (h : Digest) : Prop :=
  match t with
  | StaticCall.InsertedGER => state (ger_addr self) insertedGERHashChainCall h
  | RemovedGER => state (ger_addr self) removedGERHashChainCall h
  | ClaimedGlobalIndex => at_bridge self (λ bridge, state bridge claimedGlobalIndexHashChainCall h)
  | UnsetGlobalIndex => at_bridge self (λ bridge, state bridge unsetGlobalIndexHashChainCall h)
  end.

Definition prev_head self : HashChainType → Digest → Prop := head_in self (prev_state self).
Definition new_head self : HashChainType → Digest → Prop := head_in self (new_state self).

Definition new_root self (root : Digest) : Prop :=
  at_bridge self (λ bridge, new_state self bridge getRootCall root).

(** What a stage asks, whom, and at which block. *)
Definition chain_call (t : HashChainType) : SolCall :=
  match t with
  | StaticCall.InsertedGER => insertedGERHashChainCall
  | RemovedGER => removedGERHashChainCall
  | ClaimedGlobalIndex => claimedGlobalIndexHashChainCall
  | UnsetGlobalIndex => unsetGlobalIndexHashChainCall
  end.

Definition chain_at self (t : HashChainType) (addr : Address) : Prop :=
  match t with
  | StaticCall.InsertedGER | RemovedGER => addr = ger_addr self
  | ClaimedGlobalIndex | UnsetGlobalIndex =>
      new_state self (ger_addr self) bridgeAddressCall addr
  end.

Definition stage_call (stage : StaticCallStage) : SolCall :=
  match stage with
  | PrevHashChain t | NewHashChain t => chain_call t
  | BridgeAddress => bridgeAddressCall
  | NewLer => getRootCall
  end.

Definition stage_at self (stage : StaticCallStage) (addr : Address) : Prop :=
  match stage with
  | PrevHashChain t | NewHashChain t => chain_at self t addr
  | BridgeAddress => addr = ger_addr self
  | NewLer => new_state self (ger_addr self) bridgeAddressCall addr
  end.

Definition stage_block (self : BridgeConstraintsInput) (stage : StaticCallStage) : Digest :=
  match stage with
  | PrevHashChain _ => prev_l2_block_hash self
  | _ => new_l2_block_hash self
  end.

Definition stage_sketch (self : BridgeConstraintsInput) (stage : StaticCallStage)
    : EvmSketchInput :=
  match stage with
  | PrevHashChain _ => prev_l2_block_sketch (bridge_witness self)
  | _ => new_l2_block_sketch (bridge_witness self)
  end.

(** The fact an error reports about the input. *)
Definition error_genuine (self : BridgeConstraintsInput) (e : BridgeConstraintsError) : Prop :=
  let wit := bridge_witness self in
  match e with
  | InvalidMerklePathGERToL1Root g index root =>
      root = l1_info_root self ∧
      ∃ ig, ig ∈ inserted_gers wit ∧ ger ig = g ∧
            l1_info_tree_index (ig_l1_info_tree_leaf ig) = index ∧ ¬ included root ig
  | MismatchBlockHash retrieved input stage =>
      input = stage_block self stage ∧ retrieved ≠ input ∧
      ∃ addr v, stage_at self stage addr ∧
        evm_returns (stage_sketch self stage) (caller_address wit) addr (stage_call stage) v
          retrieved
  | MismatchHashChain prev computed input t =>
      prev_head self t prev ∧ new_head self t input ∧
      computed = rebuild_hash_chain prev (chain_elements self t) ∧ computed ≠ input
  | MismatchNewLocalExitRoot retrieved input =>
      new_root self retrieved ∧ input = new_local_exit_root self ∧ retrieved ≠ input
  | MismatchConstrainedBridgeExits computed input =>
      computed = imported_bridge_exits_commitment
        (remove_each global_index (global_indices_unset wit) (bridge_exits_claimed wit)) V3 ∧
      input = commit_imported_bridge_exits self ∧ computed ≠ input
  | MismatchConstrainedInsertedGers computed input =>
      computed = remove_each (λ x : Digest, x) (removed_gers wit) (raw_inserted_gers wit) ∧
      input = ger <$> inserted_gers wit ∧ computed ≠ input
  | StaticCallErrorAt stage source =>
      ∃ addr, stage_at self stage addr ∧
        call_fails (stage_sketch self stage) (caller_address wit) addr (stage_call stage) source
  | HashChainOverflow => ¬ witness_fits self
  end.

Lemma execute_genuine self stage addr :
  stage_at self stage addr →
  errs (execute {| sc_address := addr; sc_stage := stage;
                   sc_block_hash := stage_block self stage |}
          (caller_address (bridge_witness self)) (stage_sketch self stage) (stage_call stage))
    (error_genuine self).
Proof.
  intros Hat e [(src & -> & Hf)|(v & r & -> & Hr & Hne)]%execute_err.
  - by exists addr.
  - split; [done|]. split; [done|]. by exists addr, v.
Qed.

Lemma fetch_hash_chains_genuine self t addr :
  chain_at self t addr → errs (fetch_hash_chains self t addr (chain_call t)) (error_genuine self).
Proof.
  intros Hat. unfold fetch_hash_chains. repeat errs_step.
  - by apply (execute_genuine self (PrevHashChain t)).
  - by apply (execute_genuine self (NewHashChain t)).
Qed.

Lemma validate_hash_chain_genuine self t prev new :
  prev_head self t prev → new_head self t new →
  errs (validate_hash_chain (chain_elements self t) prev new t) (error_genuine self).
Proof. intros. unfold validate_hash_chain. by repeat errs_step. Qed.

Lemma filter_values_genuine `{Countable K} {V} self (key_fn : V → K) removed values :
  (witness_fits self → Z.of_nat (length removed) <= usize_max) →
  errs (filter_values usize_max key_fn removed values) (error_genuine self).
Proof.
  intros Hfit e He. rewrite (filter_values_errs _ _ _ _ e He). intros Hwf. by rewrite filter_values_bounded in He by auto.
Qed.

Lemma verify_inserted_gers_genuine self : errs (verify_inserted_gers self) (error_genuine self).
Proof.
  unfold verify_inserted_gers. repeat errs_step.
  - apply filter_values_genuine. by intros [? _].
  - split; [|done]. by eapply filter_values_ok.
  - destruct (List.find _ _) as [ig|] eqn:Hf; repeat errs_step.
    apply List.find_some in Hf as [Hin Hbad]. split; [done|]. exists ig.
    split_and!; [by apply list_elem_of_In|done|done|].
    rewrite <-verify_inserted_ger_true. by destruct (verify_inserted_ger _ _).
Qed.

Lemma verify_constrained_global_indices_genuine self :
  errs (verify_constrained_global_indices self) (error_genuine self).
Proof.
  unfold verify_constrained_global_indices. repeat errs_step.
  - apply filter_values_genuine. by intros [_ ?].
  - split; [|done]. f_equal. by eapply filter_values_ok.
Qed.

(** The heads of the chain that is validated. *)
Ltac chains_fetched :=
  match goal with
  | H : fetch_hash_chains ?self ?t ?addr ?call = Ok _
    |- errs (validate_hash_chain _ _ _ ?t) _ =>
      apply (fetch_hash_chains_ok self t addr call) in H as [? ?]
  end.

Lemma verify_ger_hash_chains_genuine self :
  errs (verify_ger_hash_chains self) (error_genuine self).
Proof.
  unfold verify_ger_hash_chains. repeat errs_step;
    try (by apply (fetch_hash_chains_genuine self StaticCall.InsertedGER));
    try (by apply (fetch_hash_chains_genuine self RemovedGER)).
  all: chains_fetched.
  - by apply (validate_hash_chain_genuine self StaticCall.InsertedGER).
  - by apply (validate_hash_chain_genuine self RemovedGER).
Qed.

Lemma verify_claims_hash_chains_genuine self addr :
  new_state self (ger_addr self) bridgeAddressCall addr →
  errs (verify_claims_hash_chains self addr) (error_genuine self).
Proof.
  intros Haddr. unfold verify_claims_hash_chains. repeat errs_step;
    try (by apply (fetch_hash_chains_genuine self ClaimedGlobalIndex));
    try (by apply (fetch_hash_chains_genuine self UnsetGlobalIndex)).
  all: chains_fetched.
  - apply (validate_hash_chain_genuine self ClaimedGlobalIndex); by exists addr.
  - apply (validate_hash_chain_genuine self UnsetGlobalIndex); by exists addr.
Qed.

Lemma verify_new_ler_genuine self addr :
  new_state self (ger_addr self) bridgeAddressCall addr →
  errs (verify_new_ler self addr) (error_genuine self).
Proof.
  intros Haddr. unfold verify_new_ler. repeat errs_step.
  - by apply (execute_genuine self NewLer).
  - split; [|done]. exists addr. split; [done|].
    match goal with H : execute _ _ _ _ = _ |- _ => exact (proj1 (execute_ok _ _ _ getRootCall _) H) end.
Qed.

Lemma verify_genuine_aux self : errs (verify self) (error_genuine self).
Proof.
  unfold verify. apply errs_bind; [apply verify_ger_hash_chains_genuine|intros _ _].
  apply errs_bind; [by apply (execute_genuine self BridgeAddress)|].
  intros addr Haddr%fetch_bridge_address_ok.
  apply errs_bind; [by apply verify_claims_hash_chains_genuine|intros _ _].
  apply errs_bind; [by apply verify_new_ler_genuine|intros _ _].
  apply errs_bind; [apply verify_constrained_global_indices_genuine|intros _ _].
  apply verify_inserted_gers_genuine.
Qed.
End verify.

(** ** Properties *)

Section properties.
Context `{!Hashing, !UnifiedBridge, !EvmClient}.
Variable usize_max : Z.

Lemma verify_ok (self : BridgeConstraintsInput) :
  witness_fits usize_max self →
  verify usize_max self = Ok () ↔ bridge_ok self.
Proof.
  intros Hfit. unfold verify. split.
  - intros ([] & Hger & H2)%outcome_bind_ok. apply outcome_bind_ok in H2 as (ba & Hba & H2).
    apply outcome_bind_ok in H2 as ([] & Hcl & H2).
    apply outcome_bind_ok in H2 as ([] & Hler & H2).
    apply outcome_bind_ok in H2 as ([] & Hgi & H2).
    apply verify_ger_hash_chains_ok in Hger as [??]. apply fetch_bridge_address_ok in Hba.
    apply verify_claims_hash_chains_ok in Hcl as [??]. apply verify_new_ler_ok in Hler.
    apply verify_constrained_global_indices_ok in Hgi; [|done].
    apply verify_inserted_gers_ok in H2 as [??]; [|done]. split; eauto.
  - intros [Hi Hr (ba & Hba & Hc & Hu & Hler) Hcl Hg Hin].
    rewrite (proj2 (verify_ger_hash_chains_ok self) (conj Hi Hr)). simpl.
    rewrite (proj2 (fetch_bridge_address_ok self ba) Hba). simpl.
    rewrite (proj2 (verify_claims_hash_chains_ok self ba) (conj Hc Hu)). simpl.
    rewrite (proj2 (verify_new_ler_ok self ba) Hler). simpl.
    rewrite (proj2 (verify_constrained_global_indices_ok usize_max self Hfit) Hcl). simpl.
    by apply verify_inserted_gers_ok.
Qed.

(** C1: the bridge verification is sound and complete for its specification: on a
    witness that fits in memory, [verify] returns [Ok] exactly when the four hash
    chains grew by the witnessed elements, the new local exit root is the bridge's,
    the commitment is that of the claims minus the unsets, and the inserted GERs are
    the raw ones minus the removed ones, each proven against the L1 info root. *)
Theorem verify_refines_spec (self : BridgeConstraintsInput) :
  witness_fits usize_max self →
  verify usize_max self = Ok () ↔ bridge_ok self.
Proof. apply verify_ok. Qed.

(** C9: hash chains bind their elements: if the same previous chain head is extended to the
    same new head by two validated lists, of whatever lengths, the lists are equal, or the
    hash function is broken: two different pairs with the same [keccak256_combine] are
    exhibited where the chains are as far from their end, or a chain that returns to its
    head.  For lists of the same length only the former remains: a collision, at one
    position of both chains. *)
Theorem validated_chain_binding hashes1 hashes2 prev new t1 t2 :
  validate_hash_chain hashes1 prev new t1 = Ok () →
  validate_hash_chain hashes2 prev new t2 = Ok () →
  (hashes1 = hashes2 ∨ chain_broken prev hashes1 hashes2) ∧
  (length hashes1 = length hashes2 →
   hashes1 = hashes2 ∨ chains_collide prev prev hashes1 hashes2).
Proof.
  intros Hv1%validate_hash_chain_ok Hv2%validate_hash_chain_ok.
  assert (rebuild_hash_chain prev hashes1 = rebuild_hash_chain prev hashes2) as Heq by congruence.
  split; [by apply rebuild_hash_chain_inj|]. intros Hlen.
  destruct (rebuild_hash_chain_back prev prev hashes1 hashes2 Hlen Heq) as [[_ ->]|]; auto.
Qed.

(** C16: an error of the bridge verification reports a fact about the input, to the last
    value that it carries: a failed static call is one that the stage makes, to the contract
    it makes it to, on the sketch and with the failure of the error; the hash of a block hash
    mismatch is the one that the call is answered for; the heads of a hash chain mismatch are
    those of the two states, and the computed one extends the previous one by the witnessed
    elements; the retrieved exit root is the bridge's; the computed commitment and the computed
    GERs are those after the unsets and the removals; the GER of a failed inclusion proof is a
    witnessed one that is not included; and an overflow means that the witness does not fit. *)
Theorem verify_errors_genuine (self : BridgeConstraintsInput) e :
  verify usize_max self = Err e → error_genuine usize_max self e.
Proof. apply verify_genuine_aux. Qed.
End properties.

(** ** A concrete run *)

Module BridgeSample.
Import Toy ToyEvm.

Definition digest (n : Z) : Digest := be_array 32 n.
Definition bridge_addr : Address := be_array 20 77.

Definition leaf (g : Z) : L1InfoTreeLeaf :=
  {| l1_info_tree_index := g; rer := digest 0; mer := digest 0;
     inner := {| global_exit_root := digest g; block_hash := digest 5; timestamp := 9 |} |}.
Definition l1_root : Digest := digest 4242.
Definition inserted (g : Z) : InsertedGER :=
  {| ig_proof := (l1_root, leaf_hash (leaf g)); ig_l1_info_tree_leaf := leaf g;
     ig_block_number := 11; ig_block_index := 0 |}.
Definition claim (i : Z) : GlobalIndexWithLeafHash :=
  {| global_index := i; bridge_exit_hash := digest (100 + i) |}.

Definition head (n : Z) (hashes : list Digest) : bytes :=
  vec_to_list (rebuild_hash_chain (digest n) hashes).

(** GERs 1, 2, 3 were inserted and 2 removed; claims 7, 8, 7 made and one 7 unset. *)
Definition sketch (h : Z) (gers removed : list Z) (cls : list GlobalIndexWithLeafHash)
    (unset : list Z) : Digest * list (Address * SolCall * bytes) :=
  (digest h,
   [(L2_GER_ADDR, insertedGERHashChainCall, head 1 (digest <$> gers));
    (L2_GER_ADDR, removedGERHashChainCall, head 2 (digest <$> removed));
    (L2_GER_ADDR, bridgeAddressCall, vec_to_list bridge_addr);
    (bridge_addr, getRootCall, vec_to_list (digest 99));
    (bridge_addr, claimedGlobalIndexHashChainCall, head 3 (claim_commitment <$> cls));
    (bridge_addr, unsetGlobalIndexHashChainCall, head 4 (digest <$> unset))]).

Definition witness (gers : list Z) : BridgeWitness :=
  {| inserted_gers := inserted <$> gers;
     raw_inserted_gers := digest <$> [1; 2; 3];
     removed_gers := [digest 2];
     bridge_exits_claimed := [claim 7; claim 8; claim 7];
     global_indices_unset := [7];
     prev_l2_block_sketch := sketch 50 [] [] [] [];
     new_l2_block_sketch := sketch 60 [1; 2; 3] [2] [claim 7; claim 8; claim 7] [7];
     caller_address := be_array 20 1 |}.

Definition input (gers : list Z) : BridgeConstraintsInput :=
  {| ger_addr := L2_GER_ADDR;
     prev_l2_block_hash := digest 50;
     new_l2_block_hash := digest 60;
     new_local_exit_root := digest 99;
     l1_info_root := l1_root;
     commit_imported_bridge_exits := imported_bridge_exits_commitment [claim 8; claim 7] V3;
     bridge_witness := witness gers |}.

Example input_verifies : verify U32_MAX (input [1; 3]) = Ok ().
Proof. vm_compute. reflexivity. Qed.

Example input_wrong_gers :
  verify U32_MAX (input [1; 2]) =
    Err (MismatchConstrainedInsertedGers (digest <$> [1; 3]) (digest <$> [1; 2])).
Proof. vm_compute. reflexivity. Qed.

Lemma input_fits gers : witness_fits U32_MAX (input gers).
Proof. split; vm_compute; discriminate. Qed.

Lemma verify_refines_spec_witness :
  witness_fits U32_MAX (input [1; 3]) ∧ bridge_ok (input [1; 3]).
Proof.
  split; [apply input_fits|].
  apply (verify_refines_spec U32_MAX); [apply input_fits|apply input_verifies].
Defined.

(** A chain of the sample hash function depends on its last element only. *)
Definition chain_end : Digest := rebuild_hash_chain (digest 0) [digest 1; digest 2].

Definition reaches_end (hashes : list Digest) : Prop :=
  validate_hash_chain hashes (digest 0) chain_end StaticCall.InsertedGER = Ok ().

Lemma validated_chain_binding_witness :
  chains_collide (digest 0) (digest 0) [digest 1; digest 2] [digest 3; digest 2] ∧
  chain_broken (digest 0) [digest 1; digest 2] [digest 2].
Proof.
  assert (reaches_end [digest 1; digest 2]) as H1 by (vm_compute; reflexivity).
  assert (reaches_end [digest 3; digest 2]) as H2 by (vm_compute; reflexivity).
  assert (reaches_end [digest 2]) as H3 by (vm_compute; reflexivity).
  split.
  - destruct (proj2 (validated_chain_binding _ _ _ _ _ _ H1 H2) eq_refl) as [Heq|Hc]; [|exact Hc].
    apply (f_equal (λ l, l !! 0%nat)) in Heq. vm_compute in Heq. discriminate Heq.
  - destruct (proj1 (validated_chain_binding _ _ _ _ _ _ H1 H3)) as [Heq|Hb]; [|exact Hb].
    discriminate Heq.
Defined.

Lemma verify_errors_genuine_witness :
  error_genuine U32_MAX (input [1; 2])
    (MismatchConstrainedInsertedGers (digest <$> [1; 3]) (digest <$> [1; 2])).
Proof. apply verify_errors_genuine. apply input_wrong_gers. Defined.
End BridgeSample.
