(* ===== verification/Abi.v ===== *)
(** Solidity ABI encodings and the field arithmetic behind verification key hashes:
    the interfaces of [alloy_sol_types], [p3_baby_bear], [p3_bn254_fr] and
    [num_bigint] that the provers use, with the laws they document. *)

From S2P Require Import Prelude Bytes Panics Interop.

(** ** Solidity values *)

(** The static Solidity types that occur in the [sol!] structs of the repository. *)
Inductive sol_value : Type :=
  | SolBytes32 (v : u8s 32)
  | SolBytes4 (v : u8s 4)
  | SolUint (n_bytes : nat) (z : Z)
  | SolBool (b : bool)
  | SolAddress (a : Address).

#[export] Instance sol_value_eq_dec : EqDecision sol_value.
Proof. solve_decision. Defined.

Definition zeros (n : nat) : bytes := replicate n x00.
Definition bool_byte (b : bool) : byte := if b then x01 else x00.

(** The 32-byte word of a static value in the standard encoding, and its bytes in
    the packed one. *)
Definition abi_word (v : sol_value) : bytes :=
  match v with
  | SolBytes32 v => vec_to_list v
  | SolBytes4 v => vec_to_list v ++ zeros 28
  | SolUint _ z => be_bytes 32 z
  | SolBool b => zeros 31 ++ [bool_byte b]
  | SolAddress a => zeros 12 ++ vec_to_list a
  end.

Definition packed_bytes (v : sol_value) : bytes :=
  match v with
  | SolBytes32 v => vec_to_list v
  | SolBytes4 v => vec_to_list v
  | SolUint n z => be_bytes n z
  | SolBool b => [bool_byte b]
  | SolAddress a => vec_to_list a
  end.

(** The encoders of a struct, given as the list of its fields. *)
Class SolAbi := {
  abi_encode : list sol_value → bytes;
  abi_encode_packed : list sol_value → bytes;
}.

(** A struct of static fields is the concatenation of its fields' encodings. *)
Class SolAbiLaws `{!SolAbi} : Prop := {
  abi_encode_static vs : abi_encode vs = concat (abi_word <$> vs);
  abi_encode_packed_static vs : abi_encode_packed vs = concat (packed_bytes <$> vs);
}.

Lemma length_abi_word v : length (abi_word v) = 32%nat.
Proof.
  destruct v; simpl; unfold zeros;
    rewrite ?length_app, ?length_vec_to_list, ?length_be_bytes, ?length_replicate; done.
Qed.

Lemma length_abi_encode `{SolAbiLaws} vs : length (abi_encode vs) = (32 * length vs)%nat.
Proof.
  rewrite abi_encode_static. induction vs as [|v vs IH]; csimpl; [done|].
  rewrite length_app, length_abi_word, IH. lia.
Qed.

(** Two values of the same Solidity type, with the integer in range. *)
Definition same_type (v w : sol_value) : Prop :=
  match v, w with
  | SolBytes32 _, SolBytes32 _ | SolBytes4 _, SolBytes4 _ => True
  | SolUint n z, SolUint m y =>
      n = m ∧ 0 <= z < 256 ^ Z.of_nat n ∧ 0 <= y < 256 ^ Z.of_nat n
  | SolBool _, SolBool _ | SolAddress _, SolAddress _ => True
  | _, _ => False
  end.

Lemma bool_byte_inj b1 b2 : bool_byte b1 = bool_byte b2 → b1 = b2.
Proof. by destruct b1, b2. Qed.

Lemma length_packed_bytes v w : same_type v w → length (packed_bytes v) = length (packed_bytes w).
Proof.
  destruct v, w; simpl; try done; intros;
    rewrite ?length_vec_to_list, ?length_be_bytes; naive_solver.
Qed.

Lemma packed_bytes_inj v w : same_type v w → packed_bytes v = packed_bytes w → v = w.
Proof.
  destruct v, w; simpl; try done.
  - intros _ ?%vec_to_list_inj2. by subst.
  - intros _ ?%vec_to_list_inj2. by subst.
  - intros (-> & ? & ?) ?%be_bytes_inj; [by subst|done|done].
  - intros _ [= ?%bool_byte_inj]. by subst.
  - intros _ ?%vec_to_list_inj2. by subst.
Qed.

(** The packed encoding of a struct type is injective. *)
Lemma abi_encode_packed_inj `{SolAbiLaws} vs ws :
  Forall2 same_type vs ws → abi_encode_packed vs = abi_encode_packed ws → vs = ws.
Proof.
  rewrite !abi_encode_packed_static. induction 1 as [|v w vs ws Hvw Hall IH]; csimpl; [done|].
  intros [Hv Hvs]%app_inj_1; [|by apply length_packed_bytes].
  f_equal; [by apply packed_bytes_inj|by apply IH].
Qed.

(** Two values of the same type, with integers of at most 32 bytes, have the same word only
    if they are equal. *)
Lemma abi_word_inj v w :
  same_type v w → (∀ n z, v = SolUint n z → (n <= 32)%nat) → abi_word v = abi_word w → v = w.
Proof.
  intros Ht Hsize. destruct v as [v|v|n z|b|a], w as [w|w|m y|c|d]; simpl in *; try done.
  - intros ?%vec_to_list_inj2. by subst.
  - intros [?%vec_to_list_inj2 _]%app_inj_2; [by subst|done].
  - destruct Ht as (-> & Hz & Hy). specialize (Hsize m z eq_refl).
    assert (256 ^ Z.of_nat m <= 256 ^ Z.of_nat 32) by (apply Z.pow_le_mono_r; lia).
    intros ?%be_bytes_inj; [by subst|lia..].
  - intros [= ?%bool_byte_inj]. by subst.
  - intros [= ?%vec_to_list_inj2]. by subst.
Qed.

(** The standard encoding of a struct type is injective. *)
Lemma abi_encode_inj `{SolAbiLaws} vs ws :
  Forall2 same_type vs ws → Forall (λ v, ∀ n z, v = SolUint n z → (n <= 32)%nat) vs →
  abi_encode vs = abi_encode ws → vs = ws.
Proof.
  rewrite !abi_encode_static. induction 1 as [|v w vs ws Hvw Hall IH]; csimpl; [done|].
  intros [Hv Hvs]%Forall_cons_iff [Hword Hrest]%app_inj_1; [|by rewrite !length_abi_word].
  f_equal; [by apply abi_word_inj|by apply IH].
Qed.

(** ** Prime fields and big integers *)

(** The modulus of the BabyBear field and of the BN254 scalar field. *)
Definition BABY_BEAR_P : Z := 2013265921.
Definition BN254_R : Z :=
  21888242871839275222246405745257275088548364400416034343698204186575808495617.

Class P3Fields := {
  BabyBear : Type;
  as_canonical_u32 : BabyBear → Z;
  Bn254Fr : Type;
  fr_zero : Bn254Fr;
  fr_add : Bn254Fr → Bn254Fr → Bn254Fr;
  fr_mul : Bn254Fr → Bn254Fr → Bn254Fr;
  fr_from_canonical_u64 : Z → Bn254Fr;
  fr_from_canonical_u32 : Z → Bn254Fr;
  as_canonical_biguint : Bn254Fr → Z;
  (** [BigUint::to_bytes_be]. *)
  biguint_to_bytes_be : Z → bytes;
}.

(** Number of bytes of the minimal big-endian encoding. *)
Definition byte_length (z : Z) : nat := Z.to_nat (Z.log2 z / 8 + 1).

Class P3FieldsLaws `{!P3Fields} : Prop := {
  as_canonical_u32_range x : 0 <= as_canonical_u32 x < BABY_BEAR_P;
  fr_zero_val : as_canonical_biguint fr_zero = 0;
  fr_add_val x y :
    as_canonical_biguint (fr_add x y) =
      (as_canonical_biguint x + as_canonical_biguint y) mod BN254_R;
  fr_mul_val x y :
    as_canonical_biguint (fr_mul x y) =
      (as_canonical_biguint x * as_canonical_biguint y) mod BN254_R;
  fr_from_canonical_u64_val z :
    in_width 64 z → as_canonical_biguint (fr_from_canonical_u64 z) = z mod BN254_R;
  fr_from_canonical_u32_val z :
    in_width 32 z → as_canonical_biguint (fr_from_canonical_u32 z) = z mod BN254_R;
  (** Zero is one zero byte; otherwise there is no leading zero byte. *)
  biguint_to_bytes_be_minimal z : 0 <= z → biguint_to_bytes_be z = be_bytes (byte_length z) z;
}.

(** ** Concrete instances *)

Module ToyAbi.
#[export] Instance abi : SolAbi :=
  {| abi_encode vs := concat (abi_word <$> vs);
     abi_encode_packed vs := concat (packed_bytes <$> vs) |}.

#[export] Instance abi_laws : SolAbiLaws.
Proof. by split. Qed.

(** Residues modulo the primes. *)
#[export] Instance p3 : P3Fields := {|
  BabyBear := Z;
  as_canonical_u32 x := x mod BABY_BEAR_P;
  Bn254Fr := Z;
  fr_zero := 0;
  fr_add x y := (x + y) mod BN254_R;
  fr_mul x y := (x * y) mod BN254_R;
  fr_from_canonical_u64 z := z mod BN254_R;
  fr_from_canonical_u32 z := z mod BN254_R;
  as_canonical_biguint x := x;
  biguint_to_bytes_be z := be_bytes (byte_length z) z;
|}.

#[export] Instance p3_laws : P3FieldsLaws.
Proof.
  split; try done. intros x. apply Z.mod_pos_bound. done.
Qed.
End ToyAbi.
