(* ===== verification/Fep.v ===== *)
(** The full execution proof inputs: [crates/aggchain-proof-core/src/full_execution_proof.rs],
    with [vkey_hash.rs] and the error type of [error.rs].

    A full execution proof (FEP) is accepted either because the trusted sequencer
    signed its public values (optimistic mode) or because an SP1 aggregation proof of
    them verifies inside the zkVM and its L1 head is in the L1 info tree. *)

From S2P Require Import Prelude Bytes Panics Interop Abi StaticCall.

(** [HashU32 = [u32; 8]]. *)
Abbreviation HashU32 := (vec Z 8).

(** ** Roots *)

Record L2PreRoot : Type := { pre_root : Digest }.
Record ClaimRoot : Type := { claim_root : Digest }.

(** [impl From<ClaimRoot> for L2PreRoot]. *)
Definition l2_pre_root_from_claim_root (value : ClaimRoot) : L2PreRoot :=
  {| pre_root := claim_root value |}.

(** [compute_output_root]. *)
Definition compute_output_root (state_root _withdrawal_storage_root _block_hash : u8s 32)
    : ClaimRoot :=
  {| claim_root := state_root |}.

(** ** Verification key hashes *)

Section baby_bear.
Context `{!P3Fields}.

Definition BabyBearDigest : Type := vec BabyBear 8.

Definition to_hash_u32 (self : BabyBearDigest) : HashU32 := vmap as_canonical_u32 self.

(** The loop of [to_hash_bn254]: [result *= 2^31; result += word]. *)
Definition bn254_accumulate (self : BabyBearDigest) : Bn254Fr :=
  foldl (λ result word,
    fr_add (fr_mul result (fr_from_canonical_u64 (Z.shiftl 1 31)))
           (fr_from_canonical_u32 (as_canonical_u32 word)))
    fr_zero (vec_to_list self).

(** [result[1..].copy_from_slice(&vkey_bytes)] panics unless there are 31 bytes. *)
Definition to_hash_bn254 {E} (self : BabyBearDigest) : outcome E (u8s 32) :=
  let vkey_digest_bn254 := bn254_accumulate self in
  let vkey_bytes := biguint_to_bytes_be (as_canonical_biguint vkey_digest_bn254) in
  match to_array 31 vkey_bytes with
  | Some bs => Ok (x00 ::: bs)
  | None => Panic (PayloadString
      "copy_from_slice: source slice length does not match destination slice length")
  end.
End baby_bear.

(** ** The inputs and their public views *)

Section fep_inputs.
Context `{!P3Fields, !Ecdsa, !UnifiedBridge}.

Record FepInputs : Type := {
  l1_head : Digest;
  claim_block_num : Z;
  rollup_config_hash : Digest;
  prev_state_root : Digest;
  prev_withdrawal_storage_root : Digest;
  prev_block_hash : Digest;
  new_state_root : Digest;
  new_withdrawal_storage_root : Digest;
  new_block_hash : Digest;
  aggregation_vkey_hash : BabyBearDigest;
  range_vkey_commitment : u8s 32;
  trusted_sequencer : Address;
  signature_optimistic_mode : option Signature;
  l1_info_tree_leaf : L1InfoTreeLeaf;
  l1_head_inclusion_proof : MerkleProof;
}.

(** [claim_block_num] is a [u32]. *)
Definition fep_wf (self : FepInputs) : Prop := in_width 32 (claim_block_num self).

Inductive OptimisticMode : Type := Sp1 | EcdsaMode.

Definition optimistic_mode (self : FepInputs) : OptimisticMode :=
  if signature_optimistic_mode self is Some _ then EcdsaMode else Sp1.
End fep_inputs.

#[export] Instance OptimisticMode_eq_dec : EqDecision OptimisticMode.
Proof. solve_decision. Defined.

(** [sol! struct AggregationProofPublicValues]. *)
Record AggregationProofPublicValues : Type := {
  pv_l1_head : Digest;
  pv_l2_pre_root : Digest;
  pv_l2_post_root : Digest;
  pv_l2_block_number : Z;
  pv_rollup_config_hash : Digest;
  pv_multi_block_vkey : u8s 32;
  pv_prover_address : Address;
}.

#[export] Instance AggregationProofPublicValues_eq_dec : EqDecision AggregationProofPublicValues.
Proof. solve_decision. Defined.

Definition AggregationProofPublicValues_fields (v : AggregationProofPublicValues)
    : list sol_value :=
  [SolBytes32 (pv_l1_head v); SolBytes32 (pv_l2_pre_root v); SolBytes32 (pv_l2_post_root v);
   SolUint 8 (pv_l2_block_number v); SolBytes32 (pv_rollup_config_hash v);
   SolBytes32 (pv_multi_block_vkey v); SolAddress (pv_prover_address v)].

(** [sol! struct AggchainParamsValues]. *)
Record AggchainParamsValues : Type := {
  ap_l2_pre_root : Digest;
  ap_claim_root : Digest;
  ap_claim_block_num : U256;
  ap_rollup_config_hash : Digest;
  ap_optimistic_mode : bool;
  ap_trusted_sequencer : Address;
  ap_range_vkey_commitment : u8s 32;
  ap_aggregation_vkey_hash : u8s 32;
}.

Definition AggchainParamsValues_fields (v : AggchainParamsValues) : list sol_value :=
  [SolBytes32 (ap_l2_pre_root v); SolBytes32 (ap_claim_root v);
   SolUint 32 (ap_claim_block_num v); SolBytes32 (ap_rollup_config_hash v);
   SolBool (ap_optimistic_mode v); SolAddress (ap_trusted_sequencer v);
   SolBytes32 (ap_range_vkey_commitment v); SolBytes32 (ap_aggregation_vkey_hash v)].

Section views.
Context `{!P3Fields, !Ecdsa, !UnifiedBridge, !Hashing, !SolAbi}.

(** [impl From<&FepInputs> for AggregationProofPublicValues]. *)
Definition aggregation_proof_public_values_from (inputs : FepInputs)
    : AggregationProofPublicValues :=
  {| pv_l1_head := l1_head inputs;
     pv_l2_pre_root := prev_state_root inputs;
     pv_l2_post_root := new_state_root inputs;
     pv_l2_block_number := claim_block_num inputs;
     pv_rollup_config_hash := rollup_config_hash inputs;
     pv_multi_block_vkey := range_vkey_commitment inputs;
     pv_prover_address := trusted_sequencer inputs |}.

(** [impl From<&FepInputs> for AggchainParamsValues]. *)
Definition aggchain_params_values_from {E} (inputs : FepInputs)
    : outcome E AggchainParamsValues :=
  aggregation_vkey_hash ← to_hash_bn254 (aggregation_vkey_hash inputs);
  Ok {| ap_l2_pre_root := prev_state_root inputs;
        ap_claim_root := new_state_root inputs;
        ap_claim_block_num := claim_block_num inputs;
        ap_rollup_config_hash := rollup_config_hash inputs;
        ap_optimistic_mode := bool_decide (optimistic_mode inputs = EcdsaMode);
        ap_trusted_sequencer := trusted_sequencer inputs;
        ap_range_vkey_commitment := range_vkey_commitment inputs;
        ap_aggregation_vkey_hash := aggregation_vkey_hash |}.

Definition sha256_public_values (self : FepInputs) : u8s 32 :=
  let encoded_public_values :=
    abi_encode (AggregationProofPublicValues_fields (aggregation_proof_public_values_from self)) in
  sha256_digest encoded_public_values.

Definition encoded_aggchain_params {E} (self : FepInputs) : outcome E bytes :=
  values ← aggchain_params_values_from self;
  Ok (abi_encode_packed (AggchainParamsValues_fields values)).

Definition aggchain_params {E} (self : FepInputs) : outcome E Digest :=
  encoded ← encoded_aggchain_params self;
  Ok (keccak256 encoded).

Definition compute_l2_pre_root (self : FepInputs) : L2PreRoot :=
  l2_pre_root_from_claim_root
    (compute_output_root (prev_state_root self) (prev_withdrawal_storage_root self)
       (prev_block_hash self)).

Definition compute_claim_root (self : FepInputs) : ClaimRoot :=
  compute_output_root (new_state_root self) (new_withdrawal_storage_root self)
    (new_block_hash self).
End views.

(** ** Verification *)

(** [ProofError] of [error.rs]. *)
Inductive ProofError `{!EvmClient} : Type :=
  | ProofBridgeConstraintsError (e : BridgeConstraintsError)
  | MismatchL1Head (from_l1_info_tree_leaf from_fep_public_values : Digest)
  | InvalidInclusionProofL1Head (index : Z) (l1_leaf_hash l1_info_root : Digest)
  | InvalidSignature
  | InvalidSigner (declared recovered : Address).

(** [cfg(target_os = "zkvm")]. *)
Inductive target : Type := Host | Zkvm.

#[export] Instance target_eq_dec : EqDecision target.
Proof. solve_decision. Defined.

Section verify.
Context `{!P3Fields, !Ecdsa, !UnifiedBridge, !Hashing, !SolAbi, !EvmClient}.
(** The target the program is compiled for, and [sp1_zkvm::lib::verify::verify_sp1_proof],
    which returns or aborts the guest. *)
Variable target_os : target.
Variable verify_sp1_proof : HashU32 → u8s 32 → outcome Empty_set ().

Definition verify_l1_head (self : FepInputs) (l1_info_root : Digest) : outcome ProofError () :=
  if decide (l1_head self ≠ block_hash (inner (l1_info_tree_leaf self))) then
    Err (MismatchL1Head (block_hash (inner (l1_info_tree_leaf self))) (l1_head self))
  else
    let inclusion_proof_valid :=
      mp_verify (l1_head_inclusion_proof self) (leaf_hash (l1_info_tree_leaf self))
        (l1_info_tree_index (l1_info_tree_leaf self)) in
    if negb (inclusion_proof_valid &&
             bool_decide (l1_info_root = mp_root (l1_head_inclusion_proof self))) then
      Err (InvalidInclusionProofL1Head (l1_info_tree_index (l1_info_tree_leaf self))
             (leaf_hash (l1_info_tree_leaf self)) l1_info_root)
    else Ok ().

(** What the optimistic-mode signature signs. *)
Definition signature_commitment (self : FepInputs)
    (new_local_exit_root commit_imported_bridge_exits : Digest) : Digest :=
  keccak256_combine
    [sha256_public_values self; new_local_exit_root; commit_imported_bridge_exits].

Definition verify_fep (self : FepInputs)
    (l1_info_root new_local_exit_root commit_imported_bridge_exits : Digest)
    : outcome ProofError () :=
  match signature_optimistic_mode self with
  | Some signature =>
      let commitment :=
        signature_commitment self new_local_exit_root commit_imported_bridge_exits in
      recovered_signer ← map_err (λ _, InvalidSignature)
        (recover_address_from_prehash signature commitment);
      if decide (recovered_signer ≠ trusted_sequencer self) then
        Err (InvalidSigner (trusted_sequencer self) recovered_signer)
      else Ok ()
  | None =>
      _ ← verify_l1_head self l1_info_root;
      match target_os with
      | Host => Panic (PayloadString
          "internal error: entered unreachable code: verify_sp1_proof is not callable outside of SP1")
      | Zkvm =>
          map_err (λ e : Empty_set, match e with end)
            (verify_sp1_proof (to_hash_u32 (aggregation_vkey_hash self))
               (sha256_public_values self))
      end
  end.

(** *** Specification *)

(** The L1 head is the block hash of a leaf included in the L1 info tree. *)
Definition l1_head_included (self : FepInputs) (l1_info_root : Digest) : Prop :=
  l1_head self = block_hash (inner (l1_info_tree_leaf self)) ∧
  mp_root (l1_head_inclusion_proof self) = l1_info_root ∧
  mp_verify (l1_head_inclusion_proof self) (leaf_hash (l1_info_tree_leaf self))
    (l1_info_tree_index (l1_info_tree_leaf self)) = true.

Inductive fep_accepted (self : FepInputs)
    (l1_info_root new_ler commit : Digest) : Prop :=
  | AcceptSignature signature :
      signature_optimistic_mode self = Some signature →
      recover_address_from_prehash signature (signature_commitment self new_ler commit)
        = Ok (trusted_sequencer self) →
      fep_accepted self l1_info_root new_ler commit
  | AcceptProof :
      signature_optimistic_mode self = None →
      l1_head_included self l1_info_root →
      target_os = Zkvm →
      verify_sp1_proof (to_hash_u32 (aggregation_vkey_hash self)) (sha256_public_values self)
        = Ok () →
      fep_accepted self l1_info_root new_ler commit.

Lemma verify_l1_head_ok self root :
  verify_l1_head self root = Ok () ↔ l1_head_included self root.
Proof.
  unfold verify_l1_head, l1_head_included. case_decide as Hd; [naive_solver|].
  destruct (mp_verify _ _ _); simpl; [|intuition congruence].
  case_bool_decide; simpl; intuition congruence.
Qed.

Lemma verify_fep_ok self root new_ler commit :
  verify_fep self root new_ler commit = Ok () ↔ fep_accepted self root new_ler commit.
Proof.
  unfold verify_fep. split.
  - destruct (signature_optimistic_mode self) as [sig|] eqn:Hsig.
    + intros (signer & Hr & Hif)%outcome_bind_ok. apply map_err_ok in Hr.
      case_decide; [done|]. apply (AcceptSignature _ _ _ _ sig); [done|]. congruence.
    + intros ([] & Hl & Ht)%outcome_bind_ok. apply verify_l1_head_ok in Hl.
      destruct target_os eqn:Hos; [done|]. apply map_err_ok in Ht. by apply AcceptProof.
  - intros [sig -> Hr | -> Hl%verify_l1_head_ok Hos Hp]; [|rewrite Hos].
    + rewrite Hr. simpl. by rewrite decide_False by auto.
    + rewrite Hl. simpl. by rewrite Hp.
Qed.

(** The L1 info tree leaf is in the tree. *)
Definition l1_leaf_included (self : FepInputs) (l1_info_root : Digest) : Prop :=
  mp_root (l1_head_inclusion_proof self) = l1_info_root ∧
  mp_verify (l1_head_inclusion_proof self) (leaf_hash (l1_info_tree_leaf self))
    (l1_info_tree_index (l1_info_tree_leaf self)) = true.

(** Every outcome of the verification, with its condition.  In optimistic mode the signature is
    recovered and compared; in proof mode the L1 head is compared first, its inclusion comes
    second, and the proof is last. *)
Inductive fep_outcome (self : FepInputs) (l1_info_root new_ler commit : Digest)
    : outcome ProofError () → Prop :=
  | Accepted :
      fep_accepted self l1_info_root new_ler commit →
      fep_outcome self l1_info_root new_ler commit (Ok ())
  | NoSignature signature e :
      signature_optimistic_mode self = Some signature →
      recover_address_from_prehash signature (signature_commitment self new_ler commit) = Err e →
      fep_outcome self l1_info_root new_ler commit (Err InvalidSignature)
  | OtherSigner signature recovered :
      signature_optimistic_mode self = Some signature →
      recover_address_from_prehash signature (signature_commitment self new_ler commit)
        = Ok recovered →
      recovered ≠ trusted_sequencer self →
      fep_outcome self l1_info_root new_ler commit
        (Err (InvalidSigner (trusted_sequencer self) recovered))
  | RecoveryAborts signature p :
      signature_optimistic_mode self = Some signature →
      recover_address_from_prehash signature (signature_commitment self new_ler commit)
        = Panic p →
      fep_outcome self l1_info_root new_ler commit (Panic p)
  | OtherL1Head :
      signature_optimistic_mode self = None →
      l1_head self ≠ block_hash (inner (l1_info_tree_leaf self)) →
      fep_outcome self l1_info_root new_ler commit
        (Err (MismatchL1Head (block_hash (inner (l1_info_tree_leaf self))) (l1_head self)))
  | L1HeadNotIncluded :
      signature_optimistic_mode self = None →
      l1_head self = block_hash (inner (l1_info_tree_leaf self)) →
      ¬ l1_leaf_included self l1_info_root →
      fep_outcome self l1_info_root new_ler commit
        (Err (InvalidInclusionProofL1Head (l1_info_tree_index (l1_info_tree_leaf self))
                (leaf_hash (l1_info_tree_leaf self)) l1_info_root))
  | NotInZkvm :
      signature_optimistic_mode self = None → l1_head_included self l1_info_root →
      target_os = Host →
      fep_outcome self l1_info_root new_ler commit (Panic (PayloadString
        "internal error: entered unreachable code: verify_sp1_proof is not callable outside of SP1"))
  | ProofRefused p :
      signature_optimistic_mode self = None → l1_head_included self l1_info_root →
      target_os = Zkvm →
      verify_sp1_proof (to_hash_u32 (aggregation_vkey_hash self)) (sha256_public_values self)
        = Panic p →
      fep_outcome self l1_info_root new_ler commit (Panic p).

(** The outcomes of the L1 head check. *)
Lemma verify_l1_head_outcome self root :
  (l1_head self ≠ block_hash (inner (l1_info_tree_leaf self)) ∧
   verify_l1_head self root =
     Err (MismatchL1Head (block_hash (inner (l1_info_tree_leaf self))) (l1_head self))) ∨
  (l1_head self = block_hash (inner (l1_info_tree_leaf self)) ∧ ¬ l1_leaf_included self root ∧
   verify_l1_head self root =
     Err (InvalidInclusionProofL1Head (l1_info_tree_index (l1_info_tree_leaf self))
            (leaf_hash (l1_info_tree_leaf self)) root)) ∨
  (l1_head_included self root ∧ verify_l1_head self root = Ok ()).
Proof.
  unfold l1_head_included, l1_leaf_included, verify_l1_head. case_decide as Hh; [by left|right].
  destruct (mp_verify _ _ _); simpl; [|left; split_and!; naive_solver].
  case_bool_decide; simpl; [right|left]; split_and!; naive_solver.
Qed.

(** The outcome is one of those of the specification, ... *)
Lemma verify_fep_outcome self root new_ler commit :
  fep_outcome self root new_ler commit (verify_fep self root new_ler commit).
Proof.
  unfold verify_fep. destruct (signature_optimistic_mode self) as [sig|] eqn:Hsig.
  - destruct (recover_address_from_prehash _ _) as [addr|e0|p0] eqn:Hr; simpl.
    + case_decide; [by eapply OtherSigner|]. apply Accepted, (AcceptSignature _ _ _ _ sig); [done|].
      congruence.
    + by eapply NoSignature.
    + by eapply RecoveryAborts.
  - destruct (verify_l1_head_outcome self root) as [[Hne ->]|[(Heq & Hn & ->)|[Hin ->]]]; simpl.
    + by apply OtherL1Head.
    + by apply L1HeadNotIncluded.
    + destruct target_os eqn:Hos; [by apply NotInZkvm|].
      destruct (verify_sp1_proof _ _) as [[]|[]|p] eqn:Hp; simpl;
        [by apply Accepted, AcceptProof|by apply ProofRefused].
Qed.

(** ... which has one outcome at most. *)
Lemma fep_outcome_det self root new_ler commit o1 o2 :
  fep_outcome self root new_ler commit o1 → fep_outcome self root new_ler commit o2 → o1 = o2.
Proof.
  unfold l1_leaf_included. intros Ho1 Ho2.
  destruct Ho1 as [[]| | | | | | |]; destruct Ho2 as [[]| | | | | | |];
    unfold l1_head_included, l1_leaf_included in *; destruct_and?; naive_solver congruence.
Qed.

(** C10: the verification of a full execution proof ends as its specification says, and in no
    other way: it accepts exactly with the trusted sequencer's signature over the public
    values, or with an included L1 head and an SP1 proof verified inside the zkVM; each error,
    with its values, and each abort, with its message, is reported under exactly its own
    condition. *)
Theorem verify_fep_spec self root new_ler commit o :
  verify_fep self root new_ler commit = o ↔ fep_outcome self root new_ler commit o.
Proof.
  split; [intros <-; apply verify_fep_outcome|].
  intros Ho. eapply fep_outcome_det; [apply verify_fep_outcome|exact Ho].
Qed.
End verify.

(** ** The key hash as a field element *)

Section bn254.
Context `{!P3Fields, !P3FieldsLaws}.

(** The number with digits [ws] in base 2^31. *)
Definition base31 (acc : Z) (ws : list Z) : Z := foldl (λ acc w, acc * 2 ^ 31 + w) acc ws.

Lemma base31_range acc ws k :
  0 <= k → 0 <= acc < 2 ^ k → Forall (in_width 31) ws →
  0 <= base31 acc ws < 2 ^ (k + 31 * Z.of_nat (length ws)).
Proof.
  intros Hk Hacc Hws. revert acc k Hk Hacc.
  induction Hws as [|w ws Hw _ IH]; intros acc k Hk Hacc; simpl.
  - by replace (k + 31 * Z.of_nat 0) with k by lia.
  - replace (k + 31 * Z.of_nat (S (length ws))) with ((k + 31) + 31 * Z.of_nat (length ws)) by lia.
    apply IH; [lia|]. unfold in_width in Hw. rewrite Z.pow_add_r by lia. nia.
Qed.

Lemma base31_acc acc ws :
  base31 acc ws = acc * 2 ^ (31 * Z.of_nat (length ws)) + base31 0 ws.
Proof.
  revert acc. induction ws as [|w ws IH]; intros acc; [simpl; lia|].
  unfold base31 in *. simpl foldl. rewrite (IH (acc * 2 ^ 31 + w)), (IH (0 * 2 ^ 31 + w)), length_cons.
  replace (31 * Z.of_nat (S (length ws))) with (31 + 31 * Z.of_nat (length ws)) by lia.
  rewrite Z.pow_add_r by lia. lia.
Qed.

Lemma canonical_in_width x : in_width 31 (as_canonical_u32 x).
Proof. pose proof (as_canonical_u32_range x). unfold in_width, BABY_BEAR_P in *. lia. Qed.

(** No step of the accumulation reduces modulo the field order. *)
Lemma bn254_accumulate_val (xs : list BabyBear) (fr : Bn254Fr) k :
  0 <= k → k + 31 * Z.of_nat (length xs) <= 248 →
  0 <= as_canonical_biguint fr < 2 ^ k →
  as_canonical_biguint
    (foldl (λ result word,
      fr_add (fr_mul result (fr_from_canonical_u64 (Z.shiftl 1 31)))
             (fr_from_canonical_u32 (as_canonical_u32 word))) fr xs)
  = base31 (as_canonical_biguint fr) (as_canonical_u32 <$> xs).
Proof.
  revert fr k. induction xs as [|x xs IH]; intros fr k Hk Hlen Hfr; [done|].
  rewrite fmap_cons. unfold base31. simpl foldl. rewrite length_cons in Hlen.
  pose proof (canonical_in_width x) as Hx. unfold in_width in Hx.
  assert (2 ^ k <= 2 ^ 217) by (apply Z.pow_le_mono_r; lia).
  assert (as_canonical_biguint (fr_add (fr_mul fr (fr_from_canonical_u64 (Z.shiftl 1 31)))
            (fr_from_canonical_u32 (as_canonical_u32 x)))
          = as_canonical_biguint fr * 2 ^ 31 + as_canonical_u32 x) as Hstep.
  { change (Z.shiftl 1 31) with (2 ^ 31).
    rewrite fr_add_val, fr_mul_val, fr_from_canonical_u64_val, fr_from_canonical_u32_val
      by (unfold in_width; lia).
    assert (∀ z, 0 <= z < 2 ^ 250 → z mod BN254_R = z) as Hsmall
      by (intros z ?; apply Z.mod_small; unfold BN254_R; lia).
    by rewrite (Hsmall (2 ^ 31)), (Hsmall (as_canonical_u32 x)), (Hsmall (_ * _)), Hsmall by lia. }
  rewrite (IH _ (k + 31)); [by rewrite Hstep|lia|lia|].
  rewrite Hstep, Z.pow_add_r by lia. nia.
Qed.

Lemma vkey_digest_val (self : BabyBearDigest) :
  as_canonical_biguint (bn254_accumulate self) =
    base31 0 (as_canonical_u32 <$> vec_to_list self).
Proof.
  unfold bn254_accumulate. rewrite (bn254_accumulate_val _ _ 0).
  - by rewrite fr_zero_val.
  - lia.
  - rewrite length_vec_to_list. lia.
  - rewrite fr_zero_val. simpl. lia.
Qed.

Lemma byte_length_31 z : 0 <= z < 2 ^ 248 → byte_length z = 31%nat ↔ 2 ^ 240 <= z.
Proof.
  intros Hz. unfold byte_length. split.
  - intros Hlen. destruct (decide (2 ^ 240 <= z)); [done|].
    assert (Z.log2 z < 240).
    { destruct (decide (z = 0)) as [->|]; [done|]. apply Z.log2_lt_pow2; lia. }
    pose proof (Z.log2_nonneg z). pose proof (Z.div_lt_upper_bound (Z.log2 z) 8 30).
    pose proof (Z.div_pos (Z.log2 z) 8). lia.
  - intros Hle. assert (240 <= Z.log2 z) by (apply Z.log2_le_pow2; lia).
    assert (Z.log2 z < 248) by (apply Z.log2_lt_pow2; lia).
    assert (Z.log2 z / 8 = 30) by (symmetry; apply (Z.div_unique _ _ _ (Z.log2 z - 240)); lia).
    lia.
Qed.

Lemma leading_word w ws :
  in_width 31 w → Forall (in_width 31) ws → length ws = 7%nat →
  0 <= base31 0 (w :: ws) < 2 ^ 248 ∧ (2 ^ 240 <= base31 0 (w :: ws) ↔ 2 ^ 23 <= w).
Proof.
  intros Hw Hws Hlen.
  pose proof (base31_range 0 ws 0 ltac:(lia) ltac:(lia) Hws) as Hr.
  assert (base31 0 (w :: ws) = w * 2 ^ 217 + base31 0 ws) as ->.
  { unfold base31 at 1. simpl foldl. fold (base31 w ws). by rewrite base31_acc, Hlen. }
  rewrite Hlen in Hr. change (0 + 31 * Z.of_nat 7) with 217 in Hr.
  unfold in_width in Hw. lia.
Qed.

Lemma to_hash_bn254_value {E} (w : BabyBear) (ws : vec BabyBear 7) :
  let words := as_canonical_u32 <$> vec_to_list (w ::: ws) in
  to_hash_bn254 (E:=E) (w ::: ws) =
    if decide (2 ^ 23 <= as_canonical_u32 w) then Ok (be_array 32 (base31 0 words))
    else Panic (PayloadString
      "copy_from_slice: source slice length does not match destination slice length").
Proof.
  intros words. unfold to_hash_bn254. rewrite vkey_digest_val. fold words.
  destruct (leading_word (as_canonical_u32 w) (as_canonical_u32 <$> vec_to_list ws))
    as [Hrange Hlead].
  { apply canonical_in_width. }
  { apply Forall_fmap, Forall_true. intros x. apply canonical_in_width. }
  { by rewrite length_fmap, length_vec_to_list. }
  change (as_canonical_u32 w :: _) with words in Hrange, Hlead.
  rewrite biguint_to_bytes_be_minimal by lia. case_decide as Hd.
  - rewrite (proj2 (byte_length_31 _ Hrange) (proj2 Hlead Hd)).
    assert (vec_to_list (be_array 32 (base31 0 words)) = x00 :: be_bytes 31 (base31 0 words)) as Hv.
    { rewrite vec_to_list_be_array. apply be_value_inj; [by rewrite length_cons, !length_be_bytes|].
      change (x00 :: be_bytes 31 (base31 0 words)) with ([x00] ++ be_bytes 31 (base31 0 words)).
      rewrite be_value_app, !be_value_be_bytes, !Z.mod_small by lia. done. }
    destruct (to_array 31 (be_bytes 31 (base31 0 words))) as [bs|] eqn:Hbs.
    + f_equal. apply vec_to_list_inj2. rewrite Hv. simpl. f_equal. symmetry.
      by apply to_array_Some.
    + apply to_array_None in Hbs. by rewrite length_be_bytes in Hbs.
  - assert (to_array 31 (be_bytes (byte_length (base31 0 words)) (base31 0 words)) = None) as ->;
      [|done].
    apply to_array_None. rewrite length_be_bytes, byte_length_31 by done. lia.
Qed.

(** C23: [to_hash_bn254] converts the key digest to its 32-byte big-endian form, except
    that it panics whenever the leading BabyBear word is below 2^23: the minimal
    encoding is then shorter than the 31 bytes [copy_from_slice] is given. *)
Theorem to_hash_bn254_spec {E} (w : BabyBear) (ws : vec BabyBear 7) :
  let words := as_canonical_u32 <$> vec_to_list (w ::: ws) in
  to_hash_bn254 (E:=E) (w ::: ws) =
    if decide (2 ^ 23 <= as_canonical_u32 w) then Ok (be_array 32 (base31 0 words))
    else Panic (PayloadString
      "copy_from_slice: source slice length does not match destination slice length").
Proof. apply to_hash_bn254_value. Qed.

(** The keys whose digest can be packed, and so the inputs that have params. *)
Definition key_packs (digest : BabyBearDigest) : Prop :=
  2 ^ 23 <= as_canonical_u32 (digest !!! 0%fin).

Lemma to_hash_bn254_packs {E} (digest : BabyBearDigest) :
  key_packs digest → ∃ hash, to_hash_bn254 (E:=E) digest = Ok hash.
Proof.
  unfold key_packs. inv_vec digest. intros w w1 w2 w3 w4 w5 w6 w7 Hw. simpl in Hw.
  pose proof (to_hash_bn254_value (E:=E) w [# w1; w2; w3; w4; w5; w6; w7]) as Hv. cbv zeta in Hv.
  rewrite decide_True in Hv by done. by eexists.
Qed.

Lemma aggchain_params_packs `{!Ecdsa, !UnifiedBridge, !Hashing, !SolAbi} {E} (self : FepInputs) :
  key_packs (aggregation_vkey_hash self) → ∃ params, aggchain_params (E:=E) self = Ok params.
Proof.
  intros [hash Hh]%(to_hash_bn254_packs (E:=E)).
  unfold aggchain_params, encoded_aggchain_params, aggchain_params_values_from. rewrite Hh.
  by eexists.
Qed.
End bn254.

(** ** What the commitments bind *)

Section binding.
Context `{!P3Fields, !P3FieldsLaws, !Ecdsa, !UnifiedBridge, !Hashing, !SolAbi, !SolAbiLaws}.

Lemma base31_snoc acc ws w : base31 acc (ws ++ [w]) = base31 acc ws * 2 ^ 31 + w.
Proof. unfold base31. by rewrite foldl_snoc. Qed.

Lemma base31_inj ws1 ws2 :
  length ws1 = length ws2 → Forall (in_width 31) ws1 → Forall (in_width 31) ws2 →
  base31 0 ws1 = base31 0 ws2 → ws1 = ws2.
Proof.
  revert ws2. induction ws1 as [|w1 ws1 IH] using rev_ind; intros ws2 Hlen.
  { by destruct ws2. }
  destruct ws2 as [|w2 ws2 _] using rev_ind; rewrite length_app in Hlen; simpl in Hlen; [lia|].
  rewrite length_app in Hlen. simpl in Hlen. rewrite !Forall_app, !Forall_singleton.
  unfold in_width. intros [Hws1 Hw1] [Hws2 Hw2]. rewrite !base31_snoc. intros Heq.
  assert (w1 = w2) as -> by lia. f_equal. apply IH; [lia|done|done|lia].
Qed.

Lemma to_hash_bn254_inj {E} (k1 k2 : BabyBearDigest) h :
  to_hash_bn254 (E:=E) k1 = Ok h → to_hash_bn254 (E:=E) k2 = Ok h →
  to_hash_u32 k1 = to_hash_u32 k2.
Proof.
  assert (∀ k : BabyBearDigest, to_hash_bn254 (E:=E) k = Ok h →
    0 <= base31 0 (as_canonical_u32 <$> vec_to_list k) < 2 ^ 256 ∧
    be_value (vec_to_list h) = base31 0 (as_canonical_u32 <$> vec_to_list k)) as Hval.
  { intros k. destruct k as [w ws] using vec_S_inv. intros Hok.
    pose proof (to_hash_bn254_value (E:=E) w ws) as Hs. cbv zeta in Hs. rewrite Hok in Hs.
    destruct (leading_word (as_canonical_u32 w) (as_canonical_u32 <$> vec_to_list ws))
      as [Hrange _].
    { apply canonical_in_width. }
    { apply Forall_fmap, Forall_true. intros x. apply canonical_in_width. }
    { by rewrite length_fmap, length_vec_to_list. }
    change (as_canonical_u32 w :: _) with (as_canonical_u32 <$> vec_to_list (w ::: ws)) in Hrange.
    split; [lia|]. case_decide; [|done]. apply (inj Ok) in Hs. apply (f_equal vec_to_list) in Hs.
    rewrite Hs, vec_to_list_be_array, be_value_be_bytes. apply Z.mod_small. lia. }
  intros [_ Hv1]%Hval [_ Hv2]%Hval. unfold to_hash_u32. apply vec_to_list_inj2.
  rewrite !vec_to_list_map.
  assert (∀ k : BabyBearDigest,
    Forall (in_width 31) (as_canonical_u32 <$> vec_to_list k)) as Hw.
  { intros k. apply Forall_fmap, Forall_true. intros x. apply canonical_in_width. }
  apply base31_inj; [by rewrite !length_fmap, !length_vec_to_list|apply Hw|apply Hw|congruence].
Qed.

(** The inputs that reach the settlement through the params. *)
Record params_agree (a b : FepInputs) : Prop := {
  agree_prev_root : prev_state_root a = prev_state_root b;
  agree_new_root : new_state_root a = new_state_root b;
  agree_block_num : claim_block_num a = claim_block_num b;
  agree_config : rollup_config_hash a = rollup_config_hash b;
  agree_mode : optimistic_mode a = optimistic_mode b;
  agree_sequencer : trusted_sequencer a = trusted_sequencer b;
  agree_range_vkey : range_vkey_commitment a = range_vkey_commitment b;
  agree_aggregation_vkey :
    to_hash_u32 (aggregation_vkey_hash a) = to_hash_u32 (aggregation_vkey_hash b);
}.

Lemma optimistic_mode_bool (a b : FepInputs) :
  bool_decide (optimistic_mode a = EcdsaMode) = bool_decide (optimistic_mode b = EcdsaMode) →
  optimistic_mode a = optimistic_mode b.
Proof. by destruct (optimistic_mode a), (optimistic_mode b). Qed.

Lemma encoded_aggchain_params_inj {E} (a b : FepInputs) e :
  fep_wf a → fep_wf b →
  encoded_aggchain_params (E:=E) a = Ok e → encoded_aggchain_params (E:=E) b = Ok e →
  params_agree a b.
Proof.
  unfold fep_wf, in_width. intros Ha Hb (va & Hva & [= Hea])%outcome_bind_ok
    (vb & Hvb & [= Heb])%outcome_bind_ok.
  apply outcome_bind_ok in Hva as (ka & Hka & [= <-]), Hvb as (kb & Hkb & [= <-]).
  rewrite <-Heb in Hea. apply abi_encode_packed_inj in Hea; simpl in Hea.
  - injection Hea as Hpre Hnew Hnum Hcfg Hmode Hseq Hrange Hkey. subst kb.
    split; try done; [by apply optimistic_mode_bool|by eapply to_hash_bn254_inj].
  - simpl. repeat constructor; simpl; lia.
Qed.

(** The packed encodings of two inputs collide. *)
Definition params_collide (a b : FepInputs) : Prop :=
  ∃ ea eb, encoded_aggchain_params (E:=Empty_set) a = Ok ea ∧
    encoded_aggchain_params (E:=Empty_set) b = Ok eb ∧ ea ≠ eb ∧ keccak256 ea = keccak256 eb.

(** The error type of the encoding is immaterial: it fails in no other way than a panic. *)
Lemma encoded_aggchain_params_any {E E'} (self : FepInputs) e :
  encoded_aggchain_params (E:=E) self = Ok e → encoded_aggchain_params (E:=E') self = Ok e.
Proof.
  unfold encoded_aggchain_params, aggchain_params_values_from, to_hash_bn254.
  destruct (to_array 31 _); [by intros [= <-]|done].
Qed.

Lemma aggchain_params_bind {E} (a b : FepInputs) d :
  fep_wf a → fep_wf b →
  aggchain_params (E:=E) a = Ok d → aggchain_params (E:=E) b = Ok d →
  params_agree a b ∨ params_collide a b.
Proof.
  intros Ha Hb (ea & Hea & [= Hda])%outcome_bind_ok (eb & Heb & [= Hdb])%outcome_bind_ok.
  destruct (decide (ea = eb)) as [<-|Hne]; [left|right].
  - by apply (encoded_aggchain_params_inj (E:=E) a b ea).
  - exists ea, eb. rewrite Hda, Hdb. split_and!; [by eapply encoded_aggchain_params_any..|done|done].
Qed.

(** C17: [aggchain_params] commits to the FEP inputs it stands for: two inputs with the
    same params digest agree on the roots, the block number, the rollup configuration,
    the mode, the sequencer and both verification keys, or their two packed encodings
    collide under keccak256. *)
Theorem aggchain_params_binding {E} (a b : FepInputs) d :
  fep_wf a → fep_wf b →
  aggchain_params (E:=E) a = Ok d → aggchain_params (E:=E) b = Ok d →
  params_agree a b ∨
  ∃ ea eb, encoded_aggchain_params (E:=Empty_set) a = Ok ea ∧
           encoded_aggchain_params (E:=Empty_set) b = Ok eb ∧
           ea ≠ eb ∧ keccak256 ea = keccak256 eb.
Proof. apply aggchain_params_bind. Qed.

(** The inputs that the sequencer signs in optimistic mode. *)
Record signed_agree (a b : FepInputs) : Prop := {
  signed_l1_head : l1_head a = l1_head b;
  signed_prev_root : prev_state_root a = prev_state_root b;
  signed_new_root : new_state_root a = new_state_root b;
  signed_block_num : claim_block_num a = claim_block_num b;
  signed_config : rollup_config_hash a = rollup_config_hash b;
  signed_range_vkey : range_vkey_commitment a = range_vkey_commitment b;
  signed_sequencer : trusted_sequencer a = trusted_sequencer b;
}.

(** The ABI encoding of the public values of the full execution proof. *)
Abbreviation encoded_public_values a :=
  (abi_encode (AggregationProofPublicValues_fields (aggregation_proof_public_values_from a))).

Lemma encoded_public_values_inj (a b : FepInputs) :
  fep_wf a → fep_wf b → encoded_public_values a = encoded_public_values b → signed_agree a b.
Proof.
  unfold fep_wf, in_width. intros Ha Hb He. apply abi_encode_inj in He.
  - injection He as Hhead Hpre Hnew Hnum Hcfg Hrange Hseq. by split.
  - simpl. repeat constructor; simpl; lia.
  - repeat (apply List.Forall_cons; [intros n z [=]; lia|]). apply List.Forall_nil.
Qed.

(** C13: what the trusted sequencer signs binds the claim: if two claims have the same
    signature commitment, they agree on the L1 head, both state roots, the block number, the
    rollup configuration, the range key, the sequencer, the new local exit root and the
    commitment to the imported bridge exits; or the two lists that are hashed collide under
    [keccak256_combine], or the two encodings of the public values under SHA-256. *)
Theorem signature_commitment_binding (a b : FepInputs) ler1 ler2 commit1 commit2 :
  fep_wf a → fep_wf b →
  signature_commitment a ler1 commit1 = signature_commitment b ler2 commit2 →
  (signed_agree a b ∧ ler1 = ler2 ∧ commit1 = commit2) ∨
  (let l1 := [sha256_public_values a; ler1; commit1] in
   let l2 := [sha256_public_values b; ler2; commit2] in
   l1 ≠ l2 ∧ keccak256_combine l1 = keccak256_combine l2) ∨
  (encoded_public_values a ≠ encoded_public_values b ∧
   sha256_digest (encoded_public_values a) = sha256_digest (encoded_public_values b)).
Proof.
  intros Ha Hb Heq.
  destruct (decide ([sha256_public_values a; ler1; commit1] =
                    [sha256_public_values b; ler2; commit2])) as [[= Hsha -> ->]|Hne];
    [|by right; left].
  destruct (decide (encoded_public_values a = encoded_public_values b)) as [He|Hne];
    [left|by right; right].
  split; [by apply encoded_public_values_inj|done].
Qed.
End binding.

(** ** A concrete input *)

Module FepSample.
Import Toy ToyAbi ToyEvm.

Definition digest (n : Z) : Digest := be_array 32 n.
Definition sequencer : Address := be_array 20 51.

(** An input in optimistic mode, signed by [signer], with [w] as the leading word of
    its aggregation verification key. *)
Definition inputs (w : Z) (signature : option (option Address)) : FepInputs := {|
  l1_head := digest 5;
  claim_block_num := 1234;
  rollup_config_hash := digest 7;
  prev_state_root := digest 8;
  prev_withdrawal_storage_root := digest 9;
  prev_block_hash := digest 10;
  new_state_root := digest 11;
  new_withdrawal_storage_root := digest 12;
  new_block_hash := digest 13;
  aggregation_vkey_hash := [# w; 2; 3; 4; 5; 6; 7; 8];
  range_vkey_commitment := digest 14;
  trusted_sequencer := sequencer;
  signature_optimistic_mode := signature;
  l1_info_tree_leaf :=
    {| l1_info_tree_index := 3; rer := digest 0; mer := digest 0;
       inner := {| global_exit_root := digest 1; block_hash := digest 5; timestamp := 9 |} |};
  l1_head_inclusion_proof := (digest 4242, digest 0);
|}.

Example small_key_panics :
  is_panic (E:=Empty_set) (to_hash_bn254 (aggregation_vkey_hash (inputs (2 ^ 23 - 1) None))) = true.
Proof. vm_compute. reflexivity. Qed.

Example signed_verifies :
  verify_fep Host (λ _ _, Ok ()) (inputs (2 ^ 23) (Some (Some sequencer)))
    (digest 4242) (digest 1) (digest 2) = Ok ().
Proof. vm_compute. reflexivity. Qed.

Lemma to_hash_bn254_spec_witness :
  to_hash_bn254 (E:=Empty_set) (aggregation_vkey_hash (inputs (2 ^ 23 - 1) None)) =
    Panic (PayloadString
      "copy_from_slice: source slice length does not match destination slice length").
Proof.
  etransitivity; [exact (to_hash_bn254_spec (2 ^ 23 - 1) [# 2; 3; 4; 5; 6; 7; 8])|].
  vm_compute. reflexivity.
Defined.

Lemma aggchain_params_binding_witness :
  let a := inputs (2 ^ 23) None in
  ∃ d, aggchain_params (E:=Empty_set) a = Ok d ∧
    (params_agree a a ∨
     ∃ ea eb, encoded_aggchain_params (E:=Empty_set) a = Ok ea ∧
              encoded_aggchain_params (E:=Empty_set) a = Ok eb ∧
              ea ≠ eb ∧ keccak256 ea = keccak256 eb).
Proof.
  intros a.
  assert (∃ d, aggchain_params (E:=Empty_set) a = Ok d) as [d Hd]
    by (eexists; vm_compute; reflexivity).
  assert (fep_wf a) as Hwf by (split; vm_compute; congruence).
  exists d. split; [exact Hd|]. exact (aggchain_params_binding a a d Hwf Hwf Hd Hd).
Defined.

(** The key of the aggregation program is not signed: claims that differ only in it have one
    commitment. *)
Lemma signature_commitment_binding_witness :
  let a := inputs (2 ^ 23) None in
  let b := inputs (2 ^ 24) None in
  signature_commitment a (digest 1) (digest 2) = signature_commitment b (digest 1) (digest 2) ∧
  aggregation_vkey_hash a ≠ aggregation_vkey_hash b ∧ signed_agree a b.
Proof.
  intros a b.
  assert (signature_commitment a (digest 1) (digest 2) =
          signature_commitment b (digest 1) (digest 2)) as Heq by reflexivity.
  split; [exact Heq|]. split; [discriminate|].
  assert (fep_wf a ∧ fep_wf b) as [Ha Hb] by (split; split; vm_compute; congruence).
  destruct (signature_commitment_binding a b _ _ _ _ Ha Hb Heq) as [(H & _ & _)|[[H _]|[H _]]];
    [exact H|destruct H; reflexivity|destruct H; reflexivity].
Defined.
End FepSample.
