(* ===== verification/AggchainProof.v ===== *)
(** The aggchain proof: [crates/aggchain-proof-core/src/proof.rs] and the guest program
    [crates/aggchain-proof-program/src/main.rs].

    The guest reads a witness, verifies the full execution proof and the bridge
    constraints, and commits the public values; anything else aborts it, so that no
    proof exists. *)

From S2P Require Import Prelude Bytes Panics Interop Abi StaticCall FilterValues Bridge Fep.

Section witness.
Context `{!P3Fields, !Ecdsa, !UnifiedBridge, !EvmClient, !Hashing, !SolAbi}.

Record AggchainProofWitness : Type := {
  apw_prev_local_exit_root : Digest;
  apw_new_local_exit_root : Digest;
  apw_l1_info_root : Digest;
  apw_origin_network : Z;
  apw_fep : FepInputs;
  apw_commit_imported_bridge_exits : Digest;
  apw_bridge_witness : BridgeWitness;
}.

Definition public_values {E} (self : AggchainProofWitness)
    : outcome E AggchainProofPublicValues :=
  aggchain_params ← aggchain_params (apw_fep self);
  Ok {| apv_prev_local_exit_root := apw_prev_local_exit_root self;
        apv_new_local_exit_root := apw_new_local_exit_root self;
        apv_l1_info_root := apw_l1_info_root self;
        apv_origin_network := apw_origin_network self;
        apv_commit_imported_bridge_exits := apw_commit_imported_bridge_exits self;
        apv_aggchain_params := aggchain_params |}.

Definition bridge_constraints_input (self : AggchainProofWitness) : BridgeConstraintsInput :=
  {| ger_addr := L2_GER_ADDR;
     prev_l2_block_hash := prev_block_hash (apw_fep self);
     new_l2_block_hash := new_block_hash (apw_fep self);
     new_local_exit_root := apw_new_local_exit_root self;
     l1_info_root := apw_l1_info_root self;
     commit_imported_bridge_exits := apw_commit_imported_bridge_exits self;
     bridge_witness := apw_bridge_witness self |}.

(** The fields of a witness have the width of their types, and its slices fit in the address
    space of the guest. *)
Record witness_wf (wit : AggchainProofWitness) : Prop := {
  wf_network : in_width 32 (apw_origin_network wit);
  wf_fep : fep_wf (apw_fep wit);
  wf_indices : indices_wf (bridge_constraints_input wit);
  wf_slices : witness_fits U32_MAX (bridge_constraints_input wit);
}.

#[export] Instance witness_wf_dec (wit : AggchainProofWitness) : Decision (witness_wf wit).
Proof.
  refine (cast_if (decide (in_width 32 (apw_origin_network wit) ∧ fep_wf (apw_fep wit) ∧
    indices_wf (bridge_constraints_input wit) ∧
    witness_fits U32_MAX (bridge_constraints_input wit)))).
  - abstract naive_solver (by split).
  - abstract (intros []; naive_solver).
Defined.

Section verify.
Variable target_os : target.
Variable verify_sp1_proof : HashU32 → u8s 32 → outcome Empty_set ().
Variable usize_max : Z.

Definition verify_aggchain_inputs (self : AggchainProofWitness)
    : outcome ProofError AggchainProofPublicValues :=
  _ ← verify_fep target_os verify_sp1_proof (apw_fep self)
        (apw_l1_info_root self) (apw_new_local_exit_root self)
        (apw_commit_imported_bridge_exits self);
  _ ← map_err ProofBridgeConstraintsError
        (verify usize_max (bridge_constraints_input self));
  public_values self.

(** The statement an aggchain proof stands for. *)
Record aggchain_ok (self : AggchainProofWitness) (pv : AggchainProofPublicValues) : Prop := {
  ok_fep : fep_accepted target_os verify_sp1_proof (apw_fep self) (apw_l1_info_root self)
             (apw_new_local_exit_root self) (apw_commit_imported_bridge_exits self);
  ok_bridge : bridge_ok (bridge_constraints_input self);
  ok_public_values : public_values (E:=ProofError) self = Ok pv;
}.

Lemma verify_aggchain_inputs_ok self pv :
  witness_fits usize_max (bridge_constraints_input self) →
  verify_aggchain_inputs self = Ok pv ↔ aggchain_ok self pv.
Proof.
  intros Hfit. unfold verify_aggchain_inputs. split.
  - intros ([] & Hf & Hrest)%outcome_bind_ok.
    apply outcome_bind_ok in Hrest as ([] & Hb & Hp). apply map_err_ok in Hb.
    split; [by apply verify_fep_ok|by apply (verify_ok usize_max)|done].
  - intros [Hf%verify_fep_ok Hb Hp]. rewrite Hf. simpl.
    rewrite (proj2 (verify_ok usize_max _ Hfit) Hb). done.
Qed.
End verify.
End witness.

(** ** The guest program *)

(** The zkVM's host interface: the hint stream [sp1_zkvm::io::read] deserializes the
    next input from (aborting when it cannot), and the public-value stream. *)
Class ZkvmIo `{!P3Fields, !Ecdsa, !UnifiedBridge, !EvmClient} (W : Type) := {
  io_read : io W Empty_set AggchainProofWitness;
  io_commit : AggchainProofPublicValues → io W Empty_set ();
}.

Section guest.
Context `{!P3Fields, !Ecdsa, !UnifiedBridge, !EvmClient, !Hashing, !SolAbi}.
Context {W : Type} `{!ZkvmIo W}.
Variable verify_sp1_proof : HashU32 → u8s 32 → outcome Empty_set ().
(** The [Debug] text of an error, in the panic message of [unwrap]. *)
Variable debug : ProofError → string.

(** [main]: the guest is a 32-bit RISC-V program. *)
Definition main : io W Empty_set () :=
  aggchain_witness ← io_read;
  aggchain_proof_public_values ← lift (unwrap debug
    (verify_aggchain_inputs Zkvm verify_sp1_proof U32_MAX aggchain_witness));
  io_commit aggchain_proof_public_values.

(** C2: the guest program commits public values only for a witness whose full execution
    proof is accepted and whose bridge constraints hold, and they are the witness's
    public values; and for such a witness it reaches the commit. *)
Theorem main_commits (w w' : W) :
  (∀ witness w1, io_read w = (Ok witness, w1) →
     witness_fits U32_MAX (bridge_constraints_input witness)) →
  main w = (Ok (), w') ↔
  ∃ witness w1 pv,
    io_read w = (Ok witness, w1) ∧
    aggchain_ok Zkvm verify_sp1_proof witness pv ∧
    io_commit pv w1 = (Ok (), w').
Proof.
  intros Hfit. unfold main. split.
  - intros (witness & w1 & Hr & Hrest)%io_bind_ok.
    apply io_bind_ok in Hrest as (pv & w2 & [Hv ->]%lift_ok & Hc). exists witness, w1, pv.
    apply unwrap_ok, verify_aggchain_inputs_ok in Hv; [by split_and!|by eapply Hfit].
  - intros (witness & w1 & pv & Hr & Hok & Hc).
    apply io_bind_ok. exists witness, w1. split; [done|].
    apply io_bind_ok. exists pv, w1. split; [|done]. apply lift_ok. split; [|done].
    apply unwrap_ok, verify_aggchain_inputs_ok; [by eapply Hfit|done].
Qed.

(** C18: a witness that violates the statement aborts the guest before anything is
    committed: the run panics in the state right after the input was read. *)
Theorem main_rejects (w w1 : W) witness :
  io_read w = (Ok witness, w1) →
  witness_fits U32_MAX (bridge_constraints_input witness) →
  (∀ pv, ¬ aggchain_ok Zkvm verify_sp1_proof witness pv) →
  ∃ p, main w = (Panic p, w1).
Proof.
  intros Hr Hfit Hbad. unfold main. rewrite (io_bind_eq_ok _ _ _ _ _ Hr).
  destruct (verify_aggchain_inputs Zkvm verify_sp1_proof U32_MAX witness) as [pv|e|p] eqn:Hv.
  - apply verify_aggchain_inputs_ok in Hv; [|done]. by apply Hbad in Hv.
  - exists (PayloadString (debug e)). by apply io_bind_eq_panic.
  - exists p. by apply io_bind_eq_panic.
Qed.
End guest.

(** ** A concrete run *)

Module AggchainSample.
Import Toy ToyAbi ToyEvm BridgeSample.

(** The input stream and the committed values. *)
Definition world : Type := list AggchainProofWitness * list AggchainProofPublicValues.

#[export] Instance zkvm : ZkvmIo world := {|
  io_read := λ '(ins, outs),
    match ins with
    | witness :: ins => (Ok witness, (ins, outs))
    | [] => (Panic (PayloadStr "input exhausted"), (ins, outs))
    end;
  io_commit pv := λ '(ins, outs), (Ok (), (ins, outs ++ [pv]));
|}.

Definition sequencer : Address := be_array 20 51.

Definition fep (w : Z) (signature : option (option Address)) : FepInputs := {|
  l1_head := digest 5;
  claim_block_num := 60;
  rollup_config_hash := digest 7;
  prev_state_root := digest 8;
  prev_withdrawal_storage_root := digest 9;
  prev_block_hash := digest 50;
  new_state_root := digest 11;
  new_withdrawal_storage_root := digest 12;
  new_block_hash := digest 60;
  aggregation_vkey_hash := [# w; 2; 3; 4; 5; 6; 7; 8];
  range_vkey_commitment := digest 14;
  trusted_sequencer := sequencer;
  signature_optimistic_mode := signature;
  l1_info_tree_leaf := leaf 3;
  l1_head_inclusion_proof := (l1_root, leaf_hash (leaf 3));
|}.

Definition aggchain_witness (gers : list Z) (f : FepInputs) : AggchainProofWitness := {|
  apw_prev_local_exit_root := digest 98;
  apw_new_local_exit_root := new_local_exit_root (input gers);
  apw_l1_info_root := l1_root;
  apw_origin_network := 1;
  apw_fep := f;
  apw_commit_imported_bridge_exits := commit_imported_bridge_exits (input gers);
  apw_bridge_witness := witness gers;
|}.

Definition good : AggchainProofWitness := aggchain_witness [1; 3] (fep (2 ^ 23) None).
Definition signed : AggchainProofWitness :=
  aggchain_witness [1; 3] (fep (2 ^ 23) (Some (Some sequencer))).
Definition bad : AggchainProofWitness :=
  aggchain_witness [1; 3] (fep (2 ^ 23) (Some (Some bridge_addr))).

Definition verify_sp1_proof (_ : HashU32) (_ : u8s 32) : outcome Empty_set () := Ok ().
Definition debug (_ : ProofError) : string := "ProofError".

Definition good_fep : FepInputs := fep (2 ^ 23) None.
Definition good_outcome : outcome Empty_set Digest := aggchain_params good_fep.
Definition good_params : Digest :=
  match good_outcome return Digest with Ok d => d | _ => digest 0 end.

Definition values : AggchainProofPublicValues := {|
  apv_prev_local_exit_root := digest 98;
  apv_new_local_exit_root := digest 99;
  apv_l1_info_root := l1_root;
  apv_origin_network := 1;
  apv_commit_imported_bridge_exits := commit_imported_bridge_exits (input [1; 3]);
  apv_aggchain_params := good_params;
|}.

Example good_commits : main verify_sp1_proof debug ([good], []) = (Ok (), ([], [values])).
Proof. vm_cast_no_check (eq_refl (main verify_sp1_proof debug ([good], []))). Qed.

Example signed_commits :
  is_ok (main verify_sp1_proof debug ([signed], [])).1 = true.
Proof. vm_compute. reflexivity. Qed.

Lemma reads_fit w0 outs witness0 w1 :
  witness_fits U32_MAX (bridge_constraints_input w0) →
  io_read ([w0], outs) = (Ok witness0, w1) →
  witness_fits U32_MAX (bridge_constraints_input witness0).
Proof. simpl. by intros Hw [= <- _]. Qed.

Lemma witness_fits_sample gers f :
  witness_fits U32_MAX (bridge_constraints_input (aggchain_witness gers f)).
Proof. split; vm_compute; discriminate. Qed.

Lemma main_commits_witness :
  ∃ witness w1 pv,
    io_read ([good], []) = (Ok witness, w1) ∧
    aggchain_ok Zkvm verify_sp1_proof witness pv ∧
    io_commit pv w1 = (Ok (), ([], [values])).
Proof.
  refine (proj1 (main_commits verify_sp1_proof debug ([good], []) ([], [values]) _) _).
  - intros witness w1. apply reads_fit, witness_fits_sample.
  - apply good_commits.
Defined.

Lemma main_rejects_witness : ∃ p, main verify_sp1_proof debug ([bad], []) = (Panic p, ([], [])).
Proof.
  apply (main_rejects verify_sp1_proof debug ([bad], []) ([], []) bad).
  - reflexivity.
  - apply witness_fits_sample.
  - intros pv [Hf _ _]. apply verify_fep_ok in Hf.
    assert (is_ok (verify_fep Zkvm verify_sp1_proof (apw_fep bad) (apw_l1_info_root bad)
      (apw_new_local_exit_root bad) (apw_commit_imported_bridge_exits bad)) = false) as Hn
      by (vm_compute; reflexivity).
    rewrite Hf in Hn. discriminate Hn.
Defined.
End AggchainSample.
