(* ===== verification/Binding.v ===== *)
(** What the public values of the guest bind, and what they do not.

    The state that the bridge constraints are about is named by two block hashes of the
    witness.  The blocks determine what the guest commits to about them; but the hashes
    themselves are part of nothing that is committed
    ([crates/aggchain-proof-core/src/{proof,full_execution_proof}.rs]). *)

From S2P Require Import Prelude Bytes Panics Interop Abi StaticCall FilterValues Bridge Fep AggchainProof.

(** What the client executor documents: the result of a call is that of the state of the
    block whose hash it is anchored to, whatever the sketch. *)
Class EvmClientLaws `{!EvmClient} : Prop := {
  evm_anchored s1 s2 caller addr call (v1 v2 : Return call) h :
    evm_returns s1 caller addr call v1 h → evm_returns s2 caller addr call v2 h → v1 = v2;
}.

(** ** The chains of a witness *)

Section chains.
Context `{!Hashing, !UnifiedBridge, !EvmClient}.
Implicit Types a b : BridgeConstraintsInput.

(** Every chain grew by its elements. *)
Definition chain_grew a (t : HashChainType) : Prop :=
  ∃ prev, prev_head a t prev ∧ new_head a t (rebuild_hash_chain prev (chain_elements a t)).

Lemma bridge_ok_chain_grew a t : bridge_ok a → chain_grew a t.
Proof.
  intros [Hi Hr (ba & Hba & (c & Hc & Hc') & (u & Hu & Hu') & _) _ _ _].
  destruct t; [exact Hi| |exact Hr|].
  - exists c. by split; exists ba.
  - exists u. by split; exists ba.
Qed.

Lemma bridge_ok_new_root a : bridge_ok a → new_root a (new_local_exit_root a).
Proof. intros [_ _ (ba & Hba & _ & _ & Hroot) _ _ _]. by exists ba. Qed.

(** *** In two witnesses *)

(** The same contracts, at the same blocks. *)
Record same_blocks a b : Prop := {
  same_ger_addr : ger_addr a = ger_addr b;
  same_prev : prev_l2_block_hash a = prev_l2_block_hash b;
  same_new : new_l2_block_hash a = new_l2_block_hash b;
}.

(** A failure of the hash function that two witnesses of the same blocks exhibit. *)
Inductive hash_broken a b : Prop :=
  | ChainBroken t prev :
      prev_head a t prev → chain_broken prev (chain_elements a t) (chain_elements b t) →
      hash_broken a b
  | ClaimBroken i c1 c2 :
      bridge_exits_claimed (bridge_witness a) !! i = Some c1 →
      bridge_exits_claimed (bridge_witness b) !! i = Some c2 →
      c1 ≠ c2 → claim_commitment c1 = claim_commitment c2 →
      hash_broken a b.

(** A contract that answers the two witnesses differently, at one block. *)
Definition answers_differ a b : Prop :=
  ∃ addr call (v1 v2 : Return call), v1 ≠ v2 ∧
    ((prev_state a addr call v1 ∧ prev_state b addr call v2) ∨
     (new_state a addr call v1 ∧ new_state b addr call v2)).

(** It tells two callers apart: the answer to a caller is determined by the block. *)
Lemma answers_agree `{!EvmClientLaws} a b :
  same_blocks a b → caller_address (bridge_witness a) = caller_address (bridge_witness b) →
  ¬ answers_differ a b.
Proof.
  unfold prev_state, new_state. intros [_ Hp Hn] Hc (addr & call & v1 & v2 & Hne & Hv).
  unfold prev_state, new_state in Hv. rewrite Hp, Hn, Hc in Hv.
  destruct Hv as [[Hva Hvb]|[Hva Hvb]]; by apply Hne, (evm_anchored _ _ _ _ _ _ _ _ Hva Hvb).
Qed.

#[export] Instance Return_eq_dec call : EqDecision (Return call).
Proof. destruct call; apply _. Defined.

Lemma prev_state_det a b addr call v1 v2 :
  prev_state a addr call v1 → prev_state b addr call v2 → v1 = v2 ∨ answers_differ a b.
Proof.
  intros. destruct (decide (v1 = v2)); [by left|right]. exists addr, call, v1, v2. eauto.
Qed.

Lemma new_state_det a b addr call v1 v2 :
  new_state a addr call v1 → new_state b addr call v2 → v1 = v2 ∨ answers_differ a b.
Proof.
  intros. destruct (decide (v1 = v2)); [by left|right]. exists addr, call, v1, v2. eauto.
Qed.

Lemma at_bridge_det {V} a b (P Q : Address → V → Prop) v1 v2 :
  same_blocks a b → (∀ addr, P addr v1 → Q addr v2 → v1 = v2 ∨ answers_differ a b) →
  at_bridge a (λ addr, P addr v1) → at_bridge b (λ addr, Q addr v2) →
  v1 = v2 ∨ answers_differ a b.
Proof.
  intros Hs Hdet (b1 & Hb1 & HP) (b2 & Hb2 & HQ).
  rewrite <-(same_ger_addr a b Hs) in Hb2.
  destruct (new_state_det a b _ _ _ _ Hb1 Hb2) as [<-|]; [by eapply Hdet|by right].
Qed.

Lemma head_in_det a b (s1 s2 : Address → ∀ call, Return call → Prop) t h1 h2 :
  same_blocks a b →
  (∀ addr call v1 v2, s1 addr call v1 → s2 addr call v2 → v1 = v2 ∨ answers_differ a b) →
  head_in a s1 t h1 → head_in b s2 t h2 → h1 = h2 ∨ answers_differ a b.
Proof.
  intros Hs Hdet. pose proof (same_ger_addr a b Hs) as Hger.
  destruct t; simpl; [rewrite Hger; by apply Hdet| |rewrite Hger; by apply Hdet|].
  - apply (at_bridge_det a b (λ addr, s1 addr claimedGlobalIndexHashChainCall)
      (λ addr, s2 addr claimedGlobalIndexHashChainCall)); [done|]. intros addr. by apply Hdet.
  - apply (at_bridge_det a b (λ addr, s1 addr unsetGlobalIndexHashChainCall)
      (λ addr, s2 addr unsetGlobalIndexHashChainCall)); [done|]. intros addr. by apply Hdet.
Qed.

(** Two accepted witnesses of the same blocks have the same chains. *)
Lemma chain_elements_det a b t :
  same_blocks a b → bridge_ok a → bridge_ok b →
  chain_elements a t = chain_elements b t ∨ hash_broken a b ∨ answers_differ a b.
Proof.
  intros Hs Ha Hb.
  destruct (bridge_ok_chain_grew a t Ha) as (p & Hp & Hn),
    (bridge_ok_chain_grew b t Hb) as (q & Hq & Hm).
  assert (p = q ∨ answers_differ a b) as [<-|?]; [| |by auto].
  { apply (head_in_det a b (prev_state a) (prev_state b) t p q Hs); [|done..].
    intros addr call v1 v2. by apply prev_state_det. }
  assert (rebuild_hash_chain p (chain_elements a t) = rebuild_hash_chain p (chain_elements b t)
          ∨ answers_differ a b) as [[?|?]%rebuild_hash_chain_inj|?]; [|by left| |by auto].
  { apply (head_in_det a b (new_state a) (new_state b) t _ _ Hs); [|done..].
    intros addr call v1 v2. by apply new_state_det. }
  right. left. by apply (ChainBroken a b t p).
Qed.

Lemma unset_det a b :
  indices_wf a → indices_wf b → unset_claims a = unset_claims b →
  global_indices_unset (bridge_witness a) = global_indices_unset (bridge_witness b).
Proof.
  unfold indices_wf. rewrite !Forall_lookup. intros Ha Hb Heq.
  apply fmap_eq_or_collide in Heq as [?|(i & x & y & Hx & Hy & Hne & Heq)]; [done|].
  destruct Hne. apply Ha in Hx. apply Hb in Hy. apply (f_equal vec_to_list) in Heq.
  rewrite !vec_to_list_be_array in Heq. by apply be_bytes_inj in Heq.
Qed.

(** What the guest commits to about the blocks. *)
Record same_claims a b : Prop := {
  same_ler : new_local_exit_root a = new_local_exit_root b;
  same_commitment : commit_imported_bridge_exits a = commit_imported_bridge_exits b;
  same_gers : ger <$> inserted_gers (bridge_witness a) = ger <$> inserted_gers (bridge_witness b);
}.

Lemma bridge_ok_det a b :
  same_blocks a b → indices_wf a → indices_wf b → bridge_ok a → bridge_ok b →
  same_claims a b ∨ hash_broken a b ∨ answers_differ a b.
Proof.
  intros Hs Hwa Hwb Ha Hb.
  destruct (chain_elements_det a b StaticCall.InsertedGER Hs Ha Hb) as [Hi|?]; [|by right].
  destruct (chain_elements_det a b RemovedGER Hs Ha Hb) as [Hr|?]; [|by right].
  destruct (chain_elements_det a b UnsetGlobalIndex Hs Ha Hb) as [Hu|?]; [|by right].
  apply unset_det in Hu; [|done..].
  destruct (chain_elements_det a b ClaimedGlobalIndex Hs Ha Hb) as [Hc|?]; [|by right].
  apply fmap_eq_or_collide in Hc as [Hc|(i & c1 & c2 & Hc1 & Hc2 & Hne & Heq)];
    [|right; left; by apply (ClaimBroken a b i c1 c2)].
  assert (new_local_exit_root a = new_local_exit_root b ∨ answers_differ a b) as [Hler|?];
    [|left|by auto].
  { apply (at_bridge_det a b (λ addr, new_state a addr getRootCall)
      (λ addr, new_state b addr getRootCall)); [done| |by apply bridge_ok_new_root..].
    intros addr. by apply new_state_det. }
  split; [done| |].
  - rewrite <-(ok_claims a Ha), <-(ok_claims b Hb). by rewrite Hc, Hu.
  - rewrite (ok_gers a Ha), (ok_gers b Hb). simpl in Hi, Hr. by rewrite Hi, Hr.
Qed.
End chains.

(** ** Accepted witnesses *)

Section accepted.
Context `{!P3Fields, !Ecdsa, !UnifiedBridge, !EvmClient, !Hashing, !SolAbi}.
Variable target_os : target.
Variable verify_sp1_proof : HashU32 → u8s 32 → outcome Empty_set ().

Abbreviation aggchain_ok := (aggchain_ok target_os verify_sp1_proof).
Abbreviation bridge_input := bridge_constraints_input.

Lemma public_values_fields {E} (self : AggchainProofWitness) pv :
  public_values (E:=E) self = Ok pv →
  aggchain_params (E:=E) (apw_fep self) = Ok (apv_aggchain_params pv) ∧
  apv_prev_local_exit_root pv = apw_prev_local_exit_root self ∧
  apv_new_local_exit_root pv = apw_new_local_exit_root self ∧
  apv_l1_info_root pv = apw_l1_info_root self ∧
  apv_origin_network pv = apw_origin_network self ∧
  apv_commit_imported_bridge_exits pv = apw_commit_imported_bridge_exits self.
Proof. by intros (d & -> & [= <-])%outcome_bind_ok. Qed.

(** C11: the L2 blocks determine what is proved about them: two accepted witnesses for the
    same block hashes, whose unset indices are 256-bit numbers as their type says, commit to
    the same new local exit root and the same imported bridge exits, and list the same
    inserted GERs; or they exhibit a failure of a hash function (colliding or circular chains,
    or two claims with one commitment), or a contract whose answer at one of these blocks is
    not the same for both: the caller of the static calls is part of the witness, and the EVM
    client determines the answer from the block and the caller only ([answers_agree]). *)
Theorem l2_blocks_determine_claims (w1 w2 : AggchainProofWitness) pv1 pv2 :
  prev_block_hash (apw_fep w1) = prev_block_hash (apw_fep w2) →
  new_block_hash (apw_fep w1) = new_block_hash (apw_fep w2) →
  indices_wf (bridge_input w1) → indices_wf (bridge_input w2) →
  aggchain_ok w1 pv1 → aggchain_ok w2 pv2 →
  (apv_new_local_exit_root pv1 = apv_new_local_exit_root pv2 ∧
   apv_commit_imported_bridge_exits pv1 = apv_commit_imported_bridge_exits pv2 ∧
   ger <$> inserted_gers (apw_bridge_witness w1) = ger <$> inserted_gers (apw_bridge_witness w2)) ∨
  hash_broken (bridge_input w1) (bridge_input w2) ∨
  answers_differ (bridge_input w1) (bridge_input w2).
Proof.
  intros Hprev Hnew Hw1 Hw2 [_ Hb1 (_ & _ & -> & _ & _ & ->)%public_values_fields]
    [_ Hb2 (_ & _ & -> & _ & _ & ->)%public_values_fields].
  assert (same_blocks (bridge_input w1) (bridge_input w2)) as Hs by (by split).
  destruct (bridge_ok_det _ _ Hs Hw1 Hw2 Hb1 Hb2) as [[]|]; auto.
Qed.

(** The same claim, with the bridge constraints checked elsewhere: at blocks of any hashes,
    from any sketches. *)
Definition moved_fep (self : FepInputs) (prev new : Digest) : FepInputs :=
  {| l1_head := l1_head self;
     claim_block_num := claim_block_num self;
     rollup_config_hash := rollup_config_hash self;
     prev_state_root := prev_state_root self;
     prev_withdrawal_storage_root := prev_withdrawal_storage_root self;
     prev_block_hash := prev;
     new_state_root := new_state_root self;
     new_withdrawal_storage_root := new_withdrawal_storage_root self;
     new_block_hash := new;
     aggregation_vkey_hash := aggregation_vkey_hash self;
     range_vkey_commitment := range_vkey_commitment self;
     trusted_sequencer := trusted_sequencer self;
     signature_optimistic_mode := signature_optimistic_mode self;
     l1_info_tree_leaf := l1_info_tree_leaf self;
     l1_head_inclusion_proof := l1_head_inclusion_proof self |}.

Definition moved (self : AggchainProofWitness) (prev new : Digest) (bridge : BridgeWitness)
    : AggchainProofWitness :=
  {| apw_prev_local_exit_root := apw_prev_local_exit_root self;
     apw_new_local_exit_root := apw_new_local_exit_root self;
     apw_l1_info_root := apw_l1_info_root self;
     apw_origin_network := apw_origin_network self;
     apw_fep := moved_fep (apw_fep self) prev new;
     apw_commit_imported_bridge_exits := apw_commit_imported_bridge_exits self;
     apw_bridge_witness := bridge |}.

(** C12: nothing ties the L2 blocks of the bridge constraints to the claim: once a witness
    is accepted, the same full execution proof or signature is accepted, with the same
    public values, with any other two blocks at which the bridge constraints hold for the
    exit root, the bridge exits and the L1 info root of the claim. *)
Theorem block_hashes_not_bound (w : AggchainProofWitness) pv prev new bridge :
  aggchain_ok w pv →
  aggchain_ok (moved w prev new bridge) pv ↔
  bridge_ok {| ger_addr := L2_GER_ADDR; prev_l2_block_hash := prev; new_l2_block_hash := new;
               new_local_exit_root := apv_new_local_exit_root pv;
               l1_info_root := apv_l1_info_root pv;
               commit_imported_bridge_exits := apv_commit_imported_bridge_exits pv;
               bridge_witness := bridge |}.
Proof.
  intros [Hf _ Hp]. pose proof (public_values_fields _ _ Hp) as (_ & _ & -> & -> & _ & ->).
  split; [by intros [_ Hb _]|]. intros Hb. by split; [destruct Hf; econstructor| |].
Qed.
End accepted.

(** ** Concrete witnesses

    A sketch names the block it was made for; the blocks 50 and 60 have siblings 51 and 61
    with the same contracts. *)

Module BindingSample.
Import Toy ToyAbi BridgeSample.

Definition claimed : list GlobalIndexWithLeafHash := [claim 7; claim 8; claim 7].

Definition storage (h : Digest) : list (Address * SolCall * bytes) :=
  if decide (h ∈ [digest 50; digest 51]) then (sketch 50 [] [] [] []).2
  else (sketch 60 [1; 2; 3] [2] claimed [7]).2.

#[export] Instance evm : EvmClient := {|
  EvmSketchInput := Digest;
  ClientError := Empty_set;
  SolError := unit;
  ClientExecutor := Digest;
  ClientExecutor_eth sketch := Ok sketch;
  ClientExecutor_execute sketch input :=
    match List.find (λ '(addr, c, _), bool_decide (addr = contract_address input ∧
                                                   c = calldata input)) (storage sketch) with
    | Some (_, _, out) => Ok {| contractOutput := out; anchorHash := sketch |}
    | None => Err (ReportMsg "missing state")
    end;
  abi_decode_returns_validate c out := ok_or tt (ToyEvm.decode_word c out);
|}.

#[export] Instance evm_laws : EvmClientLaws.
Proof.
  split. intros s1 s2 caller addr call v1 v2 h H1 H2.
  assert (∀ s v, evm_returns s caller addr call v h → s = h) as Hs.
  { intros s v (ex & out & Hex & Hx & _ & Hh). injection Hex as <-. simpl in Hx.
    destruct (List.find _ _) as [[[? ?] ?]|]; [|discriminate Hx]. by injection Hx as <-. }
  pose proof (Hs s1 v1 H1) as ->. pose proof (Hs s2 v2 H2) as ->.
  by destruct (evm_returns_det _ _ _ _ _ _ _ _ H1 H2).
Qed.

Definition bridge_at (caller : Z) (prev new : Digest) : BridgeWitness :=
  {| inserted_gers := inserted <$> [1; 3];
     raw_inserted_gers := digest <$> [1; 2; 3];
     removed_gers := [digest 2];
     bridge_exits_claimed := claimed;
     global_indices_unset := [7];
     prev_l2_block_sketch := prev;
     new_l2_block_sketch := new;
     caller_address := be_array 20 caller |}.

(** Two witnesses for the blocks 50 and 60, by different callers and from different exit
    roots. *)
Definition witness_by (caller prev_ler : Z) : AggchainProofWitness := {|
  apw_prev_local_exit_root := digest prev_ler;
  apw_new_local_exit_root := digest 99;
  apw_l1_info_root := l1_root;
  apw_origin_network := 1;
  apw_fep := AggchainSample.fep (2 ^ 23) None;
  apw_commit_imported_bridge_exits := imported_bridge_exits_commitment [claim 8; claim 7] V3;
  apw_bridge_witness := bridge_at caller (digest 50) (digest 60) |}.

Definition witness : AggchainProofWitness := witness_by 1 98.
Definition other_witness : AggchainProofWitness := witness_by 2 97.

Definition verify_sp1_proof (_ : HashU32) (_ : u8s 32) : outcome Empty_set () := Ok ().

Definition accepted (w : AggchainProofWitness) : outcome ProofError AggchainProofPublicValues :=
  verify_aggchain_inputs Zkvm verify_sp1_proof U32_MAX w.

Definition elsewhere : AggchainProofWitness :=
  moved witness (digest 51) (digest 61) (bridge_at 1 (digest 51) (digest 61)).

Example accepted_ok : is_ok (accepted witness) = true ∧ is_ok (accepted other_witness) = true.
Proof. vm_compute. split; reflexivity. Qed.

Example elsewhere_ok : verify U32_MAX (bridge_constraints_input elsewhere) = Ok ().
Proof. vm_compute. reflexivity. Qed.

Lemma accepted_fits caller prev_ler :
  witness_fits U32_MAX (bridge_constraints_input (witness_by caller prev_ler)).
Proof. split; vm_compute; discriminate. Qed.

Lemma elsewhere_fits : witness_fits U32_MAX (bridge_constraints_input elsewhere).
Proof. split; vm_compute; discriminate. Qed.

Lemma accepted_is_ok caller prev_ler pv :
  accepted (witness_by caller prev_ler) = Ok pv →
  aggchain_ok Zkvm verify_sp1_proof (witness_by caller prev_ler) pv.
Proof.
  apply (verify_aggchain_inputs_ok Zkvm verify_sp1_proof U32_MAX), accepted_fits.
Qed.

Lemma accepted_wf caller prev_ler :
  indices_wf (bridge_constraints_input (witness_by caller prev_ler)).
Proof. apply List.Forall_cons; [split; [discriminate|reflexivity]|apply List.Forall_nil]. Qed.

Lemma accepted_values caller prev_ler :
  is_ok (accepted (witness_by caller prev_ler)) = true →
  ∃ pv, aggchain_ok Zkvm verify_sp1_proof (witness_by caller prev_ler) pv.
Proof.
  intros Ha. destruct (accepted (witness_by caller prev_ler)) as [pv| |] eqn:Hpv; [|done..].
  apply accepted_is_ok in Hpv. by exists pv.
Qed.

Lemma elsewhere_bridge_ok : bridge_ok (bridge_constraints_input elsewhere).
Proof. apply (verify_ok U32_MAX); [apply elsewhere_fits|apply elsewhere_ok]. Qed.

Lemma l2_blocks_determine_claims_witness :
  ∃ pv1 pv2, apv_prev_local_exit_root pv1 ≠ apv_prev_local_exit_root pv2 ∧
    ((apv_new_local_exit_root pv1 = apv_new_local_exit_root pv2 ∧
      apv_commit_imported_bridge_exits pv1 = apv_commit_imported_bridge_exits pv2 ∧
      ger <$> inserted_gers (apw_bridge_witness witness) =
      ger <$> inserted_gers (apw_bridge_witness other_witness)) ∨
     hash_broken (bridge_constraints_input witness) (bridge_constraints_input other_witness) ∨
     answers_differ (bridge_constraints_input witness) (bridge_constraints_input other_witness)).
Proof.
  destruct (accepted_values 1 98 (proj1 accepted_ok)) as [pv1 H1].
  destruct (accepted_values 2 97 (proj2 accepted_ok)) as [pv2 H2].
  exists pv1, pv2. split.
  - pose proof (public_values_fields _ _ (ok_public_values _ _ _ _ H1)) as (_ & -> & _).
    pose proof (public_values_fields _ _ (ok_public_values _ _ _ _ H2)) as (_ & -> & _).
    apply (bool_decide_unpack _). vm_compute. exact I.
  - exact (l2_blocks_determine_claims Zkvm verify_sp1_proof witness other_witness pv1 pv2
             eq_refl eq_refl (accepted_wf 1 98) (accepted_wf 2 97) H1 H2).
Defined.

(** The claim about the blocks 50 and 60 is also proved at 51 and 61. *)
Lemma block_hashes_not_bound_witness :
  ∃ pv, aggchain_ok Zkvm verify_sp1_proof witness pv ∧
    aggchain_ok Zkvm verify_sp1_proof elsewhere pv.
Proof.
  destruct (accepted_values 1 98 (proj1 accepted_ok)) as [pv Hpv].
  exists pv. split; [exact Hpv|].
  apply (block_hashes_not_bound Zkvm verify_sp1_proof witness pv (digest 51) (digest 61)
           (bridge_at 1 (digest 51) (digest 61)) Hpv).
  pose proof (public_values_fields _ _ (ok_public_values _ _ _ _ Hpv)) as (_ & _ & -> & -> & _ & ->).
  exact elsewhere_bridge_ok.
Defined.
End BindingSample.
