(* ===== verification/ProofInputs.v ===== *)
(** The inputs of an aggchain proof request: [crates/aggchain-proof-types/src].

    [sorted_inserted_gers] turns the request's map of GER leaves into the ordered list
    the guest replays.  A [HashMap] is iterated in an unspecified order and the sort is
    unstable, so both are interfaces whose laws are what their documentation promises. *)

From stdpp Require Import sorting.
From S2P Require Import Prelude Bytes Panics Interop StaticCall Bridge.

(** ** Unspecified orders of the standard library *)

(** The iteration order of a [HashMap<String, V>] and the order that
    [sort_unstable_by_key] leaves equal keys in. *)
Class UnspecifiedOrders := {
  hash_map_values : ∀ {V}, gmap string V → list V;
  hash_map_iter : ∀ {V}, gmap string V → list (string * V);
  sort_unstable_by_key : ∀ {V}, (V → Z * Z) → list V → list V;
}.

(** The lexicographic order on the [(u64, u64)] keys. *)
Definition key_le (k1 k2 : Z * Z) : Prop :=
  k1.1 < k2.1 ∨ (k1.1 = k2.1 ∧ k1.2 <= k2.2).

Class UnspecifiedOrdersLaws (orders : UnspecifiedOrders) : Prop := {
  hash_map_values_perm {V} (m : gmap string V) : hash_map_values m ≡ₚ (map_to_list m).*2;
  hash_map_iter_perm {V} (m : gmap string V) : hash_map_iter m ≡ₚ map_to_list m;
  sort_unstable_perm {V} (key : V → Z * Z) l : sort_unstable_by_key key l ≡ₚ l;
  sort_unstable_sorted {V} (key : V → Z * Z) l :
    StronglySorted (λ x y, key_le (key x) (key y)) (sort_unstable_by_key key l);
}.

(** ** The data *)

(** [agglayer_interop::types::GlobalIndex] and its conversion into [U256]. *)
Class GlobalIndices := {
  GlobalIndex : Type;
  global_index_into_u256 : GlobalIndex → U256;
}.

(** [RangeInclusive<u64>]. *)
Record RangeInclusive : Type := { range_start : Z; range_end : Z }.

Definition range_contains (range : RangeInclusive) (z : Z) : bool :=
  (range_start range <=? z) && (z <=? range_end range).

Section data.
Context `{!UnifiedBridge, !Ecdsa, !GlobalIndices}.

Record ImportedBridgeExitWithBlockNumber : Type := {
  ibe_block_number : Z;
  ibe_bridge_exit_hash : Digest;
  ibe_global_index : GlobalIndex;
}.

Record InsertedGer : Type := {
  proof_ger_l1root : MerkleProof;
  l1_leaf : L1InfoTreeLeaf;
}.

Record InsertedGerWithBlockNumber : Type := {
  igb_block_number : Z;
  inserted_ger : InsertedGer;
  igb_block_index : Z;
}.

Record AggchainProofInputs : Type := {
  last_proven_block : Z;
  requested_end_block : Z;
  l1_info_tree_root_hash : Digest;
  api_l1_info_tree_leaf : L1InfoTreeLeaf;
  l1_info_tree_merkle_proof : MerkleProof;
  ger_leaves : gmap string InsertedGerWithBlockNumber;
  imported_bridge_exits : list ImportedBridgeExitWithBlockNumber;
}.

Record OptimisticAggchainProofInputs : Type := {
  aggchain_proof_inputs : AggchainProofInputs;
  opt_signature_optimistic_mode : Signature;
}.

(** The closure that forgets the request's wrapper. *)
Definition inserted_ger_of (e : InsertedGerWithBlockNumber) : InsertedGER :=
  {| ig_proof := proof_ger_l1root (inserted_ger e);
     ig_l1_info_tree_leaf := l1_leaf (inserted_ger e);
     ig_block_number := igb_block_number e;
     ig_block_index := igb_block_index e |}.

Definition sort_key (e : InsertedGER) : Z * Z := (ig_block_number e, ig_block_index e).

Definition sorted_inserted_gers {orders : UnspecifiedOrders} (self : AggchainProofInputs)
    (range : RangeInclusive) : list InsertedGER :=
  let values :=
    inserted_ger_of <$>
      List.filter (λ inserted_ger, range_contains range (igb_block_number inserted_ger))
        (hash_map_values (ger_leaves self)) in
  sort_unstable_by_key sort_key values.
End data.

(** ** Lemmas *)

Lemma key_le_antisym k1 k2 : key_le k1 k2 → key_le k2 k1 → k1 = k2.
Proof. destruct k1, k2. unfold key_le. simpl. intros. f_equal; lia. Qed.

Lemma range_contains_true range z :
  range_contains range z = true ↔ range_start range <= z <= range_end range.
Proof.
  unfold range_contains. destruct (Z.leb_spec (range_start range) z), (Z.leb_spec z (range_end range));
    simpl; split; intros; (done || lia).
Qed.

(** Two sorted lists with the same elements are equal when no two elements share a key. *)
Lemma sorted_unique {V} (key : V → Z * Z) (l1 l2 : list V) :
  l1 ≡ₚ l2 → NoDup (key <$> l1) →
  StronglySorted (λ x y, key_le (key x) (key y)) l1 →
  StronglySorted (λ x y, key_le (key x) (key y)) l2 →
  l1 = l2.
Proof.
  revert l2. induction l1 as [|x l1 IH]; intros l2 Hp Hnd Hs1 Hs2.
  { by apply Permutation_nil_l in Hp. }
  destruct l2 as [|y l2]; [by apply Permutation_nil_r in Hp|].
  apply StronglySorted_inv in Hs1 as [Hs1 Hx]. apply StronglySorted_inv in Hs2 as [Hs2 Hy].
  rewrite fmap_cons, list.NoDup_cons in Hnd. destruct Hnd as [Hfresh Hnd].
  assert (x = y) as ->.
  { assert (x ∈ y :: l2) as [->|Hin2]%elem_of_cons by (rewrite <-Hp; left); [done|].
    assert (y ∈ x :: l1) as [->|Hin1]%elem_of_cons by (rewrite Hp; left); [done|].
    rewrite list.Forall_forall in Hx, Hy.
    pose proof (key_le_antisym _ _ (Hx _ Hin1) (Hy _ Hin2)) as Heq.
    destruct Hfresh. rewrite Heq. apply list_elem_of_fmap. by exists y. }
  f_equal. apply IH; [by apply Permutation_cons_inv in Hp|done..].
Qed.

(** ** Properties *)

Section properties.
Context `{!UnifiedBridge, !Ecdsa, !GlobalIndices}.

(** What the list must be: the leaves in range, in key order. *)
Definition in_range_gers (self : AggchainProofInputs) (range : RangeInclusive)
    : list InsertedGER :=
  inserted_ger_of <$>
    List.filter (λ e, range_contains range (igb_block_number e)) (map_to_list (ger_leaves self)).*2.

Lemma filter_Permutation {A} (f : A → bool) (l1 l2 : list A) :
  l1 ≡ₚ l2 → List.filter f l1 ≡ₚ List.filter f l2.
Proof.
  induction 1 as [|x l1 l2 _ IH|x y l|l1 l2 l3 _ IH1 _ IH2]; simpl; [done| | |by etrans].
  - destruct (f x); [by constructor|done].
  - destruct (f x), (f y); first [done|apply perm_swap].
Qed.

Lemma sorted_inserted_gers_perm `{!UnspecifiedOrdersLaws orders} self range :
  sorted_inserted_gers (orders:=orders) self range ≡ₚ in_range_gers self range.
Proof.
  unfold sorted_inserted_gers, in_range_gers. rewrite sort_unstable_perm.
  apply fmap_Permutation, filter_Permutation, hash_map_values_perm.
Qed.

(** A leaf of the request, and the inserted GER that the guest is given for it. *)
Record ger_given (leaf : InsertedGerWithBlockNumber) (g : InsertedGER) : Prop := {
  given_block : ig_block_number g = igb_block_number leaf;
  given_index : ig_block_index g = igb_block_index leaf;
  given_proof : ig_proof g = proof_ger_l1root (inserted_ger leaf);
  given_leaf : ig_l1_info_tree_leaf g = l1_leaf (inserted_ger leaf);
}.

(** Earlier on the chain: in an earlier block, or not later in the same block. *)
Definition chain_order (x y : InsertedGER) : Prop :=
  ig_block_number x < ig_block_number y ∨
  (ig_block_number x = ig_block_number y ∧ ig_block_index x <= ig_block_index y).

Lemma list_filter_sublist {A} (f : A → bool) (l : list A) : List.filter f l `sublist_of` l.
Proof.
  induction l as [|x l IH]; simpl; [constructor|].
  destruct (f x); [by apply sublist_skip|by apply sublist_cons].
Qed.

Lemma in_range_leaves self range (l : list InsertedGER) :
  l ≡ₚ in_range_gers self range →
  ∃ leaves : list (string * InsertedGerWithBlockNumber), NoDup leaves.*1 ∧
    (∀ k e, (k, e) ∈ leaves ↔
       ger_leaves self !! k = Some e ∧
       range_start range <= igb_block_number e <= range_end range) ∧
    l = (λ kv, inserted_ger_of kv.2) <$> leaves.
Proof.
  set (f := λ kv : string * InsertedGerWithBlockNumber, inserted_ger_of kv.2).
  set (all := List.filter (λ kv : string * InsertedGerWithBlockNumber,
    range_contains range (igb_block_number kv.2)) (map_to_list (ger_leaves self))).
  assert (in_range_gers self range = f <$> all) as ->.
  { unfold in_range_gers, all, f. induction (map_to_list _) as [|kv kvs IH]; [done|].
    csimpl. destruct (range_contains _ _); csimpl; by rewrite IH. }
  intros Hl. destruct (Permutation_map_inv f all Hl) as (leaves & -> & Hp). exists leaves.
  split_and!; [| |done].
  - rewrite <-Hp. eapply sublist_NoDup; [apply (NoDup_fst_map_to_list (ger_leaves self))|by apply fmap_sublist, list_filter_sublist].
  - intros k e. rewrite <-Hp, <-range_contains_true, <-elem_of_map_to_list.
    unfold all. rewrite !list_elem_of_In, List.filter_In. done.
Qed.

(** C22: the GERs given to the guest are the leaves of the request in the block range: every
    leaf whose block is in the range is given once, with its proof, its L1 leaf and its place,
    no other is, and they are in the order of the chain, by block number and by index within a
    block, whatever the iteration order of the map and the instability of the sort. *)
Theorem sorted_inserted_gers_spec `{!UnspecifiedOrdersLaws orders} self range :
  ∃ leaves : list (string * InsertedGerWithBlockNumber), NoDup leaves.*1 ∧
    (∀ k e, (k, e) ∈ leaves ↔
       ger_leaves self !! k = Some e ∧
       range_start range <= igb_block_number e <= range_end range) ∧
    Forall2 ger_given leaves.*2 (sorted_inserted_gers (orders:=orders) self range) ∧
    StronglySorted chain_order (sorted_inserted_gers (orders:=orders) self range).
Proof.
  destruct (in_range_leaves self range _ (sorted_inserted_gers_perm (orders:=orders) self range))
    as (leaves & Hnd & Hin & Heq).
  exists leaves. split_and!; [done|done| |].
  - rewrite Heq. apply Forall2_fmap, Forall_Forall2_diag, list.Forall_true. by intros [k e].
  - exact (sort_unstable_sorted (orders:=orders) sort_key _).
Qed.

(** When no two leaves in range share a block position, the order does not depend
    on the hash map's iteration order nor on the instability of the sort: any two
    runs build the same list. *)
Theorem sorted_inserted_gers_deterministic
    `{!UnspecifiedOrdersLaws o1, !UnspecifiedOrdersLaws o2} self range :
  NoDup (sort_key <$> in_range_gers self range) →
  sorted_inserted_gers (orders:=o1) self range =
  sorted_inserted_gers (orders:=o2) self range.
Proof.
  intros Hnd. apply (sorted_unique sort_key).
  - by rewrite (sorted_inserted_gers_perm (orders:=o1)),
      (sorted_inserted_gers_perm (orders:=o2)).
  - by rewrite (sorted_inserted_gers_perm (orders:=o1)).
  - apply (sort_unstable_sorted (orders:=o1)).
  - apply (sort_unstable_sorted (orders:=o2)).
Qed.
End properties.

(** ** Concrete orders *)

Module ToyOrders.
#[export] Instance key_le_dec k1 k2 : Decision (key_le k1 k2).
Proof. unfold key_le. apply _. Defined.

Definition by_key {V} (key : V → Z * Z) (x y : V) : Prop := key_le (key x) (key y).

#[export] Instance by_key_dec {V} (key : V → Z * Z) x y : Decision (by_key key x y).
Proof. unfold by_key. apply _. Defined.

#[export] Instance by_key_total {V} (key : V → Z * Z) : Total (by_key key).
Proof. intros x y. unfold by_key, key_le. lia. Qed.

#[export] Instance by_key_trans {V} (key : V → Z * Z) : Transitive (by_key key).
Proof. intros x y z. unfold by_key, key_le. lia. Qed.

(** Iterate in key order and merge sort; or iterate and pre-arrange backwards. *)
#[export] Instance forwards : UnspecifiedOrders := {|
  hash_map_values V m := (map_to_list m).*2;
  hash_map_iter V m := map_to_list m;
  sort_unstable_by_key V key l := merge_sort (by_key key) l;
|}.

Definition backwards : UnspecifiedOrders := {|
  hash_map_values V m := reverse (map_to_list m).*2;
  hash_map_iter V m := reverse (map_to_list m);
  sort_unstable_by_key V key l := merge_sort (by_key key) (reverse l);
|}.

#[export] Instance forwards_laws : UnspecifiedOrdersLaws forwards.
Proof.
  split; intros V; simpl; intros; [done|done|apply merge_sort_Permutation|].
  apply (StronglySorted_merge_sort (by_key key)).
Qed.

#[export] Instance backwards_laws : UnspecifiedOrdersLaws backwards.
Proof.
  split; intros V; simpl; intros; [apply reverse_Permutation..| |].
  - etrans; [apply merge_sort_Permutation|apply reverse_Permutation].
  - apply (StronglySorted_merge_sort (by_key key)).
Qed.

#[export] Instance indices : GlobalIndices :=
  {| GlobalIndex := Z; global_index_into_u256 z := z |}.
End ToyOrders.

Module ProofInputsSample.
Import Toy BridgeSample ToyOrders.

Definition ger_leaf (g block index : Z) : InsertedGerWithBlockNumber :=
  {| igb_block_number := block;
     inserted_ger := {| proof_ger_l1root := (l1_root, leaf_hash (leaf g)); l1_leaf := leaf g |};
     igb_block_index := index |}.

Definition inputs : AggchainProofInputs := {|
  last_proven_block := 50;
  requested_end_block := 60;
  l1_info_tree_root_hash := l1_root;
  api_l1_info_tree_leaf := leaf 3;
  l1_info_tree_merkle_proof := (l1_root, leaf_hash (leaf 3));
  ger_leaves := {[ "a" := ger_leaf 3 55 1; "b" := ger_leaf 1 55 0; "c" := ger_leaf 2 61 0 ]};
  imported_bridge_exits :=
    [{| ibe_block_number := 51; ibe_bridge_exit_hash := digest 107; ibe_global_index := 7 |};
     {| ibe_block_number := 61; ibe_bridge_exit_hash := digest 108; ibe_global_index := 8 |}];
|}.

Definition range : RangeInclusive := {| range_start := 51; range_end := 60 |}.

Example sorted_in_range :
  sort_key <$> sorted_inserted_gers inputs range = [(55, 0); (55, 1)].
Proof. vm_compute. reflexivity. Qed.

Lemma sorted_inserted_gers_spec_witness :
  ∃ leaves : list (string * InsertedGerWithBlockNumber), ("a", ger_leaf 3 55 1) ∈ leaves ∧
    ("c", ger_leaf 2 61 0) ∉ leaves ∧
    StronglySorted chain_order (sorted_inserted_gers inputs range).
Proof.
  destruct (sorted_inserted_gers_spec (orders:=forwards) inputs range)
    as (leaves & _ & Hin & _ & Hsorted).
  exists leaves. split_and!; [| |exact Hsorted].
  - apply Hin. split; [reflexivity|]. simpl. lia.
  - intros [_ Hc]%Hin. simpl in Hc. lia.
Defined.

Lemma sorted_inserted_gers_deterministic_witness :
  sorted_inserted_gers (orders:=forwards) inputs range =
  sorted_inserted_gers (orders:=backwards) inputs range.
Proof.
  apply (sorted_inserted_gers_deterministic (o1:=forwards) (o2:=backwards)).
  apply (bool_decide_unpack _). vm_compute. exact I.
Defined.
End ProofInputsSample.
