(* ===== verification/Config.v ===== *)
(** The configuration of the provers: [crates/prover-utils], [crates/prover-config],
    [crates/prover-logger], [crates/aggkit-prover-config] and
    [crates/agglayer-prover-config].

    A configuration file leaves most fields out; serde fills them with the defaults
    below, some of which read the environment.  Durations are counted in nanoseconds,
    with the bound of [std::time::Duration]. *)

From S2P Require Import Prelude Bytes.

(** ** The standard library's durations, addresses and environment *)

(** [std::time::Duration], in nanoseconds: at most [u64::MAX] seconds and 999999999
    nanoseconds. *)
Abbreviation Duration := Z.

Definition NANOS_PER_SEC : Z := 10 ^ 9.
Definition DURATION_MAX : Duration := U64_MAX * NANOS_PER_SEC + 999999999.

Definition from_secs (secs : Z) : Duration := secs * NANOS_PER_SEC.

(** [Duration + Duration] panics on overflow, whatever the build profile. *)
Definition duration_add {E} (a b : Duration) : outcome E Duration :=
  if decide (a + b <= DURATION_MAX) then Ok (a + b)
  else Panic (PayloadStr "overflow when adding durations").

Record SocketAddr : Type := { ip : Z * Z * Z * Z; port : Z }.

#[export] Instance SocketAddr_eq_dec : EqDecision SocketAddr.
Proof. solve_decision. Defined.

(** [std::env::var], with the errors forgotten. *)
Abbreviation Env := (string → option string).

(** [from_env_or_default]: [from_str] is the [FromStr] instance of [T]. *)
Definition from_env_or_default {T} (from_str : string → option T) (env : Env)
    (key : string) (default : T) : T :=
  match env key ≫= from_str with
  | Some value => value
  | None => default
  end.

(** [url::Url], with its parser. *)
Class Urls := {
  Url : Type;
  url_from_str : string → option Url;
  url_as_str : Url → string;
}.

(** [Url::from_str(s).unwrap()]. *)
Definition url_unwrap `{!Urls} {E} (s : string) : outcome E Url :=
  match url_from_str s with
  | Some url => Ok url
  | None => Panic (PayloadString "called `Result::unwrap()` on an `Err` value")
  end.

(** ** [prover-utils]: human durations *)

(** The untagged serde value: a number of seconds, or a [humantime] string, which the
    library has already parsed into a duration. *)
Inductive HumanDurationImpl : Type :=
  | Secs (secs : Z)
  | Human (duration : Duration).

Definition human_duration_new (value : Duration) : HumanDurationImpl := Human value.

Definition human_duration_get (self : HumanDurationImpl) : outcome Empty_set Duration :=
  match self with
  | Secs secs => Ok (from_secs secs)
  | Human duration => Ok duration
  end.

(** ** [prover-config] *)

Definition DEFAULT_SP1_CLUSTER_ENDPOINT : string := "https://rpc.production.succinct.xyz/".
Definition DEFAULT_PROVING_TIMEOUT_PADDING : Duration := from_secs 1.

Definition default_max_concurrency_limit : Z := 100.
Definition default_local_proving_timeout : Duration := from_secs (60 * 5).
Definition default_network_proving_timeout : Duration := from_secs (60 * 5).

Definition default_sp1_cluster_endpoint `{!Urls} {E} (env : Env) : outcome E Url :=
  default ← url_unwrap DEFAULT_SP1_CLUSTER_ENDPOINT;
  Ok (from_env_or_default url_from_str env "SP1_CLUSTER_ENDPOINT" default).

Record CpuProverConfig : Type := {
  cpu_max_concurrency_limit : Z;
  cpu_proving_request_timeout : option Duration;
  cpu_proving_timeout : Duration;
}.

Definition cpu_get_proving_request_timeout {E} (self : CpuProverConfig) : outcome E Duration :=
  match cpu_proving_request_timeout self with
  | Some timeout => Ok timeout
  | None => duration_add (cpu_proving_timeout self) DEFAULT_PROVING_TIMEOUT_PADDING
  end.

Definition cpu_prover_config_default : CpuProverConfig :=
  {| cpu_max_concurrency_limit := default_max_concurrency_limit;
     cpu_proving_request_timeout := None;
     cpu_proving_timeout := default_local_proving_timeout |}.

Record NetworkProverConfig `{!Urls} : Type := {
  net_proving_request_timeout : option Duration;
  net_proving_timeout : Duration;
  net_sp1_cluster_endpoint : Url;
}.

Definition net_get_proving_request_timeout `{!Urls} {E} (self : NetworkProverConfig)
    : outcome E Duration :=
  match net_proving_request_timeout self with
  | Some timeout => Ok timeout
  | None => duration_add (net_proving_timeout self) DEFAULT_PROVING_TIMEOUT_PADDING
  end.

Definition network_prover_config_default `{!Urls} {E} (env : Env)
    : outcome E NetworkProverConfig :=
  sp1_cluster_endpoint ← default_sp1_cluster_endpoint env;
  Ok {| net_proving_request_timeout := None;
        net_proving_timeout := default_network_proving_timeout;
        net_sp1_cluster_endpoint := sp1_cluster_endpoint |}.

Record MockProverConfig : Type := {
  mock_max_concurrency_limit : Z;
  mock_proving_request_timeout : option Duration;
  mock_proving_timeout : Duration;
}.

Definition mock_get_proving_request_timeout {E} (self : MockProverConfig) : outcome E Duration :=
  match mock_proving_request_timeout self with
  | Some timeout => Ok timeout
  | None => duration_add (mock_proving_timeout self) DEFAULT_PROVING_TIMEOUT_PADDING
  end.

Definition mock_prover_config_default : MockProverConfig :=
  {| mock_max_concurrency_limit := default_max_concurrency_limit;
     mock_proving_request_timeout := None;
     mock_proving_timeout := default_local_proving_timeout |}.

Inductive ProverType `{!Urls} : Type :=
  | NetworkProver (config : NetworkProverConfig)
  | CpuProver (config : CpuProverConfig)
  | MockProver (config : MockProverConfig).

Definition prover_type_default `{!Urls} {E} (env : Env) : outcome E ProverType :=
  config ← network_prover_config_default env; Ok (NetworkProver config).

(** The request timeout of a prover, whichever kind it is. *)
Definition get_proving_request_timeout `{!Urls} {E} (p : ProverType) : outcome E Duration :=
  match p with
  | NetworkProver c => net_get_proving_request_timeout c
  | CpuProver c => cpu_get_proving_request_timeout c
  | MockProver c => mock_get_proving_request_timeout c
  end.

Definition proving_timeout `{!Urls} (p : ProverType) : Duration :=
  match p with
  | NetworkProver c => net_proving_timeout c
  | CpuProver c => cpu_proving_timeout c
  | MockProver c => mock_proving_timeout c
  end.

Definition proving_request_timeout `{!Urls} (p : ProverType) : option Duration :=
  match p with
  | NetworkProver c => net_proving_request_timeout c
  | CpuProver c => cpu_proving_request_timeout c
  | MockProver c => mock_proving_request_timeout c
  end.

(** ** [prover-logger] *)

Inductive LogFormat : Type := Pretty | Json.

Inductive LogLevel : Type := LogTrace | LogDebug | LogInfo | LogWarn | LogError | LogFatal.

Inductive LogOutput : Type := Stdout | Stderr | File (path : string).

#[export] Instance LogFormat_eq_dec : EqDecision LogFormat.
Proof. solve_decision. Defined.
#[export] Instance LogLevel_eq_dec : EqDecision LogLevel.
Proof. solve_decision. Defined.
#[export] Instance LogOutput_eq_dec : EqDecision LogOutput.
Proof. solve_decision. Defined.

Record Log : Type := { level : LogLevel; outputs : list LogOutput; format : LogFormat }.

#[export] Instance Log_eq_dec : EqDecision Log.
Proof. solve_decision. Defined.

Definition log_default : Log := {| level := LogInfo; outputs := []; format := Pretty |}.

(** [Display for LogLevel]; serde's [rename_all = "lowercase"] writes the same names. *)
Definition log_level_fmt (level : LogLevel) : string :=
  match level with
  | LogTrace => "trace"
  | LogDebug => "debug"
  | LogInfo => "info"
  | LogWarn => "warn"
  | LogError => "error"
  | LogFatal => "fatal"
  end.

(** The directives given to [EnvFilter::new]. *)
Definition env_filter_from (value : LogLevel) : string :=
  let value := log_level_fmt value in
  "warn,prover=" +:+ value +:+ ",aggkit=" +:+ value +:+ ",agglayer=" +:+ value +:+
  ",pessimistic_proof=" +:+ value.

(** [LogOutput::deserialize] on the string that was read. *)
Definition log_output_deserialize (s : string) : LogOutput :=
  if decide (s = "stdout") then Stdout
  else if decide (s = "stderr") then Stderr
  else File s.

(** Where [as_make_writer] sends the log: a standard stream, or a file in the current
    directory that is never rotated. *)
Inductive MakeWriter : Type := StdoutWriter | StderrWriter | RollingNever (dir path : string).

Definition as_make_writer (self : LogOutput) : MakeWriter :=
  match self with
  | Stdout => StdoutWriter
  | Stderr => StderrWriter
  | File path => RollingNever "." path
  end.

(** The layer [tracing] installs: the first output and the default one otherwise, and
    the filter of the environment ([EnvFilter::try_from_default_env], a parsed
    [RUST_LOG]) with the configured level as the fallback. *)
Record Layer (F : Type) : Type := {
  layer_format : LogFormat; layer_writer : MakeWriter; layer_filter : F }.
Arguments layer_format {F}. Arguments layer_writer {F}. Arguments layer_filter {F}.

Definition tracing {F} (env_filter_new : string → F) (try_from_default_env : option F)
    (config : Log) : Layer F :=
  let writer := default Stdout (head (outputs config)) in
  {| layer_format := format config;
     layer_writer := as_make_writer writer;
     layer_filter := default (env_filter_new (env_filter_from (level config))) try_from_default_env |}.

(** ** The gRPC section, identical in the two configuration crates *)

Definition default_max_decoding_message_size : Z := 4 * 1024 * 1024.
Definition default_max_encoding_message_size : Z := 4 * 1024 * 1024.

Definition same_as_default_max_decoding_message_size (value : Z) : bool :=
  value =? default_max_decoding_message_size.
Definition same_as_default_max_encoding_message_size (value : Z) : bool :=
  value =? default_max_encoding_message_size.

Record GrpcConfig : Type := {
  max_decoding_message_size : Z;
  max_encoding_message_size : Z;
}.

#[export] Instance GrpcConfig_eq_dec : EqDecision GrpcConfig.
Proof. solve_decision. Defined.

Definition grpc_config_default : GrpcConfig :=
  {| max_decoding_message_size := default_max_decoding_message_size;
     max_encoding_message_size := default_max_encoding_message_size |}.

(** The [skip_serializing_if] predicate [crate::default]. *)
Definition is_default {T} `{EqDecision T} (default_value t : T) : bool :=
  bool_decide (t = default_value).

(** The table the attributes of [GrpcConfig] write and read: a field at its default is
    left out, a missing field takes its default. *)
Definition grpc_config_serialize (self : GrpcConfig) : gmap string Z :=
  (if same_as_default_max_decoding_message_size (max_decoding_message_size self) then ∅
   else {[ "max-decoding-message-size" := max_decoding_message_size self ]}) ∪
  (if same_as_default_max_encoding_message_size (max_encoding_message_size self) then ∅
   else {[ "max-encoding-message-size" := max_encoding_message_size self ]}).

Definition grpc_config_deserialize (table : gmap string Z) : GrpcConfig :=
  {| max_decoding_message_size :=
       default default_max_decoding_message_size (table !! "max-decoding-message-size");
     max_encoding_message_size :=
       default default_max_encoding_message_size (table !! "max-encoding-message-size") |}.

(** The [grpc] field of a [ProverConfig], itself skipped when it is the default. *)
Definition grpc_field_serialize (grpc : GrpcConfig) : option (gmap string Z) :=
  if is_default grpc_config_default grpc then None else Some (grpc_config_serialize grpc).

Definition grpc_field_deserialize (field : option (gmap string Z)) : GrpcConfig :=
  match field with
  | Some table => grpc_config_deserialize table
  | None => grpc_config_default
  end.

Record ClientProverConfig : Type := { client_grpc : GrpcConfig }.

Definition client_prover_config_default : ClientProverConfig :=
  {| client_grpc := grpc_config_default |}.

(** ** Loading a file *)

Inductive ConfigurationError (IoError TomlError : Type) : Type :=
  | UnableToReadConfigFile (path : string) (source : IoError)
  | DeserializationError (e : TomlError).
Arguments UnableToReadConfigFile {_ _}. Arguments DeserializationError {_ _}.

(** [ProverConfig::try_load], the same in both crates: the file system and the TOML
    deserializer are arguments. *)
Definition try_load {IoError TomlError Config}
    (read_to_string : string → outcome IoError string)
    (deserialize : string → outcome TomlError Config) (path : string)
    : outcome (ConfigurationError IoError TomlError) Config :=
  reader ← map_err (UnableToReadConfigFile path) (read_to_string path);
  map_err DeserializationError (deserialize reader).

Definition DEFAULT_IP : Z * Z * Z * Z := (0, 0, 0, 0).

Record ShutdownConfig : Type := { runtime_timeout : Duration }.
Record TelemetryConfig : Type := { addr : SocketAddr }.

(** ** [aggkit-prover-config] *)

Module Aggkit.
Definition default_runtime_shutdown_timeout : Duration := from_secs 30.

Definition aggkit_shutdown_default : ShutdownConfig :=
  {| runtime_timeout := default_runtime_shutdown_timeout |}.

Definition aggkit_metrics_api_addr : SocketAddr := {| ip := DEFAULT_IP; port := 3001 |}.

Definition aggkit_telemetry_default : TelemetryConfig := {| addr := aggkit_metrics_api_addr |}.

Definition aggkit_socket_addr : SocketAddr := {| ip := (127, 0, 0, 1); port := 8081 |}.

(** [S] is the configuration of the aggchain proof service. *)
Record AggkitProverConfig `{!Urls} (S : Type) : Type := {
  ak_grpc_endpoint : SocketAddr;
  ak_grpc : GrpcConfig;
  ak_log : Log;
  ak_telemetry : TelemetryConfig;
  ak_shutdown : ShutdownConfig;
  ak_aggchain_proof_service : S;
  ak_primary_prover : ProverType;
  ak_fallback_prover : option ProverType;
}.

Definition aggkit_prover_config_default `{!Urls} {E S} (env : Env) (service_default : outcome E S)
    : outcome E (AggkitProverConfig S) :=
  aggchain_proof_service ← service_default;
  config ← network_prover_config_default env;
  Ok {| ak_grpc_endpoint := aggkit_socket_addr;
        ak_grpc := grpc_config_default;
        ak_log := log_default;
        ak_telemetry := aggkit_telemetry_default;
        ak_shutdown := aggkit_shutdown_default;
        ak_aggchain_proof_service := aggchain_proof_service;
        ak_primary_prover := NetworkProver config;
        ak_fallback_prover := None |}.
End Aggkit.

(** ** [agglayer-prover-config] *)

Module Agglayer.
Definition default_shutdown_runtime_timeout : Duration := from_secs 5.

Definition agglayer_shutdown_default : ShutdownConfig :=
  {| runtime_timeout := default_shutdown_runtime_timeout |}.

Definition agglayer_metrics_api_addr : SocketAddr := {| ip := DEFAULT_IP; port := 3000 |}.

Definition agglayer_telemetry_default : TelemetryConfig :=
  {| addr := agglayer_metrics_api_addr |}.

Definition agglayer_socket_addr : SocketAddr := {| ip := (127, 0, 0, 1); port := 8080 |}.
Definition default_max_buffered_queries : Z := 100.
Definition default_max_request_duration : Duration := from_secs (60 * 5).

Record AgglayerProverConfig `{!Urls} : Type := {
  al_grpc_endpoint : SocketAddr;
  al_grpc : GrpcConfig;
  al_log : Log;
  al_telemetry : TelemetryConfig;
  al_shutdown : ShutdownConfig;
  al_max_concurrency_limit : Z;
  al_max_request_duration : Duration;
  al_max_buffered_queries : Z;
  al_primary_prover : ProverType;
  al_fallback_prover : option ProverType;
}.

Definition agglayer_prover_config_default `{!Urls} {E} (env : Env)
    : outcome E AgglayerProverConfig :=
  config ← network_prover_config_default env;
  Ok {| al_grpc_endpoint := agglayer_socket_addr;
        al_grpc := grpc_config_default;
        al_log := log_default;
        al_telemetry := agglayer_telemetry_default;
        al_shutdown := agglayer_shutdown_default;
        al_max_concurrency_limit := default_max_concurrency_limit;
        al_max_request_duration := default_max_request_duration;
        al_max_buffered_queries := default_max_buffered_queries;
        al_primary_prover := NetworkProver config;
        al_fallback_prover := None |}.
End Agglayer.

(** ** Properties *)

Section properties.
Context `{!Urls}.

Lemma get_proving_request_timeout_unfold {E} (p : ProverType) :
  get_proving_request_timeout (E:=E) p =
    match proving_request_timeout p with
    | Some timeout => Ok timeout
    | None => duration_add (proving_timeout p) DEFAULT_PROVING_TIMEOUT_PADDING
    end.
Proof. by destruct p. Qed.

(** The request timeout is the configured one; without one it is the proving
    timeout plus a second, so that the prover times out before the service layer does;
    and computing it panics exactly when that sum is not a [Duration]. *)
Theorem get_proving_request_timeout_spec {E} (p : ProverType) :
  (∀ t, proving_request_timeout p = Some t →
        get_proving_request_timeout (E:=E) p = Ok t) ∧
  (proving_request_timeout p = None →
     (∀ t, get_proving_request_timeout (E:=E) p = Ok t →
           t = proving_timeout p + NANOS_PER_SEC ∧ proving_timeout p < t <= DURATION_MAX) ∧
     (is_panic (get_proving_request_timeout (E:=E) p) = true ↔
        DURATION_MAX - NANOS_PER_SEC < proving_timeout p)).
Proof.
  rewrite get_proving_request_timeout_unfold.
  split; [by intros t ->|]. intros ->. unfold duration_add.
  change DEFAULT_PROVING_TIMEOUT_PADDING with NANOS_PER_SEC.
  assert (0 < NANOS_PER_SEC) by done.
  case_decide; split; [|split; [done|lia]| |split; [lia|done]]; intros t [= <-]; lia.
Qed.
End properties.

(** Writing the [grpc] section and reading it back is the identity, although fields
    at their default, and a section at its default, are left out of the file. *)
Theorem grpc_field_roundtrip (grpc : GrpcConfig) :
  grpc_field_deserialize (grpc_field_serialize grpc) = grpc.
Proof.
  unfold grpc_field_serialize, is_default. case_bool_decide as Hd; [done|]. simpl.
  destruct grpc as [dec enc]. unfold grpc_config_serialize, grpc_config_deserialize,
    same_as_default_max_decoding_message_size, same_as_default_max_encoding_message_size. simpl.
  destruct (Z.eqb_spec dec default_max_decoding_message_size) as [->|],
    (Z.eqb_spec enc default_max_encoding_message_size) as [->|]; f_equal;
    by rewrite lookup_union, ?lookup_empty, ?lookup_singleton_eq, ?lookup_singleton_ne.
Qed.

Module ConfigSample.
#[export] Instance urls : Urls :=
  {| Url := string; url_from_str := Some;
     url_as_str s := s |}.

Definition prover (timeout : option Duration) : ProverType :=
  CpuProver {| cpu_max_concurrency_limit := 1; cpu_proving_request_timeout := timeout;
               cpu_proving_timeout := from_secs 7 |}.

Example endpoint_from_env :
  default_sp1_cluster_endpoint (E:=Empty_set)
    (λ key, if decide (key = "SP1_CLUSTER_ENDPOINT") then Some "http://x" else None)
  = Ok "http://x".
Proof. vm_compute. reflexivity. Qed.

Example directives : env_filter_from LogDebug =
  "warn,prover=debug,aggkit=debug,agglayer=debug,pessimistic_proof=debug".
Proof. reflexivity. Qed.

Lemma get_proving_request_timeout_spec_witness :
  get_proving_request_timeout (E:=Empty_set) (prover (Some 5)) = Ok 5 ∧
  (is_panic (get_proving_request_timeout (E:=Empty_set) (prover None)) = true ↔
     DURATION_MAX - NANOS_PER_SEC < from_secs 7).
Proof.
  split.
  - by apply (proj1 (get_proving_request_timeout_spec (prover (Some 5)))).
  - by apply (proj2 (get_proving_request_timeout_spec (prover None))).
Defined.
End ConfigSample.
