(* ===== verification/Executor.v ===== *)
(** The proof executor: [crates/prover-executor/src/lib.rs] and
    [crates/prover-executor/src/error.rs].

    An executor is a primary prover and an optional fallback, each a tower service with
    a timeout (and, for local provers, a concurrency limit) around an SP1 prover.  The
    SP1 SDK and tower are interfaces. *)

From S2P Require Import Prelude Bytes Panics Config.

(** ** Errors *)

(** [sp1_sdk::SP1VerificationError]; the sources are kept as their texts. *)
Inductive SP1VerificationError : Type :=
  | SP1VersionMismatch (version : string)
  | SP1Core (e : string)
  | SP1Recursion (e : string)
  | SP1Plonk (e : string)
  | SP1Groth16 (e : string)
  | SP1InvalidPublicValues
  | SP1Other (e : string).

Inductive ProofVerificationError : Type :=
  | VersionMismatch (version : string)
  | Core (e : string)
  | Recursion (e : string)
  | Plonk (e : string)
  | Groth16 (e : string)
  | InvalidPublicValues
  | Other (e : string).

#[export] Instance ProofVerificationError_eq_dec : EqDecision ProofVerificationError.
Proof. solve_decision. Defined.

(** [impl From<SP1VerificationError> for ProofVerificationError]. *)
Definition proof_verification_error_from (err : SP1VerificationError) : ProofVerificationError :=
  match err with
  | SP1VersionMismatch version => VersionMismatch version
  | SP1Core core => Core core
  | SP1Recursion recursion => Recursion recursion
  | SP1Plonk error => Plonk error
  | SP1Groth16 error => Groth16 error
  | SP1InvalidPublicValues => InvalidPublicValues
  | SP1Other error => Core error
  end.

(** [prover_executor::Error]. *)
Inductive ExecutorError : Type :=
  | UnableToExecuteProver
  | ProverFailed (msg : string)
  | ProofVerificationFailed (e : ProofVerificationError)
  | ExecutorFailed (data : bytes)
  | UnableToInitializePrimaryProver
  | UnableToInitializeFallbackProver.

#[export] Instance ExecutorError_eq_dec : EqDecision ExecutorError.
Proof. solve_decision. Defined.

(** ** The SP1 SDK *)

Inductive ProofType : Type := Stark | PlonkProof.

(** The SDK's proof mode; [.compressed()] and [.plonk()] request the second and third. *)
Inductive SP1ProofMode : Type := ModeCore | ModeCompressed | ModePlonk | ModeGroth16.

Class Sp1Sdk (W : Type) := {
  SP1Stdin : Type;
  SP1ProvingKey : Type;
  SP1VerifyingKey : Type;
  SP1ProofWithPublicValues : Type;
  CpuProverClient : Type;
  NetworkProverClient : Type;
  (** [CpuProver::new], [CpuProver::mock], [ProverClient::builder().network()...build()]. *)
  cpu_prover_new : io W Empty_set CpuProverClient;
  cpu_prover_mock : io W Empty_set CpuProverClient;
  network_prover_build `{!Urls} : Url → io W Empty_set NetworkProverClient;
  cpu_setup : CpuProverClient → bytes → io W Empty_set (SP1ProvingKey * SP1VerifyingKey);
  network_setup : NetworkProverClient → bytes → io W Empty_set (SP1ProvingKey * SP1VerifyingKey);
  (** [prove(pk, stdin)] with its mode and whether deferred proofs are verified, then
      [run()]; the error is its text. *)
  cpu_run : CpuProverClient → SP1ProvingKey → SP1Stdin → SP1ProofMode → bool →
    io W string SP1ProofWithPublicValues;
  network_run : NetworkProverClient → SP1ProvingKey → SP1Stdin → SP1ProofMode → Duration →
    io W string SP1ProofWithPublicValues;
  cpu_verify : CpuProverClient → SP1ProofWithPublicValues → SP1VerifyingKey →
    outcome SP1VerificationError ();
  network_verify : NetworkProverClient → SP1ProofWithPublicValues → SP1VerifyingKey →
    outcome SP1VerificationError ();
}.

(** The contents of a proof: the public values, the mode, and the inner proof of a
    compressed one. *)
Class Sp1Proofs (W : Type) `{!Sp1Sdk W} := {
  SP1ReduceProof : Type;
  (** [proof.public_values.as_slice()]. *)
  proof_public_values : SP1ProofWithPublicValues → bytes;
  (** [(&proof.proof).into()] and [proof.proof.try_as_compressed()]. *)
  proof_mode : SP1ProofWithPublicValues → outcome Empty_set SP1ProofMode;
  try_as_compressed : SP1ProofWithPublicValues → outcome Empty_set (option SP1ReduceProof);
}.

(** ** Tower services *)

Inductive Poll (A : Type) : Type := Pending | Ready (a : A).
Arguments Pending {A}. Arguments Ready {A} a.

(** A service: polling it for readiness, waiting until it is ready
    ([ServiceExt::ready]), and calling it. *)
Record service (W Req Res E : Type) : Type := {
  poll_ready : W → Poll (outcome E ()) * W;
  ready : io W E ();
  call : Req → io W E Res;
}.
Arguments poll_ready {W Req Res E}. Arguments ready {W Req Res E}. Arguments call {W Req Res E}.

Definition poll_map_err {W E E'} (f : E → E') (p : W → Poll (outcome E ()) * W)
    : W → Poll (outcome E' ()) * W := λ w,
  match p w with
  | (Pending, w') => (Pending, w')
  | (Ready r, w') => (Ready (map_err f r), w')
  end.

(** [ServiceExt::map_err]. *)
Definition service_map_err {W Req Res E E'} (f : E → E') (s : service W Req Res E)
    : service W Req Res E' :=
  {| poll_ready := poll_map_err f (poll_ready s);
     ready := io_map_err f (ready s);
     call req := io_map_err f (call s req) |}.

(** [tower::BoxError]: a boxed error of the wrapped service, or one of tower's own, of
    which only the text is ever used. *)
Inductive BoxError (E : Type) : Type :=
  | Boxed (e : E)
  | BoxedOther (text : string).
Arguments Boxed {E} e. Arguments BoxedOther {E} text.

(** The layers of tower around a service, with their documented contract: a layer
    passes a response through only if the service it wraps gave it. *)
Class TowerLayers (W : Type) := {
  timeout_layer {Req Res E} : Duration → service W Req Res E → service W Req Res (BoxError E);
  concurrency_limit_layer {Req Res E} : Z → service W Req Res E → service W Req Res E;
}.

Class TowerLayersLaws (W : Type) `{!TowerLayers W} : Prop := {
  timeout_layer_ok {Req Res E} t (s : service W Req Res E) req w res w' :
    call (timeout_layer t s) req w = (Ok res, w') →
    ∃ w1 w2, call s req w1 = (Ok res, w2);
  concurrency_limit_layer_ok {Req Res E} n (s : service W Req Res E) req w res w' :
    call (concurrency_limit_layer n s) req w = (Ok res, w') →
    ∃ w1 w2, call s req w1 = (Ok res, w2);
}.

(** ** The provers *)

Section provers.
Context {W : Type} `{!Sp1Sdk W, !Tokio W, !TowerLayers W, !Urls}.

Record Request : Type := { stdin : SP1Stdin; proof_type : ProofType }.
Record Response : Type := { proof : SP1ProofWithPublicValues }.

Abbreviation BoxCloneService := (service W Request Response ExecutorError).

Definition downcast_or_failed (error : BoxError ExecutorError) : ExecutorError :=
  match error with
  | Boxed error => error
  | BoxedOther error => ProverFailed error
  end.

Definition build_network_service (timeout : Duration) (service : BoxCloneService)
    : BoxCloneService :=
  service_map_err downcast_or_failed (timeout_layer timeout service).

Definition build_local_service (timeout : Duration) (concurrency : Z)
    (service : BoxCloneService) : BoxCloneService :=
  service_map_err downcast_or_failed
    (timeout_layer timeout (concurrency_limit_layer concurrency service)).

Definition mode_of (t : ProofType) : SP1ProofMode :=
  match t with
  | PlonkProof => ModePlonk
  | Stark => ModeCompressed
  end.

Record LocalExecutor : Type := {
  le_proving_key : SP1ProvingKey;
  le_verification_key : SP1VerifyingKey;
  le_is_mock : bool;
  le_prover : CpuProverClient;
}.

(** The closure of [LocalExecutor::call]. *)
Definition local_prove (self : LocalExecutor) (req : Request) : io W ExecutorError Response :=
  proof ← io_map_err ProverFailed
    (cpu_run (le_prover self) (le_proving_key self) (stdin req) (mode_of (proof_type req))
       (negb (le_is_mock self)));
  _ ← lift (map_err (λ error, ProofVerificationFailed (proof_verification_error_from error))
    (cpu_verify (le_prover self) proof (le_verification_key self)));
  mret {| proof := proof |}.

Definition local_call (self : LocalExecutor) (req : Request) : io W ExecutorError Response :=
  io_flatten (λ _, UnableToExecuteProver) id (sp1_blocking (local_prove self req)).

Definition local_service (self : LocalExecutor) : BoxCloneService :=
  {| poll_ready w := (Ready (Ok ()), w); ready := mret (); call := local_call self |}.

Record NetworkExecutor : Type := {
  ne_prover : NetworkProverClient;
  ne_proving_key : SP1ProvingKey;
  ne_verification_key : SP1VerifyingKey;
  ne_timeout : Duration;
}.

Definition network_prove (self : NetworkExecutor) (req : Request)
    : io W ExecutorError Response :=
  proof ← io_map_err ProverFailed
    (network_run (ne_prover self) (ne_proving_key self) (stdin req)
       (mode_of (proof_type req)) (ne_timeout self));
  _ ← lift (map_err (λ error, ProofVerificationFailed (proof_verification_error_from error))
    (network_verify (ne_prover self) proof (ne_verification_key self)));
  mret {| proof := proof |}.

Definition network_call (self : NetworkExecutor) (req : Request)
    : io W ExecutorError Response :=
  io_flatten (λ _, UnableToExecuteProver) id (sp1_async (network_prove self req)).

Definition network_service (self : NetworkExecutor) : BoxCloneService :=
  {| poll_ready w := (Ready (Ok ()), w); ready := mret (); call := network_call self |}.
End provers.

Abbreviation BoxCloneService W := (service W Request Response ExecutorError).

(** ** The executor *)

Section executor.
Context {W : Type} `{!Sp1Sdk W, !Tokio W, !TowerLayers W, !Urls}.

Record Executor : Type := {
  vkey : SP1VerifyingKey;
  primary : BoxCloneService W;
  fallback : option (BoxCloneService W);
}.

Definition get_vkey (self : Executor) : SP1VerifyingKey := vkey self.

(** The three closures [create_prover] runs on the blocking pool. *)
Definition create_network_prover (config : NetworkProverConfig) (program : bytes)
    : io W Empty_set (SP1VerifyingKey * BoxCloneService W) :=
  network_prover ← network_prover_build (net_sp1_cluster_endpoint config);
  '(proving_key, verification_key) ← network_setup network_prover program;
  timeout ← lift (net_get_proving_request_timeout config);
  mret (verification_key,
        build_network_service timeout
          (network_service {| ne_prover := network_prover;
                              ne_proving_key := proving_key;
                              ne_verification_key := verification_key;
                              ne_timeout := net_proving_timeout config |})).

Definition create_cpu_prover (config : CpuProverConfig) (program : bytes)
    : io W Empty_set (SP1VerifyingKey * BoxCloneService W) :=
  prover ← cpu_prover_new;
  '(proving_key, verification_key) ← cpu_setup prover program;
  timeout ← lift (cpu_get_proving_request_timeout config);
  mret (verification_key,
        build_local_service timeout (cpu_max_concurrency_limit config)
          (local_service {| le_proving_key := proving_key;
                            le_verification_key := verification_key;
                            le_is_mock := false;
                            le_prover := prover |})).

Definition create_mock_prover (config : MockProverConfig) (program : bytes)
    : io W Empty_set (SP1VerifyingKey * BoxCloneService W) :=
  prover ← cpu_prover_mock;
  '(proving_key, verification_key) ← cpu_setup prover program;
  timeout ← lift (mock_get_proving_request_timeout config);
  mret (verification_key,
        build_local_service timeout (mock_max_concurrency_limit config)
          (local_service {| le_proving_key := proving_key;
                            le_verification_key := verification_key;
                            le_is_mock := true;
                            le_prover := prover |})).

Definition create_prover (prover_type : ProverType) (program : bytes)
    : io W report (SP1VerifyingKey * BoxCloneService W) :=
  r ← sp1_blocking
    match prover_type with
    | NetworkProver config => create_network_prover config program
    | CpuProver config => create_cpu_prover config program
    | MockProver config => create_mock_prover config program
    end;
  mret (infallible r).

Definition executor_new (primary : ProverType) (fallback : option ProverType)
    (program : bytes) : io W report Executor :=
  '(vkey, primary) ← io_map_err (ReportContext "Failed creating primary prover")
    (create_prover primary program);
  fallback ←
    match fallback with
    | Some config =>
        '(_, service) ← io_map_err (ReportContext "Failed creating secondary prover")
          (create_prover config program);
        mret (Some service)
    | None => mret None
    end;
  mret {| vkey := vkey; primary := primary; fallback := fallback |}.

Definition compute_program_vkey (program : bytes) : io W report SP1VerifyingKey :=
  executor ← io_map_err (ReportContext "Failed creating fake prover to compute program vkey")
    (executor_new (CpuProver cpu_prover_config_default) None program);
  mret (get_vkey executor).

(** [Executor::poll_ready]. *)
Definition executor_poll_ready (self : Executor) : W → Poll (outcome ExecutorError ()) * W := λ w,
  match poll_map_err (λ _, UnableToInitializePrimaryProver) (poll_ready (primary self)) w with
  | (Pending, w) => (Pending, w)
  | (Ready (Err e), w) => (Ready (Err e), w)
  | (Ready (Panic p), w) => (Ready (Panic p), w)
  | (Ready (Ok ()), w) =>
      match fallback self with
      | Some fallback =>
          poll_map_err (λ _, UnableToInitializeFallbackProver) (poll_ready fallback) w
      | None => (Ready (Ok ()), w)
      end
  end.

(** [Executor::call]. *)
Definition executor_call (self : Executor) (req : Request) : io W ExecutorError Response := λ w,
  match ready (primary self) w with
  | (Err e, w) => (Err e, w)
  | (Panic p, w) => (Panic p, w)
  | (Ok (), w) =>
      match call (primary self) req w with
      | (Ok res, w) => (Ok res, w)
      | (Panic p, w) => (Panic p, w)
      | (Err err, w) =>
          match fallback self with
          | Some fallback =>
              (_ ← ready fallback; call fallback req) w
          | None => (Err err, w)
          end
      end
  end.

(** Waiting until [executor_poll_ready] is ready: the primary first, then the fallback. *)
Definition executor_ready (self : Executor) : io W ExecutorError () :=
  _ ← io_map_err (λ _, UnableToInitializePrimaryProver) (ready (primary self));
  match fallback self with
  | Some fallback => io_map_err (λ _, UnableToInitializeFallbackProver) (ready fallback)
  | None => mret ()
  end.

(** The executor as a tower service. *)
Definition executor_service (self : Executor) : BoxCloneService W :=
  {| poll_ready := executor_poll_ready self;
     ready := executor_ready self;
     call := executor_call self |}.

(** *** What a response is worth *)

(** The proof verifies under a key of the program set up by a prover of this SDK. *)
Inductive verified (program : bytes) (p : SP1ProofWithPublicValues) : Prop :=
  | VerifiedCpu prover pk vk w w' :
      cpu_setup prover program w = (Ok (pk, vk), w') →
      cpu_verify prover p vk = Ok () →
      verified program p
  | VerifiedNetwork prover pk vk w w' :
      network_setup prover program w = (Ok (pk, vk), w') →
      network_verify prover p vk = Ok () →
      verified program p.

(** More than that: the proof was made for the input and in the mode of the request. *)
Inductive proved_on (program : bytes) (req : Request) (p : SP1ProofWithPublicValues) : Prop :=
  | ProvedCpu prover pk vk deferred w0 w1 w2 w3 :
      cpu_setup prover program w0 = (Ok (pk, vk), w1) →
      cpu_run prover pk (stdin req) (mode_of (proof_type req)) deferred w2 = (Ok p, w3) →
      cpu_verify prover p vk = Ok () →
      proved_on program req p
  | ProvedNetwork prover pk vk timeout w0 w1 w2 w3 :
      network_setup prover program w0 = (Ok (pk, vk), w1) →
      network_run prover pk (stdin req) (mode_of (proof_type req)) timeout w2 = (Ok p, w3) →
      network_verify prover p vk = Ok () →
      proved_on program req p.

Lemma proved_on_verified program req p : proved_on program req p → verified program p.
Proof. intros []; [by eapply VerifiedCpu|by eapply VerifiedNetwork]. Qed.

(** A service that answers each request with a verified proof for it. *)
Definition proves (program : bytes) (s : BoxCloneService W) : Prop :=
  ∀ req w res w', call s req w = (Ok res, w') → proved_on program req (proof res).

Definition executor_wf (program : bytes) (self : Executor) : Prop :=
  proves program (primary self) ∧
  match fallback self with Some s => proves program s | None => True end.
End executor.

(** ** Properties *)

Section properties.
Context {W : Type} `{!Sp1Sdk W, !Tokio W, !TowerLayers W, !TowerLayersLaws W, !Urls}.

(** What tokio documents of [spawn_blocking]: a closure whose join succeeded was run. *)
Class TokioLaws : Prop := {
  spawn_blocking_ok {R} (f : io W Empty_set R) w r w' :
    spawn_blocking f w = (Ok r, w') → ∃ w1 w2, f w1 = (Ok r, w2);
}.
Context `{!TokioLaws}.

Lemma sp1_blocking_ok {E R} (f : io W E R) w r w' :
  sp1_blocking f w = (Ok (inr r), w') → ∃ w1 w2, f w1 = (Ok r, w2).
Proof.
  intros (res & w1 & Hs & Hr)%io_bind_ok. apply io_map_err_ok, spawn_blocking_ok in Hs.
  destruct Hs as (w2 & w3 & Hs). unfold sp1_fast_closure in Hs.
  destruct (f w2) as [r0 w4] eqn:Hf. injection Hs as <- <-. exists w2, w4. rewrite Hf.
  destruct r0 as [a|e|p]; simpl in Hr; unfold throw, mret, io_ret in Hr; by simplify_eq.
Qed.

Lemma flatten_ok {E E' R} f g (m : outcome report (E + R)) r :
  flatten (E':=E') f g m = Ok r ↔ m = Ok (inr r).
Proof. unfold flatten. destruct m as [[|]|?|?]; simpl; split; congruence. Qed.

Lemma io_flatten_ok {E E' R} f g (m : io W report (E + R)) w r w' :
  io_flatten (E':=E') f g m w = (Ok r, w') ↔ m w = (Ok (inr r), w').
Proof.
  unfold io_flatten. destruct (m w) as [m' w1]. split.
  - intros [= Hm ->]. apply flatten_ok in Hm. by subst.
  - by intros [= -> ->].
Qed.

Lemma local_prove_ok self req w res w' :
  local_prove self req w = (Ok res, w') ↔
  cpu_run (le_prover self) (le_proving_key self) (stdin req) (mode_of (proof_type req))
    (negb (le_is_mock self)) w = (Ok (proof res), w') ∧
  cpu_verify (le_prover self) (proof res) (le_verification_key self) = Ok ().
Proof.
  unfold local_prove. rewrite io_bind_ok. split.
  - intros (p & w1 & Hp%io_map_err_ok & Hrest).
    apply io_bind_ok in Hrest as ([] & w2 & [Hv%map_err_ok ->]%lift_ok & Hr).
    by injection Hr as <- <-.
  - intros [Hp Hv]. exists (proof res), w'. split; [by apply io_map_err_ok|].
    apply io_bind_ok. exists (), w'. split; [|by destruct res]. by rewrite Hv.
Qed.

Lemma network_prove_ok self req w res w' :
  network_prove self req w = (Ok res, w') ↔
  network_run (ne_prover self) (ne_proving_key self) (stdin req) (mode_of (proof_type req))
    (ne_timeout self) w = (Ok (proof res), w') ∧
  network_verify (ne_prover self) (proof res) (ne_verification_key self) = Ok ().
Proof.
  unfold network_prove. rewrite io_bind_ok. split.
  - intros (p & w1 & Hp%io_map_err_ok & Hrest).
    apply io_bind_ok in Hrest as ([] & w2 & [Hv%map_err_ok ->]%lift_ok & Hr).
    by injection Hr as <- <-.
  - intros [Hp Hv]. exists (proof res), w'. split; [by apply io_map_err_ok|].
    apply io_bind_ok. exists (), w'. split; [|by destruct res]. by rewrite Hv.
Qed.

Lemma local_service_proves program self w0 w1 :
  cpu_setup (le_prover self) program w0 =
    (Ok (le_proving_key self, le_verification_key self), w1) →
  proves program (local_service self).
Proof.
  intros Hs req w res w' Hc. apply io_flatten_ok, sp1_blocking_ok in Hc as (w2 & w3 & Hc).
  apply local_prove_ok in Hc as [Hrun Hv]. by eapply ProvedCpu.
Qed.

Lemma network_service_proves program self w0 w1 :
  network_setup (ne_prover self) program w0 =
    (Ok (ne_proving_key self, ne_verification_key self), w1) →
  proves program (network_service self).
Proof.
  intros Hs req w res w' Hc. simpl in Hc. apply io_flatten_sp1_async_ok in Hc.
  apply network_prove_ok in Hc as [Hrun Hv]. by eapply ProvedNetwork.
Qed.

Lemma build_network_service_proves program t s :
  proves program s → proves program (build_network_service t s).
Proof.
  intros Hs req w res w' Hc%io_map_err_ok.
  apply timeout_layer_ok in Hc as (w1 & w2 & Hc). by eapply Hs.
Qed.

Lemma build_local_service_proves program t n s :
  proves program s → proves program (build_local_service t n s).
Proof.
  intros Hs req w res w' Hc%io_map_err_ok.
  apply timeout_layer_ok in Hc as (w1 & w2 & Hc).
  apply concurrency_limit_layer_ok in Hc as (w3 & w4 & Hc). by eapply Hs.
Qed.

(** The two kinds of services that [create_prover] builds for a program. *)
Inductive built_service (program : bytes) (vk : SP1VerifyingKey) : BoxCloneService W → Prop :=
  | BuiltNetwork self t w0 w1 :
      network_setup (ne_prover self) program w0 =
        (Ok (ne_proving_key self, ne_verification_key self), w1) →
      vk = ne_verification_key self →
      built_service program vk (build_network_service t (network_service self))
  | BuiltLocal self t n w0 w1 :
      cpu_setup (le_prover self) program w0 =
        (Ok (le_proving_key self, le_verification_key self), w1) →
      vk = le_verification_key self →
      built_service program vk (build_local_service t n (local_service self)).

Lemma create_prover_built prover_type program w vk s w' :
  create_prover prover_type program w = (Ok (vk, s), w') → built_service program vk s.
Proof.
  intros ([[]|[vk' s']] & w1 & Hb & Hr)%io_bind_ok. injection Hr as -> -> ->.
  apply sp1_blocking_ok in Hb as (w2 & w3 & Hb).
  destruct prover_type as [c|c|c];
    apply io_bind_ok in Hb as (prover & w4 & _ & Hb);
    apply io_bind_ok in Hb as ([pk vk'] & w5 & Hsetup & Hb);
    apply io_bind_ok in Hb as (t & w6 & _ & Hb); injection Hb as <- <- _.
  - by eapply BuiltNetwork.
  - by eapply BuiltLocal.
  - by eapply BuiltLocal.
Qed.

Lemma executor_new_built primary0 fallback0 program w self w' :
  executor_new primary0 fallback0 program w = (Ok self, w') →
  built_service program (vkey self) (primary self) ∧
  ∀ s, fallback self = Some s → ∃ vk, built_service program vk s.
Proof.
  intros ([vk p] & w1 & Hp%io_map_err_ok%create_prover_built & Hrest)%io_bind_ok.
  apply io_bind_ok in Hrest as (fb & w2 & Hfb & Hr). injection Hr as <- _.
  split; [done|]. simpl. intros s ->. destruct fallback0 as [config|]; [|by injection Hfb].
  apply io_bind_ok in Hfb as ([vk2 s'] & w3 & Hs%io_map_err_ok%create_prover_built & Hr).
  injection Hr as <- _. by exists vk2.
Qed.

Lemma built_service_proves program vk s : built_service program vk s → proves program s.
Proof.
  intros [self t w0 w1 Hs _|self t n w0 w1 Hs _].
  - by eapply build_network_service_proves, network_service_proves.
  - by eapply build_local_service_proves, local_service_proves.
Qed.

Lemma executor_new_wf primary fallback program w self w' :
  executor_new primary fallback program w = (Ok self, w') → executor_wf program self.
Proof.
  intros [Hp%built_service_proves Hf]%executor_new_built. split; [done|].
  destruct (Executor.fallback self) as [s|]; [|done].
  destruct (Hf s eq_refl) as [vk Hs]. by eapply built_service_proves.
Qed.

Lemma executor_call_ok self req w res w' :
  executor_call self req w = (Ok res, w') ↔
  ∃ w1, ready (primary self) w = (Ok (), w1) ∧
    (call (primary self) req w1 = (Ok res, w') ∨
     ∃ err w2 s w3, call (primary self) req w1 = (Err err, w2) ∧ fallback self = Some s ∧
       ready s w2 = (Ok (), w3) ∧ call s req w3 = (Ok res, w')).
Proof.
  unfold executor_call. split.
  - destruct (ready (primary self) w) as [[[]|e|p] w1]; [|done..]. intros Hc.
    exists w1. split; [done|].
    destruct (call (primary self) req w1) as [[r|err|p] w2] eqn:Hp; [by left| |done].
    right. destruct (fallback self) as [s|] eqn:Hf; [|done].
    apply io_bind_ok in Hc as ([] & w3 & Hr & Hc). by exists err, w2, s, w3.
  - intros (w1 & -> & [->|(err & w2 & s & w3 & -> & -> & Hr & Hc)]); [done|].
    apply io_bind_ok. by exists (), w3.
Qed.

Lemma executor_response_proved primary fallback program w0 self w1 req w res w' :
  executor_new primary fallback program w0 = (Ok self, w1) →
  executor_call self req w = (Ok res, w') →
  proved_on program req (proof res).
Proof.
  intros [Hp Hf]%executor_new_wf Hc.
  apply executor_call_ok in Hc as (w2 & _ & [Hc|(err & w3 & s & w4 & _ & Hs & _ & Hc)]).
  - by eapply Hp.
  - rewrite Hs in Hf. by eapply Hf.
Qed.

Lemma executor_response_verified primary fallback program w0 self w1 req w res w' :
  executor_new primary fallback program w0 = (Ok self, w1) →
  executor_call self req w = (Ok res, w') →
  verified program (proof res).
Proof. intros Hn Hc. by eapply proved_on_verified, executor_response_proved. Qed.

(** C15: a proof an executor returns was made for the request and has been verified:
    whatever primary and fallback provers [Executor::new] built, a response of [call]
    carries a proof that one of them made for the input of the request, in its mode, and
    that the SDK's verifier accepted under a verification key of the program. *)
Theorem executor_proof_verified primary fallback program w0 self w1 req w res w' :
  executor_new primary fallback program w0 = (Ok self, w1) →
  executor_call self req w = (Ok res, w') →
  proved_on program req (proof res) ∧ verified program (proof res).
Proof.
  intros Hn Hc. pose proof (executor_response_proved _ _ _ _ _ _ _ _ _ _ Hn Hc) as Hp.
  split; [done|by eapply proved_on_verified].
Qed.
End properties.

(** ** Failure behaviour *)

Section failures.
Context {W : Type} `{!Sp1Sdk W, !Tokio W, !TowerLayers W, !Urls}.

(** C26: what an executor's failure means: the primary was not ready (the fallback is
    then not consulted), or the primary's call failed and there is no fallback, or the
    fallback was tried on the same request and was not ready or failed itself. *)
Theorem executor_call_err self req w err w' :
  executor_call self req w = (Err err, w') ↔
  ready (primary self) w = (Err err, w') ∨
  ∃ w1, ready (primary self) w = (Ok (), w1) ∧
    ((call (primary self) req w1 = (Err err, w') ∧ fallback self = None) ∨
     ∃ err1 w2 s, call (primary self) req w1 = (Err err1, w2) ∧ fallback self = Some s ∧
       (ready s w2 = (Err err, w') ∨
        ∃ w3, ready s w2 = (Ok (), w3) ∧ call s req w3 = (Err err, w'))).
Proof.
  unfold executor_call. split.
  - destruct (ready (primary self) w) as [[[]|e|p] w1]; intros Hc; [right|left; congruence|discriminate Hc].
    exists w1. split; [done|].
    destruct (call (primary self) req w1) as [[r|e|p] w2]; [done| |done].
    destruct (fallback self) as [s|]; [right|by left].
    exists e, w2, s. do 2 (split; [done|]). revert Hc. unfold mbind, io_bind.
    destruct (ready s w2) as [[[]|e'|p] w3]; intros Hc; [right; by exists w3|left; congruence|done].
  - intros [->|(w1 & -> & [[-> ->]|(err1 & w2 & s & -> & -> & Hs)])]; [done..|].
    unfold mbind, io_bind. by destruct Hs as [->|(w3 & -> & ?)].
Qed.

(** The network prover contains the SDK's panics: a call never panics, its result
    is that of the proving closure, and a panic is [UnableToExecuteProver]. *)
Theorem network_call_contains_panics self req w :
  network_call self req w =
    let '(r, w') := network_prove self req w in
    (match r with Panic _ => Err UnableToExecuteProver | _ => r end, w').
Proof.
  unfold network_call, io_flatten, sp1_async.
  by destruct (network_prove self req w) as [[?|?|?] ?].
Qed.

(** The local prover contains them too, on a runtime whose blocking pool panics
    only for a closure that does. *)
Theorem local_call_contains_panics self req w :
  (∀ R (g : io W Empty_set R) w, is_panic (g w).1 = false →
     is_panic (spawn_blocking g w).1 = false) →
  is_panic (local_call self req w).1 = false.
Proof.
  intros Hpool. unfold local_call, io_flatten, sp1_blocking, mbind, io_bind, io_map_err.
  specialize (Hpool _ (sp1_fast_closure (local_prove self req)) w).
  destruct (spawn_blocking (sp1_fast_closure (local_prove self req)) w) as [[[|[]]|?|?] ?];
    try done.
  unfold sp1_fast_closure in Hpool. simpl in Hpool.
  destruct (local_prove self req w) as [[]]; simpl in Hpool; by specialize (Hpool eq_refl).
Qed.
End failures.

(** ** A toy SDK *)

Module ToySdk.
(** The world counts the prover runs; proving input [13] fails, [14] panics, and
    negative proofs do not verify. *)
Definition run (stdin : Z) : io Z string Z := λ w,
  (if decide (stdin = 13) then Err "unlucky"
   else if decide (stdin = 14) then Panic (PayloadStr "sdk") else Ok stdin, w + 1).

Definition sample_verify (p : Z) : outcome SP1VerificationError () :=
  if decide (p < 0) then Err SP1InvalidPublicValues else Ok ().

#[export] Instance sdk : Sp1Sdk Z := {|
  SP1Stdin := Z;
  SP1ProvingKey := ();
  SP1VerifyingKey := Z;
  SP1ProofWithPublicValues := Z;
  CpuProverClient := ();
  NetworkProverClient := ();
  cpu_prover_new := mret ();
  cpu_prover_mock := mret ();
  network_prover_build _ _ := mret ();
  cpu_setup _ program := mret ((), Z.of_nat (length program));
  network_setup _ program := mret ((), Z.of_nat (length program));
  cpu_run _ _ stdin _ _ := run stdin;
  network_run _ _ stdin _ _ := run stdin;
  cpu_verify _ p _ := sample_verify p;
  network_verify _ p _ := sample_verify p;
|}.

#[export] Instance tokio {W} : Tokio W := tokio_direct.

#[export] Instance tokio_laws {W} : TokioLaws (W:=W).
Proof.
  split. intros R f w r w' Hs. exists w. simpl in Hs.
  destruct (f w) as [[r0|[]|p] w1]; [|done]. injection Hs as <- <-. by exists w1.
Qed.

(** A runtime on which nothing ever times out. *)
#[export] Instance layers {W} : TowerLayers W := {|
  timeout_layer Req Res E _ s := service_map_err Boxed s;
  concurrency_limit_layer Req Res E _ s := s;
|}.

#[export] Instance layers_laws {W} : TowerLayersLaws W.
Proof.
  split; simpl; [|by eauto]. intros Req Res E t s req w res w' Hc%io_map_err_ok. eauto.
Qed.
End ToySdk.

Module ExecutorSample.
Import ConfigSample ToySdk.

Definition request (z : Z) : Request (W:=Z) := {| stdin := z; proof_type := Stark |}.
Definition network : ProverType :=
  NetworkProver {| net_proving_request_timeout := None; net_proving_timeout := from_secs 9;
                   net_sp1_cluster_endpoint := "http://x" |}.

Definition build : outcome report Executor * Z := executor_new network None [x00; x01] 0.
Definition executor : Executor :=
  {| vkey := 2;
     primary := build_network_service (from_secs 10)
       (network_service {| ne_prover := (); ne_proving_key := (); ne_verification_key := 2;
                           ne_timeout := from_secs 9 |});
     fallback := None |}.

Example build_ok : build = (Ok executor, 0).
Proof. reflexivity. Qed.

Lemma executor_proof_verified_witness :
  proved_on (W:=Z) [x00; x01] (request 8) (8 : Z) ∧ verified (W:=Z) [x00; x01] (8 : Z).
Proof.
  exact (executor_proof_verified network None [x00; x01] 0 executor 0
           (request 8) 5 {| proof := (8 : Z) |} 6 build_ok eq_refl).
Defined.

Lemma executor_call_err_witness :
  executor_call executor (request 14) 5 = (Err UnableToExecuteProver, 6).
Proof.
  apply executor_call_err. right. exists 5. split; [reflexivity|]. left. split; reflexivity.
Defined.

Lemma local_call_contains_panics_witness :
  is_panic (local_call (W:=Z) {| le_proving_key := (); le_verification_key := 2;
    le_is_mock := true; le_prover := () |} (request 14) 5).1 = false.
Proof.
  apply local_call_contains_panics. intros R g w Hg. simpl.
  destruct (g w) as [[r|[]|p] w']; [reflexivity|exact Hg].
Defined.
End ExecutorSample.
