(* ===== verification/Contracts.v ===== *)
(** The contracts client: [crates/aggchain-proof-contracts/src] and
    [crates/prover-alloy/src/lib.rs].

    It reads the L1 and L2 contracts over RPC, and builds the two L2 state sketches the
    guest executes its static calls against: every storage access of the calls it makes
    on the host ends up in the sketch.  Alloy, jsonrpsee and the SP1 contract-call host
    executor are interfaces. *)

From Stdlib Require Import Ascii.
From S2P Require Import Prelude Bytes Panics Interop StaticCall FilterValues Bridge Config.

(** ** JSON and hexadecimal *)

(** [serde_json::Value]; an object keeps its fields in order, with distinct keys. *)
#[warnings="-register-all"]
Inductive json : Type :=
  | JNull
  | JBool (b : bool)
  | JNumber (text : string)
  | JString (s : string)
  | JArray (l : list json)
  | JObject (fields : list (string * json)).

(** [Value::get(&str)] and [Value::as_str]. *)
Definition json_get (j : json) (field : string) : option json :=
  match j with
  | JObject fields => snd <$> List.find (λ '(k, _), bool_decide (k = field)) fields
  | _ => None
  end.

Definition json_as_str (j : json) : option string :=
  match j with
  | JString s => Some s
  | _ => None
  end.

Definition hex_digit (z : Z) : ascii :=
  if z <? 10 then ascii_of_N (48 + Z.to_N z) else ascii_of_N (87 + Z.to_N z).

(** The digits of a number below [16 ^ fuel], most significant first. *)
Fixpoint hex_digits (fuel : nat) (z : Z) : string :=
  match fuel with
  | O => ""
  | S fuel => if decide (z < 16) then String (hex_digit z) ""
              else hex_digits fuel (z / 16) +:+ String (hex_digit (z mod 16)) ""
  end.

(** [format!("0x{block_number:x}")] of a [u64]. *)
Definition hex_quantity (block_number : Z) : string := "0x" +:+ hex_digits 16 block_number.

(** ** Data of [contracts.rs] *)

Record L2OutputAtBlock : Type := {
  version : Digest;
  state_root : Digest;
  withdrawal_storage_root : Digest;
  latest_block_hash : Digest;
  output_root : Digest;
}.

Record OpSuccinctConfig : Type := {
  cfg_aggregation_vkey_hash : Digest;
  cfg_range_vkey_commitment : Digest;
  cfg_rollup_config_hash : Digest;
}.

#[export] Instance L2OutputAtBlock_eq_dec : EqDecision L2OutputAtBlock.
Proof. solve_decision. Defined.
#[export] Instance OpSuccinctConfig_eq_dec : EqDecision OpSuccinctConfig.
Proof. solve_decision. Defined.

(** [alloy::eips::BlockNumberOrTag]. *)
Inductive BlockNumberOrTag : Type :=
  | Latest | Finalized | Safe | Earliest | BlockPending | Number (n : Z).

(** What the contract's getter [opSuccinctConfigs] returns. *)
Record opSuccinctConfigsReturn : Type := {
  aggregationVkey : Digest;
  rangeVkeyCommitment : Digest;
  rollupConfigHash : Digest;
}.

(** ** The RPC stack *)

Class Node (W : Type) `{!Urls, !EvmClient} := {
  AlloyError : Type;
  RpcClientError : Type;
  HostError : Type;
  FromHexError : Type;
  ReqwestClient : Type;
  AlloyFillProvider : Type;
  HttpClient : Type;
  EvmSketch : Type;
  ChainConfig : Type;
  (** [reqwest::ClientBuilder] with the idle connections per host and their timeout. *)
  reqwest_build : Z → Duration → outcome report ReqwestClient;
  (** [ProviderBuilder::new().on_client(..)] with a [RetryBackoffLayer(max_retries,
      backoff, compute units per second)]. *)
  on_client : ReqwestClient → Url → Z → Z → Z → AlloyFillProvider;
  http_client_build : Url → outcome RpcClientError HttpClient;
  rpc_request : HttpClient → string → list string → io W RpcClientError json;
  (** The contract getters, [contract.f(args).call().await]. *)
  call_getRoot : AlloyFillProvider → Address → Z → io W AlloyError Digest;
  call_bridgeAddress : AlloyFillProvider → Address → io W AlloyError Address;
  call_rollupContract : AlloyFillProvider → Address → Z → io W AlloyError Address;
  call_trustedSequencer : AlloyFillProvider → Address → io W AlloyError Address;
  call_selectedOpSuccinctConfigName : AlloyFillProvider → Address → io W AlloyError (u8s 32);
  call_opSuccinctConfigs : AlloyFillProvider → Address → u8s 32 →
    io W AlloyError opSuccinctConfigsReturn;
  (** [B256::from_str]. *)
  b256_from_str : string → outcome FromHexError Digest;
  (** The file system and the genesis parser; errors are their texts. *)
  path_exists : string → bool;
  read_to_string : string → outcome string string;
  genesis_from_json : string → outcome string ChainConfig;
}.

(** [sp1_cc_client_executor::Genesis]. *)
Inductive Genesis `{Node W} : Type :=
  | Mainnet | Sepolia | OpMainnet | Linea | Custom (config : ChainConfig).

(** The host executor: a sketch of a block, calls on it, and its finalization. *)
Class HostExecutor (W : Type) `{Node W} := {
  sketch_build : BlockNumberOrTag → Genesis → Url → io W HostError EvmSketch;
  call_raw : EvmSketch → ContractInput → io W report bytes;
  finalize : EvmSketch → io W HostError EvmSketchInput;
}.

(** [aggchain_proof_contracts::Error]. *)
Inductive ContractsError `{Node W} : Type :=
  | ProviderInitializationError (e : report)
  | ContractAbiFileError (e : string)
  | ContractAbiJsonError (e : string)
  | InvalidContractAddress (e : FromHexError)
  | BridgeAddressError (e : AlloyError)
  | AggchainFepAddressError (e : AlloyError)
  | LocalExitRootError (e : AlloyError)
  | AsyncEngineSetupError (e : string)
  | RollupNodeInitError (e : RpcClientError)
  | L2OutputAtBlockRetrievalError (e : RpcClientError)
  | L2OutputAtBlockValueMissing (field : string)
  | L2OutputAtBlockInvalidValue (field : string) (e : FromHexError)
  | InvalidRollupIdToRollupData (e : AlloyError)
  | OpSuccinctConfigRetrievalError (e : AlloyError)
  | SelectedOpSuccinctConfigRetrievalError (e : AlloyError)
  | AggchainVKeyRetrievalError (e : AlloyError)
  | InvalidHostStaticCall (source : report) (stage : StaticCallStage)
  | InvalidPreBlockSketchFinalization (e : HostError)
  | InvalidNewBlockSketchFinalization (e : HostError)
  | HostExecutorPreBlockInitialization (e : HostError)
  | HostExecutorNewBlockInitialization (e : HostError)
  | UnableToRetrieveTrustedSequencerAddress (e : AlloyError)
  | InvalidEvmSketchGenesisInput (msg : string)
  | InvalidOpSuccinctConfigName (msg : string)
  | ContractsOther (e : report).

(** The traits of [contracts.rs] that the proof builder uses, as one record: what an
    [AggchainContractsClient + GetTrustedSequencerAddress] offers. *)
Record ContractsClient (W : Type) `{Node W} : Type := {
  get_l2_local_exit_root : Z → io W ContractsError Digest;
  get_l2_output_at_block : Z → io W ContractsError L2OutputAtBlock;
  get_op_succinct_config : io W ContractsError OpSuccinctConfig;
  get_trusted_sequencer_address : io W ContractsError Address;
  get_prev_l2_block_sketch : BlockNumberOrTag → io W ContractsError EvmSketchInput;
  get_new_l2_block_sketch : BlockNumberOrTag → io W ContractsError EvmSketchInput;
}.

(** ** [config.rs] *)

(** [str::trim] and [str::to_lowercase] on ASCII text. *)
Definition is_space (c : ascii) : bool :=
  let n := N_of_ascii c in ((9 <=? n) && (n <=? 13) || (n =? 32))%N.

Fixpoint trim_start (s : string) : string :=
  match s with
  | String c rest => if is_space c then trim_start rest else s
  | EmptyString => s
  end.

(** The string without its trailing spaces. *)
Fixpoint trim_end (s : string) : string :=
  match s with
  | EmptyString => s
  | String c rest =>
      match trim_end rest with
      | EmptyString => if is_space c then EmptyString else String c EmptyString
      | rest => String c rest
      end
  end.

Definition trim (s : string) : string := trim_end (trim_start s).

Definition lower_ascii (c : ascii) : ascii :=
  let n := N_of_ascii c in
  if ((65 <=? n) && (n <=? 90))%N then ascii_of_N (n + 32) else c.

Fixpoint to_lowercase (s : string) : string :=
  match s with
  | EmptyString => EmptyString
  | String c rest => String (lower_ascii c) (to_lowercase rest)
  end.

Definition POLYGON_ROLLUP_MANAGER : Address := be_array 20 0xB7f8BC63BbcaD18155201308C8f3540b07f84F5e.
Definition GLOBAL_EXIT_ROOT_MANAGER_L2_SOVEREIGN_CHAIN_ADDRESS : Address :=
  be_array 20 0xa40D5f56745a118D0906a34E69aeC8C0Db1cB8fA.
Definition STATIC_CALL_CALLER_ADDRESS : Address :=
  be_array 20 0xe859276098f208D003ca6904C6cC26629Ee364Ce.

Definition DEFAULT_HTTP_RPC_NODE_INITIAL_BACKOFF_MS : Z := 5000.
Definition DEFAULT_HTTP_RPC_NODE_BACKOFF_MAX_RETRIES : Z := 64.
Definition HTTP_CLIENT_CONNECTION_POOL_IDLE_TIMEOUT : Z := 90.
Definition HTTP_CLIENT_MAX_IDLE_CONNECTIONS_PER_HOST : Z := 64.

(** [L1RpcEndpoint], a transparent wrapper. *)
Record L1RpcEndpoint `{!Urls} : Type := { url : Url }.

Definition l1_rpc_endpoint_default `{!Urls} {E} : outcome E L1RpcEndpoint :=
  url ← url_unwrap "http://anvil-mock-l1-rpc:8545"; Ok {| url := url |}.
Definition default_l2_execution_layer_url `{!Urls} {E} : outcome E Url :=
  url_unwrap "http://anvil-mock-l2-rpc:8545".
Definition default_l2_consensus_layer_url `{!Urls} {E} : outcome E Url :=
  url_unwrap "http://rollup-node-mock-l2-rpc:8545".

Record AggchainProofContractsConfig `{!Urls} : Type := {
  l1_rpc_endpoint : L1RpcEndpoint;
  l2_execution_layer_rpc_endpoint : Url;
  l2_consensus_layer_rpc_endpoint : Url;
  cc_polygon_rollup_manager : Address;
  cc_global_exit_root_manager_v2_sovereign_chain : Address;
  cc_static_call_caller_address : Address;
  cc_evm_sketch_genesis : string;
}.

Definition default_polygon_rollup_manager : Address := POLYGON_ROLLUP_MANAGER.
Definition default_global_exit_root_manager_v2_sovereign_chain : Address :=
  GLOBAL_EXIT_ROOT_MANAGER_L2_SOVEREIGN_CHAIN_ADDRESS.
Definition default_static_call_caller_address : Address := STATIC_CALL_CALLER_ADDRESS.
Definition default_evm_sketch_genesis : string := "mainnet".

Definition contracts_config_default `{!Urls} {E} : outcome E AggchainProofContractsConfig :=
  l1 ← l1_rpc_endpoint_default;
  l2_el ← default_l2_execution_layer_url;
  l2_cl ← default_l2_consensus_layer_url;
  Ok {| l1_rpc_endpoint := l1;
        l2_execution_layer_rpc_endpoint := l2_el;
        l2_consensus_layer_rpc_endpoint := l2_cl;
        cc_polygon_rollup_manager := default_polygon_rollup_manager;
        cc_global_exit_root_manager_v2_sovereign_chain :=
          default_global_exit_root_manager_v2_sovereign_chain;
        cc_static_call_caller_address := default_static_call_caller_address;
        cc_evm_sketch_genesis := default_evm_sketch_genesis |}.

Definition default_output_at_block_endpoint (env : Env) : string :=
  from_env_or_default Some env "L2_OUTPUT_AT_BLOCK_ENDPOINT" "optimism_outputAtBlock".

Section config.
Context {W : Type} `{Node W}.

Definition parse_evm_sketch_genesis (evm_sketch_genesis : string)
    : outcome ContractsError Genesis :=
  let evm_sketch_genesis := trim evm_sketch_genesis in
  if decide (evm_sketch_genesis = "") then
    Err (InvalidEvmSketchGenesisInput "evm sketch genesis input is empty")
  else
    let name := to_lowercase evm_sketch_genesis in
    if decide (name = "mainnet") then Ok Mainnet
    else if decide (name = "sepolia") then Ok Sepolia
    else if decide (name = "opmainnet") then Ok OpMainnet
    else if decide (name = "linea") then Ok Linea
    else if negb (path_exists evm_sketch_genesis) then
      Err (InvalidEvmSketchGenesisInput
             ("custom genesis json file does not exist: " +:+ evm_sketch_genesis))
    else
      genesis_json_str ← map_err InvalidEvmSketchGenesisInput (read_to_string evm_sketch_genesis);
      parsed_genesis ←
        map_err (λ e, InvalidEvmSketchGenesisInput ("could not parse json str: " +:+ e))
          (genesis_from_json genesis_json_str);
      Ok (Custom parsed_genesis).

(** [prover_alloy::build_alloy_fill_provider]. *)
Definition build_alloy_fill_provider (rpc_url : Url) (backoff max_retries : Z)
    : outcome report AlloyFillProvider :=
  reqwest_client ← reqwest_build HTTP_CLIENT_MAX_IDLE_CONNECTIONS_PER_HOST
                     (from_secs HTTP_CLIENT_CONNECTION_POOL_IDLE_TIMEOUT);
  Ok (on_client reqwest_client rpc_url max_retries backoff 5).

(** [prover_alloy::AlloyProvider], which builds its client the same way. *)
Record AlloyProvider : Type := { client : AlloyFillProvider }.

Definition alloy_provider_new (rpc_url : Url) (backoff max_retries : Z)
    : outcome report AlloyProvider :=
  reqwest_client ← reqwest_build HTTP_CLIENT_MAX_IDLE_CONNECTIONS_PER_HOST
                     (from_secs HTTP_CLIENT_CONNECTION_POOL_IDLE_TIMEOUT);
  Ok {| client := on_client reqwest_client rpc_url max_retries backoff 5 |}.

(** *** [parse_l2_output_root] *)

Definition parse_hash (json : json) (field : string) : outcome ContractsError Digest :=
  value ← ok_or (L2OutputAtBlockValueMissing field) (json_get json field);
  value_str ← ok_or (L2OutputAtBlockValueMissing field) (json_as_str value);
  map_err (L2OutputAtBlockInvalidValue field) (b256_from_str value_str).

Definition parse_l2_output_root (json : json) : outcome ContractsError L2OutputAtBlock :=
  block_ref ← ok_or (L2OutputAtBlockValueMissing "blockRef") (json_get json "blockRef");
  version ← parse_hash json "version";
  state_root ← parse_hash json "stateRoot";
  withdrawal_storage_root ← parse_hash json "withdrawalStorageRoot";
  latest_block_hash ← parse_hash block_ref "hash";
  output_root ← parse_hash json "outputRoot";
  Ok {| version := version; state_root := state_root;
        withdrawal_storage_root := withdrawal_storage_root;
        latest_block_hash := latest_block_hash; output_root := output_root |}.

(** The Erigon client's reading of [eth_getBlockByNumber]. *)
Definition parse_erigon_block (json : Contracts.json) : outcome ContractsError L2OutputAtBlock :=
  state_root ← parse_hash json "stateRoot";
  withdrawal_storage_root ← parse_hash json "withdrawalsRoot";
  latest_block_hash ← parse_hash json "hash";
  output_root ← parse_hash json "stateRoot";
  Ok {| version := be_array 32 0; state_root := state_root;
        withdrawal_storage_root := withdrawal_storage_root;
        latest_block_hash := latest_block_hash; output_root := output_root |}.
End config.

(** ** The RPC client *)

(** A contract instance: its address and the provider it is called through. *)
Record instance `{Node W} : Type := { inst_address : Address; inst_provider : AlloyFillProvider }.

Section client.
Context {W : Type} `{Node W, !HostExecutor W}.
(** The process environment. *)
Variable env : Env.

Record AggchainContractsRpcClient : Type := {
  l2_root_provider_endpoint : Url;
  l2_cl_client : HttpClient;
  polygon_zkevm_bridge_v2 : instance;
  global_exit_root_manager_l2 : instance;
  aggchain_fep : instance;
  trusted_sequencer_addr : Address;
  static_call_caller_address : Address;
  evm_sketch_genesis : Genesis;
  op_succinct_config_name : u8s 32;
}.

Implicit Types self : AggchainContractsRpcClient.

Definition rpc_get_l2_local_exit_root self (block_number : Z) : io W ContractsError Digest :=
  io_map_err LocalExitRootError
    (call_getRoot (inst_provider (polygon_zkevm_bridge_v2 self))
       (inst_address (polygon_zkevm_bridge_v2 self)) block_number).

Definition rpc_get_l2_output_at_block self (block_number : Z)
    : io W ContractsError L2OutputAtBlock :=
  let params := [hex_quantity block_number] in
  json ← io_map_err L2OutputAtBlockRetrievalError
    (rpc_request (l2_cl_client self) (default_output_at_block_endpoint env) params);
  lift (parse_l2_output_root json).

Definition rpc_get_op_succinct_config self : io W ContractsError OpSuccinctConfig :=
  op_succinct_config ← io_map_err OpSuccinctConfigRetrievalError
    (call_opSuccinctConfigs (inst_provider (aggchain_fep self))
       (inst_address (aggchain_fep self)) (op_succinct_config_name self));
  mret {| cfg_range_vkey_commitment := rangeVkeyCommitment op_succinct_config;
          cfg_aggregation_vkey_hash := aggregationVkey op_succinct_config;
          cfg_rollup_config_hash := rollupConfigHash op_succinct_config |}.

Definition rpc_get_trusted_sequencer_address self : io W ContractsError Address :=
  mret (trusted_sequencer_addr self).

(** [host_execute]. *)
Definition host_execute (caller_address contract_address : Address) (sketch : EvmSketch)
    (calldata : SolCall) (stage : StaticCallStage) : io W ContractsError () :=
  output_bytes ← io_map_err (λ source, InvalidHostStaticCall source stage)
    (call_raw sketch (new_call contract_address caller_address calldata));
  mret ().

(** [sp1_async(..).await.context(ctx).map_err(Error::Other)?]. *)
Definition sp1_async_context {A} (ctx : string) (m : io W ContractsError A)
    : io W ContractsError A :=
  io_flatten (λ r, ContractsOther (ReportContext ctx r)) id (sp1_async m).

Definition rpc_get_prev_l2_block_sketch self (prev_l2_block : BlockNumberOrTag)
    : io W ContractsError EvmSketchInput :=
  sp1_async_context "Failed getting previous L2 block sketch" (
    sketch ← io_map_err HostExecutorPreBlockInitialization
      (sketch_build prev_l2_block (evm_sketch_genesis self) (l2_root_provider_endpoint self));
    let caller_address := static_call_caller_address self in
    let ger_address := inst_address (global_exit_root_manager_l2 self) in
    let bridge_address := inst_address (polygon_zkevm_bridge_v2 self) in
    _ ← host_execute caller_address ger_address sketch insertedGERHashChainCall
          (PrevHashChain StaticCall.InsertedGER);
    _ ← host_execute caller_address ger_address sketch removedGERHashChainCall
          (PrevHashChain RemovedGER);
    _ ← host_execute caller_address bridge_address sketch claimedGlobalIndexHashChainCall
          (PrevHashChain ClaimedGlobalIndex);
    _ ← host_execute caller_address bridge_address sketch unsetGlobalIndexHashChainCall
          (PrevHashChain UnsetGlobalIndex);
    io_map_err InvalidPreBlockSketchFinalization (finalize sketch)).

Definition rpc_get_new_l2_block_sketch self (new_l2_block : BlockNumberOrTag)
    : io W ContractsError EvmSketchInput :=
  sp1_async_context "Failed getting new L2 block sketch" (
    sketch ← io_map_err HostExecutorNewBlockInitialization
      (sketch_build new_l2_block (evm_sketch_genesis self) (l2_root_provider_endpoint self));
    let caller_address := static_call_caller_address self in
    let ger_address := inst_address (global_exit_root_manager_l2 self) in
    let bridge_address := inst_address (polygon_zkevm_bridge_v2 self) in
    _ ← host_execute caller_address ger_address sketch bridgeAddressCall BridgeAddress;
    _ ← host_execute caller_address bridge_address sketch getRootCall NewLer;
    _ ← host_execute caller_address ger_address sketch insertedGERHashChainCall
          (NewHashChain StaticCall.InsertedGER);
    _ ← host_execute caller_address ger_address sketch removedGERHashChainCall
          (NewHashChain RemovedGER);
    _ ← host_execute caller_address bridge_address sketch claimedGlobalIndexHashChainCall
          (NewHashChain ClaimedGlobalIndex);
    _ ← host_execute caller_address bridge_address sketch unsetGlobalIndexHashChainCall
          (NewHashChain UnsetGlobalIndex);
    io_map_err InvalidNewBlockSketchFinalization (finalize sketch)).

(** [impl AggchainContractsClient for AggchainContractsRpcClient]. *)
Definition rpc_contracts_client self : ContractsClient W :=
  {| get_l2_local_exit_root := rpc_get_l2_local_exit_root self;
     get_l2_output_at_block := rpc_get_l2_output_at_block self;
     get_op_succinct_config := rpc_get_op_succinct_config self;
     get_trusted_sequencer_address := rpc_get_trusted_sequencer_address self;
     get_prev_l2_block_sketch := rpc_get_prev_l2_block_sketch self;
     get_new_l2_block_sketch := rpc_get_new_l2_block_sketch self |}.

(** [AggchainContractsRpcClient::new]. *)
Definition contracts_client_new (network_id : Z) (config : AggchainProofContractsConfig)
    : io W ContractsError AggchainContractsRpcClient :=
  l1_client ← lift (map_err ProviderInitializationError
    (build_alloy_fill_provider (url (l1_rpc_endpoint config))
       DEFAULT_HTTP_RPC_NODE_INITIAL_BACKOFF_MS DEFAULT_HTTP_RPC_NODE_BACKOFF_MAX_RETRIES));
  l2_el_client ← lift (map_err ProviderInitializationError
    (build_alloy_fill_provider (l2_execution_layer_rpc_endpoint config)
       DEFAULT_HTTP_RPC_NODE_INITIAL_BACKOFF_MS DEFAULT_HTTP_RPC_NODE_BACKOFF_MAX_RETRIES));
  l2_cl_client ← lift (map_err RollupNodeInitError
    (http_client_build (l2_consensus_layer_rpc_endpoint config)));
  let global_exit_root_manager_l2 :=
    {| inst_address := cc_global_exit_root_manager_v2_sovereign_chain config;
       inst_provider := l2_el_client |} in
  polygon_zkevm_bridge_address ← io_map_err BridgeAddressError
    (call_bridgeAddress l2_el_client (inst_address global_exit_root_manager_l2));
  aggchain_fep_address ← io_map_err AggchainFepAddressError
    (call_rollupContract l1_client (cc_polygon_rollup_manager config) network_id);
  trusted_sequencer_addr ← io_map_err UnableToRetrieveTrustedSequencerAddress
    (call_trustedSequencer l1_client aggchain_fep_address);
  op_succinct_config_name ← io_map_err SelectedOpSuccinctConfigRetrievalError
    (call_selectedOpSuccinctConfigName l1_client aggchain_fep_address);
  evm_sketch_genesis ← lift (parse_evm_sketch_genesis (cc_evm_sketch_genesis config));
  mret {| l2_root_provider_endpoint := l2_execution_layer_rpc_endpoint config;
          l2_cl_client := l2_cl_client;
          polygon_zkevm_bridge_v2 :=
            {| inst_address := polygon_zkevm_bridge_address; inst_provider := l2_el_client |};
          global_exit_root_manager_l2 := global_exit_root_manager_l2;
          aggchain_fep :=
            {| inst_address := aggchain_fep_address; inst_provider := l1_client |};
          trusted_sequencer_addr := trusted_sequencer_addr;
          static_call_caller_address := cc_static_call_caller_address config;
          evm_sketch_genesis := evm_sketch_genesis;
          op_succinct_config_name := op_succinct_config_name |}.
End client.

(** ** The Erigon client

    A decorator for networks without the optimism namespace: it reads block roots and
    builds sketches itself, and delegates the rest. *)

Section erigon.
Context {W : Type} `{Node W, !HostExecutor W}.

Record ErigonContractsClient : Type := {
  er_inner : ContractsClient W;
  er_l2_client : HttpClient;
  er_static_call_caller_address : Address;
  er_global_exit_root_manager_l2 : instance;
  er_polygon_zkevm_bridge_v2 : instance;
  er_sketch_genesis : Genesis;
}.

Implicit Types self : ErigonContractsClient.

Definition erigon_new (inner : ContractsClient W) (l2endpoint : Url)
    (config : AggchainProofContractsConfig) : io W ContractsError ErigonContractsClient :=
  l2_client ← lift (map_err RollupNodeInitError (http_client_build l2endpoint));
  l2_el_client ← lift (map_err ProviderInitializationError
    (build_alloy_fill_provider (l2_execution_layer_rpc_endpoint config)
       DEFAULT_HTTP_RPC_NODE_INITIAL_BACKOFF_MS DEFAULT_HTTP_RPC_NODE_BACKOFF_MAX_RETRIES));
  let global_exit_root_manager_l2 :=
    {| inst_address := cc_global_exit_root_manager_v2_sovereign_chain config;
       inst_provider := l2_el_client |} in
  polygon_zkevm_bridge_address ← io_map_err BridgeAddressError
    (call_bridgeAddress l2_el_client (inst_address global_exit_root_manager_l2));
  sketch_genesis ← lift (parse_evm_sketch_genesis (cc_evm_sketch_genesis config));
  mret {| er_inner := inner;
          er_l2_client := l2_client;
          er_static_call_caller_address := cc_static_call_caller_address config;
          er_global_exit_root_manager_l2 := global_exit_root_manager_l2;
          er_polygon_zkevm_bridge_v2 :=
            {| inst_address := polygon_zkevm_bridge_address; inst_provider := l2_el_client |};
          er_sketch_genesis := sketch_genesis |}.

Definition ERIGON_EL_RPC_URL : string := "http://127.0.0.1:8123".

Definition erigon_get_prev_l2_block_sketch self (block_number : BlockNumberOrTag)
    : io W ContractsError EvmSketchInput :=
  sp1_async_context "Failed getting previous L2 block sketch" (
    el_rpc_url ← lift (url_unwrap ERIGON_EL_RPC_URL);
    sketch ← io_map_err HostExecutorNewBlockInitialization
      (sketch_build block_number (er_sketch_genesis self) el_rpc_url);
    let caller_address := er_static_call_caller_address self in
    let ger_address := inst_address (er_global_exit_root_manager_l2 self) in
    let bridge_address := inst_address (er_polygon_zkevm_bridge_v2 self) in
    _ ← host_execute caller_address ger_address sketch insertedGERHashChainCall
          (PrevHashChain StaticCall.InsertedGER);
    _ ← host_execute caller_address ger_address sketch removedGERHashChainCall
          (PrevHashChain RemovedGER);
    _ ← host_execute caller_address bridge_address sketch claimedGlobalIndexHashChainCall
          (PrevHashChain ClaimedGlobalIndex);
    _ ← host_execute caller_address bridge_address sketch unsetGlobalIndexHashChainCall
          (PrevHashChain UnsetGlobalIndex);
    io_map_err InvalidPreBlockSketchFinalization (finalize sketch)).

Definition erigon_get_new_l2_block_sketch self (block_number : BlockNumberOrTag)
    : io W ContractsError EvmSketchInput :=
  sp1_async_context "Failed getting new L2 block sketch" (
    el_rpc_url ← lift (url_unwrap ERIGON_EL_RPC_URL);
    sketch ← io_map_err HostExecutorNewBlockInitialization
      (sketch_build block_number (er_sketch_genesis self) el_rpc_url);
    let caller_address := er_static_call_caller_address self in
    let ger_address := inst_address (er_global_exit_root_manager_l2 self) in
    let bridge_address := inst_address (er_polygon_zkevm_bridge_v2 self) in
    _ ← host_execute caller_address ger_address sketch bridgeAddressCall BridgeAddress;
    _ ← host_execute caller_address bridge_address sketch getRootCall NewLer;
    _ ← host_execute caller_address ger_address sketch insertedGERHashChainCall
          (NewHashChain StaticCall.InsertedGER);
    _ ← host_execute caller_address ger_address sketch removedGERHashChainCall
          (NewHashChain RemovedGER);
    _ ← host_execute caller_address bridge_address sketch claimedGlobalIndexHashChainCall
          (NewHashChain ClaimedGlobalIndex);
    _ ← host_execute caller_address bridge_address sketch unsetGlobalIndexHashChainCall
          (NewHashChain UnsetGlobalIndex);
    io_map_err InvalidPreBlockSketchFinalization (finalize sketch)).

Definition erigon_get_l2_output_at_block self (block_number : Z)
    : io W ContractsError L2OutputAtBlock :=
  let params := [hex_quantity block_number] in
  json ← io_map_err L2OutputAtBlockRetrievalError
    (rpc_request (er_l2_client self) "eth_getBlockByNumber" params);
  lift (parse_erigon_block json).

(** What is left to the inner client. *)
Definition erigon_get_trusted_sequencer_address self : io W ContractsError Address :=
  get_trusted_sequencer_address _ (er_inner self).

Definition erigon_get_op_succinct_config self : io W ContractsError OpSuccinctConfig :=
  get_op_succinct_config _ (er_inner self).

Definition erigon_get_l2_local_exit_root self (block_number : Z) : io W ContractsError Digest :=
  get_l2_local_exit_root _ (er_inner self) block_number.

Definition erigon_contracts_client self : ContractsClient W :=
  {| get_l2_local_exit_root := erigon_get_l2_local_exit_root self;
     get_l2_output_at_block := erigon_get_l2_output_at_block self;
     get_op_succinct_config := erigon_get_op_succinct_config self;
     get_trusted_sequencer_address := erigon_get_trusted_sequencer_address self;
     get_prev_l2_block_sketch := erigon_get_prev_l2_block_sketch self;
     get_new_l2_block_sketch := erigon_get_new_l2_block_sketch self |}.
End erigon.

(** ** The sketches cover the guest's static calls *)

(** What the host executor documents: a sketch records the state its calls access, and
    the client executor can replay on the finalized sketch every call made on it. *)
Section prefetch.
Context `{!Hashing, !UnifiedBridge} {W : Type} `{Node W, !HostExecutor W}.

Definition answers (input : EvmSketchInput) (c : ContractInput) : Prop :=
  ∃ executor pv, ClientExecutor_eth input = Ok executor ∧
                 ClientExecutor_execute executor c = Ok pv.

Class HostExecutorLaws := {
  accessed : W → EvmSketch → ContractInput → Prop;
  call_raw_accessed s c w out w' : call_raw s c w = (Ok out, w') → accessed w' s c;
  call_raw_keeps s c w out w' c' :
    call_raw s c w = (Ok out, w') → accessed w s c' → accessed w' s c';
  finalize_answers s w input w' c :
    finalize s w = (Ok input, w') → accessed w s c → answers input c;
}.
Context `{!HostExecutorLaws}.

(** The static calls of the guest on the two sketches. *)
Definition guest_prev_calls (caller ger bridge : Address) : list ContractInput :=
  [new_call ger caller insertedGERHashChainCall; new_call ger caller removedGERHashChainCall;
   new_call bridge caller claimedGlobalIndexHashChainCall;
   new_call bridge caller unsetGlobalIndexHashChainCall].

Definition guest_new_calls (caller ger bridge : Address) : list ContractInput :=
  [new_call ger caller bridgeAddressCall; new_call bridge caller getRootCall] ++
  guest_prev_calls caller ger bridge.

Lemma host_execute_accessed caller addr s call stage w w' :
  host_execute caller addr s call stage w = (Ok (), w') →
  accessed w' s (new_call addr caller call) ∧
  ∀ c', accessed w s c' → accessed w' s c'.
Proof.
  intros (out & w1 & Hc%io_map_err_ok & Hr)%io_bind_ok. injection Hr as <-.
  split; [by eapply call_raw_accessed|]. intros c'. by eapply call_raw_keeps.
Qed.

Lemma sp1_async_context_ok {A} ctx (m : io W ContractsError A) w a w' :
  sp1_async_context ctx m w = (Ok a, w') → m w = (Ok a, w').
Proof. apply io_flatten_sp1_async_ok. Qed.

(** Walk down a chain of [host_execute]s, keeping what was accessed. *)
Ltac host_steps H :=
  let Ha := fresh "Ha" in let Hk := fresh "Hk" in
  apply io_bind_ok in H as ([] & ? & [Ha Hk]%host_execute_accessed & H).

Lemma prev_sketch_answers self b w input w' :
  rpc_get_prev_l2_block_sketch self b w = (Ok input, w') →
  Forall (answers input)
    (guest_prev_calls (static_call_caller_address self)
       (inst_address (global_exit_root_manager_l2 self))
       (inst_address (polygon_zkevm_bridge_v2 self))).
Proof.
  intros (s & w1 & _ & Hc)%sp1_async_context_ok%io_bind_ok.
  do 4 host_steps Hc. apply io_map_err_ok in Hc.
  repeat constructor; eapply finalize_answers; eauto 10.
Qed.

Lemma new_sketch_answers self b w input w' :
  rpc_get_new_l2_block_sketch self b w = (Ok input, w') →
  Forall (answers input)
    (guest_new_calls (static_call_caller_address self)
       (inst_address (global_exit_root_manager_l2 self))
       (inst_address (polygon_zkevm_bridge_v2 self))).
Proof.
  intros (s & w1 & _ & Hc)%sp1_async_context_ok%io_bind_ok.
  do 6 host_steps Hc. apply io_map_err_ok in Hc.
  repeat constructor; eapply finalize_answers; eauto 10.
Qed.

(** A static call that fails for lack of state, as opposed to one whose output does not
    decode. *)
Definition lacks_state (e : BridgeConstraintsError) : Prop :=
  match e with
  | StaticCallErrorAt _ (ClientInitialization _) | StaticCallErrorAt _ (ClientExecution _) => True
  | _ => False
  end.

Definition has_state (e : BridgeConstraintsError) : Prop := ¬ lacks_state e.

Lemma execute_answered sc caller sketch call :
  answers sketch (new_call (sc_address sc) caller call) →
  errs (execute sc caller sketch call) has_state.
Proof.
  intros (executor & pv & He & Hx). unfold execute, execute_helper. rewrite He. simpl.
  rewrite Hx. simpl. repeat errs_step; [by intros e _ []|by intros []].
Qed.

Lemma fetch_hash_chains_answered self t addr call :
  answers (prev_l2_block_sketch (bridge_witness self))
    (new_call addr (caller_address (bridge_witness self)) call) →
  answers (new_l2_block_sketch (bridge_witness self))
    (new_call addr (caller_address (bridge_witness self)) call) →
  errs (fetch_hash_chains self t addr call) has_state.
Proof. intros Hp Hn. unfold fetch_hash_chains. repeat errs_step; by apply execute_answered. Qed.

Lemma validate_hash_chain_answered hashes prev new t :
  errs (validate_hash_chain hashes prev new t) has_state.
Proof. unfold validate_hash_chain. repeat errs_step. intros []. Qed.

Lemma filter_values_answered `{Countable K} {V} usize_max (key_fn : V → K) removed values :
  errs (filter_values usize_max key_fn removed values) has_state.
Proof. intros e He. rewrite (filter_values_errs _ _ _ _ e He). intros []. Qed.

#[local] Hint Resolve filter_values_answered : errs.
#[local] Hint Extern 1 (errs (fetch_hash_chains ?self ?t ?addr ?call) _) =>
  apply (fetch_hash_chains_answered self t addr call) : errs.
#[local] Hint Extern 1 (errs (validate_hash_chain ?l ?prev ?new ?t) _) =>
  exact (validate_hash_chain_answered l prev new t) : errs.

#[local] Hint Extern 1 (errs (execute ?sc ?caller ?sketch ?call) _) =>
  apply (execute_answered sc caller sketch call) : errs.

(** If the sketches answer the calls on the bridge that the new state names, no static
    call of the verification lacks state. *)
Lemma verify_answered usize_max (self : BridgeConstraintsInput) bridge :
  let wit := bridge_witness self in
  Forall (answers (prev_l2_block_sketch wit))
    (guest_prev_calls (caller_address wit) (ger_addr self) bridge) →
  Forall (answers (new_l2_block_sketch wit))
    (guest_new_calls (caller_address wit) (ger_addr self) bridge) →
  (∀ addr, new_state self (ger_addr self) bridgeAddressCall addr → addr = bridge) →
  errs (verify usize_max self) has_state.
Proof.
  intros wit Hprev Hnew Hbridge. subst wit.
  unfold guest_new_calls, guest_prev_calls in *. simpl in Hnew.
  repeat match goal with
  | Hall : Forall _ (_ :: _) |- _ => apply Forall_cons_iff in Hall as [? Hall]
  end.
  unfold verify. apply errs_bind; [|intros _ _].
  { unfold verify_ger_hash_chains. repeat errs_step; auto with errs. }
  apply errs_bind; [unfold fetch_bridge_address; auto with errs|]. intros addr Haddr.
  apply fetch_bridge_address_ok, Hbridge in Haddr as ->.
  apply errs_bind; [|intros _ _].
  { unfold verify_claims_hash_chains. repeat errs_step; auto with errs. }
  apply errs_bind; [|intros _ _].
  { unfold verify_new_ler. repeat errs_step; auto with errs. intros []. }
  apply errs_bind; [|intros _ _].
  { unfold verify_constrained_global_indices. repeat errs_step; auto with errs. intros []. }
  unfold verify_inserted_gers. repeat errs_step; auto with errs; [intros []|].
  destruct (List.find _ _); repeat errs_step. intros [].
Qed.

(** C20: what the host prefetches is what the guest reads: the guest's verification never fails
    for lack of state, when both sketches come from the RPC client, at whichever blocks, and
    the guest makes the calls that the client has made: it calls as the address that the
    client calls as, its GER manager is the client's, and the bridge that this manager names
    in the new L2 state, if it names one, is the one that the client was created with. *)
Theorem prefetch_complete usize_max (client : AggchainContractsRpcClient)
    (self : BridgeConstraintsInput) b1 b2 w1 w2 w3 w4 :
  let wit := bridge_witness self in
  rpc_get_prev_l2_block_sketch client b1 w1 = (Ok (prev_l2_block_sketch wit), w2) →
  rpc_get_new_l2_block_sketch client b2 w3 = (Ok (new_l2_block_sketch wit), w4) →
  caller_address wit = static_call_caller_address client →
  ger_addr self = inst_address (global_exit_root_manager_l2 client) →
  (∀ addr, new_state self (ger_addr self) bridgeAddressCall addr →
           addr = inst_address (polygon_zkevm_bridge_v2 client)) →
  errs (verify usize_max self) has_state.
Proof.
  intros wit Hp%prev_sketch_answers Hn%new_sketch_answers Hcaller Hger Hbridge.
  subst wit. apply (verify_answered usize_max self (inst_address (polygon_zkevm_bridge_v2 client)));
    [by rewrite Hcaller, Hger..|done].
Qed.
End prefetch.

(** ** Quantities *)

(** The value of a string of hexadecimal digits. *)
Definition hex_digit_value (c : ascii) : Z :=
  let n := Z.of_N (N_of_ascii c) in if n <? 58 then n - 48 else n - 87.

Fixpoint hex_value (acc : Z) (s : string) : Z :=
  match s with
  | EmptyString => acc
  | String c s => hex_value (acc * 16 + hex_digit_value c) s
  end.

Lemma hex_value_app acc s1 s2 : hex_value acc (s1 +:+ s2) = hex_value (hex_value acc s1) s2.
Proof. revert acc. induction s1 as [|c s1 IH]; intros acc; simpl; [done|apply IH]. Qed.

Lemma hex_digit_value_digit z : 0 <= z < 16 → hex_digit_value (hex_digit z) = z.
Proof.
  intros Hz. unfold hex_digit_value, hex_digit.
  destruct (Z.ltb_spec z 10); rewrite N_ascii_embedding by lia;
    match goal with |- context [?a <? 58] => destruct (Z.ltb_spec a 58) end; lia.
Qed.

Lemma hex_digits_value fuel z acc :
  0 <= z < 16 ^ Z.of_nat fuel → (0 < fuel)%nat →
  ∃ k, 0 < k ∧ hex_value acc (hex_digits fuel z) = acc * 16 ^ k + z.
Proof.
  revert z acc. induction fuel as [|fuel IH]; intros z acc Hz Hfuel; [lia|]. simpl hex_digits.
  case_decide as Hsmall.
  - exists 1. split; [done|]. simpl. rewrite hex_digit_value_digit by lia. lia.
  - rewrite Nat2Z.inj_succ, Z.pow_succ_r in Hz by lia.
    assert (0 < fuel)%nat by (destruct fuel; [simpl in Hz; lia|lia]).
    destruct (IH (z / 16) acc) as (k & Hk & Hv); [|done|].
    { split; [apply Z.div_pos; lia|apply Z.div_lt_upper_bound; lia]. }
    exists (k + 1). split; [lia|]. rewrite hex_value_app, Hv. simpl.
    rewrite hex_digit_value_digit by (apply Z.mod_pos_bound; lia).
    rewrite Z.pow_add_r, Z.pow_1_r by lia. pose proof (Z.div_mod z 16). lia.
Qed.

(** The block-number parameter of the RPC requests denotes the block: reading the
    digits after ["0x"] gives back any [u64]. *)
Theorem hex_quantity_value (block_number : Z) :
  in_width 64 block_number →
  ∃ digits, hex_quantity block_number = "0x" +:+ digits ∧ hex_value 0 digits = block_number.
Proof.
  intros Hn. exists (hex_digits 16 block_number). split; [done|].
  destruct (hex_digits_value 16 block_number 0) as (k & _ & ->); [|lia|lia].
  unfold in_width in Hn. replace (16 ^ Z.of_nat 16) with (2 ^ 64) by reflexivity. lia.
Qed.

(** ** What the L2 output parser accepts *)

Section parse.
Context {W : Type} `{Node W}.

(** The field of the object is a string that denotes the hash. *)
Definition has_hash (j : json) (field : string) (h : Digest) : Prop :=
  ∃ s, json_get j field = Some (JString s) ∧ b256_from_str s = Ok h.

Lemma parse_hash_ok j field h : parse_hash j field = Ok h ↔ has_hash j field h.
Proof.
  unfold parse_hash, has_hash. split.
  - intros (v & Hv%ok_or_ok & Hrest)%outcome_bind_ok.
    apply outcome_bind_ok in Hrest as (s & Hs%ok_or_ok & Hb%map_err_ok).
    destruct v; simplify_eq/=. by exists s.
  - intros (s & -> & Hb). simpl. by rewrite Hb.
Qed.

(** [parse_l2_output_root] accepts exactly the objects whose five hashes are
    present and well formed, the block hash being that of the block reference. *)
Theorem parse_l2_output_root_ok (j : json) out :
  parse_l2_output_root j = Ok out ↔
  has_hash j "version" (version out) ∧ has_hash j "stateRoot" (state_root out) ∧
  has_hash j "withdrawalStorageRoot" (withdrawal_storage_root out) ∧
  (∃ block_ref, json_get j "blockRef" = Some block_ref ∧
                has_hash block_ref "hash" (latest_block_hash out)) ∧
  has_hash j "outputRoot" (output_root out).
Proof.
  unfold parse_l2_output_root. split.
  - intros (r & Hr%ok_or_ok & Hrest)%outcome_bind_ok.
    apply outcome_bind_ok in Hrest as (v & Hv%parse_hash_ok & Hrest).
    apply outcome_bind_ok in Hrest as (s & Hs%parse_hash_ok & Hrest).
    apply outcome_bind_ok in Hrest as (ws & Hws%parse_hash_ok & Hrest).
    apply outcome_bind_ok in Hrest as (b & Hb%parse_hash_ok & Hrest).
    apply outcome_bind_ok in Hrest as (o & Ho%parse_hash_ok & [= <-]).
    split_and!; eauto.
  - intros (Hv%parse_hash_ok & Hs%parse_hash_ok & Hws%parse_hash_ok &
            (r & Hr & Hb%parse_hash_ok) & Ho%parse_hash_ok).
    rewrite Hr. simpl. rewrite Hv. simpl. rewrite Hs. simpl. rewrite Hws. simpl.
    rewrite Hb. simpl. rewrite Ho. by destruct out.
Qed.
End parse.

(** ** A concrete node *)

Module ToyNode.
Import Toy ToyEvm BridgeSample ConfigSample.

(** The world records the storage accesses of the calls made on each sketch; a sketch
    is named by its block.  Between blocks
    50 and 60 the GERs 1 and 3 are inserted and claim 7 is made. *)
Definition access : Type := Z * (Address * SolCall * bytes).

Definition storage (block : Z) : list (Address * SolCall * bytes) :=
  if decide (block = 50) then (sketch 50 [] [] [] []).2
  else (sketch 60 [1; 3] [] [claim 7] []).2.

Definition find_call (c : ContractInput) (l : list (Address * SolCall * bytes))
    : option (Address * SolCall * bytes) :=
  List.find (λ '(addr, call, _), bool_decide (addr = contract_address c ∧ call = calldata c)) l.

Definition block_accesses (block : Z) (w : list access) : list (Address * SolCall * bytes) :=
  snd <$> List.filter (λ a, bool_decide (a.1 = block)) w.

(** A hash is the text of its 32 bytes. *)
Definition hash_json (n : Z) : json := JString (String.string_of_list_byte (vec_to_list (digest n))).

(** The block the request is about, as [eth_getBlockByNumber] describes it. *)
Definition block_json (params : list string) : json :=
  let n := if decide (params = ["0x32"]) then 50 else 60 in
  JObject [("stateRoot", hash_json (1000 + n)); ("withdrawalsRoot", hash_json 9);
           ("hash", hash_json n)].

#[export] Instance node : Node (list access) := {|
  AlloyError := Empty_set; RpcClientError := Empty_set; HostError := Empty_set;
  FromHexError := ();
  ReqwestClient := (); AlloyFillProvider := (); HttpClient := ();
  EvmSketch := Z; ChainConfig := ();
  reqwest_build _ _ := Ok ();
  on_client _ _ _ _ _ := ();
  http_client_build _ := Ok ();
  rpc_request _ _ params := mret (block_json params);
  call_getRoot _ _ block := mret (digest (block + 39));
  call_bridgeAddress _ _ := mret bridge_addr;
  call_rollupContract _ _ _ := mret bridge_addr;
  call_trustedSequencer _ _ := mret (be_array 20 51);
  call_selectedOpSuccinctConfigName _ _ := mret (digest 0);
  call_opSuccinctConfigs _ _ _ :=
    mret {| aggregationVkey := digest 7; rangeVkeyCommitment := digest 14;
            rollupConfigHash := digest 3 |};
  b256_from_str s := ok_or tt (to_array 32 (String.list_byte_of_string s));
  path_exists _ := false;
  read_to_string _ := Err "no such file";
  genesis_from_json _ := Err "no genesis";
|}.

#[export] Instance host : HostExecutor (list access) := {|
  sketch_build b _ _ := lift (Ok (if b is Number n then n else 0));
  call_raw block c := λ w,
    match find_call c (storage block) with
    | Some a => (Ok a.2, w ++ [(block, a)])
    | None => (Err (ReportMsg "no such call"), w)
    end;
  finalize block := λ w, (Ok (digest block, block_accesses block w), w);
|}.

Lemma find_call_in c a l :
  a ∈ l → a.1 = (contract_address c, calldata c) → is_Some (find_call c l).
Proof.
  intros Hin Ha. unfold find_call. destruct (List.find _ l) as [b|] eqn:Hf; [done|].
  exfalso. apply list_elem_of_In in Hin. apply (List.find_none _ _ Hf) in Hin.
  destruct a as [[addr call] out]. simpl in *. injection Ha as -> ->.
  by rewrite bool_decide_true in Hin.
Qed.

#[export] Instance host_laws : HostExecutorLaws (W:=list access).
Proof.
  refine {| accessed w block c :=
    ∃ a, (block, a) ∈ w ∧ a.1 = (contract_address c, calldata c) |}.
  - intros block c w out w' Hc. simpl in Hc.
    destruct (find_call c (storage block)) as [[[addr call] out']|] eqn:Hf; [|done].
    injection Hc as <- <-. exists (addr, call, out'). split; [set_solver|].
    apply List.find_some in Hf as [_ Hf]. by apply bool_decide_eq_true in Hf as [-> ->].
  - intros block c w out w' c' Hc (a & Hin & Ha). simpl in Hc.
    destruct (find_call c (storage block)); [|done]. injection Hc as _ <-.
    exists a. split; [set_solver|done].
  - intros block w input w' c [= <- <-] (a & Hin & Ha). simpl.
    assert (a ∈ block_accesses block w) as Hin'.
    { unfold block_accesses. apply list_elem_of_fmap. exists (block, a). split; [done|].
      apply list_elem_of_In, List.filter_In. split; [by apply list_elem_of_In|].
      by apply bool_decide_eq_true. }
    destruct (find_call_in c a _ Hin' Ha) as [[[addr call] out] Hf].
    eexists _, {| contractOutput := out; anchorHash := digest block |}.
    split; [done|]. simpl. unfold find_call in Hf. by rewrite Hf.
Qed.

Definition provider (addr : Address) : instance :=
  {| inst_address := addr; inst_provider := () |}.

Definition client : AggchainContractsRpcClient := {|
  l2_root_provider_endpoint := "http://l2";
  l2_cl_client := ();
  polygon_zkevm_bridge_v2 := provider bridge_addr;
  global_exit_root_manager_l2 := provider L2_GER_ADDR;
  aggchain_fep := provider bridge_addr;
  trusted_sequencer_addr := be_array 20 51;
  static_call_caller_address := be_array 20 1;
  evm_sketch_genesis := Mainnet;
  op_succinct_config_name := digest 0;
|}.

(** The witness of [BridgeSample] with the sketches the client fetches. *)
Definition fetched_input : BridgeConstraintsInput :=
  let wit := witness [1; 3] in
  {| ger_addr := L2_GER_ADDR;
     prev_l2_block_hash := digest 50;
     new_l2_block_hash := digest 60;
     new_local_exit_root := digest 99;
     l1_info_root := l1_root;
     commit_imported_bridge_exits := commit_imported_bridge_exits (input [1; 3]);
     bridge_witness := {|
       inserted_gers := inserted_gers wit;
       raw_inserted_gers := raw_inserted_gers wit;
       removed_gers := removed_gers wit;
       bridge_exits_claimed := bridge_exits_claimed wit;
       global_indices_unset := global_indices_unset wit;
       prev_l2_block_sketch :=
         (digest 50, List.filter (λ '(_, c, _), bool_decide (c ≠ bridgeAddressCall ∧ c ≠ getRootCall))
                       (storage 50));
       new_l2_block_sketch :=
         (digest 60,
          (λ n, default (L2_GER_ADDR, getRootCall, []) (storage 60 !! n)) <$> [2; 3; 0; 1; 4; 5]%nat);
       caller_address := be_array 20 1 |} |}.

Example genesis_name : parse_evm_sketch_genesis (W:=list access) "  OpMainnet " = Ok OpMainnet.
Proof. reflexivity. Qed.

Definition sketch_of {W E A} (r : outcome E A * W) : option A :=
  if r.1 is Ok a then Some a else None.

Example fetched_sketches :
  sketch_of (rpc_get_prev_l2_block_sketch client (Number 50) []) =
    Some (prev_l2_block_sketch (bridge_witness fetched_input)) ∧
  sketch_of (rpc_get_new_l2_block_sketch client (Number 60) []) =
    Some (new_l2_block_sketch (bridge_witness fetched_input)).
Proof. split; apply (bool_decide_unpack _); vm_compute; exact I. Qed.

Lemma sketch_of_ok {W E A} (m : io W E A) w a :
  sketch_of (m w) = Some a → ∃ w', m w = (Ok a, w').
Proof. unfold sketch_of. destruct (m w) as [[a'|e|p] w']; simpl; intros [= <-]. by exists w'. Qed.

Lemma fetched_bridge addr :
  new_state fetched_input L2_GER_ADDR bridgeAddressCall addr → addr = bridge_addr.
Proof.
  intros Hn. apply (fetch_bridge_address_ok fetched_input) in Hn.
  assert (fetch_bridge_address fetched_input = Ok bridge_addr) as Hb
    by (vm_cast_no_check (eq_refl (fetch_bridge_address fetched_input))).
  congruence.
Qed.

Lemma prefetch_complete_witness : errs (verify U32_MAX fetched_input) has_state.
Proof.
  destruct fetched_sketches as [Hp Hn].
  destruct (sketch_of_ok _ _ _ Hp) as [w2 Hp'], (sketch_of_ok _ _ _ Hn) as [w4 Hn'].
  exact (prefetch_complete U32_MAX client fetched_input (Number 50) (Number 60) [] w2 [] w4
           Hp' Hn' eq_refl eq_refl fetched_bridge).
Defined.

Lemma hex_quantity_value_witness :
  ∃ digits, hex_quantity 51966 = "0x" +:+ digits ∧ hex_value 0 digits = 51966.
Proof. apply hex_quantity_value. split; [discriminate|reflexivity]. Defined.
End ToyNode.
