(* ===== verification/Vkey.v ===== *)
(** Verification keys: [crates/aggkit-prover-types/src/vkey.rs],
    [crates/aggkit-prover-types/src/vkey_hash.rs] and [crates/proposer-elfs/src/lib.rs].

    The keys of the proposer's programs are embedded as bytes and decoded on first use. *)

From S2P Require Import Prelude Bytes Panics Interop Abi StaticCall Fep Config Executor.

(** [sp1_sdk::HashableKey] and [agglayer_primitives::vkey_hash::VKeyHash].
    [bytes32_raw] copies a field element's minimal encoding and may panic. *)
Class VKeyHashes (W : Type) `{!Sp1Sdk W, !P3Fields} := {
  hash_u32 : SP1VerifyingKey → outcome Empty_set HashU32;
  hash_babybear : SP1VerifyingKey → outcome Empty_set BabyBearDigest;
  bytes32_raw : SP1VerifyingKey → outcome Empty_set (u8s 32);
  hash_bytes : SP1VerifyingKey → outcome Empty_set (u8s 32);
  VKeyHash : Type;
  VKeyHash_eq_dec :: EqDecision VKeyHash;
  from_hash_u32 : HashU32 → VKeyHash;
  (** [bincode_codec().deserialize] and its failure message. *)
  deserialize_vkey : bytes → option SP1VerifyingKey;
}.

Section vkey.
Context {W : Type} `{!Sp1Sdk W, !P3Fields, !VKeyHashes W}.

(** [Sp1VKeyHash::from_vkey]. *)
Definition from_vkey (vkey : SP1VerifyingKey) : outcome Empty_set VKeyHash :=
  from_hash_u32 <$> hash_u32 vkey.

(** A key and the [OnceLock] its decoding is kept in. *)
Record LazyVerifyingKey : Type := {
  lvk_bytes : bytes;
  lvk_vkey : option SP1VerifyingKey;
}.

Definition from_unparsed_bytes (bytes : bytes) : LazyVerifyingKey :=
  {| lvk_bytes := bytes; lvk_vkey := None |}.

(** [LazyVerifyingKey::vkey]: [get_or_init] leaves the lock empty when the closure
    panics. *)
Definition lazy_vkey : io LazyVerifyingKey Empty_set SP1VerifyingKey := λ self,
  match lvk_vkey self with
  | Some vkey => (Ok vkey, self)
  | None =>
      match deserialize_vkey (lvk_bytes self) with
      | Some vkey => (Ok vkey, {| lvk_bytes := lvk_bytes self; lvk_vkey := Some vkey |})
      | None => (Panic (PayloadString "vkey not encoded correctly"), self)
      end
  end.

Definition as_bytes (self : LazyVerifyingKey) : bytes := lvk_bytes self.

(** [AsRef] and [Deref] decode the key; [LowerHex] and [UpperHex] print the bytes, with
    the [fmt] of [alloy_primitives::Bytes]. *)
Definition as_ref : io LazyVerifyingKey Empty_set SP1VerifyingKey := lazy_vkey.
Definition deref : io LazyVerifyingKey Empty_set SP1VerifyingKey := lazy_vkey.

Definition lower_hex (bytes_lower_hex : bytes → string) (self : LazyVerifyingKey) : string :=
  bytes_lower_hex (as_bytes self).
Definition upper_hex (bytes_upper_hex : bytes → string) (self : LazyVerifyingKey) : string :=
  bytes_upper_hex (as_bytes self).

(** The lock holds nothing but the decoding of the bytes. *)
Definition lazy_wf (self : LazyVerifyingKey) : Prop :=
  ∀ vkey, lvk_vkey self = Some vkey → deserialize_vkey (lvk_bytes self) = Some vkey.

Lemma from_unparsed_bytes_wf bytes : lazy_wf (from_unparsed_bytes bytes).
Proof. by intros vkey. Qed.

(** The lazily decoded key is the decoding of the embedded bytes however often it
    is read: reading keeps the invariant and the bytes, every read gives the same
    result, and it panics exactly when the bytes do not decode. *)
Theorem lazy_vkey_spec (self : LazyVerifyingKey) :
  lazy_wf self →
  let '(r, self') := lazy_vkey self in
  lazy_wf self' ∧ as_bytes self' = as_bytes self ∧
  (∀ vkey, r = Ok vkey ↔ deserialize_vkey (as_bytes self) = Some vkey) ∧
  (is_panic r = true ↔ deserialize_vkey (as_bytes self) = None) ∧
  (lazy_vkey self').1 = r.
Proof.
  intros Hwf. unfold lazy_vkey, as_bytes.
  destruct (lvk_vkey self) as [vkey|] eqn:Hv.
  - specialize (Hwf vkey Hv) as Hd. rewrite Hd, Hv. split_and!; try done; try naive_solver.
  - destruct (deserialize_vkey (lvk_bytes self)) as [vkey|] eqn:Hd; simpl.
    + split_and!; try done; try naive_solver. by intros ? [= <-].
    + rewrite Hv, Hd. split_and!; try done; try naive_solver.
Qed.
End vkey.

(** The constants of [proposer_elfs], which its build script generates from the programs:
    the aggregation key and its hash, and the commitment to the range key. *)
Class ProposerElfs (W : Type) `{VKeyHashes W} := {
  aggregation_VKEY_BYTES : bytes;
  aggregation_VKEY_HASH_U32 : HashU32;
  range_VKEY_COMMITMENT : u8s 32;
}.

Section elfs.
Context {W : Type} `{ProposerElfs W}.

(** [aggregation::VKEY.vkey()]. *)
Definition aggregation_VKEY : outcome Empty_set SP1VerifyingKey :=
  (lazy_vkey (from_unparsed_bytes aggregation_VKEY_BYTES)).1.

Definition aggregation_VKEY_HASH : VKeyHash := from_hash_u32 aggregation_VKEY_HASH_U32.
End elfs.

Module ToyKeys.
Import ToyAbi ToySdk.

(** A key is a number; its hash is that number in every form. *)
Definition digest_of (z : Z) : vec Z 8 := [# z + 2 ^ 23; 2; 3; 4; 5; 6; 7; 8].

#[export] Instance vkeys : VKeyHashes Z := {|
  hash_u32 vkey := Ok (digest_of vkey : vec Z 8);
  hash_babybear vkey := Ok (digest_of vkey : vec Z 8);
  bytes32_raw vkey := Ok (be_array 32 vkey);
  hash_bytes vkey := Ok (be_array 32 vkey);
  VKeyHash := vec Z 8;
  from_hash_u32 h := h;
  deserialize_vkey bs := if decide (length bs = 1%nat) then Some (be_value bs) else None;
|}.

#[export] Instance elfs : ProposerElfs Z := {|
  aggregation_VKEY_BYTES := [x07];
  aggregation_VKEY_HASH_U32 := digest_of 7;
  range_VKEY_COMMITMENT := be_array 32 14;
|}.

Lemma lazy_vkey_spec_witness :
  let self := from_unparsed_bytes [x07] in
  lazy_wf self ∧ (lazy_vkey (lazy_vkey self).2).1 = (lazy_vkey self).1.
Proof.
  intros self. pose proof (from_unparsed_bytes_wf [x07]) as Hwf. split; [exact Hwf|].
  exact (proj2 (proj2 (proj2 (proj2 (lazy_vkey_spec self Hwf))))).
Defined.
End ToyKeys.
