(* ===== verification/Builder.v ===== *)
(** The aggchain proof builder: [crates/aggchain-proof-builder/src].

    It gathers the chain data an aggchain proof needs, assembles the guest's witness,
    has the executor prove it, and returns the proof with its public values. *)

From S2P Require Import Prelude Bytes Panics Interop Abi StaticCall FilterValues Bridge Fep AggchainProof ProofInputs Config Executor Contracts Vkey.

Definition MAX_CONCURRENT_REQUESTS : Z := 100.

(** ** What the builder uses of the SDK, bincode and tower *)

Class BuilderDeps (W : Type)
  `{!P3Fields, !Ecdsa, !UnifiedBridge, !EvmClient, !Sp1Sdk W, !Sp1Proofs W} := {
  (** [SP1Stdin::new], [write], [write_proof]: they serialize, and may panic. *)
  stdin_new : outcome Empty_set SP1Stdin;
  stdin_write : SP1Stdin → AggchainProofWitness → outcome Empty_set SP1Stdin;
  stdin_write_proof : SP1Stdin → SP1ReduceProof → SP1VerifyingKey → outcome Empty_set SP1Stdin;
  (** [bincode::sp1v4()] and [bincode::default()]; errors are their texts. *)
  deserialize_public_values : bytes → outcome string AggchainProofPublicValues;
  serialize_vkey : SP1VerifyingKey → outcome string bytes;
  serialize_stark : SP1ReduceProof → outcome string bytes;
  (** [tower::buffer::Buffer::new]. *)
  buffer {Req Res E} : service W Req Res E → Z → service W Req Res (BoxError E);
}.

Class BuilderDepsLaws (W : Type) `{BuilderDeps W} : Prop := {
  buffer_ok {Req Res E} (s : service W Req Res E) n req w res w' :
    call (buffer s n) req w = (Ok res, w') → ∃ w1 w2, call s req w1 = (Ok res, w2);
}.

Section data.
Context {W : Type} `{!P3Fields, !Ecdsa, !UnifiedBridge, !Hashing, !SolAbi, !GlobalIndices,
  !UnspecifiedOrders, !EvmClient, !Urls, !Node W, !HostExecutor W, !Sp1Sdk W, !Sp1Proofs W, !Tokio W,
  !TowerLayers W, !BuilderDeps W, !VKeyHashes W, !ProposerElfs W}.

Record AggchainProofBuilderConfig : Type := {
  cfg_network_id : Z;
  cfg_primary_prover : ProverType;
  cfg_fallback_prover : option ProverType;
  cfg_proving_timeout : Duration;
  cfg_contracts : AggchainProofContractsConfig;
}.

Definition default_aggchain_prover_timeout : Duration := from_secs 3600.

Definition builder_config_default {E} (env : Env) : outcome E AggchainProofBuilderConfig :=
  primary_prover ← network_prover_config_default env;
  contracts ← contracts_config_default;
  Ok {| cfg_network_id := 0;
        cfg_proving_timeout := default_aggchain_prover_timeout;
        cfg_primary_prover := NetworkProver primary_prover;
        cfg_fallback_prover := None;
        cfg_contracts := contracts |}.

Record AggchainProverInputs : Type := {
  api_output_root : ClaimRoot;
  api_stdin : SP1Stdin;
}.

Inductive FepVerification : Type :=
  | FepProof (aggregation_proof : SP1ReduceProof)
             (aggregation_proof_public_values : AggregationProofPublicValues)
  | FepOptimistic (signature : Signature).

Record AggchainProofBuilderRequest : Type := {
  req_fep_verification : FepVerification;
  req_end_block : Z;
  req_aggchain_proof_inputs : AggchainProofInputs;
}.

Record AggchainProofBuilderResponse : Type := {
  res_proof : bytes;
  res_vkey : bytes;
  res_aggchain_params : Digest;
  res_last_proven_block : Z;
  res_end_block : Z;
  res_output_root : ClaimRoot;
  res_new_local_exit_root : Digest;
  res_public_values : AggchainProofPublicValues;
}.

Record AggchainProofBuilder : Type := {
  contracts_client : ContractsClient W;
  network_id : Z;
  prover : service W Request Response (BoxError ExecutorError);
  aggregation_vkey : SP1VerifyingKey;
  aggchain_vkey : SP1VerifyingKey;
  bd_range_vkey_commitment : Digest;
  bd_static_call_caller_address : Address;
}.

Inductive WitnessGeneration : Type := InvalidInsertedGer.

(** [error.rs]. *)
Inductive BuilderError : Type :=
  | L2ChainDataRetrievalError (e : ContractsError)
  | L1ChainDataRetrievalError (e : ContractsError)
  | ProverExecutorError (e : ExecutorError)
  | ProverServiceError (msg : string)
  | ProverFailedToExecute (e : BoxError ExecutorError)
  | GeneratedProofIsNotCompressed
  | UnableToSerializeProof (e : string)
  | UnableToSerializeVkey (e : string)
  | ProverWitnessGenerationError (e : WitnessGeneration)
  | ProverServiceReadyError (e : BoxError ExecutorError)
  | MismatchAggregationElfVkeyHash (got expected : VKeyHash)
  | MismatchAggregationVkeyHash (got expected : Digest)
  | MismatchRangeVkeyCommitment (got expected : Digest)
  | MismatchAggregationProofPublicValues
      (expected_by_contract expected_by_verifier : AggregationProofPublicValues)
  | UnableToFetchTrustedSequencerAddress (e : ContractsError)
  | BuilderOther (e : report).

(** The [eyre::Report]s of [AggchainProofBuilder::new]: reports of other components, or
    the builder's own errors. *)
Inductive NewBuilderError : Type :=
  | NewReport (r : report)
  | NewError (e : BuilderError).

(** [validate_op_succinct_config_keys]. *)
Definition validate_op_succinct_config_keys (op_succinct_config : OpSuccinctConfig)
    (aggregation_vkey : SP1VerifyingKey) (expected_range_vkey_commitment : Digest)
    : outcome BuilderError () :=
  expected_aggregation_vkey_hash ← never (bytes32_raw aggregation_vkey);
  if decide (cfg_aggregation_vkey_hash op_succinct_config ≠ expected_aggregation_vkey_hash) then
    Err (MismatchAggregationVkeyHash (cfg_aggregation_vkey_hash op_succinct_config)
           expected_aggregation_vkey_hash)
  else if decide (cfg_range_vkey_commitment op_succinct_config ≠ expected_range_vkey_commitment) then
    Err (MismatchRangeVkeyCommitment (cfg_range_vkey_commitment op_succinct_config)
           expected_range_vkey_commitment)
  else Ok ().

(** [AggchainProofBuilder::new]. *)
Definition builder_new (aggchain_proof_elf : bytes) (config : AggchainProofBuilderConfig)
    (contracts_client : ContractsClient W) : io W NewBuilderError AggchainProofBuilder :=
  executor ← io_map_err
    (λ r, NewReport (ReportContext "Failed creating executor for AggchainProofBuilder" r))
    (executor_new (cfg_primary_prover config) (cfg_fallback_prover config) aggchain_proof_elf);
  let aggchain_vkey := get_vkey executor in
  let prover := buffer (executor_service executor) MAX_CONCURRENT_REQUESTS in
  aggregation_vkey ← lift (never aggregation_VKEY);
  let range_vkey_commitment := range_VKEY_COMMITMENT in
  retrieved ← lift (map_err (λ r, NewReport (ReportContext "Computing VKey hash" r))
    (infallible <$> sp1_fast (from_vkey aggregation_vkey)));
  _ ← lift (if decide (retrieved ≠ aggregation_VKEY_HASH) then
              Err (NewError (MismatchAggregationElfVkeyHash retrieved aggregation_VKEY_HASH))
            else Ok ());
  op_succinct_config ← io_map_err (λ e, NewError (L1ChainDataRetrievalError e))
    (get_op_succinct_config _ contracts_client);
  _ ← lift (map_err NewError
    (validate_op_succinct_config_keys op_succinct_config aggregation_vkey range_vkey_commitment));
  mret {| contracts_client := contracts_client;
          network_id := cfg_network_id config;
          prover := prover;
          aggregation_vkey := aggregation_vkey;
          aggchain_vkey := aggchain_vkey;
          bd_range_vkey_commitment := range_vkey_commitment;
          bd_static_call_caller_address := cc_static_call_caller_address (cfg_contracts config) |}.
End data.

(** ** Gathering the chain data *)

Section retrieve.
Context {W : Type} `{!P3Fields, !Ecdsa, !UnifiedBridge, !Hashing, !SolAbi, !GlobalIndices,
  !UnspecifiedOrders, !EvmClient, !Urls, !Node W, !HostExecutor W, !Sp1Sdk W, !Sp1Proofs W, !Tokio W,
  !TowerLayers W, !BuilderDeps W, !VKeyHashes W, !ProposerElfs W}.
(** Whether the build checks integer overflow, and whether the [info] level is logged
    (a log line computes the aggchain params). *)
Variables (overflow_checks info_enabled : bool).

(** [new_blocks_range]. *)
Definition new_blocks_range {E} (request : AggchainProofBuilderRequest)
    : outcome E RangeInclusive :=
  range_start ← u64_add overflow_checks
    (last_proven_block (req_aggchain_proof_inputs request)) 1;
  Ok {| range_start := range_start; range_end := req_end_block request |}.

(** The claims of the request in the range. *)
Definition bridge_exits_claimed_in (request : AggchainProofBuilderRequest)
    (range : RangeInclusive) : list GlobalIndexWithLeafHash :=
  (λ ib, {| global_index := global_index_into_u256 (ibe_global_index ib);
            bridge_exit_hash := ibe_bridge_exit_hash ib |}) <$>
    List.filter (λ ib, range_contains range (ibe_block_number ib))
      (imported_bridge_exits (req_aggchain_proof_inputs request)).

(** The [FepInputs] before the verification mode is known. *)
Definition fep_inputs_of (request : AggchainProofBuilderRequest)
    (op_succinct_config : OpSuccinctConfig) (pre claim : L2OutputAtBlock)
    (trusted_sequencer : Address) (aggregation_vkey_hash : BabyBearDigest) : FepInputs :=
  let l1_info_tree_leaf := api_l1_info_tree_leaf (req_aggchain_proof_inputs request) in
  {| l1_head := block_hash (inner l1_info_tree_leaf);
     claim_block_num := as_width 32 (req_end_block request);
     rollup_config_hash := cfg_rollup_config_hash op_succinct_config;
     prev_state_root := state_root pre;
     prev_withdrawal_storage_root := withdrawal_storage_root pre;
     prev_block_hash := latest_block_hash pre;
     new_state_root := state_root claim;
     new_withdrawal_storage_root := withdrawal_storage_root claim;
     new_block_hash := latest_block_hash claim;
     trusted_sequencer := trusted_sequencer;
     signature_optimistic_mode := None;
     l1_info_tree_leaf := l1_info_tree_leaf;
     l1_head_inclusion_proof := l1_info_tree_merkle_proof (req_aggchain_proof_inputs request);
     aggregation_vkey_hash := aggregation_vkey_hash;
     range_vkey_commitment := range_VKEY_COMMITMENT |}.

Definition set_signature (self : FepInputs) (signature : Signature) : FepInputs :=
  {| l1_head := l1_head self;
     claim_block_num := claim_block_num self;
     rollup_config_hash := rollup_config_hash self;
     prev_state_root := prev_state_root self;
     prev_withdrawal_storage_root := prev_withdrawal_storage_root self;
     prev_block_hash := prev_block_hash self;
     new_state_root := new_state_root self;
     new_withdrawal_storage_root := new_withdrawal_storage_root self;
     new_block_hash := new_block_hash self;
     trusted_sequencer := trusted_sequencer self;
     signature_optimistic_mode := Some signature;
     l1_info_tree_leaf := l1_info_tree_leaf self;
     l1_head_inclusion_proof := l1_head_inclusion_proof self;
     aggregation_vkey_hash := aggregation_vkey_hash self;
     range_vkey_commitment := range_vkey_commitment self |}.

(** The match on [request.fep_verification]. *)
Definition apply_fep_verification (verification : FepVerification) (fep_inputs : FepInputs)
    : outcome BuilderError FepInputs :=
  match verification with
  | FepProof _ aggregation_proof_public_values =>
      let retrieved_from_contracts := aggregation_proof_public_values_from fep_inputs in
      if decide (aggregation_proof_public_values ≠ retrieved_from_contracts) then
        Err (MismatchAggregationProofPublicValues retrieved_from_contracts
               aggregation_proof_public_values)
      else Ok fep_inputs
  | FepOptimistic signature => Ok (set_signature fep_inputs signature)
  end.

(** The [info!] line on the aggchain params. *)
Definition log_aggchain_params (fep_inputs : FepInputs) : outcome BuilderError () :=
  if info_enabled then
    _ ← aggchain_params_values_from fep_inputs;
    _ ← aggchain_params fep_inputs;
    Ok ()
  else Ok ().

Definition prover_witness_of (request : AggchainProofBuilderRequest) (network_id : Z)
    (static_call_caller_address : Address) (prev_local_exit_root new_local_exit_root : Digest)
    (fep_inputs : FepInputs) (range : RangeInclusive)
    (prev_l2_block_sketch new_l2_block_sketch : EvmSketchInput) : AggchainProofWitness :=
  let inserted_gers := sorted_inserted_gers (req_aggchain_proof_inputs request) range in
  let bridge_exits_claimed := bridge_exits_claimed_in request range in
  {| apw_prev_local_exit_root := prev_local_exit_root;
     apw_new_local_exit_root := new_local_exit_root;
     apw_l1_info_root := l1_info_tree_root_hash (req_aggchain_proof_inputs request);
     apw_origin_network := network_id;
     apw_fep := fep_inputs;
     apw_commit_imported_bridge_exits :=
       imported_bridge_exits_commitment bridge_exits_claimed
         IMPORTED_BRIDGE_EXIT_COMMITMENT_VERSION;
     apw_bridge_witness := {|
       inserted_gers := inserted_gers;
       bridge_exits_claimed := bridge_exits_claimed;
       global_indices_unset := [];
       raw_inserted_gers := ger <$> inserted_gers;
       removed_gers := [];
       prev_l2_block_sketch := prev_l2_block_sketch;
       new_l2_block_sketch := new_l2_block_sketch;
       caller_address := static_call_caller_address |} |}.

(** The closure that builds the SP1 stdin. *)
Definition build_stdin (verification : FepVerification) (aggregation_vkey : SP1VerifyingKey)
    (prover_witness : AggchainProofWitness) : outcome Empty_set SP1Stdin :=
  stdin ← stdin_new;
  stdin ← stdin_write stdin prover_witness;
  match verification with
  | FepProof aggregation_proof _ => stdin_write_proof stdin aggregation_proof aggregation_vkey
  | FepOptimistic _ => Ok stdin
  end.

(** [AggchainProofBuilder::retrieve_chain_data]. *)
Definition retrieve_chain_data (contracts_client : ContractsClient W)
    (request : AggchainProofBuilderRequest) (network_id : Z)
    (aggregation_vkey : SP1VerifyingKey) (static_call_caller_address : Address)
    (range_vkey_commitment : Digest) : io W BuilderError AggchainProverInputs :=
  let last_proven := last_proven_block (req_aggchain_proof_inputs request) in
  let end_block := req_end_block request in
  new_blocks_range ← lift (new_blocks_range request);
  prev_local_exit_root ← io_map_err L2ChainDataRetrievalError
    (get_l2_local_exit_root _ contracts_client last_proven);
  new_local_exit_root ← io_map_err L2ChainDataRetrievalError
    (get_l2_local_exit_root _ contracts_client end_block);
  l2_pre_root_output_at_block ← io_map_err L2ChainDataRetrievalError
    (get_l2_output_at_block _ contracts_client last_proven);
  claim_root_output_at_block ← io_map_err L2ChainDataRetrievalError
    (get_l2_output_at_block _ contracts_client end_block);
  op_succinct_config ← io_map_err L1ChainDataRetrievalError
    (get_op_succinct_config _ contracts_client);
  _ ← lift (validate_op_succinct_config_keys op_succinct_config aggregation_vkey
              range_vkey_commitment);
  prev_l2_block_sketch ← io_map_err L2ChainDataRetrievalError
    (get_prev_l2_block_sketch _ contracts_client (Number last_proven));
  new_l2_block_sketch ← io_map_err L2ChainDataRetrievalError
    (get_new_l2_block_sketch _ contracts_client (Number end_block));
  trusted_sequencer ← io_map_err UnableToFetchTrustedSequencerAddress
    (get_trusted_sequencer_address _ contracts_client);
  aggregation_vkey_hash ← lift (never (hash_babybear aggregation_vkey));
  fep_inputs ← lift (apply_fep_verification (req_fep_verification request)
    (fep_inputs_of request op_succinct_config l2_pre_root_output_at_block
       claim_root_output_at_block trusted_sequencer aggregation_vkey_hash));
  _ ← lift (log_aggchain_params fep_inputs);
  let prover_witness :=
    prover_witness_of request network_id static_call_caller_address prev_local_exit_root
      new_local_exit_root fep_inputs new_blocks_range prev_l2_block_sketch
      new_l2_block_sketch in
  let output_root := compute_claim_root (apw_fep prover_witness) in
  sp1_stdin ← lift (map_err (λ r, BuilderOther (ReportContext "Failed to build SP1 stdin" r))
    (infallible <$>
      sp1_fast (build_stdin (req_fep_verification request) aggregation_vkey prover_witness)));
  mret {| api_output_root := output_root; api_stdin := sp1_stdin |}.

(** *** The service *)

(** [poll_ready]: the executor's own errors are told from the buffer's. *)
Definition builder_poll_ready (self : AggchainProofBuilder)
    : W → Poll (outcome BuilderError ()) * W :=
  poll_map_err (λ e, match e with
                     | Boxed error => ProverExecutorError error
                     | BoxedOther text => ProverServiceError text
                     end)
    (poll_ready (prover self)).

(** The future of [call], before the panic containment. *)
Definition builder_generate (self : AggchainProofBuilder) (req : AggchainProofBuilderRequest)
    : io W BuilderError AggchainProofBuilderResponse :=
  let last_proven_block := last_proven_block (req_aggchain_proof_inputs req) in
  let end_block := req_end_block req in
  aggchain_prover_inputs ←
    retrieve_chain_data (contracts_client self) req (network_id self) (aggregation_vkey self)
      (bd_static_call_caller_address self) (bd_range_vkey_commitment self);
  let output_root := api_output_root aggchain_prover_inputs in
  _ ← io_map_err ProverServiceReadyError (ready (prover self));
  response ← io_map_err ProverFailedToExecute
    (call (prover self)
       {| stdin := api_stdin aggchain_prover_inputs; proof_type := Stark |});
  public_input ← lift (unwrap
    (λ e, "called `Result::unwrap()` on an `Err` value: " +:+ e)
    (deserialize_public_values (proof_public_values (proof response))));
  compressed ← lift (never (try_as_compressed (proof response)));
  stark ← lift (ok_or GeneratedProofIsNotCompressed compressed);
  vkey ← lift (map_err UnableToSerializeVkey (serialize_vkey (aggchain_vkey self)));
  proof ← lift (map_err UnableToSerializeProof (serialize_stark stark));
  mret {| res_vkey := vkey;
          res_proof := proof;
          res_aggchain_params := apv_aggchain_params public_input;
          res_last_proven_block := last_proven_block;
          res_end_block := end_block;
          res_output_root := output_root;
          res_new_local_exit_root := apv_new_local_exit_root public_input;
          res_public_values := public_input |}.

Definition builder_call (self : AggchainProofBuilder) (req : AggchainProofBuilderRequest)
    : io W BuilderError AggchainProofBuilderResponse :=
  io_flatten BuilderOther id (sp1_async (builder_generate self req)).
End retrieve.

(** ** Properties *)

Section properties.
Context {W : Type} `{!P3Fields, !Ecdsa, !UnifiedBridge, !Hashing, !SolAbi, !GlobalIndices,
  !UnspecifiedOrders, !EvmClient, !Urls, !Node W, !HostExecutor W, !Sp1Sdk W, !Sp1Proofs W, !Tokio W,
  !TowerLayers W, !BuilderDeps W, !VKeyHashes W, !ProposerElfs W}.
Variables (overflow_checks info_enabled : bool).

Lemma built_witness_fits request nid caller prev new fep range s1 s2 :
  witness_fits U32_MAX (bridge_constraints_input
    (prover_witness_of request nid caller prev new fep range s1 s2)).
Proof. by split. Qed.

Lemma remove_each_nil `{Countable K} {V} (key_fn : V → K) (values : list V) :
  remove_each key_fn [] values = values.
Proof. done. Qed.

(** The witness the builder assembles always passes the guest's set checks: the
    commitment is that of the claims, the inserted GERs are the raw ones; what is left
    of those checks is the Merkle inclusion of the GERs of the range. *)
Theorem built_witness_checks request nid caller prev new fep range s1 s2 :
  let self := bridge_constraints_input
                (prover_witness_of request nid caller prev new fep range s1 s2) in
  verify_constrained_global_indices U32_MAX self = Ok () ∧
  (verify_inserted_gers U32_MAX self = Ok () ↔
     Forall (included (l1_info_tree_root_hash (req_aggchain_proof_inputs request)))
       (sorted_inserted_gers (req_aggchain_proof_inputs request) range)).
Proof.
  intros self. assert (witness_fits U32_MAX self) as Hfit by apply built_witness_fits. split.
  - by apply verify_constrained_global_indices_ok.
  - rewrite verify_inserted_gers_ok by done. simpl. split; [by intros [_ ?]|done].
Qed.

Lemma apply_fep_verification_ok verification fep fep' :
  signature_optimistic_mode fep = None →
  apply_fep_verification verification fep = Ok fep' →
  match verification with
  | FepProof _ pv => fep' = fep ∧ aggregation_proof_public_values_from fep = pv
  | FepOptimistic signature => fep' = set_signature fep signature
  end.
Proof.
  intros Hnone. unfold apply_fep_verification. destruct verification as [p pv|sig].
  - case_decide; [done|]. by intros [= <-].
  - by intros [= <-].
Qed.

Lemma sp1_fast_infallible_ok {R} (m : outcome Empty_set R) r :
  infallible <$> sp1_fast m = Ok r ↔ m = Ok r.
Proof. destruct m as [?|[]|?]; cbn; split; congruence. Qed.

(** What the contracts client answered to the builder, and what was made of it. *)
Record chain_data : Type := {
  cd_range : RangeInclusive;
  cd_prev_ler : Digest;
  cd_new_ler : Digest;
  cd_pre : L2OutputAtBlock;
  cd_claim : L2OutputAtBlock;
  cd_config : OpSuccinctConfig;
  cd_prev_sketch : EvmSketchInput;
  cd_new_sketch : EvmSketchInput;
  cd_sequencer : Address;
  cd_vkey_hash : BabyBearDigest;
  cd_fep : FepInputs;
}.

(** A call that was answered. *)
Definition answered {E A} (m : io W E A) (a : A) : Prop := ∃ w w', m w = (Ok a, w').

Record gathered (cc : ContractsClient W) (request : AggchainProofBuilderRequest)
    (vk : SP1VerifyingKey) (rvc : Digest) (d : chain_data) : Prop := {
  got_range : new_blocks_range overflow_checks (E:=BuilderError) request = Ok (cd_range d);
  got_prev_ler :
    answered (get_l2_local_exit_root _ cc (last_proven_block (req_aggchain_proof_inputs request)))
      (cd_prev_ler d);
  got_new_ler : answered (get_l2_local_exit_root _ cc (req_end_block request)) (cd_new_ler d);
  got_pre :
    answered (get_l2_output_at_block _ cc (last_proven_block (req_aggchain_proof_inputs request)))
      (cd_pre d);
  got_claim : answered (get_l2_output_at_block _ cc (req_end_block request)) (cd_claim d);
  got_config : answered (get_op_succinct_config _ cc) (cd_config d);
  got_keys : validate_op_succinct_config_keys (cd_config d) vk rvc = Ok ();
  got_prev_sketch :
    answered (get_prev_l2_block_sketch _ cc
                (Number (last_proven_block (req_aggchain_proof_inputs request))))
      (cd_prev_sketch d);
  got_new_sketch :
    answered (get_new_l2_block_sketch _ cc (Number (req_end_block request))) (cd_new_sketch d);
  got_sequencer : answered (get_trusted_sequencer_address _ cc) (cd_sequencer d);
  got_vkey_hash : hash_babybear vk = Ok (cd_vkey_hash d);
  got_fep :
    apply_fep_verification (req_fep_verification request)
      (fep_inputs_of request (cd_config d) (cd_pre d) (cd_claim d) (cd_sequencer d)
         (cd_vkey_hash d)) = Ok (cd_fep d);
}.

Definition witness_from (request : AggchainProofBuilderRequest) (nid : Z) (caller : Address)
    (d : chain_data) : AggchainProofWitness :=
  prover_witness_of request nid caller (cd_prev_ler d) (cd_new_ler d) (cd_fep d) (cd_range d)
    (cd_prev_sketch d) (cd_new_sketch d).

(** Retrieving the chain data gathers it all, and writes the witness made of it. *)
Lemma retrieve_chain_data_inv cc request nid vk caller rvc w inputs w' :
  retrieve_chain_data overflow_checks info_enabled cc request nid vk caller rvc w
    = (Ok inputs, w') →
  ∃ d, gathered cc request vk rvc d ∧
    build_stdin (req_fep_verification request) vk (witness_from request nid caller d)
      = Ok (api_stdin inputs) ∧
    api_output_root inputs = compute_claim_root (cd_fep d).
Proof.
  unfold retrieve_chain_data. intros Hm.
  io_step Hm as range w0 Hrange.
  io_step Hm as prev_ler w1 Hpl. io_step Hm as new_ler w2 Hnl.
  io_step Hm as pre w3 Hpre. io_step Hm as claim w4 Hclaim.
  io_step Hm as cfg w5 Hcfg. io_step Hm as u w6 Hval.
  io_step Hm as s1 w7 Hs1. io_step Hm as s2 w8 Hs2. io_step Hm as seq w9 Hseq.
  io_step Hm as vkh w10 Hvkh. io_step Hm as fep w11 Hfep. io_step Hm as u' w12 Hlog.
  io_step Hm as sin w13 Hin. injection Hm as <- _. destruct u.
  apply io_map_err_ok in Hpl, Hnl, Hpre, Hclaim, Hcfg, Hs1, Hs2, Hseq.
  apply lift_ok in Hrange as [Hrange _], Hval as [Hval _], Hfep as [Hfep _].
  apply lift_ok in Hvkh as [Hvkh%never_ok _]. apply lift_ok in Hin as [Hin%map_err_ok _].
  apply sp1_fast_infallible_ok in Hin.
  exists {| cd_range := range; cd_prev_ler := prev_ler; cd_new_ler := new_ler; cd_pre := pre;
            cd_claim := claim; cd_config := cfg; cd_prev_sketch := s1; cd_new_sketch := s2;
            cd_sequencer := seq; cd_vkey_hash := vkh; cd_fep := fep |}.
  split; [|by split]. split; unfold answered; simpl; eauto.
Qed.

(** The mode of the witness is the request's, and its L1 head is that of the leaf. *)
Lemma gathered_fep cc request vk rvc d :
  gathered cc request vk rvc d →
  claim_block_num (cd_fep d) = as_width 32 (req_end_block request) ∧
  l1_info_tree_leaf (cd_fep d) = api_l1_info_tree_leaf (req_aggchain_proof_inputs request) ∧
  l1_head_inclusion_proof (cd_fep d) =
    l1_info_tree_merkle_proof (req_aggchain_proof_inputs request) ∧
  l1_head (cd_fep d) = block_hash (inner (l1_info_tree_leaf (cd_fep d))) ∧
  aggregation_vkey_hash (cd_fep d) = cd_vkey_hash d ∧
  trusted_sequencer (cd_fep d) = cd_sequencer d ∧
  prev_block_hash (cd_fep d) = latest_block_hash (cd_pre d) ∧
  new_block_hash (cd_fep d) = latest_block_hash (cd_claim d) ∧
  new_state_root (cd_fep d) = state_root (cd_claim d) ∧
  match req_fep_verification request with
  | FepProof _ pv => signature_optimistic_mode (cd_fep d) = None ∧
                     aggregation_proof_public_values_from (cd_fep d) = pv
  | FepOptimistic sig => signature_optimistic_mode (cd_fep d) = Some sig
  end.
Proof.
  intros [_ _ _ _ _ _ _ _ _ _ _ Hfep]. apply apply_fep_verification_ok in Hfep; [|done].
  destruct (req_fep_verification request) as [p pv|sig];
    [destruct Hfep as [-> Hpv]|rewrite Hfep]; by split_and!.
Qed.

(** The full execution proof inputs are what the contracts answered about the two blocks,
    what the request brings, and the expected keys; [None] is the mode without signature. *)
Record fep_fetched (cc : ContractsClient W) (request : AggchainProofBuilderRequest)
    (vk : SP1VerifyingKey) (rvc : Digest) (fep : FepInputs) : Prop := {
  fetched_pre : ∃ out,
    answered (get_l2_output_at_block _ cc (last_proven_block (req_aggchain_proof_inputs request)))
      out ∧
    prev_state_root fep = state_root out ∧
    prev_withdrawal_storage_root fep = withdrawal_storage_root out ∧
    prev_block_hash fep = latest_block_hash out;
  fetched_claim : ∃ out,
    answered (get_l2_output_at_block _ cc (req_end_block request)) out ∧
    new_state_root fep = state_root out ∧
    new_withdrawal_storage_root fep = withdrawal_storage_root out ∧
    new_block_hash fep = latest_block_hash out;
  fetched_config : ∃ cfg,
    answered (get_op_succinct_config _ cc) cfg ∧
    rollup_config_hash fep = cfg_rollup_config_hash cfg ∧
    bytes32_raw vk = Ok (cfg_aggregation_vkey_hash cfg) ∧ cfg_range_vkey_commitment cfg = rvc;
  fetched_sequencer : answered (get_trusted_sequencer_address _ cc) (trusted_sequencer fep);
  fetched_vkey_hash : hash_babybear vk = Ok (aggregation_vkey_hash fep);
  fetched_range_vkey : range_vkey_commitment fep = range_VKEY_COMMITMENT;
  fetched_block_num : claim_block_num fep = as_width 32 (req_end_block request);
  fetched_leaf : l1_info_tree_leaf fep = api_l1_info_tree_leaf (req_aggchain_proof_inputs request);
  fetched_l1_head : l1_head fep = block_hash (inner (l1_info_tree_leaf fep));
  fetched_inclusion : l1_head_inclusion_proof fep =
    l1_info_tree_merkle_proof (req_aggchain_proof_inputs request);
  fetched_mode :
    match req_fep_verification request with
    | FepProof _ pv => signature_optimistic_mode fep = None ∧
                       aggregation_proof_public_values_from fep = pv
    | FepOptimistic sig => signature_optimistic_mode fep = Some sig
    end;
}.

(** The bridge witness: the GERs and the claims that the request has in the blocks after the
    last proven one, up to the end block, and the sketches of these two blocks. *)
Record bridge_fetched (cc : ContractsClient W) (request : AggchainProofBuilderRequest)
    (range : RangeInclusive) (wit : BridgeWitness) : Prop := {
  fetched_gers :
    inserted_gers wit = sorted_inserted_gers (req_aggchain_proof_inputs request) range;
  fetched_raw : raw_inserted_gers wit = ger <$> inserted_gers wit;
  fetched_none_removed : removed_gers wit = [] ∧ global_indices_unset wit = [];
  fetched_claims :
    bridge_exits_claimed wit =
      (λ exit, {| global_index := global_index_into_u256 (ibe_global_index exit);
                  bridge_exit_hash := ibe_bridge_exit_hash exit |}) <$>
      filter (λ exit, range_start range <= ibe_block_number exit <= range_end range)
        (imported_bridge_exits (req_aggchain_proof_inputs request));
  fetched_prev_sketch :
    answered (get_prev_l2_block_sketch _ cc
                (Number (last_proven_block (req_aggchain_proof_inputs request))))
      (prev_l2_block_sketch wit);
  fetched_new_sketch :
    answered (get_new_l2_block_sketch _ cc (Number (req_end_block request)))
      (new_l2_block_sketch wit);
}.

Record fetched (cc : ContractsClient W) (request : AggchainProofBuilderRequest)
    (vk : SP1VerifyingKey) (rvc : Digest) (range : RangeInclusive) (wit : AggchainProofWitness)
    : Prop := {
  fetched_fep : fep_fetched cc request vk rvc (apw_fep wit);
  fetched_bridge : bridge_fetched cc request range (apw_bridge_witness wit);
  fetched_prev_ler :
    answered (get_l2_local_exit_root _ cc (last_proven_block (req_aggchain_proof_inputs request)))
      (apw_prev_local_exit_root wit);
  fetched_new_ler :
    answered (get_l2_local_exit_root _ cc (req_end_block request)) (apw_new_local_exit_root wit);
  fetched_l1_root : apw_l1_info_root wit = l1_info_tree_root_hash (req_aggchain_proof_inputs request);
  fetched_commitment :
    apw_commit_imported_bridge_exits wit =
      imported_bridge_exits_commitment (bridge_exits_claimed (apw_bridge_witness wit)) V3;
}.

Lemma list_filter_decide {A} (f : A → bool) (P : A → Prop) `{!∀ x, Decision (P x)} (l : list A) :
  (∀ x, f x = true ↔ P x) → List.filter f l = filter P l.
Proof.
  intros Hf. induction l as [|x l IH]; [done|]. rewrite filter_cons. simpl. rewrite IH.
  case_decide as Hp; destruct (f x) eqn:Hx; [done| | |done].
  - apply Hf in Hp. congruence.
  - by apply Hf in Hx.
Qed.

Lemma gathered_fep_fetched cc request vk rvc d :
  gathered cc request vk rvc d → fep_fetched cc request vk rvc (cd_fep d).
Proof.
  intros Hd.
  pose proof (gathered_fep _ _ _ _ _ Hd) as (Hnum & Hleaf & Hproof & Hhead & _ & _ & _ & _ & _ & Hmode).
  destruct Hd as [_ _ _ Hpre Hclaim Hcfg Hval _ _ Hseq Hvkh Hfep].
  unfold validate_op_succinct_config_keys in Hval.
  apply outcome_bind_ok in Hval as (h & Hh%never_ok & Hif). do 2 (case_decide; [done|]).
  apply apply_fep_verification_ok in Hfep; [|done].
  set (F := fep_inputs_of request (cd_config d) (cd_pre d) (cd_claim d) (cd_sequencer d)
              (cd_vkey_hash d)) in *.
  assert (cd_fep d = F ∨ ∃ sig, cd_fep d = set_signature F sig) as Hor.
  { destruct (req_fep_verification request) as [p pv|sig];
      [left; by destruct Hfep|right; by exists sig]. }
  split; try done; [exists (cd_pre d)|exists (cd_claim d)|exists (cd_config d)|..];
    destruct Hor as [->|[sig ->]]; (split_and!; [done..|congruence|done]) || done.
Qed.

(** C24: when the chain data is retrieved, the stdin handed to the prover holds a witness made
    of what the contracts answered: the two outputs, the two local exit roots and the two
    sketches are those of the last proven block and of the end block, the sequencer and the
    rollup configuration are those of the contracts, whose keys are the expected ones; the
    GERs and the claims are those of the request in the blocks after the last proven one;
    the L1 head is the leaf's, the mode is the request's, and in proof mode the public values
    received with the proof are those of the witness.  (Beyond [u64] the first block wraps
    around, in a build that does not check overflows.) *)
Theorem retrieve_chain_data_ok cc request nid vk caller rvc w inputs w' :
  retrieve_chain_data overflow_checks info_enabled cc request nid vk caller rvc w
    = (Ok inputs, w') →
  let last := last_proven_block (req_aggchain_proof_inputs request) in
  let first := if decide (last + 1 <= U64_MAX) then last + 1 else as_width 64 (last + 1) in
  ∃ wit,
    build_stdin (req_fep_verification request) vk wit = Ok (api_stdin inputs) ∧
    api_output_root inputs = compute_claim_root (apw_fep wit) ∧
    apw_origin_network wit = nid ∧
    caller_address (apw_bridge_witness wit) = caller ∧
    fetched cc request vk rvc {| range_start := first; range_end := req_end_block request |} wit.
Proof.
  intros (d & Hd & Hstdin & Hroot)%retrieve_chain_data_inv last first.
  exists (witness_from request nid caller d). split_and!; [done..|].
  pose proof (gathered_fep_fetched _ _ _ _ _ Hd) as Hfep.
  destruct Hd as [Hrange Hpl Hnl _ _ _ _ Hs1 Hs2 _ _ _].
  assert (cd_range d = {| range_start := first; range_end := req_end_block request |}) as Hr.
  { unfold new_blocks_range, u64_add in Hrange. unfold first, last. case_decide.
    - by injection Hrange as <-.
    - destruct overflow_checks; [done|]. by injection Hrange as <-. }
  rewrite <-Hr. split; try done. split; try done. simpl. unfold bridge_exits_claimed_in.
  f_equal. apply list_filter_decide. intros exit. apply range_contains_true.
Qed.

(** The block number of the witness, a [u32], is the end block exactly when the
    end block fits in 32 bits; otherwise it is the remainder modulo 2^32. *)
Theorem claim_block_num_exact request cfg pre claim seq vkh :
  0 <= req_end_block request →
  let fep := fep_inputs_of request cfg pre claim seq vkh in
  fep_wf fep ∧
  (claim_block_num fep = req_end_block request ↔ in_width 32 (req_end_block request)).
Proof.
  intros Hend fep. unfold fep_wf. simpl. split; [by apply as_width_range|].
  split; [|apply as_width_id]. intros <-. by apply as_width_range.
Qed.

(** Generating a proof never panics, whatever the SDK, the contracts client or the
    decoding of the public values do. *)
Theorem builder_call_no_panic self req w :
  is_panic (builder_call overflow_checks info_enabled self req w).1 = false.
Proof. apply io_flatten_sp1_async_no_panic. Qed.

Lemma builder_call_inv self req w res w' :
  builder_call overflow_checks info_enabled self req w = (Ok res, w') →
  res_last_proven_block res = last_proven_block (req_aggchain_proof_inputs req) ∧
  res_end_block res = req_end_block req ∧
  res_aggchain_params res = apv_aggchain_params (res_public_values res) ∧
  res_new_local_exit_root res = apv_new_local_exit_root (res_public_values res) ∧
  serialize_vkey (aggchain_vkey self) = Ok (res_vkey res) ∧
  ∃ inputs w1 w2 response stark,
    retrieve_chain_data overflow_checks info_enabled (contracts_client self) req
      (network_id self) (aggregation_vkey self) (bd_static_call_caller_address self)
      (bd_range_vkey_commitment self) w = (Ok inputs, w1) ∧
    call (prover self) {| stdin := api_stdin inputs; proof_type := Stark |} w2
      = (Ok response, w') ∧
    deserialize_public_values (proof_public_values (proof response))
      = Ok (res_public_values res) ∧
    try_as_compressed (proof response) = Ok (Some stark) ∧
    serialize_stark stark = Ok (res_proof res).
Proof.
  intros Hm%io_flatten_sp1_async_ok. unfold builder_generate in Hm.
  io_step Hm as inputs w1 Hinputs. io_step Hm as u w2 Hready. io_step Hm as response w3 Hcall.
  io_step Hm as pv w4 Hpv. io_step Hm as comp w0 Hcomp. io_step Hm as stark w5 Hstark.
  io_step Hm as vkey w6 Hvkey. io_step Hm as prf w7 Hprf. injection Hm as <- <-. apply io_map_err_ok in Hcall.
  apply lift_ok in Hpv as [Hpv%unwrap_ok ->]. apply lift_ok in Hcomp as [Hcomp%never_ok ->].
  apply lift_ok in Hstark as [->%ok_or_ok ->].
  apply lift_ok in Hvkey as [Hvkey%map_err_ok ->]. apply lift_ok in Hprf as [Hprf%map_err_ok ->].
  simpl. split_and!; try done. by exists inputs, w1, w2, response, stark.
Qed.

(** A response of the builder answers its request with a proof of the prover
    service: it echoes the block range, its public values are those the proof carries,
    and its aggchain params and new local exit root are taken from them. *)
Theorem builder_call_ok self req w res w' :
  builder_call overflow_checks info_enabled self req w = (Ok res, w') →
  res_last_proven_block res = last_proven_block (req_aggchain_proof_inputs req) ∧
  res_end_block res = req_end_block req ∧
  res_aggchain_params res = apv_aggchain_params (res_public_values res) ∧
  res_new_local_exit_root res = apv_new_local_exit_root (res_public_values res) ∧
  serialize_vkey (aggchain_vkey self) = Ok (res_vkey res) ∧
  ∃ response w1 inputs stark,
    call (prover self) {| stdin := inputs; proof_type := Stark |} w1
      = (Ok response, w') ∧
    deserialize_public_values (proof_public_values (proof response))
      = Ok (res_public_values res) ∧
    try_as_compressed (proof response) = Ok (Some stark) ∧
    serialize_stark stark = Ok (res_proof res).
Proof.
  intros (? & ? & ? & ? & ? & inputs & w1 & w2 & response & stark & _ & Hrest)%builder_call_inv.
  split_and!; try done. by exists response, w2, (api_stdin inputs), stark.
Qed.
End properties.

(** ** From the configuration to a verified proof *)

Section verified.
Context {W : Type} `{!P3Fields, !Ecdsa, !UnifiedBridge, !Hashing, !SolAbi, !GlobalIndices,
  !UnspecifiedOrders, !EvmClient, !Urls, !Node W, !HostExecutor W, !Sp1Sdk W, !Sp1Proofs W, !Tokio W,
  !TowerLayers W, !BuilderDeps W, !VKeyHashes W, !ProposerElfs W}.
Context `{!TokioLaws (W:=W), !TowerLayersLaws W, !BuilderDepsLaws W}.

(** What a builder that was created holds. *)
Lemma builder_new_ok elf config cc w self w' :
  builder_new elf config cc w = (Ok self, w') →
  ∃ executor, executor_wf elf executor ∧
    prover self = buffer (executor_service executor) MAX_CONCURRENT_REQUESTS ∧
    aggchain_vkey self = get_vkey executor ∧
    aggregation_VKEY = Ok (aggregation_vkey self) ∧
    from_vkey (aggregation_vkey self) = Ok aggregation_VKEY_HASH ∧
    bd_range_vkey_commitment self = range_VKEY_COMMITMENT.
Proof.
  unfold builder_new. intros Hm.
  io_step Hm as executor w1 Hex. io_step Hm as vk w2 Hvk. io_step Hm as h w3 Hh.
  io_step Hm as u w4 Hcmp. io_step Hm as cfg w5 Hcfg. io_step Hm as u' w6 Hval.
  injection Hm as <- _. apply io_map_err_ok, executor_new_wf in Hex.
  apply lift_ok in Hvk as [Hvk%never_ok _].
  apply lift_ok in Hh as [Hh%map_err_ok _]. apply sp1_fast_infallible_ok in Hh.
  apply lift_ok in Hcmp as [Hcmp _]. case_decide as Hne; [done|].
  exists executor. split_and!; try done. simpl. rewrite Hh. f_equal.
  by destruct (decide (h = aggregation_VKEY_HASH)).
Qed.

(** Its prover is an executor for the program, and it keeps the configuration. *)
Lemma builder_new_parts elf config cc w self w' :
  builder_new elf config cc w = (Ok self, w') →
  (∃ executor w1 w2,
     executor_new (cfg_primary_prover config) (cfg_fallback_prover config) elf w1
       = (Ok executor, w2) ∧
     prover self = buffer (executor_service executor) MAX_CONCURRENT_REQUESTS) ∧
  contracts_client self = cc ∧ network_id self = cfg_network_id config ∧
  bd_static_call_caller_address self = cc_static_call_caller_address (cfg_contracts config).
Proof.
  unfold builder_new. intros Hm.
  io_step Hm as executor w1 Hex. io_step Hm as vk w2 Hvk. io_step Hm as h w3 Hh.
  io_step Hm as u w4 Hcmp. io_step Hm as cfg w5 Hcfg. io_step Hm as u' w6 Hval.
  injection Hm as <- _. apply io_map_err_ok in Hex. split; [by exists executor, w, w1|done].
Qed.

(** A response stems from a proof of the program for the stdin that was retrieved. *)
Lemma builder_response_proved oc info elf config cc w0 self w1 req w res w' :
  builder_new elf config cc w0 = (Ok self, w1) →
  builder_call oc info self req w = (Ok res, w') →
  ∃ inputs w2 p stark,
    retrieve_chain_data oc info (contracts_client self) req (network_id self)
      (aggregation_vkey self) (bd_static_call_caller_address self)
      (bd_range_vkey_commitment self) w = (Ok inputs, w2) ∧
    proved_on elf {| stdin := api_stdin inputs; proof_type := Stark |} p ∧
    deserialize_public_values (proof_public_values p) = Ok (res_public_values res) ∧
    try_as_compressed p = Ok (Some stark) ∧ serialize_stark stark = Ok (res_proof res).
Proof.
  intros ((ex & w2 & w3 & Hex & Hprover) & _)%builder_new_parts Hc.
  apply builder_call_inv in Hc
    as (_ & _ & _ & _ & _ & inputs & w4 & w5 & response & stark & Hr & Hcall & Hrest).
  rewrite Hprover in Hcall. apply buffer_ok in Hcall as (w6 & w7 & Hcall).
  exists inputs, w4, (proof response), stark. split; [done|]. split; [|done].
  simpl in Hcall. by eapply executor_response_proved.
Qed.

Lemma builder_response_verified oc info elf config cc w0 self w1 req w res w' :
  builder_new elf config cc w0 = (Ok self, w1) →
  builder_call oc info self req w = (Ok res, w') →
  from_vkey (aggregation_vkey self) = Ok aggregation_VKEY_HASH ∧
  ∃ p stark, verified elf p ∧
    deserialize_public_values (proof_public_values p) = Ok (res_public_values res) ∧
    try_as_compressed p = Ok (Some stark) ∧ serialize_stark stark = Ok (res_proof res).
Proof.
  intros Hn Hc. pose proof (builder_new_ok _ _ _ _ _ _ Hn) as (_ & _ & _ & _ & _ & Hkey & _).
  destruct (builder_response_proved _ _ _ _ _ _ _ _ _ _ _ _ Hn Hc)
    as (inputs & w2 & p & stark & _ & Hp & Hrest).
  split; [done|]. exists p, stark. split; [by eapply proved_on_verified|done].
Qed.

(** Whatever the configuration, a response of a builder created for a program
    carries the public values of a proof of that program which the SDK's verifier
    accepted, and the builder was only created for the aggregation key the proposer's
    programs were compiled to. *)
Theorem builder_proof_verified oc info elf config cc w0 self w1 req w res w' :
  builder_new elf config cc w0 = (Ok self, w1) →
  builder_call oc info self req w = (Ok res, w') →
  from_vkey (aggregation_vkey self) = Ok aggregation_VKEY_HASH ∧
  ∃ p stark, verified elf p ∧
    deserialize_public_values (proof_public_values p) = Ok (res_public_values res) ∧
    try_as_compressed p = Ok (Some stark) ∧ serialize_stark stark = Ok (res_proof res).
Proof. apply builder_response_verified. Qed.
End verified.

(** ** A concrete run

    The toy prover runs the guest: its proof is the witness, whose public values are those
    the guest commits for it, and it verifies when there are any. *)

Module BuilderSample.
Import Toy ToyAbi ToyEvm ToyOrders ToyNode ConfigSample ProofInputsSample.
Import (hints) BridgeSample.

Definition world : Type := list access.

(** What the guest commits for a witness. *)
Definition proven (wit : AggchainProofWitness) : option AggchainProofPublicValues :=
  if decide (witness_wf wit) then
    match verify_aggchain_inputs Zkvm (λ _ _, Ok ()) U32_MAX wit with
    | Ok pv => Some pv
    | _ => None
    end
  else None.

(** Proofs of the guest, and of the aggregation program, whose key is 7. *)
Inductive toy_proof : Type :=
  | NoProof
  | OfGuest (wit : AggchainProofWitness)
  | OfAggregation (pv : AggregationProofPublicValues).

Definition run_guest (stdin : option AggchainProofWitness) : io world string toy_proof :=
  match stdin with
  | None => throw "no input"
  | Some wit => if proven wit is Some _ then mret (OfGuest wit) else throw "the guest aborted"
  end.

Definition toy_verify (p : toy_proof) (vk : Z) : outcome SP1VerificationError () :=
  match p with
  | NoProof => Err SP1InvalidPublicValues
  | OfGuest wit =>
      if decide (vk = 7) then Err SP1InvalidPublicValues
      else if proven wit is Some _ then Ok () else Err SP1InvalidPublicValues
  | OfAggregation _ => if decide (vk = 7) then Ok () else Err SP1InvalidPublicValues
  end.

#[export] Instance sdk : Sp1Sdk world := {|
  SP1Stdin := option AggchainProofWitness;
  SP1ProvingKey := ();
  SP1VerifyingKey := Z;
  SP1ProofWithPublicValues := toy_proof;
  CpuProverClient := ();
  NetworkProverClient := ();
  cpu_prover_new := mret ();
  cpu_prover_mock := mret ();
  network_prover_build _ _ := mret ();
  cpu_setup _ program := mret ((), Z.of_nat (length program));
  network_setup _ program := mret ((), Z.of_nat (length program));
  cpu_run _ _ stdin _ _ := run_guest stdin;
  network_run _ _ stdin _ _ := run_guest stdin;
  cpu_verify _ := toy_verify;
  network_verify _ := toy_verify;
|}.

#[export] Instance tokio : Tokio world := tokio_direct.
#[export] Instance layers : TowerLayers world := ToySdk.layers.

Definition encode (p : option AggchainProofPublicValues) : bytes :=
  match p with
  | Some pv =>
      vec_to_list (apv_prev_local_exit_root pv) ++ vec_to_list (apv_new_local_exit_root pv) ++
      vec_to_list (apv_l1_info_root pv) ++ be_bytes 4 (apv_origin_network pv) ++
      vec_to_list (apv_commit_imported_bridge_exits pv) ++ vec_to_list (apv_aggchain_params pv)
  | None => []
  end.

Definition word (off : nat) (bs : bytes) : Digest := be_array 32 (be_value (take 32 (drop off bs))).

Definition decode (bs : bytes) : outcome string AggchainProofPublicValues :=
  if decide (length bs = 164%nat) then
    Ok {| apv_prev_local_exit_root := word 0 bs; apv_new_local_exit_root := word 32 bs;
          apv_l1_info_root := word 64 bs;
          apv_origin_network := be_value (take 4 (drop 96 bs));
          apv_commit_imported_bridge_exits := word 100 bs; apv_aggchain_params := word 132 bs |}
  else Err "unexpected end of file".

Definition toy_values (p : toy_proof) : bytes :=
  match p with
  | NoProof => []
  | OfGuest wit => encode (proven wit)
  | OfAggregation pv => abi_encode (AggregationProofPublicValues_fields pv)
  end.

#[export] Instance proofs : Sp1Proofs world := {|
  SP1ReduceProof := bytes;
  proof_public_values := toy_values;
  proof_mode _ := Ok ModeCompressed;
  try_as_compressed p := Ok (Some (toy_values p));
|}.

#[export] Instance deps : BuilderDeps world := {|
  stdin_new := Ok (None : SP1Stdin);
  stdin_write _ wit := Ok (Some wit : SP1Stdin);
  stdin_write_proof stdin _ _ := Ok stdin;
  deserialize_public_values := decode;
  serialize_vkey vkey := Ok (be_bytes 4 vkey);
  serialize_stark s := Ok s;
  buffer Req Res E s _ := service_map_err Boxed s;
|}.

#[export] Instance vkeys : VKeyHashes world := {|
  hash_u32 vkey := Ok (to_hash_u32 (ToyKeys.digest_of vkey : vec Z 8));
  hash_babybear vkey := Ok (ToyKeys.digest_of vkey : vec Z 8);
  bytes32_raw vkey := Ok (be_array 32 vkey);
  hash_bytes vkey := Ok (be_array 32 vkey);
  VKeyHash := vec Z 8;
  from_hash_u32 h := h;
  deserialize_vkey bs := if decide (length bs = 1%nat) then Some (be_value bs) else None;
|}.

#[export] Instance elfs : ProposerElfs world := {|
  aggregation_VKEY_BYTES := [x07];
  aggregation_VKEY_HASH_U32 := ToyKeys.digest_of 7;
  range_VKEY_COMMITMENT := BridgeSample.digest 14;
|}.

Definition output_at (n : Z) : L2OutputAtBlock := {|
  version := BridgeSample.digest 0; state_root := BridgeSample.digest (1000 + n);
  withdrawal_storage_root := BridgeSample.digest 9; latest_block_hash := BridgeSample.digest n;
  output_root := BridgeSample.digest 0 |}.

Definition cc : ContractsClient world := {|
  get_l2_local_exit_root := rpc_get_l2_local_exit_root client;
  get_l2_output_at_block n := mret (output_at n);
  get_op_succinct_config :=
    mret {| cfg_aggregation_vkey_hash := BridgeSample.digest 7;
            cfg_range_vkey_commitment := BridgeSample.digest 14;
            cfg_rollup_config_hash := BridgeSample.digest 3 |};
  get_trusted_sequencer_address := rpc_get_trusted_sequencer_address client;
  get_prev_l2_block_sketch := rpc_get_prev_l2_block_sketch client;
  get_new_l2_block_sketch := rpc_get_new_l2_block_sketch client;
|}.

Definition config : AggchainProofBuilderConfig :=
  {| cfg_network_id := 1; cfg_primary_prover := ExecutorSample.network;
     cfg_fallback_prover := None; cfg_proving_timeout := default_aggchain_prover_timeout;
     cfg_contracts :=
       {| l1_rpc_endpoint := {| url := "http://l1" |};
          l2_execution_layer_rpc_endpoint := "http://l2";
          l2_consensus_layer_rpc_endpoint := "http://l2";
          cc_polygon_rollup_manager := POLYGON_ROLLUP_MANAGER;
          cc_global_exit_root_manager_v2_sovereign_chain := L2_GER_ADDR;
          cc_static_call_caller_address := be_array 20 1;
          cc_evm_sketch_genesis := "mainnet" |} |}.

Definition request (end_block : Z) : AggchainProofBuilderRequest :=
  {| req_fep_verification := FepOptimistic (Some (be_array 20 51) : Signature);
     req_end_block := end_block;
     req_aggchain_proof_inputs := inputs |}.

Definition builder : option AggchainProofBuilder :=
  sketch_of (builder_new [x00; x01] config cc []).

(** The response to a request, when there is one. *)
Definition respond (end_block : Z) : option AggchainProofBuilderResponse :=
  b ← builder; sketch_of (builder_call true true b (request end_block) []).

Example respond_ok :
  (λ r, (res_last_proven_block r, res_end_block r, res_new_local_exit_root r))
    <$> respond 60 = Some (50, 60, BridgeSample.digest 99).
Proof. vm_compute. reflexivity. Qed.

Definition is_some {A} (o : option A) : bool := if o is Some _ then true else false.

Definition retrieved : option AggchainProverInputs :=
  sketch_of (retrieve_chain_data true true cc (request 60) 1 7 (be_array 20 1)
               (BridgeSample.digest 14) []).

Example retrieved_some : is_some retrieved = true.
Proof. vm_compute. reflexivity. Qed.

Lemma retrieve_chain_data_ok_witness :
  ∃ inputs wit,
    build_stdin (W:=world) (req_fep_verification (request 60)) (7 : Z) wit = Ok (api_stdin inputs) ∧
    claim_block_num (apw_fep wit) = 60.
Proof.
  pose proof retrieved_some as Hs. destruct retrieved as [inputs|] eqn:Hr; [|discriminate Hs].
  apply sketch_of_ok in Hr as [w' Hr].
  destruct (retrieve_chain_data_ok true true cc (request 60) 1 7 (be_array 20 1)
              (BridgeSample.digest 14) [] inputs w' Hr) as (wit & Hb & _ & _ & _ & Hf).
  exists inputs, wit. split; [exact Hb|].
  exact (fetched_block_num _ _ _ _ _ (fetched_fep _ _ _ _ _ _ Hf)).
Defined.

Lemma claim_block_num_exact_witness :
  claim_block_num (fep_inputs_of (W:=world) (request (2 ^ 32 + 5))
    {| cfg_aggregation_vkey_hash := BridgeSample.digest 7;
       cfg_range_vkey_commitment := BridgeSample.digest 14;
       cfg_rollup_config_hash := BridgeSample.digest 3 |}
    (output_at 50) (output_at (2 ^ 32 + 5)) (be_array 20 51) (ToyKeys.digest_of 7))
  ≠ req_end_block (request (2 ^ 32 + 5)).
Proof.
  intros Heq.
  refine (_ (proj1 (proj2 (claim_block_num_exact (request (2 ^ 32 + 5)) _ _ _ _ _ _)) Heq)).
  - intros [_ Hlt]. discriminate Hlt.
  - discriminate.
Defined.

Example responds : is_some (respond 60) = true.
Proof. vm_compute. reflexivity. Qed.

Lemma builder_call_ok_witness :
  ∃ res, respond 60 = Some res ∧ res_end_block res = 60 ∧
         res_aggchain_params res = apv_aggchain_params (res_public_values res).
Proof.
  pose proof responds as Hs. destruct (respond 60) as [res|] eqn:Hr; [|discriminate Hs].
  exists res. split; [reflexivity|]. unfold respond in Hr.
  destruct builder as [b|]; [|discriminate Hr]. apply sketch_of_ok in Hr as [w' Hr].
  destruct (builder_call_ok true true b (request 60) [] res w' Hr) as (_ & He & Hp & _).
  split; [exact He|exact Hp].
Defined.

#[export] Instance deps_laws : BuilderDepsLaws world.
Proof. split. intros Req Res E s n req w res w' Hc%io_map_err_ok. by exists w, w'. Qed.

#[export] Instance tokio_laws : TokioLaws (W:=world) := ToySdk.tokio_laws.
#[export] Instance layers_laws : TowerLayersLaws world := ToySdk.layers_laws.

Lemma builder_proof_verified_witness :
  ∃ (p : toy_proof) res,
    respond 60 = Some res ∧ verified (W:=world) [x00; x01] p ∧
    decode (toy_values p) = Ok (res_public_values res).
Proof.
  pose proof responds as Hs. destruct (respond 60) as [res|] eqn:Hr; [|discriminate Hs].
  unfold respond in Hr. destruct builder as [b|] eqn:Hb; [|discriminate Hr].
  apply sketch_of_ok in Hr as [w' Hr]. apply sketch_of_ok in Hb as [w1 Hb].
  destruct (builder_proof_verified true true [x00; x01] config cc [] b w1 (request 60) [] res w'
              Hb Hr) as (_ & p & stark & Hv & Hd & _).
  exists p, res. split; [reflexivity|]. split; [exact Hv|exact Hd].
Defined.
End BuilderSample.
