(* ===== verification/Runs.v ===== *)
(** Executions of SP1 programs behind the executor of [crates/prover-executor/src/lib.rs]:
    when SP1 proves what a program commits, and only that, an executor answers a request
    exactly when the program commits public values on its input.

    Both provers use the executor through this file: the aggkit prover for its guest, in
    compressed mode, and the agglayer prover for the pessimistic proof program, in Plonk mode. *)

From S2P Require Import Prelude Bytes Panics Interop Abi StaticCall Fep AggchainProof Config Executor Contracts Vkey Builder.

(** ** When the environment works *)

(** The layers of tower and tokio when nothing times out and no task is dropped: what the
    service inside does is what the caller sees. *)
Class PromptRuntime (W : Type) `{!P3Fields, !Ecdsa, !UnifiedBridge, !EvmClient, !Sp1Sdk W,
    !Sp1Proofs W, !Tokio W, !TowerLayers W, !BuilderDeps W} : Prop := {
  timeout_layer_prompt {Req Res E} t (s : service W Req Res E) req w res w' :
    call s req w = (Ok res, w') → call (timeout_layer t s) req w = (Ok res, w');
  timeout_layer_ready {Req Res E} t (s : service W Req Res E) w w' :
    ready s w = (Ok (), w') → ready (timeout_layer t s) w = (Ok (), w');
  concurrency_limit_prompt {Req Res E} n (s : service W Req Res E) req w res w' :
    call s req w = (Ok res, w') → call (concurrency_limit_layer n s) req w = (Ok res, w');
  concurrency_limit_ready {Req Res E} n (s : service W Req Res E) w w' :
    ready s w = (Ok (), w') → ready (concurrency_limit_layer n s) w = (Ok (), w');
  buffer_prompt {Req Res E} n (s : service W Req Res E) req w res w' :
    call s req w = (Ok res, w') → call (buffer s n) req w = (Ok res, w');
  buffer_ready {Req Res E} n (s : service W Req Res E) w w' :
    ready s w = (Ok (), w') → ready (buffer s n) w = (Ok (), w');
  spawn_blocking_prompt {R} (f : io W Empty_set R) w r w' :
    f w = (Ok r, w') → spawn_blocking f w = (Ok r, w');
}.

(** A computation that succeeds whatever the state. *)
Definition always {W E A} (m : io W E A) (a : A) : Prop := ∀ w, ∃ w', m w = (Ok a, w').

(** [commits stdin bs]: the program, started from [stdin], ends with the public values [bs].
    SP1 is sound for the program when a proof that a prover made for an input, and that
    verifies under a key of the program, is about an execution on this input. *)
Class RunsSound (W : Type) `{!Sp1Sdk W, !Sp1Proofs W} (elf : bytes)
    (commits : SP1Stdin → bytes → Prop) : Prop := {
  cpu_run_sound prover pk vk w0 w1 stdin mode deferred w p w' :
    cpu_setup prover elf w0 = (Ok (pk, vk), w1) →
    cpu_run prover pk stdin mode deferred w = (Ok p, w') →
    cpu_verify prover p vk = Ok () → commits stdin (proof_public_values p);
  network_run_sound prover pk vk w0 w1 stdin mode timeout w p w' :
    network_setup prover elf w0 = (Ok (pk, vk), w1) →
    network_run prover pk stdin mode timeout w = (Ok p, w') →
    network_verify prover p vk = Ok () → commits stdin (proof_public_values p);
}.

(** It is complete when it proves every execution, in the mode asked for, with a proof that
    is of use in this mode and that it accepts itself. *)
Class RunsComplete (W : Type) `{!Sp1Sdk W, !Sp1Proofs W} (elf : bytes) (t : ProofType)
    (commits : SP1Stdin → bytes → Prop) (usable : SP1ProofWithPublicValues → Prop) : Prop := {
  network_completes prover pk vk w0 w1 stdin bs timeout w :
    network_setup prover elf w0 = (Ok (pk, vk), w1) → commits stdin bs →
    ∃ p w', network_run prover pk stdin (mode_of t) timeout w = (Ok p, w') ∧
      network_verify prover p vk = Ok () ∧ proof_public_values p = bs ∧ usable p;
  cpu_completes prover pk vk w0 w1 stdin bs deferred w :
    cpu_setup prover elf w0 = (Ok (pk, vk), w1) → commits stdin bs →
    ∃ p w', cpu_run prover pk stdin (mode_of t) deferred w = (Ok p, w') ∧
      cpu_verify prover p vk = Ok () ∧ proof_public_values p = bs ∧ usable p;
}.

(** ** Only executions are proved *)

Section sound.
Context {W : Type} `{!Sp1Sdk W, !Sp1Proofs W} (elf : bytes) (commits : SP1Stdin → bytes → Prop)
  `{!RunsSound W elf commits}.

Lemma proved_on_commits req p :
  proved_on elf req p → commits (stdin req) (proof_public_values p).
Proof. intros []; [by eapply cpu_run_sound|by eapply network_run_sound]. Qed.
End sound.

(** ** All executions are proved *)

Section complete.
Context {W : Type} `{!P3Fields, !Ecdsa, !UnifiedBridge, !EvmClient, !Urls,
  !Sp1Sdk W, !Sp1Proofs W, !Tokio W, !TowerLayers W, !BuilderDeps W, !TokioLaws (W:=W),
  !PromptRuntime W}.
Context (elf : bytes) (t : ProofType) (commits : SP1Stdin → bytes → Prop)
  (usable : SP1ProofWithPublicValues → Prop) `{!RunsComplete W elf t commits usable}.

(** A service that is always ready, and that proves the executions of the program. *)
Record proves_runs {E} (s : service W Request Response E) : Prop := {
  runs_ready : always (ready s) ();
  runs_proved stdin bs w :
    commits stdin bs →
    ∃ p w', call s {| stdin := stdin; proof_type := t |} w = (Ok {| proof := p |}, w') ∧
      proof_public_values p = bs ∧ usable p;
}.

(** What a layer has to keep. *)
Lemma proves_runs_layer {E E'} (s : service W Request Response E)
    (s' : service W Request Response E') :
  (∀ w w', ready s w = (Ok (), w') → ready s' w = (Ok (), w')) →
  (∀ req w res w', call s req w = (Ok res, w') → call s' req w = (Ok res, w')) →
  proves_runs s → proves_runs s'.
Proof.
  intros Hready Hcall [Hr Hp]. split.
  - intros w. destruct (Hr w) as [w' Hw]. exists w'. by apply Hready.
  - intros stdin bs w (p & w' & Hc & Hrest)%(Hp stdin bs w).
    exists p, w'. split; [by apply Hcall|done].
Qed.

Lemma proves_runs_map_err {E E'} (f : E → E') (s : service W Request Response E) :
  proves_runs s → proves_runs (service_map_err f s).
Proof. apply proves_runs_layer; intros; by apply io_map_err_ok. Qed.

Lemma proves_runs_timeout {E} d (s : service W Request Response E) :
  proves_runs s → proves_runs (timeout_layer d s).
Proof. apply proves_runs_layer; intros; [by apply timeout_layer_ready|by apply timeout_layer_prompt]. Qed.

Lemma proves_runs_limit {E} n (s : service W Request Response E) :
  proves_runs s → proves_runs (concurrency_limit_layer n s).
Proof.
  apply proves_runs_layer; intros; [by apply concurrency_limit_ready|by apply concurrency_limit_prompt].
Qed.

Lemma proves_runs_buffer {E} n (s : service W Request Response E) :
  proves_runs s → proves_runs (buffer s n).
Proof. apply proves_runs_layer; intros; [by apply buffer_ready|by apply buffer_prompt]. Qed.

Lemma network_service_proves_runs self w0 w1 :
  network_setup (ne_prover self) elf w0 =
    (Ok (ne_proving_key self, ne_verification_key self), w1) →
  proves_runs (network_service self).
Proof.
  intros Hs. split; [intros w; by exists w|]. intros stdin bs w Hc.
  destruct (network_completes _ _ _ _ _ stdin bs (ne_timeout self) w Hs Hc)
    as (p & w' & Hrun & Hv & Hrest).
  exists p, w'. split; [|done]. apply io_flatten_sp1_async_ok. by apply network_prove_ok.
Qed.

Lemma local_service_proves_runs self w0 w1 :
  cpu_setup (le_prover self) elf w0 =
    (Ok (le_proving_key self, le_verification_key self), w1) →
  proves_runs (local_service self).
Proof.
  intros Hs. split; [intros w; by exists w|]. intros stdin bs w Hc.
  destruct (cpu_completes _ _ _ _ _ stdin bs (negb (le_is_mock self)) w Hs Hc)
    as (p & w' & Hrun & Hv & Hrest).
  exists p, w'. split; [|done]. apply io_flatten_ok.
  assert (local_prove self {| stdin := stdin; proof_type := t |} w =
          (Ok {| proof := p |}, w')) as Hlp by (by apply local_prove_ok).
  apply io_bind_ok. exists (inr (inr {| proof := p |})), w'. split; [|done].
  apply io_map_err_ok, spawn_blocking_prompt. unfold sp1_fast_closure. by rewrite Hlp.
Qed.

Lemma built_service_proves_runs vk s : built_service elf vk s → proves_runs s.
Proof.
  intros [self d w0 w1 Hs _|self d n w0 w1 Hs _].
  - by eapply proves_runs_map_err, proves_runs_timeout, network_service_proves_runs.
  - by eapply proves_runs_map_err, proves_runs_timeout, proves_runs_limit,
      local_service_proves_runs.
Qed.

(** An executor that was created for the program proves all its executions. *)
Lemma executor_proves_runs primary0 fallback0 w self w' :
  executor_new primary0 fallback0 elf w = (Ok self, w') → proves_runs (executor_service self).
Proof.
  intros [[Hready Hprove]%built_service_proves_runs Hf]%executor_new_built. split.
  - intros w0. destruct (Hready w0) as [w1 Hw1]. simpl. unfold executor_ready.
    destruct (fallback self) as [s|] eqn:Hs.
    + destruct (Hf s eq_refl) as [vk [Hr _]%built_service_proves_runs].
      destruct (Hr w1) as [w2 Hw2]. exists w2. apply io_bind_ok. exists (), w1.
      split; by apply io_map_err_ok.
    + exists w1. apply io_bind_ok. exists (), w1. split; [by apply io_map_err_ok|done].
  - intros stdin bs w0 Hc. destruct (Hready w0) as [w1 Hw1].
    destruct (Hprove stdin bs w1 Hc) as (p & w2 & Hcall & Hrest).
    exists p, w2. split; [|done]. apply executor_call_ok. exists w1. auto.
Qed.
End complete.
