(* ===== verification/Proposer.v ===== *)
(** Aggregation proofs from the proposer: [crates/proposer-client/src] and
    [crates/proposer-service/src].

    The service resolves the L1 block, asks the proposer over gRPC for an aggregation
    proof, waits for the proof (on the SP1 network, or from the proposer's mock), and
    verifies it before handing it out. *)

From Stdlib Require Import Ascii.
From S2P Require Import Prelude Bytes Panics Interop Abi StaticCall Fep Config Executor Contracts.

(** ** Request identifiers *)

(** [RequestId(B256)] and [MockProofId(i64)]. *)
Record RequestId : Type := { request_id : u8s 32 }.
Record MockProofId : Type := { mock_proof_id : Z }.

#[export] Instance RequestId_eq_dec : EqDecision RequestId.
Proof. solve_decision. Defined.

(** [u64::from_str]: an optional plus sign, then decimal digits, within range. *)
Definition decimal_digit (c : ascii) : option Z :=
  let n := Z.of_N (N_of_ascii c) in
  if (48 <=? n) && (n <=? 57) then Some (n - 48) else None.

Fixpoint decimal_value (acc : Z) (s : string) : option Z :=
  match s with
  | EmptyString => Some acc
  | String c s =>
      d ← decimal_digit c;
      let acc := acc * 10 + d in
      if decide (acc <= U64_MAX) then decimal_value acc s else None
  end.

Definition u64_from_str (s : string) : option Z :=
  match s with
  | EmptyString => None
  | String "+" EmptyString => None
  | String "+" s => decimal_value 0 s
  | s => decimal_value 0 s
  end.

(** [RequestId::deserialize] on the string that was read, [b256_from_str] being
    [B256::from_str]: a 32-byte hexadecimal hash, or a number in the last 8 bytes. *)
Definition request_id_deserialize (b256_from_str : string → option (u8s 32)) (value : string)
    : outcome string RequestId :=
  match b256_from_str value with
  | Some id => Ok {| request_id := id |}
  | None =>
      match u64_from_str value with
      | Some id => Ok {| request_id := be_array 32 id |}
      | None => Err ("invalid request id: " +:+ value)
      end
  end.

(** [TryFrom<&[u8]> for RequestId]. *)
Definition request_id_try_from (value : bytes) : outcome string RequestId :=
  match to_array 32 value with
  | Some id => Ok {| request_id := id |}
  | None => Err "could not convert slice to array"
  end.

(** [i64::from_be_bytes]. *)
Definition i64_from_be_bytes (bs : u8s 8) : Z :=
  let v := be_value (vec_to_list bs) in
  if decide (v < 2 ^ 63) then v else v - 2 ^ 64.

(** ** Messages *)

Record AggregationProofProposerRequest : Type := {
  ap_last_proven_block : Z;
  ap_requested_end_block : Z;
  ap_l1_block_number : Z;
  ap_l1_block_hash : u8s 32;
}.

Record AggregationProofProposerResponse : Type := {
  apr_request_id : RequestId;
  apr_last_proven_block : Z;
  apr_end_block : Z;
}.

(** The [Display]s of a request id and of a response; [hex_encode] is [hex::encode]. *)
Definition request_id_fmt (hex_encode : bytes → string) (self : RequestId) : string :=
  hex_encode (vec_to_list (request_id self)).

Definition response_fmt (hex_encode : bytes → string) (self : AggregationProofProposerResponse)
    : string :=
  "last proven block: " +:+ pretty (apr_last_proven_block self) +:+ ", end block: " +:+
  pretty (apr_end_block self) +:+ ", request_id: " +:+
  request_id_fmt hex_encode (apr_request_id self).

Record MockProofProposerRequest : Type := { mpr_proof_id : MockProofId }.
Record MockProofProposerResponse : Type := { mpr_proof : bytes }.

Record FepProposerRequest : Type := {
  fpr_last_proven_block : Z;
  fpr_requested_end_block : Z;
  fpr_l1_block_hash : u8s 32;
}.

(** The messages of the proposer's protocol ([op_succinct_grpc::proofs]). *)
Record AggProofRequest : Type := {
  g_last_proven_block : Z;
  g_requested_end_block : Z;
  g_l1_block_number : Z;
  g_l1_block_hash : string;
}.

Record AggProofResponse : Type := {
  gr_last_proven_block : Z;
  gr_end_block : Z;
  gr_proof_request_id : bytes;
}.

Record GetMockProofRequest : Type := { gm_proof_id : Z }.
Record GetMockProofResponse : Type := { gm_proof : bytes }.

(** ** Errors *)

Record GrpcConversionError : Type := { gce_field : string; gce_source : report }.

(** The gRPC stack: tonic's channel and the generated client. *)
Class ProposerGrpc (W : Type) := {
  Uri : Type;
  TransportError : Type;
  Status : Type;
  ProofsClient : Type;
  uri_from_str : string → option Uri;
  connect : Uri → Duration → io W TransportError ProofsClient;
  proofs_request_agg_proof : ProofsClient → AggProofRequest → io W Status AggProofResponse;
  proofs_get_mock_proof : ProofsClient → GetMockProofRequest → io W Status GetMockProofResponse;
  (** [hex::encode], and [Display] of a [B256]. *)
  hex_encode : bytes → string;
  b256_display : u8s 32 → string;
}.

Section errors.
Context {W : Type} `{!ProposerGrpc W}.

Inductive ProofRequestError : Type :=
  | ParsingResponse (e : GrpcConversionError)
  | Failed (msg : string)
  | Grpc (status : Status).

(** [proposer_client::Error]. *)
Inductive ProposerClientError : Type :=
  | Proving (request_id : RequestId) (msg : string)
  | Verification (request_id : RequestId) (source : report)
  | Requesting (e : ProofRequestError)
  | Connect (e : TransportError).

(** [convert_field]. *)
Definition convert_field {T U} (field : string) (try_from : T → outcome report U) (value : T)
    : outcome GrpcConversionError U :=
  map_err (λ e, {| gce_field := field; gce_source := e |}) (try_from value).

Definition agg_proof_request_from (request : AggregationProofProposerRequest) : AggProofRequest :=
  {| g_last_proven_block := ap_last_proven_block request;
     g_requested_end_block := ap_requested_end_block request;
     g_l1_block_number := ap_l1_block_number request;
     g_l1_block_hash := hex_encode (vec_to_list (ap_l1_block_hash request)) |}.

Definition agg_proof_response_try_from (response : AggProofResponse)
    : outcome ProofRequestError AggregationProofProposerResponse :=
  request_id ← map_err ParsingResponse
    (convert_field "proof_request_id" (λ v, map_err ReportMsg (request_id_try_from v))
       (gr_proof_request_id response));
  Ok {| apr_request_id := request_id;
        apr_last_proven_block := gr_last_proven_block response;
        apr_end_block := gr_end_block response |}.

Definition get_mock_proof_request_from (request : MockProofProposerRequest)
    : GetMockProofRequest :=
  {| gm_proof_id := mock_proof_id (mpr_proof_id request) |}.

Definition mock_proof_response_try_from (response : GetMockProofResponse)
    : outcome ProofRequestError MockProofProposerResponse :=
  proof ← map_err ParsingResponse (convert_field "proof" Ok (gm_proof response));
  Ok {| mpr_proof := proof |}.

(** ** The RPC client *)

(** The trait [AggregationProofProposer]. *)
Record AggregationProofProposer : Type := {
  rpc_request_agg_proof :
    AggregationProofProposerRequest → io W ProposerClientError AggregationProofProposerResponse;
  rpc_get_mock_proof :
    MockProofProposerRequest → io W ProposerClientError MockProofProposerResponse;
}.

Record ProposerRpcClient : Type := { prc_client : ProofsClient }.

Definition proposer_rpc_client_new (rpc_endpoint : Uri) (timeout : Duration)
    : io W ProposerClientError ProposerRpcClient :=
  channel ← io_map_err Connect (connect rpc_endpoint timeout);
  mret {| prc_client := channel |}.

Definition client_request_agg_proof (self : ProposerRpcClient)
    (request : AggregationProofProposerRequest)
    : io W ProposerClientError AggregationProofProposerResponse :=
  let request := agg_proof_request_from request in
  io_map_err Requesting
    (resp ← io_map_err Grpc (proofs_request_agg_proof (prc_client self) request);
     lift (agg_proof_response_try_from resp)).

Definition client_get_mock_proof (self : ProposerRpcClient) (request : MockProofProposerRequest)
    : io W ProposerClientError MockProofProposerResponse :=
  let request := get_mock_proof_request_from request in
  io_map_err Requesting
    (resp ← io_map_err Grpc (proofs_get_mock_proof (prc_client self) request);
     lift (mock_proof_response_try_from resp)).

Definition rpc_proposer (self : ProposerRpcClient) : AggregationProofProposer :=
  {| rpc_request_agg_proof := client_request_agg_proof self;
     rpc_get_mock_proof := client_get_mock_proof self |}.
End errors.

Arguments ProposerClientError W {_}.
Arguments AggregationProofProposer W {_}.

(** ** Provers that wait for aggregation proofs *)

(** What the SDK offers here besides [Sp1Sdk]; errors are their texts. *)
Class AggregationSdk (W : Type) `{!Sp1Sdk W} := {
  network_wait_proof : NetworkProverClient → u8s 32 → option Duration →
    io W string SP1ProofWithPublicValues;
  (** [ProverClient::builder().network().rpc_url(e).private_key(k).build()]. *)
  network_build_with_key : string → string → outcome Empty_set NetworkProverClient;
  (** [Display] of a verification error. *)
  verification_error_text : SP1VerificationError → string;
  (** [bincode::default().deserialize] of a whole proof; it may panic. *)
  deserialize_proof : bytes → outcome string SP1ProofWithPublicValues;
}.

Section provers.
Context {W : Type} `{!ProposerGrpc W, !Sp1Sdk W, !AggregationSdk W}.
(** Whether [debug_assert!] is compiled in. *)
Variable debug_assertions : bool.

(** The trait [AggregationProver]. *)
Record AggregationProver : Type := {
  compute_pkey_vkey : bytes → io W report (SP1ProvingKey * SP1VerifyingKey);
  wait_for_proof : u8s 32 → option Duration → io W report SP1ProofWithPublicValues;
  verify_aggregated_proof : SP1ProofWithPublicValues → SP1VerifyingKey → outcome report ();
}.

(** *** [network_prover.rs] *)

Definition network_compute_pkey_vkey (self : NetworkProverClient) (program : bytes)
    : io W report (SP1ProvingKey * SP1VerifyingKey) :=
  io_flatten id (λ e : Empty_set, match e with end) (io_block_in_place (network_setup self program)).

Definition network_wait_for_proof (self : NetworkProverClient) (request_id : u8s 32)
    (timeout : option Duration) : io W report SP1ProofWithPublicValues :=
  io_flatten id (λ e, ReportContext "Failed waiting for proof" (ReportMsg e))
    (sp1_async (network_wait_proof self request_id timeout)).

Definition network_verify_aggregated_proof (self : NetworkProverClient)
    (proof : SP1ProofWithPublicValues) (vkey : SP1VerifyingKey) : outcome report () :=
  flatten id (λ e, ReportMsg (verification_error_text e))
    (sp1_fast (network_verify self proof vkey)).

Definition network_aggregation_prover (self : NetworkProverClient) : AggregationProver :=
  {| compute_pkey_vkey := network_compute_pkey_vkey self;
     wait_for_proof := network_wait_for_proof self;
     verify_aggregated_proof := network_verify_aggregated_proof self |}.

Definition new_network_prover (env : Env) (endpoint : string) : outcome report NetworkProverClient :=
  flatten id id (sp1_fast
    (key ← ok_or (ReportContext
        "Failed to get NETWORK_PRIVATE_KEY, when building NetworkProver for proposer-client"
        (ReportMsg "environment variable not found")) (env "NETWORK_PRIVATE_KEY");
     never (network_build_with_key endpoint key))).

(** *** [mock_grpc_prover.rs] *)

Record MockGrpcProver : Type := {
  mgp_proposer_rpc : AggregationProofProposer W;
  mgp_sp1_prover : CpuProverClient;
}.

Definition mock_grpc_prover_new (proposer : AggregationProofProposer W)
    : io W Empty_set MockGrpcProver :=
  sp1_prover ← cpu_prover_mock;
  mret {| mgp_proposer_rpc := proposer; mgp_sp1_prover := sp1_prover |}.

Definition mock_compute_pkey_vkey (self : MockGrpcProver) (program : bytes)
    : io W report (SP1ProvingKey * SP1VerifyingKey) :=
  io_flatten id (λ e : Empty_set, match e with end)
    (io_block_in_place (cpu_setup (mgp_sp1_prover self) program)).

(** [request_id[24..]] and [request_id[..24]]. *)
Definition request_id_tail (request_id : u8s 32) : outcome report (u8s 8) :=
  ok_or (ReportMsg "could not convert slice to array")
    (to_array 8 (drop 24 (vec_to_list request_id))).

Definition request_id_padding_ok (request_id : u8s 32) : bool :=
  forallb (λ v, bool_decide (v = x00)) (take 24 (vec_to_list request_id)).

(** The report of a client error, by its text. *)
Variable client_error_text : ProposerClientError W → string.

Definition mock_wait_for_proof (self : MockGrpcProver) (request_id : u8s 32)
    (_timeout : option Duration) : io W report SP1ProofWithPublicValues :=
  tail ← lift (request_id_tail request_id);
  let proof_id := i64_from_be_bytes tail in
  _ ← lift (if debug_assertions && negb (request_id_padding_ok request_id) then
              Panic (PayloadStr "assertion failed: request_id[..24].iter().all(|v| *v == 0)")
            else Ok ());
  response ← io_map_err (λ e, ReportMsg (client_error_text e))
    (rpc_get_mock_proof (mgp_proposer_rpc self)
       {| mpr_proof_id := {| mock_proof_id := proof_id |} |});
  let ctx := "deserializing proof " +:+ b256_display request_id in
  lift (flatten (ReportContext ctx) (λ e, ReportContext ctx (ReportMsg e))
          (sp1_fast (deserialize_proof (mpr_proof response)))).

Definition mock_verify_aggregated_proof (self : MockGrpcProver)
    (proof : SP1ProofWithPublicValues) (vkey : SP1VerifyingKey) : outcome report () :=
  let ctx := "Verifying aggregated proof" in
  flatten (ReportContext ctx) (λ e, ReportContext ctx (ReportMsg (verification_error_text e)))
    (sp1_fast (cpu_verify (mgp_sp1_prover self) proof vkey)).

Definition mock_aggregation_prover (self : MockGrpcProver) : AggregationProver :=
  {| compute_pkey_vkey := mock_compute_pkey_vkey self;
     wait_for_proof := mock_wait_for_proof self;
     verify_aggregated_proof := mock_verify_aggregated_proof self |}.

(** ** The client *)

(** The trait [ProposerClient]. *)
Record ProposerClient : Type := {
  pc_request_agg_proof :
    AggregationProofProposerRequest → io W (ProposerClientError W) AggregationProofProposerResponse;
  pc_wait_for_proof : RequestId → io W (ProposerClientError W) SP1ProofWithPublicValues;
  pc_verify_agg_proof : RequestId → SP1ProofWithPublicValues → SP1VerifyingKey →
    outcome (ProposerClientError W) ();
}.

Record Client : Type := {
  cl_proposer_rpc : AggregationProofProposer W;
  cl_prover_rpc : AggregationProver;
  cl_proving_timeout : option Duration;
}.

Definition client_new (proposer : AggregationProofProposer W) (prover : AggregationProver)
    (proving_timeout : option Duration) : outcome (ProposerClientError W) Client :=
  Ok {| cl_proposer_rpc := proposer; cl_prover_rpc := prover;
        cl_proving_timeout := proving_timeout |}.

Definition client_wait_for_proof (self : Client) (id : RequestId)
    : io W (ProposerClientError W) SP1ProofWithPublicValues :=
  io_map_err (λ e, Proving id (report_display e))
    (wait_for_proof (cl_prover_rpc self) (request_id id) (cl_proving_timeout self)).

Definition client_verify_agg_proof (self : Client) (id : RequestId)
    (proof : SP1ProofWithPublicValues) (vkey : SP1VerifyingKey)
    : outcome (ProposerClientError W) () :=
  map_err (Verification id) (verify_aggregated_proof (cl_prover_rpc self) proof vkey).

Definition proposer_client (self : Client) : ProposerClient :=
  {| pc_request_agg_proof := rpc_request_agg_proof (cl_proposer_rpc self);
     pc_wait_for_proof := client_wait_for_proof self;
     pc_verify_agg_proof := client_verify_agg_proof self |}.
End provers.

Arguments AggregationProver W {_}.
Arguments ProposerClient W {_ _}.

(** ** The proposer service *)

Section service.
Context {W : Type} `{!Urls, !ProposerGrpc W, !Sp1Sdk W, !Sp1Proofs W, !AggregationSdk W}.

(** [AggregationProofPublicValues::abi_decode] and the L1 RPC's [get_block_number]; the
    errors are reports. *)
Class ProposerDeps := {
  abi_decode_public_values : bytes → outcome report AggregationProofPublicValues;
  get_block_number : u8s 32 → io W report Z;
}.
Context `{!ProposerDeps}.

Record ProposerResponse : Type := {
  pr_aggregation_proof : SP1ReduceProof;
  pr_last_proven_block : Z;
  pr_end_block : Z;
  pr_public_values : AggregationProofPublicValues;
}.

Inductive ProposerError : Type :=
  | AlloyProviderError (e : report)
  | ClientErr (e : ProposerClientError W)
  | UnsupportedAggregationProofMode (mode : SP1ProofMode)
  | FepPublicValuesDeserializeFailure (e : report)
  | ProposerOther (e : report).

Record ProposerService : Type := {
  ps_client : ProposerClient W;
  ps_aggregation_vkey : SP1VerifyingKey;
}.

Definition proposer_call (self : ProposerService) (req : FepProposerRequest)
    : io W ProposerError ProposerResponse :=
  l1_block_number ← io_map_err
    (λ e, AlloyProviderError (ReportContext
       ("Getting the block number for hash " +:+ b256_display (fpr_l1_block_hash req)) e))
    (get_block_number (fpr_l1_block_hash req));
  response ← io_map_err ClientErr
    (pc_request_agg_proof (ps_client self)
       {| ap_last_proven_block := fpr_last_proven_block req;
          ap_requested_end_block := fpr_requested_end_block req;
          ap_l1_block_number := l1_block_number;
          ap_l1_block_hash := fpr_l1_block_hash req |});
  let request_id := apr_request_id response in
  proof_with_pv ← io_map_err ClientErr (pc_wait_for_proof (ps_client self) request_id);
  public_values ← lift (map_err FepPublicValuesDeserializeFailure
    (abi_decode_public_values (proof_public_values proof_with_pv)));
  _ ← lift (map_err ClientErr
    (pc_verify_agg_proof (ps_client self) request_id proof_with_pv (ps_aggregation_vkey self)));
  mode ← lift (map_err ProposerOther (infallible <$> sp1_fast (proof_mode proof_with_pv)));
  compressed ← lift (map_err ProposerOther
    (infallible <$> sp1_fast (try_as_compressed proof_with_pv)));
  aggregation_proof ← lift (ok_or (UnsupportedAggregationProofMode mode) compressed);
  mret {| pr_aggregation_proof := aggregation_proof;
          pr_last_proven_block := apr_last_proven_block response;
          pr_end_block := apr_end_block response;
          pr_public_values := public_values |}.

Definition proposer_service (self : ProposerService)
    : service W FepProposerRequest ProposerResponse ProposerError :=
  {| poll_ready w := (Ready (Ok ()), w); ready := mret (); call := proposer_call self |}.

(** *** Construction *)

Record ProposerClientConfig : Type := {
  pcc_proposer_endpoint : Uri;
  pcc_sp1_cluster_endpoint : Url;
  pcc_request_timeout : Duration;
  pcc_proving_timeout : Duration;
}.

Definition DEFAULT_PROPOSER_SERVICE_ENDPOINT : string := "http://proposer-mock-rpc:3000".

Definition default_proposer_service_endpoint {E} (env : Env) : outcome E Uri :=
  match uri_from_str DEFAULT_PROPOSER_SERVICE_ENDPOINT with
  | Some default =>
      Ok (from_env_or_default uri_from_str env "PROPOSER_SERVICE_ENDPOINT" default)
  | None => Panic (PayloadString "called `Result::unwrap()` on an `Err` value")
  end.

Definition default_request_timeout : Duration := from_secs 600.
Definition default_proving_timeout : Duration := from_secs 3600.

Definition proposer_client_config_default {E} (env : Env) : outcome E ProposerClientConfig :=
  proposer_endpoint ← default_proposer_service_endpoint env;
  sp1_cluster_endpoint ← default_sp1_cluster_endpoint env;
  Ok {| pcc_proposer_endpoint := proposer_endpoint;
        pcc_sp1_cluster_endpoint := sp1_cluster_endpoint;
        pcc_request_timeout := default_request_timeout;
        pcc_proving_timeout := default_proving_timeout |}.

Record ProposerServiceConfig : Type := {
  psc_mock : bool;
  psc_client : ProposerClientConfig;
  psc_l1_rpc_endpoint : L1RpcEndpoint;
}.

Definition proposer_service_config_default {E} (env : Env) : outcome E ProposerServiceConfig :=
  client ← proposer_client_config_default env;
  l1_rpc_endpoint ← l1_rpc_endpoint_default;
  Ok {| psc_mock := false; psc_client := client; psc_l1_rpc_endpoint := l1_rpc_endpoint |}.

Definition extract_aggregation_vkey (prover : AggregationProver W) (elf : bytes)
    : io W report SP1VerifyingKey :=
  '(_, vkey) ← compute_pkey_vkey prover elf;
  mret vkey.

Definition proposer_service_new (erigon_elf : bytes) (prover : AggregationProver W)
    (config : ProposerServiceConfig) : io W ProposerError ProposerService :=
  proposer_rpc_client ← io_map_err ClientErr
    (proposer_rpc_client_new (pcc_proposer_endpoint (psc_client config))
       (pcc_request_timeout (psc_client config)));
  aggregation_vkey ← io_map_err
    (λ e, ProposerOther (ReportContext "Retrieving aggregation vkey" e))
    (extract_aggregation_vkey prover erigon_elf);
  client ← lift (map_err ClientErr
    (client_new (rpc_proposer proposer_rpc_client) prover
       (Some (pcc_proving_timeout (psc_client config)))));
  mret {| ps_client := proposer_client client; ps_aggregation_vkey := aggregation_vkey |}.

Definition proposer_new_network (env : Env) (erigon_elf : bytes)
    (config : ProposerServiceConfig) : io W ProposerError ProposerService :=
  if psc_mock config then
    lift (Panic (PayloadStr "Building a network proposer service with a mock config"))
  else
    prover ← lift (map_err ProposerOther
      (new_network_prover env (url_as_str (pcc_sp1_cluster_endpoint (psc_client config)))));
    proposer_service_new erigon_elf (network_aggregation_prover prover) config.

Definition proposer_new_mock (debug_assertions : bool)
    (client_error_text : ProposerClientError W → string) (erigon_elf : bytes)
    (config : ProposerServiceConfig) : io W ProposerError ProposerService :=
  if psc_mock config then
    proposer_rpc_client ← io_map_err ClientErr
      (proposer_rpc_client_new (pcc_proposer_endpoint (psc_client config))
       (pcc_request_timeout (psc_client config)));
    prover ← io_map_err (λ e : Empty_set, match e with end)
      (mock_grpc_prover_new (rpc_proposer proposer_rpc_client));
    proposer_service_new erigon_elf
      (mock_aggregation_prover debug_assertions client_error_text prover) config
  else lift (Panic (PayloadStr "Building a mock proposer service with a non-mock config")).
End service.

(** ** Properties *)

(** What [request_id_deserialize] makes of a number. *)
Definition request_id_of_u64 (n : Z) : u8s 32 := be_array 32 n.

Lemma be_bytes_split (k m : nat) z :
  0 <= z < 256 ^ Z.of_nat m → be_bytes (k + m) z = replicate k x00 ++ be_bytes m z.
Proof.
  intros Hz. apply be_value_inj.
  { by rewrite length_app, !length_be_bytes, length_replicate. }
  rewrite be_value_app, !be_value_be_bytes.
  assert (be_value (replicate k x00) = 0) as ->.
  { induction k as [|k IH]; [done|]. simpl replicate.
    change (x00 :: replicate k x00) with ([x00] ++ replicate k x00). rewrite be_value_app, IH. done. }
  rewrite !Z.mod_small; [lia|done|].
  split; [lia|]. eapply Z.lt_le_trans; [apply Hz|]. apply Z.pow_le_mono_r; lia.
Qed.

Lemma request_id_of_u64_bytes n :
  in_width 64 n → vec_to_list (request_id_of_u64 n) = replicate 24 x00 ++ be_bytes 8 n.
Proof.
  intros Hn. unfold request_id_of_u64. rewrite vec_to_list_be_array.
  apply (be_bytes_split 24 8). exact Hn.
Qed.

(** A numeric request id reaches the mock proposer as the proof id it came from:
    reading the last 8 bytes of the encoded number back gives the number when it fits in
    an [i64], and its two's complement otherwise; the padding is always zero. *)
Theorem mock_request_id_roundtrip (n : Z) :
  in_width 64 n →
  request_id_padding_ok (request_id_of_u64 n) = true ∧
  ∃ tail, request_id_tail (request_id_of_u64 n) = Ok tail ∧
          i64_from_be_bytes tail = if decide (n < 2 ^ 63) then n else n - 2 ^ 64.
Proof.
  intros Hn. unfold request_id_padding_ok, request_id_tail.
  rewrite request_id_of_u64_bytes by done. split; [done|].
  change (drop 24 (replicate 24 x00 ++ be_bytes 8 n)) with (be_bytes 8 n).
  destruct (to_array 8 (be_bytes 8 n)) as [tail|] eqn:Ht.
  - exists tail. split; [done|]. apply to_array_Some in Ht. unfold i64_from_be_bytes.
    rewrite <-Ht, be_value_be_bytes. unfold in_width in Hn. rewrite Z.mod_small by (simpl; lia).
    done.
  - apply to_array_None in Ht. by rewrite length_be_bytes in Ht.
Qed.

Section properties.
Context {W : Type} `{!Urls, !ProposerGrpc W, !Sp1Sdk W, !Sp1Proofs W, !AggregationSdk W,
  !ProposerDeps (W:=W)}.

Lemma proposer_call_inv (self : ProposerService) req w res w' :
  proposer_call self req w = (Ok res, w') →
  ∃ id p mode,
    pc_verify_agg_proof (ps_client self) id p (ps_aggregation_vkey self) = Ok () ∧
    (∃ w1 w2, pc_wait_for_proof (ps_client self) id w1 = (Ok p, w2)) ∧
    abi_decode_public_values (proof_public_values p) = Ok (pr_public_values res) ∧
    proof_mode p = Ok mode ∧
    try_as_compressed p = Ok (Some (pr_aggregation_proof res)).
Proof.
  unfold proposer_call. intros Hm.
  io_step Hm as l1 w1 Hl1. io_step Hm as response w2 Hreq. io_step Hm as p w3 Hwait.
  io_step Hm as pv w4 Hpv. io_step Hm as u w5 Hver. io_step Hm as mode w6 Hmode.
  io_step Hm as comp w7 Hcomp. io_step Hm as agg w8 Hagg. injection Hm as <- _.
  apply io_map_err_ok in Hwait. apply lift_ok in Hpv as [Hpv%map_err_ok _].
  apply lift_ok in Hver as [Hver%map_err_ok _]. destruct u.
  apply lift_ok in Hmode as [Hmode%map_err_ok _], Hcomp as [Hcomp%map_err_ok _].
  apply lift_ok in Hagg as [->%ok_or_ok _].
  exists (apr_request_id response), p, mode. split_and!; [done|by exists w2, w3|done| |].
  - by destruct (proof_mode p) as [?|[]|?]; simpl in Hmode; simplify_eq.
  - by destruct (try_as_compressed p) as [?|[]|?]; simpl in Hcomp; simplify_eq.
Qed.

Lemma flatten_id_ok {E R} (g : E → report) (m : outcome E R) r :
  flatten id g (sp1_fast m) = Ok r ↔ m = Ok r.
Proof. apply flatten_sp1_fast_ok. Qed.

Lemma extract_aggregation_vkey_network prover elf w vkey w' :
  extract_aggregation_vkey (network_aggregation_prover prover) elf w = (Ok vkey, w') →
  ∃ pk w1, network_setup prover elf w = (Ok (pk, vkey), w1).
Proof.
  intros ([pk vk] & w1 & Hs & Hr)%io_bind_ok. injection Hr as -> _.
  simpl in Hs. unfold network_compute_pkey_vkey, io_flatten, io_block_in_place in Hs.
  destruct (network_setup prover elf w) as [[[pk' vk']|[]|?] w2]; cbn in Hs; simplify_eq.
  by exists pk, w1.
Qed.

Lemma proposer_response_verified env elf config w0 (self : ProposerService) w1 req w res w' :
  proposer_new_network env elf config w0 = (Ok self, w1) →
  proposer_call self req w = (Ok res, w') →
  ∃ prover pk p w2 w3,
    network_setup prover elf w2 = (Ok (pk, ps_aggregation_vkey self), w3) ∧
    network_verify prover p (ps_aggregation_vkey self) = Ok () ∧
    abi_decode_public_values (proof_public_values p) = Ok (pr_public_values res) ∧
    try_as_compressed p = Ok (Some (pr_aggregation_proof res)).
Proof.
  unfold proposer_new_network. destruct (psc_mock config); [done|]. intros Hn Hc.
  io_step Hn as prover w2 Hprover. unfold proposer_service_new in Hn.
  io_step Hn as rpc w3 Hrpc. io_step Hn as vkey w4 Hvkey. io_step Hn as client w5 Hclient.
  injection Hn as <- _. apply lift_ok in Hclient as [Hclient%map_err_ok _].
  injection Hclient as <-.
  apply io_map_err_ok, extract_aggregation_vkey_network in Hvkey as (pk & w6 & Hsetup).
  apply proposer_call_inv in Hc as (id & p & mode & Hver & _ & Hpv & _ & Hcomp).
  exists prover, pk, p, w3, w6. split_and!; [done| |done|done].
  simpl in Hver. unfold client_verify_agg_proof in Hver. apply map_err_ok in Hver. simpl in Hver.
  unfold network_verify_aggregated_proof in Hver. by apply flatten_id_ok in Hver.
Qed.
(** A proposer service on the SP1 network hands out only verified aggregation
    proofs: the proof of a response was accepted by the SDK's verifier under the key of
    the program the service was created for, and the public values and the inner proof
    of the response are those of that proof. *)
Theorem proposer_proof_verified env elf config w0 (self : ProposerService) w1 req w res w' :
  proposer_new_network env elf config w0 = (Ok self, w1) →
  proposer_call self req w = (Ok res, w') →
  ∃ prover pk p w2 w3,
    network_setup prover elf w2 = (Ok (pk, ps_aggregation_vkey self), w3) ∧
    network_verify prover p (ps_aggregation_vkey self) = Ok () ∧
    abi_decode_public_values (proof_public_values p) = Ok (pr_public_values res) ∧
    try_as_compressed p = Ok (Some (pr_aggregation_proof res)).
Proof. apply proposer_response_verified. Qed.
End properties.

(** ** A concrete proposer *)

Module ToyProposer.
Import ConfigSample ToySdk.

#[export] Instance grpc {W} : ProposerGrpc W := {|
  Uri := string; uri_from_str := Some; TransportError := (); Status := (); ProofsClient := ();
  connect _ _ := mret ();
  proofs_request_agg_proof _ req :=
    mret {| gr_last_proven_block := g_last_proven_block req;
            gr_end_block := g_requested_end_block req - 1;
            gr_proof_request_id := be_bytes 32 (g_requested_end_block req) |};
  proofs_get_mock_proof _ req := mret {| gm_proof := be_bytes 8 (gm_proof_id req) |};
  hex_encode _ := "";
  b256_display _ := "0x";
|}.

(** A proof is a number; its public values are its bytes. *)
#[export] Instance proofs : Sp1Proofs Z := {|
  SP1ReduceProof := Z;
  proof_public_values p := be_bytes 8 p;
  proof_mode _ := Ok ModeCompressed;
  try_as_compressed p := Ok (Some p);
|}.

#[export] Instance aggregation : AggregationSdk Z := {|
  network_wait_proof _ id _ := lift (Ok (be_value (vec_to_list id)));
  network_build_with_key _ _ := Ok ();
  verification_error_text _ := "";
  deserialize_proof bs := Ok (be_value bs);
|}.

Definition values (n : Z) : AggregationProofPublicValues :=
  {| pv_l1_head := be_array 32 0; pv_l2_pre_root := be_array 32 0; pv_l2_post_root := be_array 32 0;
     pv_l2_block_number := n; pv_rollup_config_hash := be_array 32 0;
     pv_multi_block_vkey := be_array 32 0; pv_prover_address := be_array 20 0 |}.

#[export] Instance deps : ProposerDeps (W:=Z) := {|
  abi_decode_public_values bs := Ok (values (be_value bs));
  get_block_number _ := mret 17;
|}.

Definition config (mock : bool) : ProposerServiceConfig (W:=Z) :=
  {| psc_mock := mock;
     psc_client :=
       {| pcc_proposer_endpoint := "http://p" : Uri; pcc_sp1_cluster_endpoint := "http://x";
          pcc_request_timeout := default_request_timeout;
          pcc_proving_timeout := default_proving_timeout |};
     psc_l1_rpc_endpoint := {| url := "http://l1" |} |}.

Definition env : Env := λ _, Some "key".

Definition request (n : Z) : FepProposerRequest :=
  {| fpr_last_proven_block := 50; fpr_requested_end_block := n;
     fpr_l1_block_hash := be_array 32 5 |}.

Definition returned {W E A} (r : outcome E A * W) : option A :=
  if r.1 is Ok a then Some a else None.

Definition network_service : option (ProposerService (W:=Z)) :=
  returned (proposer_new_network env [x00; x01] (config false) 0).

Definition ask (s : option ProposerService) : option ProposerResponse :=
  s ← s; returned (proposer_call s (request 60) 0).

Definition mock_service : option (ProposerService (W:=Z)) :=
  returned (proposer_new_mock true (λ _, "") [x00; x01] (config true) 0).

Example network_answers :
  (λ r, (pr_end_block r, pv_l2_block_number (pr_public_values r))) <$> ask network_service
    = Some (59, 60).
Proof. vm_compute. reflexivity. Qed.

Example mock_answers :
  (λ r, (pr_end_block r, pv_l2_block_number (pr_public_values r))) <$> ask mock_service
    = Some (59, 60).
Proof. vm_compute. reflexivity. Qed.

Example numeric_request_id :
  request_id_deserialize (λ _, None) "18446744073709551615" =
    Ok {| request_id := request_id_of_u64 U64_MAX |} ∧
  is_ok (request_id_deserialize (λ _, None) "18446744073709551616") = false.
Proof. vm_compute. split; reflexivity. Qed.

Lemma mock_request_id_roundtrip_witness :
  ∃ tail, request_id_tail (request_id_of_u64 (2 ^ 63)) = Ok tail ∧
          i64_from_be_bytes tail = - 2 ^ 63.
Proof.
  apply (mock_request_id_roundtrip (2 ^ 63)). split; [discriminate|reflexivity].
Defined.

Lemma returned_ok {W E A} (m : io W E A) w a : returned (m w) = Some a → ∃ w', m w = (Ok a, w').
Proof. unfold returned. destruct (m w) as [[?|?|?] w']; simpl; intros [= <-]. by exists w'. Qed.

Lemma proposer_proof_verified_witness :
  ∃ res (p : Z), ask network_service = Some res ∧ ToySdk.sample_verify p = Ok () ∧
                 values (be_value (be_bytes 8 p)) = pr_public_values res.
Proof.
  assert (is_Some (ask network_service)) as [res Hres].
  { apply (bool_decide_unpack _). vm_compute. exact I. }
  exists res. pose proof Hres as Hr. unfold ask in Hr.
  destruct network_service as [s|] eqn:Hs; [|discriminate Hr].
  apply returned_ok in Hr as [w' Hr]. apply returned_ok in Hs as [w1 Hs].
  destruct (proposer_proof_verified env [x00; x01] (config false) 0 s w1 (request 60) 0 res w'
              Hs Hr) as (prover & pk & p & w2 & w3 & _ & Hv & Hd & _).
  exists p. split; [exact Hres|]. split; [exact Hv|]. injection Hd as Hd. exact Hd.
Defined.
End ToyProposer.
