(* ===== verification/Service.v ===== *)
(** The aggchain proof service: [crates/aggchain-proof-service/src].

    It orchestrates a proof: in normal mode it first gets an aggregated full execution
    proof from the proposer service, in optimistic mode it uses the sequencer's
    signature; then the builder makes the aggchain proof, and the custom chain data of
    the certificate is computed. *)

From S2P Require Import Prelude Bytes Panics Interop Abi StaticCall FilterValues Bridge Fep AggchainProof ProofInputs Config Executor Contracts Vkey Builder Proposer.

(** ** Custom chain data *)

(** [AGGCHAIN_TYPE] of [aggchain-proof-core/src/lib.rs]. *)
Definition AGGCHAIN_TYPE : Z := 0x0001.

(** [VKeySelector([u8; 4])]. *)
Record VKeySelector : Type := { selector_bytes : u8s 4 }.

(** [VKeySelector::new] on two [u16]s. *)
Definition vkey_selector_new (program aggchain_type : Z) : VKeySelector :=
  {| selector_bytes := be_array 4 (Z.lor (as_width 32 (Z.shiftl program 16)) aggchain_type) |}.

Definition selector_to_be_bytes (self : VKeySelector) : u8s 4 := selector_bytes self.

(** [sol! struct CustomChainData]. *)
Record CustomChainData : Type := {
  ccd_selector : u8s 4;
  ccd_output_root : u8s 32;
  ccd_l2_block_number : u8s 32;
}.

Definition CustomChainData_fields (v : CustomChainData) : list sol_value :=
  [SolBytes4 (ccd_selector v); SolBytes32 (ccd_output_root v); SolBytes32 (ccd_l2_block_number v)].

Section custom_chain_data.
Context `{!SolAbi}.
(** [AGGCHAIN_PROOF_PROGRAM_VERSION], the program's major version, generated by the
    build script. *)
Variable program_version : Z.

Definition AGGCHAIN_VKEY_SELECTOR : VKeySelector :=
  vkey_selector_new program_version AGGCHAIN_TYPE.

Definition compute_custom_chain_data (output_root : ClaimRoot) (l2_block_number : Z) : bytes :=
  abi_encode (CustomChainData_fields
    {| ccd_selector := selector_to_be_bytes AGGCHAIN_VKEY_SELECTOR;
       ccd_output_root := claim_root output_root;
       ccd_l2_block_number := be_array 32 l2_block_number |}).

Context `{!SolAbiLaws}.

Lemma selector_value p t :
  in_width 16 p → in_width 16 t →
  vec_to_list (selector_bytes (vkey_selector_new p t)) = be_bytes 2 p ++ be_bytes 2 t.
Proof.
  unfold in_width. intros Hp Ht. unfold vkey_selector_new. cbn [selector_bytes].
  rewrite vec_to_list_be_array.
  apply be_value_inj; [by rewrite length_app, !length_be_bytes|].
  rewrite be_value_app, !be_value_be_bytes, length_be_bytes. unfold as_width.
  rewrite Z.shiftl_mul_pow2 by lia.
  assert (Z.lor (p * 2 ^ 16 mod 2 ^ 32) t = p * 2 ^ 16 + t) as ->.
  { rewrite Z.mod_small by lia. rewrite <-Z.shiftl_mul_pow2 by lia.
    pose proof (Z.add_lor_land (Z.shiftl p 16) t).
    assert (Z.land (Z.shiftl p 16) t = 0); [|lia].
    apply Z.bits_inj'. intros n Hn. rewrite Z.land_spec, Z.bits_0.
    destruct (decide (n < 16)).
    - by rewrite Z.shiftl_spec_low by lia.
    - rewrite (Z.bits_above_log2 t n); [by rewrite andb_false_r|lia|].
      destruct (decide (t = 0)) as [->|]; [simpl; lia|].
      apply Z.log2_lt_pow2; [lia|]. eapply Z.lt_le_trans; [apply Ht|].
      apply Z.pow_le_mono_r; lia. }
  rewrite !Z.mod_small; simpl; lia.
Qed.

(** C25: the custom chain data is 96 bytes: the program version and the aggchain type,
    two bytes each, padded to 32; the output root; the end block as a big-endian word,
    which can be read back.  This is for whatever 16-bit version; the build script of
    aggchain-proof-core takes the major version of aggchain-proof-program, 7 now, and the
    test in [custom_chain_data/tests.rs] still expects the selector of version 6
    ([ServiceSample.selector_of_version_7], [selector_expected_by_test]). *)
Theorem custom_chain_data_layout (output_root : ClaimRoot) (l2_block_number : Z) :
  in_width 16 program_version → in_width 64 l2_block_number →
  ∃ word,
    compute_custom_chain_data output_root l2_block_number =
      (be_bytes 2 program_version ++ be_bytes 2 AGGCHAIN_TYPE ++ zeros 28) ++
      vec_to_list (claim_root output_root) ++ word ∧
    length word = 32%nat ∧ be_value word = l2_block_number ∧
    length (compute_custom_chain_data output_root l2_block_number) = 96%nat.
Proof.
  intros Hp Hb. exists (be_bytes 32 l2_block_number).
  split_and!.
  - unfold compute_custom_chain_data, CustomChainData_fields. rewrite abi_encode_static.
    unfold selector_to_be_bytes, AGGCHAIN_VKEY_SELECTOR.
    cbn [fmap list_fmap concat abi_word ccd_selector ccd_output_root ccd_l2_block_number].
    rewrite selector_value by done. rewrite vec_to_list_be_array.
    by rewrite app_nil_r, <-!app_assoc.
  - apply length_be_bytes.
  - rewrite be_value_be_bytes. apply Z.mod_small. unfold in_width in Hb.
    split; [lia|]. eapply Z.lt_trans; [apply Hb|]. done.
  - unfold compute_custom_chain_data. by rewrite length_abi_encode.
Qed.
End custom_chain_data.

(** ** The service *)

Section service.
Context {W : Type} `{!P3Fields, !Ecdsa, !UnifiedBridge, !Hashing, !SolAbi, !GlobalIndices,
  !UnspecifiedOrders, !EvmClient, !Urls, !Node W, !HostExecutor W, !Sp1Sdk W, !Sp1Proofs W,
  !Tokio W, !TowerLayers W, !BuilderDeps W, !VKeyHashes W, !ProposerElfs W,
  !ProposerGrpc W, !AggregationSdk W, !ProposerDeps (W:=W)}.
Variable program_version : Z.

Inductive AggchainProofServiceRequest : Type :=
  | Normal (inputs : AggchainProofInputs)
  | Optimistic (inputs : OptimisticAggchainProofInputs).

Record AggchainProofServiceResponse : Type := {
  sr_proof : bytes;
  sr_aggchain_params : Digest;
  sr_vkey : bytes;
  sr_last_proven_block : Z;
  sr_end_block : Z;
  sr_local_exit_root_hash : Digest;
  sr_custom_chain_data : bytes;
  sr_public_values : AggchainProofPublicValues;
}.

(** [error.rs]. *)
Inductive ServiceError : Type :=
  | AlloyProviderInitializationFailed (e : report)
  | ProposerServiceInitFailed (e : ProposerError (W:=W))
  | ProposerServiceError (e : ProposerError (W:=W))
  | ProposerServiceRequestFailed (e : ProposerError (W:=W))
  | AggchainProofBuilderInitFailed (e : NewBuilderError)
  | AggchainProofBuilderPollReadyFailed (e : BuilderError)
  | AggchainProofBuilderRequestFailed (e : BuilderError)
  | ContractsClientInitFailed (e : ContractsError)
  | AggchainProofVkeyResolveFailed (e : ContractsError).

(** The [#[error]] texts. *)
Definition service_error_display (e : ServiceError) : string :=
  match e with
  | AlloyProviderInitializationFailed _ => "Unable to create alloy provider"
  | ProposerServiceInitFailed _ => "Unable to setup proposer service"
  | ProposerServiceError _ => "Proposer service returned an error during operation"
  | ProposerServiceRequestFailed _ => "Proposer service request failed"
  | AggchainProofBuilderInitFailed _ => "Unable to setup aggchain proof builder"
  | AggchainProofBuilderPollReadyFailed _ =>
      "Unable to poll for aggchain proof builder readiness"
  | AggchainProofBuilderRequestFailed _ => "Aggchain proof builder service request failed"
  | ContractsClientInitFailed _ => "Unable to setup aggchain contracts client"
  | AggchainProofVkeyResolveFailed _ => "Unable to resolve aggchain proof vkey"
  end.

Record AggchainProofService : Type := {
  as_proposer_service : service W FepProposerRequest ProposerResponse (ProposerError (W:=W));
  as_aggchain_proof_builder :
    service W AggchainProofBuilderRequest AggchainProofBuilderResponse BuilderError;
}.

Implicit Types self : AggchainProofService.

(** The response both handlers build. *)
Definition service_response (res : AggchainProofBuilderResponse) (last_proven_block end_block : Z)
    : AggchainProofServiceResponse :=
  let custom_chain_data :=
    compute_custom_chain_data program_version (res_output_root res) end_block in
  {| sr_proof := res_proof res;
     sr_aggchain_params := res_aggchain_params res;
     sr_last_proven_block := last_proven_block;
     sr_vkey := res_vkey res;
     sr_end_block := end_block;
     sr_local_exit_root_hash := res_new_local_exit_root res;
     sr_custom_chain_data := custom_chain_data;
     sr_public_values := res_public_values res |}.

Definition handle_normal_request self (inputs : AggchainProofInputs)
    : io W ServiceError AggchainProofServiceResponse :=
  let l1_block_hash := block_hash (inner (api_l1_info_tree_leaf inputs)) in
  let proposer_request :=
    {| fpr_last_proven_block := last_proven_block inputs;
       fpr_requested_end_block := requested_end_block inputs;
       fpr_l1_block_hash := l1_block_hash |} in
  aggregation_proof_response ← io_map_err ProposerServiceError
    (call (as_proposer_service self) proposer_request);
  let request :=
    {| req_fep_verification :=
         FepProof (pr_aggregation_proof aggregation_proof_response)
           (pr_public_values aggregation_proof_response);
       req_end_block := pr_end_block aggregation_proof_response;
       req_aggchain_proof_inputs := inputs |} in
  aggchain_proof_response ← io_map_err AggchainProofBuilderRequestFailed
    (call (as_aggchain_proof_builder self) request);
  mret (service_response aggchain_proof_response (last_proven_block inputs)
          (req_end_block request)).

Definition handle_optimistic_request self (request : OptimisticAggchainProofInputs)
    : io W ServiceError AggchainProofServiceResponse :=
  let inputs := aggchain_proof_inputs request in
  let builder_request :=
    {| req_fep_verification := FepOptimistic (opt_signature_optimistic_mode request);
       req_end_block := requested_end_block inputs;
       req_aggchain_proof_inputs := inputs |} in
  aggchain_proof_response ← io_map_err AggchainProofBuilderRequestFailed
    (call (as_aggchain_proof_builder self) builder_request);
  mret (service_response aggchain_proof_response (last_proven_block inputs)
          (req_end_block builder_request)).

Definition service_call self (req : AggchainProofServiceRequest)
    : io W ServiceError AggchainProofServiceResponse :=
  match req with
  | Normal inputs => handle_normal_request self inputs
  | Optimistic inputs => handle_optimistic_request self inputs
  end.

Definition service_poll_ready self : W → Poll (outcome ServiceError ()) * W := λ w,
  match poll_map_err ProposerServiceError (poll_ready (as_proposer_service self)) w with
  | (Pending, w) => (Pending, w)
  | (Ready (Err e), w) => (Ready (Err e), w)
  | (Ready (Panic p), w) => (Ready (Panic p), w)
  | (Ready (Ok ()), w) =>
      poll_map_err AggchainProofBuilderPollReadyFailed
        (poll_ready (as_aggchain_proof_builder self)) w
  end.

(** *** Construction *)

Record AggchainProofServiceConfig : Type := {
  asc_aggchain_proof_builder : AggchainProofBuilderConfig;
  asc_proposer_service : ProposerServiceConfig;
}.

Definition service_config_default {E} (env : Env) : outcome E AggchainProofServiceConfig :=
  builder ← builder_config_default env;
  proposer ← proposer_service_config_default env;
  Ok {| asc_aggchain_proof_builder := builder; asc_proposer_service := proposer |}.

Variables (overflow_checks info_enabled debug_assertions : bool).
Variable client_error_text : ProposerClientError W → string.

(** The builder as a tower service. *)
Definition builder_service (self : AggchainProofBuilder)
    : service W AggchainProofBuilderRequest AggchainProofBuilderResponse BuilderError :=
  {| poll_ready := builder_poll_ready self;
     ready := io_map_err (λ e, match e with
                               | Boxed error => ProverExecutorError error
                               | BoxedOther text => ProverServiceError text
                               end) (ready (prover self));
     call := builder_call overflow_checks info_enabled self |}.

(** [AggchainProofService::new]. *)
Definition service_new (env : Env) (erigon_elf aggchain_proof_elf : bytes)
    (config : AggchainProofServiceConfig) : io W ServiceError AggchainProofService :=
  let builder_config := asc_aggchain_proof_builder config in
  let contracts := cfg_contracts builder_config in
  _ ← lift (map_err AlloyProviderInitializationFailed
    (alloy_provider_new (url (psc_l1_rpc_endpoint (asc_proposer_service config)))
       DEFAULT_HTTP_RPC_NODE_INITIAL_BACKOFF_MS DEFAULT_HTTP_RPC_NODE_BACKOFF_MAX_RETRIES));
  contract_l1_client ← io_map_err ContractsClientInitFailed
    (contracts_client_new (cfg_network_id builder_config) contracts);
  contract_l1_client_erigon ← io_map_err ContractsClientInitFailed
    (erigon_new (rpc_contracts_client env contract_l1_client)
       (l2_execution_layer_rpc_endpoint contracts) contracts);
  proposer ← io_map_err ProposerServiceInitFailed
    (if psc_mock (asc_proposer_service config) then
       proposer_new_mock debug_assertions client_error_text erigon_elf
         (asc_proposer_service config)
     else proposer_new_network env erigon_elf (asc_proposer_service config));
  builder ← io_map_err AggchainProofBuilderInitFailed
    (builder_new aggchain_proof_elf builder_config
       (erigon_contracts_client contract_l1_client_erigon));
  mret {| as_proposer_service := proposer_service proposer;
          as_aggchain_proof_builder := builder_service builder |}.

(** *** Properties *)

(** The builder request that answers a service request. *)
Inductive answers_request (inputs : AggchainProofInputs)
    : AggchainProofServiceRequest → AggchainProofBuilderRequest → Prop :=
  | AnswerNormal proof pv end_block :
      answers_request inputs (Normal inputs)
        {| req_fep_verification := FepProof proof pv; req_end_block := end_block;
           req_aggchain_proof_inputs := inputs |}
  | AnswerOptimistic sig :
      answers_request inputs
        (Optimistic {| aggchain_proof_inputs := inputs; opt_signature_optimistic_mode := sig |})
        {| req_fep_verification := FepOptimistic sig;
           req_end_block := requested_end_block inputs;
           req_aggchain_proof_inputs := inputs |}.

Lemma service_call_inv self req w res w' :
  service_call self req w = (Ok res, w') →
  ∃ inputs builder_req bres w1,
    answers_request inputs req builder_req ∧
    call (as_aggchain_proof_builder self) builder_req w1 = (Ok bres, w') ∧
    res = service_response bres (last_proven_block inputs) (req_end_block builder_req) ∧
    match req_fep_verification builder_req with
    | FepProof proof pv =>
        ∃ pres, call (as_proposer_service self)
                  {| fpr_last_proven_block := last_proven_block inputs;
                     fpr_requested_end_block := requested_end_block inputs;
                     fpr_l1_block_hash := block_hash (inner (api_l1_info_tree_leaf inputs)) |} w
                  = (Ok pres, w1) ∧
                proof = pr_aggregation_proof pres ∧ pv = pr_public_values pres ∧
                req_end_block builder_req = pr_end_block pres
    | FepOptimistic _ => w1 = w
    end.
Proof.
  destruct req as [inputs|[inputs sig]]; simpl; intros Hm.
  - unfold handle_normal_request in Hm.
    io_step Hm as pres w1 Hp. io_step Hm as bres w2 Hb. injection Hm as <- <-.
    apply io_map_err_ok in Hp, Hb.
    eexists inputs, _, bres, w1. split; [constructor|]. split; [exact Hb|].
    split; [done|]. simpl. by exists pres.
  - unfold handle_optimistic_request in Hm.
    io_step Hm as bres w1 Hb. injection Hm as <- <-. apply io_map_err_ok in Hb.
    eexists inputs, _, bres, w. split; [constructor|]. by split_and!.
Qed.

(** A response of the service comes from one builder response for the same inputs
    in the same mode: proof, key, params, exit root and public values are the builder's,
    the custom chain data is that of its output root and of the end block of the
    response, which in normal mode is the one the proposer proved up to. *)
Theorem service_call_ok self req w res w' :
  service_call self req w = (Ok res, w') →
  ∃ inputs builder_req bres w1,
    answers_request inputs req builder_req ∧
    call (as_aggchain_proof_builder self) builder_req w1 = (Ok bres, w') ∧
    res = service_response bres (last_proven_block inputs) (req_end_block builder_req) ∧
    match req_fep_verification builder_req with
    | FepProof proof pv =>
        ∃ pres, call (as_proposer_service self)
                  {| fpr_last_proven_block := last_proven_block inputs;
                     fpr_requested_end_block := requested_end_block inputs;
                     fpr_l1_block_hash := block_hash (inner (api_l1_info_tree_leaf inputs)) |} w
                  = (Ok pres, w1) ∧
                proof = pr_aggregation_proof pres ∧ pv = pr_public_values pres ∧
                req_end_block builder_req = pr_end_block pres
    | FepOptimistic _ => w1 = w
    end.
Proof. apply service_call_inv. Qed.

Context `{!TokioLaws (W:=W), !TowerLayersLaws W, !BuilderDepsLaws W}.

(** The contracts client of a configuration: the Erigon client around the RPC client. *)
Definition configured_client (env : Env) (config : AggchainProofServiceConfig)
    (cc : ContractsClient W) : Prop :=
  let builder_config := asc_aggchain_proof_builder config in
  let contracts := cfg_contracts builder_config in
  ∃ rpc erigon w1 w2 w3 w4,
    contracts_client_new (cfg_network_id builder_config) contracts w1 = (Ok rpc, w2) ∧
    erigon_new (rpc_contracts_client env rpc) (l2_execution_layer_rpc_endpoint contracts)
      contracts w3 = (Ok erigon, w4) ∧
    cc = erigon_contracts_client erigon.

(** What a service that was created is made of. *)
Lemma service_new_parts env erigon_elf elf config w self w' :
  service_new env erigon_elf elf config w = (Ok self, w') →
  ∃ cc b w1 w2, configured_client env config cc ∧
    builder_new elf (asc_aggchain_proof_builder config) cc w1 = (Ok b, w2) ∧
    as_aggchain_proof_builder self = builder_service b.
Proof.
  intros Hn. unfold service_new in Hn.
  io_step Hn as u w2 Hu. io_step Hn as cl w3 Hcl. io_step Hn as er w4 Her.
  io_step Hn as pr w5 Hpr. io_step Hn as b w6 Hb. injection Hn as <- _.
  apply io_map_err_ok in Hcl, Her, Hb. eexists _, b, _, _.
  split; [|by split]. by exists cl, er, w2, w3, w3, w4.
Qed.

Lemma service_response_verified env erigon_elf elf config w0 self w1 req w res w' :
  service_new env erigon_elf elf config w0 = (Ok self, w1) →
  service_call self req w = (Ok res, w') →
  ∃ p, verified elf p ∧
    deserialize_public_values (proof_public_values p) = Ok (sr_public_values res) ∧
    sr_aggchain_params res = apv_aggchain_params (sr_public_values res) ∧
    sr_local_exit_root_hash res = apv_new_local_exit_root (sr_public_values res).
Proof.
  intros (cc & b & w2 & w3 & _ & Hb & Hbuilder)%service_new_parts Hc.
  apply service_call_inv in Hc as (inputs & breq & bres & w7 & _ & Hcall & -> & _).
  rewrite Hbuilder in Hcall. simpl in Hcall.
  pose proof (builder_call_inv _ _ _ _ _ _ _ Hcall) as (_ & _ & Hparams & Hler & _).
  destruct (builder_response_verified _ _ _ _ _ _ _ _ _ _ _ _ Hb Hcall)
    as (_ & p & stark & Hv & Hd & _).
  by exists p.
Qed.

(** From the configuration to the response: every response of a service that was
    created for a program carries the public values of a proof of that program which
    the SDK's verifier accepted, and the exit root and params of the response are those
    the proof commits to. *)
Theorem service_proof_verified env erigon_elf elf config w0 self w1 req w res w' :
  service_new env erigon_elf elf config w0 = (Ok self, w1) →
  service_call self req w = (Ok res, w') →
  ∃ p, verified elf p ∧
    deserialize_public_values (proof_public_values p) = Ok (sr_public_values res) ∧
    sr_aggchain_params res = apv_aggchain_params (sr_public_values res) ∧
    sr_local_exit_root_hash res = apv_new_local_exit_root (sr_public_values res).
Proof. apply service_response_verified. Qed.
End service.


(** ** A concrete service *)

Module ServiceSample.
Import Toy ToyAbi ToyEvm ToyOrders ToyNode ConfigSample BuilderSample.
Import (hints) ToyProposer.

Lemma custom_chain_data_layout_witness :
  ∃ word,
    compute_custom_chain_data 7 {| claim_root := be_array 32 11 |} 60 =
      (be_bytes 2 7 ++ be_bytes 2 AGGCHAIN_TYPE ++ zeros 28) ++
      vec_to_list (be_array 32 11) ++ word ∧ be_value word = 60.
Proof.
  destruct (custom_chain_data_layout 7 {| claim_root := be_array 32 11 |} 60)
    as (word & Hw & _ & Hv & _).
  - split; [discriminate|reflexivity].
  - split; [discriminate|reflexivity].
  - exists word. split; [exact Hw|exact Hv].
Defined.

(** The program version of the repository gives the selector [0x00070001]. *)
Example selector_of_version_7 :
  vec_to_list (selector_to_be_bytes (AGGCHAIN_VKEY_SELECTOR 7)) = [x00; x07; x00; x01].
Proof. vm_compute. reflexivity. Qed.

(** The one that the repository's test expects is of version 6. *)
Example selector_expected_by_test :
  vec_to_list (selector_to_be_bytes (AGGCHAIN_VKEY_SELECTOR 6)) = [x00; x06; x00; x01] ∧
  selector_to_be_bytes (AGGCHAIN_VKEY_SELECTOR 7) ≠
  selector_to_be_bytes (AGGCHAIN_VKEY_SELECTOR 6).
Proof. split; [by vm_compute|]. intros Heq. by vm_compute in Heq. Qed.

(** The execution from block 50 to block 60, as the chain of [BuilderSample] has it. *)
Definition execution : AggregationProofPublicValues := {|
  pv_l1_head := block_hash (inner (api_l1_info_tree_leaf ProofInputsSample.inputs));
  pv_l2_pre_root := state_root (output_at 50);
  pv_l2_post_root := state_root (output_at 60);
  pv_l2_block_number := 60;
  pv_rollup_config_hash := BridgeSample.digest 3;
  pv_multi_block_vkey := BridgeSample.digest 14;
  pv_prover_address := be_array 20 51 |}.

#[export] Instance aggregation : AggregationSdk world := {|
  network_wait_proof _ _ _ := lift (Ok (OfAggregation execution));
  network_build_with_key _ _ := Ok ();
  verification_error_text _ := "";
  deserialize_proof _ := Ok NoProof;
|}.

Definition read_values (bs : bytes) : AggregationProofPublicValues := {|
  pv_l1_head := word 0 bs; pv_l2_pre_root := word 32 bs; pv_l2_post_root := word 64 bs;
  pv_l2_block_number := be_value (take 32 (drop 96 bs));
  pv_rollup_config_hash := word 128 bs; pv_multi_block_vkey := word 160 bs;
  pv_prover_address := be_array 20 (be_value (take 20 (drop 204 bs))) |}.

(** A strict decoder. *)
Definition abi_decode (bs : bytes) : outcome report AggregationProofPublicValues :=
  if decide (abi_encode (AggregationProofPublicValues_fields (read_values bs)) = bs) then
    Ok (read_values bs)
  else Err (ReportMsg "type check failed").

#[export] Instance proposer_deps : ProposerDeps (W:=world) := {|
  abi_decode_public_values := abi_decode;
  get_block_number _ := mret 17;
|}.

Definition service_config : AggchainProofServiceConfig (W:=world) :=
  {| asc_aggchain_proof_builder := config;
     asc_proposer_service :=
       {| psc_mock := false;
          psc_client :=
            {| pcc_proposer_endpoint := "http://p" : Uri; pcc_sp1_cluster_endpoint := "http://x";
               pcc_request_timeout := 0; pcc_proving_timeout := 0 |};
          psc_l1_rpc_endpoint := {| url := "http://l1" |} |} |}.

Definition the_service : option (AggchainProofService (W:=world)) :=
  sketch_of (service_new true true true (λ _, "") (λ _, Some "key") [x00] [x00; x01]
               service_config []).

Definition optimistic : AggchainProofServiceRequest :=
  Optimistic {| aggchain_proof_inputs := ProofInputsSample.inputs;
                opt_signature_optimistic_mode := Some (be_array 20 51) : Signature |}.

Definition response : option AggchainProofServiceResponse :=
  s ← the_service; sketch_of (service_call 7 s optimistic []).

Example response_some : is_some response = true.
Proof. vm_compute. reflexivity. Qed.

Lemma service_call_ok_witness :
  ∃ res, response = Some res ∧ sr_last_proven_block res = 50.
Proof.
  pose proof response_some as Hs. destruct response as [res|] eqn:Hr; [|discriminate Hs].
  exists res. split; [reflexivity|]. unfold response in Hr.
  destruct the_service as [s|]; [|discriminate Hr]. apply sketch_of_ok in Hr as [w' Hr].
  destruct (service_call_ok 7 s optimistic [] res w' Hr)
    as (inputs & breq & bres & w1 & Ha & _ & -> & _).
  inversion Ha. reflexivity.
Defined.

Lemma service_proof_verified_witness :
  ∃ (p : toy_proof) res,
    response = Some res ∧ verified (W:=world) [x00; x01] p ∧
    decode (toy_values p) = Ok (sr_public_values res).
Proof.
  pose proof response_some as Hs. destruct response as [res|] eqn:Hr; [|discriminate Hs].
  unfold response in Hr. destruct the_service as [s|] eqn:Hn; [|discriminate Hr].
  apply sketch_of_ok in Hr as [w' Hr]. apply sketch_of_ok in Hn as [w1 Hn].
  destruct (service_proof_verified 7 true true true (λ _, "") (λ _, Some "key") [x00] [x00; x01]
              service_config [] s w1 optimistic [] res w' Hn Hr) as (p & Hv & Hd & _).
  exists p, res. split; [reflexivity|]. split; [exact Hv|exact Hd].
Defined.
End ServiceSample.
