(* ===== verification/GuestRuns.v ===== *)
(** What the guest makes of the witness that the host built.

    The builder writes the stdin of the guest ([crates/aggchain-proof-builder/src/lib.rs]);
    the guest reads it and checks the statement
    ([crates/aggchain-proof-program/src/main.rs]).  Here the two meet: when a stdin that was
    built is accepted, in terms of what the contracts answered; and what an accepted proof of
    the guest says. *)

From S2P Require Import Prelude Bytes Panics Interop Abi StaticCall FilterValues Bridge Fep AggchainProof Binding ProofInputs Config Executor Contracts Vkey Builder Proposer Service.

(** ** Runs of the zkVM *)

(** An execution of the guest starts from a stdin, which is its input stream and the proofs
    that [verify_sp1_proof] finds; it leaves a stream of public values. *)
Class GuestRuns (W G : Type)
    `{!P3Fields, !Ecdsa, !UnifiedBridge, !EvmClient, !Sp1Sdk W, !ZkvmIo G} := {
  start : SP1Stdin → G;
  syscall_verify_sp1_proof : SP1Stdin → HashU32 → u8s 32 → outcome Empty_set ();
  output : G → bytes;
  (** The encoding [sp1_zkvm::io::commit] appends, the text of a panic, and the witnesses
      that the guest has the memory to read. *)
  serialize_committed : AggchainProofPublicValues → bytes;
  debug_text : ProofError → string;
  readable : AggchainProofWitness → Prop;
}.

Section laws.
Context (W G : Type) `{!P3Fields, !Ecdsa, !UnifiedBridge, !EvmClient, !Hashing, !SolAbi,
  !Sp1Sdk W, !Sp1Proofs W, !BuilderDeps W, !VKeyHashes W, !ZkvmIo G, !GuestRuns W G}.

(** The first thing the guest reads from a stdin. *)
Definition reads (stdin : SP1Stdin) (wit : AggchainProofWitness) : Prop :=
  ∃ g, io_read (start stdin) = (Ok wit, g).

Class GuestRunsLaws : Prop := {
  start_output stdin : output (start stdin) = [];
  read_output (g : G) r g' : io_read g = (r, g') → output g' = output g;
  read_wf (g : G) wit g' : io_read g = (Ok wit, g') → witness_wf wit;
  commit_output pv (g : G) :
    ∃ g', io_commit pv g = (Ok (), g') ∧ output g' = output g ++ serialize_committed pv;
  (** [SP1Stdin::write] and [write_proof] write to the two streams of the stdin. *)
  written_read s wit s' :
    stdin_new = Ok s → stdin_write s wit = Ok s' → witness_wf wit → readable wit →
    reads s' wit;
  proof_written_read s p vk s' wit :
    stdin_write_proof s p vk = Ok s' → reads s wit ↔ reads s' wit;
  (** What is read is what was written. *)
  read_written s wit s' wit' :
    stdin_new = Ok s → stdin_write s wit = Ok s' → witness_wf wit → reads s' wit' →
    wit' = wit;
  (** The reader of the proof decodes what the guest committed. *)
  committed_deserializes pv :
    in_width 32 (apv_origin_network pv) →
    deserialize_public_values (serialize_committed pv) = Ok pv;
}.
End laws.

(** The guest started from a stdin, and the public values it ends with. *)
Definition guest_commits {W G} `{GuestRuns W G, !Hashing, !SolAbi} (stdin : SP1Stdin)
    (bs : bytes) : Prop :=
  ∃ g, main (syscall_verify_sp1_proof (G:=G) stdin) debug_text (start stdin) = (Ok (), g) ∧
       output g = bs.

Section runs.
Context {W G : Type} `{!P3Fields, !Ecdsa, !UnifiedBridge, !EvmClient, !Hashing, !SolAbi,
  !Sp1Sdk W, !Sp1Proofs W, !BuilderDeps W, !VKeyHashes W, !ZkvmIo G, !GuestRuns W G,
  !GuestRunsLaws W G}.

Abbreviation syscall := (syscall_verify_sp1_proof (G:=G)).
Abbreviation guest_commits := (guest_commits (G:=G)).

Lemma read_unwrap_ok (wit : AggchainProofWitness) stdin pv :
  witness_wf wit →
  unwrap (E':=Empty_set) debug_text
    (verify_aggchain_inputs Zkvm (syscall stdin) U32_MAX wit) = Ok pv ↔
  aggchain_ok Zkvm (syscall stdin) wit pv.
Proof.
  intros Hwf. rewrite unwrap_ok. apply verify_aggchain_inputs_ok, wf_slices, Hwf.
Qed.

(** A run that reads a witness commits the public values of a true statement, and a true
    statement is committed. *)
Lemma reads_commits stdin wit bs :
  reads W G stdin wit →
  guest_commits stdin bs ↔
  ∃ pv, aggchain_ok Zkvm (syscall stdin) wit pv ∧ bs = serialize_committed pv.
Proof.
  intros [g1 Hr]. pose proof (read_wf W G _ _ _ Hr) as Hwf.
  pose proof (read_output W G _ _ _ Hr) as Ho. rewrite (start_output W G) in Ho.
  unfold GuestRuns.guest_commits, main. rewrite (io_bind_eq_ok _ _ _ _ _ Hr). split.
  - intros (g & (pv & g2 & [Hv ->]%lift_ok & Hc)%io_bind_ok & <-).
    apply read_unwrap_ok in Hv; [|done]. exists pv. split; [done|].
    destruct (commit_output W G pv g1) as (g3 & Hc' & Hg). rewrite Hc' in Hc.
    injection Hc as <-. by rewrite Hg, Ho.
  - intros (pv & Hok & ->). destruct (commit_output W G pv g1) as (g & Hc & Hg). exists g.
    rewrite Hg, Ho. split; [|done]. apply io_bind_ok. exists pv, g1. split; [|done].
    apply lift_ok. split; [|done]. by apply read_unwrap_ok.
Qed.

(** Whatever it read. *)
Lemma commits_reads stdin bs :
  guest_commits stdin bs →
  ∃ wit pv, witness_wf wit ∧ reads W G stdin wit ∧
    aggchain_ok Zkvm (syscall stdin) wit pv ∧ bs = serialize_committed pv.
Proof.
  intros Hc. pose proof Hc as (g & (wit & g1 & Hr & _)%io_bind_ok & _).
  assert (reads W G stdin wit) as Hreads by (by exists g1).
  destruct (proj1 (reads_commits stdin wit bs Hreads) Hc) as (pv & Hok & Hbs).
  exists wit, pv. split_and!; [by apply (read_wf W G) in Hr|done..].
Qed.

(** The program of the tests ([crates/prover-dummy-program/src/main.rs]) reads nothing and
    commits nothing, from any stdin. *)
Definition dummy_main : io G Empty_set () := mret ().

Lemma dummy_commits stdin bs :
  (∃ g, dummy_main (start stdin) = (Ok (), g) ∧ output g = bs) ↔ bs = [].
Proof.
  rewrite <-(start_output W G stdin). split.
  - intros (g & [= <-] & <-). done.
  - intros ->. by exists (start stdin).
Qed.

Lemma build_stdin_reads verification vk wit stdin :
  build_stdin verification vk wit = Ok stdin → witness_wf wit → readable wit →
  reads W G stdin wit.
Proof.
  intros (s & Hs & (s' & Hs' & Hrest)%outcome_bind_ok)%outcome_bind_ok Hwf Hread.
  pose proof (written_read W G _ _ _ Hs Hs' Hwf Hread) as Hr.
  destruct verification; [by apply (proof_written_read W G _ _ _ _ _ Hrest)|by injection Hrest as <-].
Qed.

Lemma build_stdin_read verification vk wit stdin wit' :
  build_stdin verification vk wit = Ok stdin → witness_wf wit → reads W G stdin wit' →
  wit' = wit.
Proof.
  intros (s & Hs & (s' & Hs' & Hrest)%outcome_bind_ok)%outcome_bind_ok Hwf Hr.
  apply (read_written W G s wit s'); [done..|].
  destruct verification; [by apply (proof_written_read W G _ _ _ _ _ Hrest)|by injection Hrest as ->].
Qed.
End runs.

(** ** Stdins that the builder wrote *)

Section built.
Context {W G : Type} `{!P3Fields, !Ecdsa, !UnifiedBridge, !Hashing, !SolAbi, !GlobalIndices}
  {orders : UnspecifiedOrders}
  `{!EvmClient, !Urls, !Node W, !HostExecutor W, !Sp1Sdk W, !Sp1Proofs W, !Tokio W,
  !TowerLayers W, !BuilderDeps W, !VKeyHashes W, !ProposerElfs W}.
Context `{!ZkvmIo G, !GuestRuns W G, !GuestRunsLaws W G}.
Variables (overflow_checks info_enabled : bool).

Abbreviation syscall := (syscall_verify_sp1_proof (G:=G)).
Abbreviation guest_commits := (guest_commits (G:=G)).
Abbreviation inputs_of := req_aggchain_proof_inputs.

(** What the two L2 blocks answer, as far as the fetched sketches tell. *)
Definition prev_answers (d : chain_data) (caller addr : Address) (call : SolCall)
    (v : Return call) : Prop :=
  evm_returns (cd_prev_sketch d) caller addr call v (latest_block_hash (cd_pre d)).

Definition new_answers (d : chain_data) (caller addr : Address) (call : SolCall)
    (v : Return call) : Prop :=
  evm_returns (cd_new_sketch d) caller addr call v (latest_block_hash (cd_claim d)).

(** The request describes what happened on L2 in its range: the GER manager inserted the
    GERs of the request, in order, and removed none; its bridge took the claims of the
    request, in order, and unset none, and has the fetched exit root.  The GERs are in the
    L1 info tree of the request. *)
Record range_described (request : AggchainProofBuilderRequest) (caller : Address)
    (d : chain_data) : Prop := {
  described_insertions : ∃ head,
    prev_answers d caller L2_GER_ADDR insertedGERHashChainCall head ∧
    new_answers d caller L2_GER_ADDR insertedGERHashChainCall
      (rebuild_hash_chain head (ger <$> sorted_inserted_gers (inputs_of request) (cd_range d)));
  described_removals : ∃ head,
    prev_answers d caller L2_GER_ADDR removedGERHashChainCall head ∧
    new_answers d caller L2_GER_ADDR removedGERHashChainCall head;
  described_bridge : ∃ bridge,
    new_answers d caller L2_GER_ADDR bridgeAddressCall bridge ∧
    (∃ head, prev_answers d caller bridge claimedGlobalIndexHashChainCall head ∧
       new_answers d caller bridge claimedGlobalIndexHashChainCall
         (rebuild_hash_chain head
            (claim_commitment <$> bridge_exits_claimed_in request (cd_range d)))) ∧
    (∃ head, prev_answers d caller bridge unsetGlobalIndexHashChainCall head ∧
       new_answers d caller bridge unsetGlobalIndexHashChainCall head) ∧
    new_answers d caller bridge getRootCall (cd_new_ler d);
  described_gers :
    Forall (included (l1_info_tree_root_hash (inputs_of request)))
      (sorted_inserted_gers (inputs_of request) (cd_range d));
}.

(** The commitment to the claims of the range. *)
Definition range_commitment (request : AggchainProofBuilderRequest) (d : chain_data) : Digest :=
  imported_bridge_exits_commitment (bridge_exits_claimed_in request (cd_range d))
    IMPORTED_BRIDGE_EXIT_COMMITMENT_VERSION.

(** The leaf of the request is in its L1 info tree. *)
Definition leaf_included (request : AggchainProofBuilderRequest) : Prop :=
  let inputs := inputs_of request in
  mp_root (l1_info_tree_merkle_proof inputs) = l1_info_tree_root_hash inputs ∧
  mp_verify (l1_info_tree_merkle_proof inputs) (leaf_hash (api_l1_info_tree_leaf inputs))
    (l1_info_tree_index (api_l1_info_tree_leaf inputs)) = true.

(** The full execution proof is one, in the mode of the request. *)
Definition execution_attested (request : AggchainProofBuilderRequest) (d : chain_data)
    (stdin : SP1Stdin) : Prop :=
  match req_fep_verification request with
  | FepOptimistic signature =>
      recover_address_from_prehash signature
        (signature_commitment (cd_fep d) (cd_new_ler d) (range_commitment request d))
        = Ok (cd_sequencer d)
  | FepProof _ pv =>
      leaf_included request ∧
      syscall stdin (to_hash_u32 (cd_vkey_hash d))
        (sha256_digest (abi_encode (AggregationProofPublicValues_fields pv))) = Ok ()
  end.

Lemma built_bridge_ok cc request vk rvc nid caller d :
  gathered overflow_checks cc request vk rvc d →
  bridge_ok (bridge_constraints_input (witness_from request nid caller d)) ↔
  range_described request caller d.
Proof.
  intros Hd. pose proof (gathered_fep _ _ _ _ _ _ Hd) as (_ & _ & _ & _ & _ & _ & Hprev & Hnew & _).
  split.
  - intros [Hi Hr Hb _ _ Hg]. unfold prev_state, new_state, claims, unset_claims in *.
    simpl in *. rewrite ?Hprev, ?Hnew in *. by split.
  - intros [Hi Hr Hb Hg].
    split; unfold prev_state, new_state, claims, unset_claims; simpl; rewrite ?Hprev, ?Hnew; done.
Qed.

Lemma built_fep_accepted cc request vk rvc d stdin :
  gathered overflow_checks cc request vk rvc d →
  fep_accepted Zkvm (syscall stdin) (cd_fep d) (l1_info_tree_root_hash (inputs_of request))
    (cd_new_ler d) (range_commitment request d) ↔
  execution_attested request d stdin.
Proof.
  intros (_ & Hleaf & Hproof & Hhead & Hkey & Hseq & _ & _ & _ & Hmode)%gathered_fep.
  unfold execution_attested, leaf_included. rewrite <-Hleaf, <-Hproof, <-Hkey, <-Hseq.
  destruct (req_fep_verification request) as [p pv|sig].
  - destruct Hmode as [Hnone <-]. split.
    + intros [sig Hsig|_ (_ & Hroot & Hmp) _ Hp]; [congruence|]. by split.
    + intros [[Hroot Hmp] Hp]. apply AcceptProof; [done|by split_and!|done|done].
  - split.
    + intros [sig' Hsig' Hr|Hnone]; congruence.
    + intros Hr. by apply (AcceptSignature _ _ _ _ _ _ sig).
Qed.

Lemma witness_from_wf cc request vk rvc nid caller d :
  gathered overflow_checks cc request vk rvc d → in_width 32 nid →
  witness_wf (witness_from request nid caller d).
Proof.
  intros (Hnum & _)%gathered_fep Hnid. split; [done| |apply List.Forall_nil|by split].
  unfold fep_wf. simpl. rewrite Hnum. by apply as_width_range.
Qed.

(** What the guest commits for the gathered data. *)
Definition built_values (request : AggchainProofBuilderRequest) (nid : Z) (d : chain_data)
    (params : Digest) : AggchainProofPublicValues :=
  {| apv_prev_local_exit_root := cd_prev_ler d;
     apv_new_local_exit_root := cd_new_ler d;
     apv_l1_info_root := l1_info_tree_root_hash (inputs_of request);
     apv_origin_network := nid;
     apv_commit_imported_bridge_exits := range_commitment request d;
     apv_aggchain_params := params |}.

(** What the guest accepted is true. *)
Lemma built_stdin_true cc request nid vk caller rvc d stdin bs :
  gathered overflow_checks cc request vk rvc d →
  build_stdin (req_fep_verification request) vk (witness_from request nid caller d) = Ok stdin →
  in_width 32 nid → guest_commits stdin bs →
  range_described request caller d ∧ execution_attested request d stdin ∧
  ∃ params, aggchain_params (E:=ProofError) (cd_fep d) = Ok params ∧
    bs = serialize_committed (built_values request nid d params).
Proof.
  intros Hd Hstdin Hnid Hc.
  pose proof (witness_from_wf _ _ _ _ nid caller _ Hd Hnid) as Hwf.
  apply commits_reads in Hc as (wit & pv & _ & Hr & [Hf Hb Hp] & ->).
  assert (wit = witness_from request nid caller d) as -> by (by eapply build_stdin_read).
  apply outcome_bind_ok in Hp as (params & Hp & [= <-]).
  split; [by eapply built_bridge_ok|]. split; [by eapply built_fep_accepted|]. by exists params.
Qed.

Lemma built_stdin_accepted cc request nid vk caller rvc d stdin :
  gathered overflow_checks cc request vk rvc d →
  build_stdin (req_fep_verification request) vk (witness_from request nid caller d) = Ok stdin →
  in_width 32 nid → readable (witness_from request nid caller d) → ∀ bs,
  guest_commits stdin bs ↔
  range_described request caller d ∧ execution_attested request d stdin ∧
  ∃ params, aggchain_params (E:=ProofError) (cd_fep d) = Ok params ∧
    bs = serialize_committed (built_values request nid d params).
Proof.
  intros Hd Hstdin Hnid Hread bs. split; [by eapply built_stdin_true|].
  pose proof (witness_from_wf _ _ _ _ nid caller _ Hd Hnid) as Hwf.
  rewrite (reads_commits _ _ _ (build_stdin_reads _ _ _ _ Hstdin Hwf Hread)).
  intros (Hb & Hf & params & Hp & ->). exists (built_values request nid d params).
  split; [|done]. split; [by eapply built_fep_accepted|by eapply built_bridge_ok|].
  apply outcome_bind_ok. by exists params.
Qed.

Lemma retrieved_accepted cc request nid vk caller rvc w inputs w' :
  retrieve_chain_data overflow_checks info_enabled cc request nid vk caller rvc w
    = (Ok inputs, w') →
  in_width 32 nid →
  ∃ d, gathered overflow_checks cc request vk rvc d ∧
    build_stdin (req_fep_verification request) vk (witness_from request nid caller d)
      = Ok (api_stdin inputs) ∧
    (readable (witness_from request nid caller d) → ∀ bs,
     guest_commits (api_stdin inputs) bs ↔
     range_described request caller d ∧ execution_attested request d (api_stdin inputs) ∧
     ∃ params, aggchain_params (E:=ProofError) (cd_fep d) = Ok params ∧
       bs = serialize_committed (built_values request nid d params)).
Proof.
  intros (d & Hd & Hstdin & _)%retrieve_chain_data_inv Hnid. exists d.
  split; [done|]. split; [done|]. intros Hread bs. by eapply built_stdin_accepted.
Qed.

(** C5: what the builder writes is accepted by the guest exactly when it is true: the guest
    started from a retrieved stdin commits public values if and only if the request
    describes what happened on L2 in its range (in particular nothing was removed or unset,
    which the builder cannot express), the full execution proof verifies or the
    trusted sequencer signed, and the params can be packed; and it commits the public
    values of the witness. *)
Theorem built_witness_accepted cc request nid vk caller rvc w inputs w' :
  retrieve_chain_data overflow_checks info_enabled cc request nid vk caller rvc w
    = (Ok inputs, w') →
  in_width 32 nid →
  ∃ d, gathered overflow_checks cc request vk rvc d ∧
    (readable (witness_from request nid caller d) → ∀ bs,
     guest_commits (api_stdin inputs) bs ↔
     range_described request caller d ∧ execution_attested request d (api_stdin inputs) ∧
     ∃ params, aggchain_params (E:=ProofError) (cd_fep d) = Ok params ∧
       bs = serialize_committed (built_values request nid d params)).
Proof.
  intros Hr Hnid. destruct (retrieved_accepted _ _ _ _ _ _ _ _ _ Hr Hnid) as (d & Hd & _ & Hiff).
  by exists d.
Qed.

(** In particular, if the chain of removed GERs changed between the two blocks, the guest
    commits nothing. *)
Lemma removals_refused cc request nid vk caller rvc w inputs w' :
  retrieve_chain_data overflow_checks info_enabled cc request nid vk caller rvc w
    = (Ok inputs, w') →
  in_width 32 nid →
  ∃ d, gathered overflow_checks cc request vk rvc d ∧
    ∀ h1 h2, readable (witness_from request nid caller d) →
      prev_answers d caller L2_GER_ADDR removedGERHashChainCall h1 →
      new_answers d caller L2_GER_ADDR removedGERHashChainCall h2 →
      h1 ≠ h2 → ∀ bs, ¬ guest_commits (api_stdin inputs) bs.
Proof.
  intros Hr Hnid. destruct (retrieved_accepted _ _ _ _ _ _ _ _ _ Hr Hnid) as (d & Hd & _ & Hiff).
  exists d. split; [done|]. intros h1 h2 Hread Hh1 Hh2 Hne bs Hc.
  apply Hiff in Hc as [[_ (h & Hp & Hn) _ _] _]; [|done].
  destruct (evm_returns_det _ _ _ _ _ _ _ _ Hh1 Hp), (evm_returns_det _ _ _ _ _ _ _ _ Hh2 Hn).
  congruence.
Qed.
End built.

(** ** Normal mode *)

(** What SP1 documents of deferred proofs: the two forms of a key's hash agree, and
    [verify_sp1_proof] succeeds for a compressed proof that was written to the stdin with its
    key, on the hashes of the key and of the public values. *)
Class DeferredProofLaws (W G : Type) `{!P3Fields, !Ecdsa, !UnifiedBridge, !EvmClient, !Hashing,
    !Sp1Sdk W, !Sp1Proofs W, !BuilderDeps W, !VKeyHashes W, !ZkvmIo G, !GuestRuns W G}
    : Prop := {
  key_hashes_agree vk b h :
    hash_babybear vk = Ok b → hash_u32 vk = Ok h → to_hash_u32 b = h;
  written_proof_verifies prover pr vk h stark s s' :
    network_verify prover pr vk = Ok () → try_as_compressed pr = Ok (Some stark) →
    hash_u32 vk = Ok h → stdin_write_proof s stark vk = Ok s' →
    syscall_verify_sp1_proof (G:=G) s' h (sha256_digest (proof_public_values pr)) = Ok ();
}.

(** The aggregation program of the proposer: its embedded key is that of its ELF, and its
    executions commit the ABI encoding of the public values. *)
Class AggregationProgram (W : Type) `{!Sp1Sdk W, !Sp1Proofs W, !P3Fields, !VKeyHashes W,
    !ProposerElfs W, !ProposerDeps (W:=W), !SolAbi} (elf : bytes) : Prop := {
  embedded_key prover pk vk w w' :
    network_setup prover elf w = (Ok (pk, vk), w') → aggregation_VKEY = Ok vk;
  commits_encoded prover pr vk pv :
    aggregation_VKEY = Ok vk → network_verify prover pr vk = Ok () →
    abi_decode_public_values (proof_public_values pr) = Ok pv →
    abi_encode (AggregationProofPublicValues_fields pv) = proof_public_values pr;
}.

Section normal.
Context {W G : Type} `{!P3Fields, !Ecdsa, !UnifiedBridge, !Hashing, !SolAbi, !GlobalIndices}
  {orders : UnspecifiedOrders}
  `{!EvmClient, !Urls, !Node W, !HostExecutor W, !Sp1Sdk W, !Sp1Proofs W, !Tokio W,
  !TowerLayers W, !BuilderDeps W, !VKeyHashes W, !ProposerElfs W, !ProposerGrpc W,
  !AggregationSdk W, !ProposerDeps (W:=W)}.
Context `{!TokioLaws (W:=W), !TowerLayersLaws W, !BuilderDepsLaws W}.
Context `{!ZkvmIo G, !GuestRuns W G, !GuestRunsLaws W G, !DeferredProofLaws W G}.
Variable erigon_elf : bytes.
Context `{!AggregationProgram W erigon_elf}.
Variables (overflow_checks info_enabled : bool).

Abbreviation guest_commits := (guest_commits (G:=G)).
Abbreviation retrieve_chain_data := (retrieve_chain_data overflow_checks info_enabled).

(** The proof of a proposer on the SP1 network is the one the guest looks for. *)
Lemma proposed_proof_found env pconfig w0 proposer w1 preq w2 pres w3 h s s' :
  proposer_new_network env erigon_elf pconfig w0 = (Ok proposer, w1) →
  proposer_call proposer preq w2 = (Ok pres, w3) →
  ∀ vk, aggregation_VKEY = Ok vk → hash_u32 vk = Ok h →
  stdin_write_proof s (pr_aggregation_proof pres) vk = Ok s' →
  syscall_verify_sp1_proof (G:=G) s' h
    (sha256_digest (abi_encode (AggregationProofPublicValues_fields (pr_public_values pres))))
    = Ok ().
Proof.
  intros Hn Hc vk Hvk Hh Hwrite.
  destruct (proposer_response_verified _ _ _ _ _ _ _ _ _ _ Hn Hc)
    as (prover & pk & pr & w4 & w5 & Hsetup & Hver & Hpv & Hstark).
  apply embedded_key in Hsetup. rewrite Hvk in Hsetup. apply (inj Ok) in Hsetup. subst vk.
  rewrite (commits_encoded (elf:=erigon_elf) prover pr _ _ Hvk Hver Hpv).
  by eapply written_proof_verifies.
Qed.

Lemma proposed_execution_attested env pconfig proposer preq pres elf config cc self request d
    stdin rvc nid caller w0 w1 w2 w3 w4 w5 :
  proposer_new_network env erigon_elf pconfig w0 = (Ok proposer, w1) →
  proposer_call proposer preq w2 = (Ok pres, w3) →
  builder_new elf config cc w4 = (Ok self, w5) →
  req_fep_verification request =
    FepProof (pr_aggregation_proof pres) (pr_public_values pres) →
  gathered overflow_checks (contracts_client self) request (aggregation_vkey self) rvc d →
  build_stdin (req_fep_verification request) (aggregation_vkey self)
    (witness_from request nid caller d) = Ok stdin →
  execution_attested (G:=G) request d stdin ↔ leaf_included request.
Proof.
  intros Hn Hc Hb Hreq Hd Hs.
  apply builder_new_ok in Hb as (executor & _ & _ & _ & Hvk & Hfrom & _).
  apply outcome_fmap_ok in Hfrom as (h & Hh & _).
  unfold execution_attested. rewrite Hreq. split; [by intros [? _]|]. intros Hleaf.
  split; [done|]. rewrite (key_hashes_agree (G:=G) _ _ _ (got_vkey_hash _ _ _ _ _ _ Hd) Hh).
  unfold build_stdin in Hs. rewrite Hreq in Hs.
  apply outcome_bind_ok in Hs as (s0 & _ & (s & _ & Hwrite)%outcome_bind_ok).
  by eapply proposed_proof_found.
Qed.

(** C6: in normal mode the proposer's proof always verifies inside the guest: when the
    proposer service, on the SP1 network, has answered with an aggregation proof, and the
    builder has retrieved the chain data for it, the guest commits public values if and only
    if the request describes what happened on L2, its L1 leaf is in its L1 info tree, and
    the params can be packed. *)
Theorem normal_request_accepted env pconfig proposer preq pres elf config cc self request
    inputs w0 w1 w2 w3 w4 w5 w6 w7 :
  proposer_new_network env erigon_elf pconfig w0 = (Ok proposer, w1) →
  proposer_call proposer preq w2 = (Ok pres, w3) →
  builder_new elf config cc w4 = (Ok self, w5) →
  in_width 32 (network_id self) →
  req_fep_verification request =
    FepProof (pr_aggregation_proof pres) (pr_public_values pres) →
  retrieve_chain_data (contracts_client self) request (network_id self) (aggregation_vkey self)
    (bd_static_call_caller_address self) (bd_range_vkey_commitment self) w6 = (Ok inputs, w7) →
  ∃ d, gathered overflow_checks (contracts_client self) request (aggregation_vkey self)
         (bd_range_vkey_commitment self) d ∧
    (readable (witness_from request (network_id self) (bd_static_call_caller_address self) d) →
     ∀ bs, guest_commits (api_stdin inputs) bs ↔
     range_described request (bd_static_call_caller_address self) d ∧ leaf_included request ∧
     ∃ params, aggchain_params (E:=ProofError) (cd_fep d) = Ok params ∧
       bs = serialize_committed (built_values request (network_id self) d params)).
Proof.
  intros Hn Hc Hb Hnid Hreq Hr.
  destruct (retrieved_accepted (G:=G) _ _ _ _ _ _ _ _ _ _ _ Hr Hnid) as (d & Hd & Hs & Hiff).
  exists d. split; [done|]. intros Hread bs. rewrite (Hiff Hread bs).
  by rewrite (proposed_execution_attested _ _ _ _ _ _ _ _ _ _ _ _ _ _ _ _ _ _ _ _ _
    Hn Hc Hb Hreq Hd Hs).
Qed.
End normal.

(** ** Concrete runs *)

Module GuestSample.
Import Toy ToyAbi ToyEvm ToyOrders ToyNode ConfigSample BuilderSample.
Import ServiceSample.
Import (hints) ToyProposer.

(** The input stream and the bytes committed. *)
Definition guest : Type := option AggchainProofWitness * bytes.

#[export] Instance zkvm : ZkvmIo guest := {|
  io_read := λ '(input, committed),
    match input with
    | Some wit =>
        if decide (witness_wf wit) then (Ok wit, (None, committed))
        else (Panic (PayloadStr "input malformed"), (input, committed))
    | None => (Panic (PayloadStr "input exhausted"), (input, committed))
    end;
  io_commit pv := λ '(input, committed), (Ok (), (input, committed ++ encode (Some pv)));
|}.

#[export] Instance runs : GuestRuns world guest := {|
  start stdin := (stdin, []);
  syscall_verify_sp1_proof _ _ _ := Ok ();
  output := snd;
  serialize_committed pv := encode (Some pv);
  debug_text _ := "ProofError";
  readable _ := True;
|}.

Lemma slice_at off n (bs pre v post : bytes) :
  bs = pre ++ v ++ post → length pre = off → length v = n → take n (drop off bs) = v.
Proof. intros -> <- <-. by rewrite drop_app_length, take_app_length. Qed.

Lemma word_at off (bs pre post : bytes) (v : Digest) :
  bs = pre ++ vec_to_list v ++ post → length pre = off → word off bs = v.
Proof.
  intros Hbs Hpre. unfold word. rewrite (slice_at off 32 bs pre (vec_to_list v) post); try done.
  - apply be_array_be_value.
  - apply length_vec_to_list.
Qed.

Lemma decode_encode pv :
  in_width 32 (apv_origin_network pv) → decode (encode (Some pv)) = Ok pv.
Proof.
  intros Hn. destruct pv as [a b c n e f]. simpl in Hn. unfold decode.
  set (bs := encode _).
  assert (bs = vec_to_list a ++ vec_to_list b ++ vec_to_list c ++ be_bytes 4 n ++
               vec_to_list e ++ vec_to_list f) as Hbs by reflexivity.
  clearbody bs.
  rewrite decide_True by (by rewrite Hbs, !length_app, !length_vec_to_list, length_be_bytes).
  assert (be_value (take 4 (drop 96 bs)) = n) as ->.
  { rewrite (slice_at 96 4 bs (vec_to_list a ++ vec_to_list b ++ vec_to_list c) (be_bytes 4 n)
      (vec_to_list e ++ vec_to_list f)).
    - rewrite be_value_be_bytes. by apply Z.mod_small.
    - by rewrite Hbs, <-!(assoc_L (++)).
    - by rewrite !length_app, !length_vec_to_list.
    - apply length_be_bytes. }
  assert (word 0 bs = a) as ->.
  { eapply (word_at 0 bs []); [exact Hbs|done]. }
  assert (word 32 bs = b) as ->.
  { eapply (word_at 32 bs (vec_to_list a)); [exact Hbs|apply length_vec_to_list]. }
  assert (word 64 bs = c) as ->.
  { eapply (word_at 64 bs (vec_to_list a ++ vec_to_list b));
      [by rewrite Hbs, <-!(assoc_L (++))|by rewrite length_app, !length_vec_to_list]. }
  assert (word 100 bs = e) as ->.
  { eapply (word_at 100 bs (vec_to_list a ++ vec_to_list b ++ vec_to_list c ++ be_bytes 4 n));
      [by rewrite Hbs, <-!(assoc_L (++))|].
    by rewrite !length_app, !length_vec_to_list, length_be_bytes. }
  assert (word 132 bs = f) as ->; [|done].
  apply (word_at 132 bs (vec_to_list a ++ vec_to_list b ++ vec_to_list c ++ be_bytes 4 n ++
    vec_to_list e) []); [by rewrite Hbs, app_nil_r, <-!(assoc_L (++))|].
  by rewrite !length_app, !length_vec_to_list, length_be_bytes.
Qed.

#[export] Instance runs_laws : GuestRunsLaws world guest.
Proof.
  split.
  - done.
  - intros [[wit|] bs] r g'; simpl; [case_decide|]; by intros [= _ <-].
  - intros [[wit|] bs] wit' g'; simpl; [case_decide|]; by intros [= <- _].
  - intros pv [input bs]. by eexists.
  - intros s wit s' _ [= <-] Hwf _. exists (None, []). simpl. by rewrite decide_True.
  - by intros s p vk s' wit [= <-].
  - intros s wit s' wit' _ [= <-] Hwf [g Hr]. simpl in Hr. rewrite decide_True in Hr by done.
    by injection Hr as <- _.
  - apply decode_encode.
Qed.

#[export] Instance deferred_laws : DeferredProofLaws world guest.
Proof.
  split; [|done]. by intros vk b h [= <-] [= <-].
Qed.

Definition aggregation_elf : bytes := replicate 7 x00.

#[export] Instance aggregation_program : AggregationProgram world aggregation_elf.
Proof.
  split.
  - by intros prover pk vk w w' [= <- <-].
  - intros prover pr vk pv _ _ Hd. simpl in Hd. unfold abi_decode in Hd.
    case_decide as Heq; [|discriminate Hd]. by injection Hd as <-.
Qed.

(** The bytes that the guest commits on a stdin, if it ends. *)
Definition committed (stdin : option AggchainProofWitness) : option bytes :=
  match main (syscall_verify_sp1_proof (W:=world) (G:=guest) stdin) (debug_text (W:=world) (G:=guest))
          (start (W:=world) stdin) with
  | (Ok (), g) => Some (output (W:=world) g)
  | _ => None
  end.

Lemma committed_commits (stdin : option AggchainProofWitness) bs :
  committed stdin = Some bs → guest_commits (W:=world) (G:=guest) stdin bs.
Proof.
  unfold committed. destruct (main _ _ _) as [[[]| |] g] eqn:Hm; [|done..].
  intros [= <-]. by exists g.
Qed.

(** The optimistic request of [BuilderSample]. *)
Definition caller : Address := be_array 20 1.
Definition rvc : Digest := BridgeSample.digest 14.

Definition retrieved_committed : option bytes := inputs ← retrieved; committed (api_stdin inputs).

Example optimistic_commits : is_some retrieved_committed = true.
Proof. vm_compute. reflexivity. Qed.

Lemma built_witness_accepted_witness :
  ∃ inputs d bs,
    retrieved = Some inputs ∧ guest_commits (G:=guest) (api_stdin inputs) bs ∧
    range_described (request 60) caller d.
Proof.
  pose proof optimistic_commits as Hs. unfold retrieved_committed in Hs.
  destruct retrieved as [inputs|] eqn:Hr; [|discriminate Hs]. simpl in Hs.
  destruct (committed (api_stdin inputs)) as [bs|] eqn:Hbs; [|discriminate Hs].
  apply sketch_of_ok in Hr as [w' Hr]. apply committed_commits in Hbs.
  destruct (built_witness_accepted (G:=guest) true true cc (request 60) 1 (7 : Z) caller rvc []
              inputs w' Hr) as (d & _ & Hiff); [split; [discriminate|reflexivity]|].
  exists inputs, d, bs. split; [reflexivity|]. split; [exact Hbs|].
  exact (proj1 (proj1 (Hiff I bs) Hbs)).
Defined.

(** A normal request for the same range, with the proof of a proposer. *)
Definition the_proposer : option (ProposerService (W:=world)) :=
  sketch_of (proposer_new_network (λ _, Some "key") aggregation_elf
               (asc_proposer_service service_config) []).

Definition proposer_request : FepProposerRequest := {|
  fpr_last_proven_block := 50;
  fpr_requested_end_block := 61;
  fpr_l1_block_hash := BridgeSample.digest 5 |}.

Definition proposed : option (ProposerResponse (W:=world)) :=
  proposer ← the_proposer; sketch_of (proposer_call proposer proposer_request []).

Definition normal_request (pres : ProposerResponse (W:=world)) : AggchainProofBuilderRequest := {|
  req_fep_verification := FepProof (pr_aggregation_proof pres) (pr_public_values pres);
  req_end_block := pr_end_block pres;
  req_aggchain_proof_inputs := ProofInputsSample.inputs |}.

Definition normal_inputs (b : AggchainProofBuilder) (pres : ProposerResponse (W:=world))
    : option AggchainProverInputs :=
  sketch_of (retrieve_chain_data true true (contracts_client b) (normal_request pres)
               (network_id b) (aggregation_vkey b) (bd_static_call_caller_address b)
               (bd_range_vkey_commitment b) []).

Definition normal_committed : option bytes :=
  pres ← proposed; b ← builder; inputs ← normal_inputs b pres; committed (api_stdin inputs).

Example normal_commits : is_some normal_committed = true.
Proof. vm_compute. reflexivity. Qed.

Example network_of_builder : network_id <$> builder = Some 1.
Proof. vm_compute. reflexivity. Qed.

Lemma normal_request_accepted_witness :
  ∃ pres b inputs d bs,
    normal_inputs b pres = Some inputs ∧ guest_commits (G:=guest) (api_stdin inputs) bs ∧
    range_described (normal_request pres) (bd_static_call_caller_address b) d ∧
    leaf_included (normal_request pres).
Proof.
  pose proof normal_commits as Hs. unfold normal_committed in Hs.
  pose proof network_of_builder as Hnet.
  destruct proposed as [pres|] eqn:Hp; [|discriminate Hs].
  destruct builder as [b|] eqn:Hb; [|discriminate Hs]. simpl in Hs, Hnet.
  destruct (normal_inputs b pres) as [inputs|] eqn:Hi; [|discriminate Hs]. simpl in Hs.
  destruct (committed (api_stdin inputs)) as [bs|] eqn:Hbs; [|discriminate Hs].
  unfold proposed in Hp. destruct the_proposer as [proposer|] eqn:Hn; [|discriminate Hp].
  pose proof Hi as Hi'.
  apply sketch_of_ok in Hn as [w1 Hn], Hp as [w2 Hp], Hb as [w3 Hb], Hi as [w4 Hi].
  apply (inj Some) in Hnet.
  assert (in_width 32 (network_id b)) as Hnid by (rewrite Hnet; by split).
  destruct (normal_request_accepted (G:=guest) aggregation_elf true true (λ _, Some "key")
              (asc_proposer_service service_config) proposer proposer_request pres [x00; x01]
              config cc b (normal_request pres) inputs _ _ _ _ _ _ _ _ Hn Hp Hb Hnid eq_refl Hi)
    as (d & _ & Hiff).
  apply committed_commits in Hbs. destruct (proj1 (Hiff I bs) Hbs) as (Hrange & Hleaf & _).
  exists pres, b, inputs, d, bs. split; [exact Hi'|]. split; [exact Hbs|].
  split; [exact Hrange|exact Hleaf].
Defined.
End GuestSample.
