(* ===== verification/Conversion.v ===== *)
(** From gRPC messages to proof inputs: [crates/aggkit-prover-types/src/error.rs] and
    [crates/aggkit-prover-types/src/conversion/v1].

    The messages are generated from the protocol's definition; the conversions of the
    interop messages they contain are those of [agglayer_interop]. *)

From S2P Require Import Prelude Bytes Panics Interop ProofInputs.

(** ** Messages *)

(** [agglayer_interop::grpc::v1]: byte messages, and the messages and conversions of the
    library; the errors of the conversions are reports. *)
Record FixedBytes : Type := { value : bytes }.

Class InteropGrpc `{!UnifiedBridge, !Ecdsa, !GlobalIndices} := {
  L1InfoTreeLeafWithContext : Type;
  MerkleProofMessage : Type;
  digest_try_from : FixedBytes → outcome report Digest;
  global_index_try_from : FixedBytes → outcome report GlobalIndex;
  l1_info_tree_leaf_try_from : L1InfoTreeLeafWithContext → outcome report L1InfoTreeLeaf;
  merkle_proof_try_from : MerkleProofMessage → outcome report MerkleProof;
  signature_try_from : bytes → outcome report Signature;
}.

Section messages.
Context `{InteropGrpc}.

Record ImportedBridgeExitMessage : Type := {
  im_block_number : Z;
  im_global_index : option FixedBytes;
  im_bridge_exit_hash : option FixedBytes;
}.

Record ProvenInsertedGer : Type := {
  pm_proof_ger_l1root : option MerkleProofMessage;
  pm_l1_leaf : option L1InfoTreeLeafWithContext;
}.

Record ProvenInsertedGerWithBlockNumber : Type := {
  pmb_block_number : Z;
  pmb_proven_inserted_ger : option ProvenInsertedGer;
  pmb_block_index : Z;
}.

Record GenerateAggchainProofRequest : Type := {
  gm_last_proven_block : Z;
  gm_requested_end_block : Z;
  gm_l1_info_tree_root_hash : option FixedBytes;
  gm_l1_info_tree_leaf : option L1InfoTreeLeafWithContext;
  gm_l1_info_tree_merkle_proof : option MerkleProofMessage;
  gm_ger_leaves : gmap string ProvenInsertedGerWithBlockNumber;
  gm_imported_bridge_exits : list ImportedBridgeExitMessage;
}.

Record GenerateOptimisticAggchainProofRequest : Type := {
  om_aggchain_proof_request : option GenerateAggchainProofRequest;
  om_optimistic_mode_signature : option FixedBytes;
}.
End messages.

(** ** Errors *)

Inductive AggchainProofRequestError : Type :=
  | MissingTokenInfo (field_path : string)
  | MissingBridgeExit (field_path : string)
  | MissingGlobalIndex (field_path : string)
  | MissingL1InfoTreeLeafInner (field_path : string)
  | MissingL1InfoTreeLeaf (field_path : string)
  | InvalidL1InfoTreeLeaf (field_path : string) (source : report)
  | MissingL1InfoTreeRootHash (field_path : string)
  | MissingL1InfoTreeMerkleProof (field_path : string)
  | InvalidL1InfoTreeMerkleProof (source : report) (field_path : string)
  | InvalidInsertedGerWithBlockNumberConversion (field_path : string) (source : report)
  | MissingInclusionProof (field_path : string)
  | InvalidDigest (field_path : string) (source : report)
  | InvalidImportedBridgeExit (field_path : string) (source : report)
  | MissingImportedBridgeExit (field_path : string)
  | MissingInsertedGer (field_path : string)
  | InvalidInsertedGer (field_path : string) (source : report)
  | InvalidOptimisticModeSignature (field_path : string) (source : report)
  | MissingOptimisticModeSignature (field_path : string)
  | InvalidAggchainProofRequest (field_path : string) (source : report)
  | MissingAggchainProofRequest (field_path : string).

#[export] Instance AggchainProofRequestError_eq_dec : EqDecision AggchainProofRequestError.
Proof. solve_decision. Defined.

(** [AggchainProofRequestError::field_path]. *)
Definition field_path (self : AggchainProofRequestError) : string :=
  match self with
  | MissingTokenInfo field_path
  | MissingBridgeExit field_path
  | MissingGlobalIndex field_path
  | MissingL1InfoTreeLeafInner field_path
  | MissingL1InfoTreeLeaf field_path
  | MissingL1InfoTreeMerkleProof field_path
  | InvalidL1InfoTreeMerkleProof _ field_path
  | InvalidInsertedGerWithBlockNumberConversion field_path _
  | InvalidImportedBridgeExit field_path _
  | InvalidL1InfoTreeLeaf field_path _
  | MissingL1InfoTreeRootHash field_path
  | MissingInsertedGer field_path
  | InvalidInsertedGer field_path _
  | MissingImportedBridgeExit field_path
  | MissingInclusionProof field_path
  | InvalidDigest field_path _
  | MissingAggchainProofRequest field_path
  | InvalidAggchainProofRequest field_path _
  | MissingOptimisticModeSignature field_path
  | InvalidOptimisticModeSignature field_path _ => field_path
  end.

(** The [#[error]] texts. *)
Definition request_error_display (self : AggchainProofRequestError) : string :=
  match self with
  | MissingTokenInfo _ => "Missing bridge exit token info"
  | MissingBridgeExit _ => "Missing request bridge exit"
  | MissingGlobalIndex _ => "Missing request global index"
  | MissingL1InfoTreeLeafInner _ => "Missing inner l1 info tree leaf"
  | MissingL1InfoTreeLeaf _ => "Missing l1 info tree leaf"
  | InvalidL1InfoTreeLeaf _ _ => "Invalid l1 info tree leaf"
  | MissingL1InfoTreeRootHash _ => "Missing l1 info tree root hash"
  | MissingL1InfoTreeMerkleProof _ => "Missing or invalid l1 info merkle tree proof"
  | InvalidL1InfoTreeMerkleProof _ _ => "Invalid l1 info tree merkle proof"
  | InvalidInsertedGerWithBlockNumberConversion _ _ =>
      "Invalid inserted GER with block number conversion"
  | MissingInclusionProof _ => "Missing inclusion proof"
  | InvalidDigest _ _ => "Invalid digest"
  | InvalidImportedBridgeExit _ _ => "Invalid imported bridge exit"
  | MissingImportedBridgeExit _ => "Missing imported bridge exit"
  | MissingInsertedGer _ => "Missing inserted ger"
  | InvalidInsertedGer _ _ => "Invalid inserted ger"
  | InvalidOptimisticModeSignature _ _ => "Invalid optimistic mode signature"
  | MissingOptimisticModeSignature _ => "Missing optimistic mode signature"
  | InvalidAggchainProofRequest _ _ => "Invalid aggchain-proof request"
  | MissingAggchainProofRequest _ => "Missing aggchain-proof request"
  end.

(** [eyre::Error::from] of a request error, by its text. *)
Definition request_error_report (e : AggchainProofRequestError) : report :=
  ReportMsg (request_error_display e).

(** ** Conversions *)

Section conversions.
Context `{InteropGrpc} {orders : UnspecifiedOrders}.

(** [TryFrom<v1::ImportedBridgeExitWithBlockNumber>]. *)
Definition imported_bridge_exit_try_from (value : ImportedBridgeExitMessage)
    : outcome AggchainProofRequestError ImportedBridgeExitWithBlockNumber :=
  global_index ← ok_or (MissingGlobalIndex "global_index") (im_global_index value);
  global_index ← map_err (InvalidDigest "global_index") (global_index_try_from global_index);
  bridge_exit_hash ← ok_or (MissingGlobalIndex "global_index") (im_bridge_exit_hash value);
  bridge_exit_hash ← map_err (InvalidDigest "global_index") (digest_try_from bridge_exit_hash);
  Ok {| ibe_block_number := im_block_number value;
        ibe_global_index := global_index;
        ibe_bridge_exit_hash := bridge_exit_hash |}.

(** [TryFrom<v1::ProvenInsertedGer>]. *)
Definition inserted_ger_try_from (value : ProvenInsertedGer)
    : outcome AggchainProofRequestError InsertedGer :=
  proof ← ok_or (MissingInsertedGer "proof_ger_l1root") (pm_proof_ger_l1root value);
  proof ← map_err (InvalidInsertedGer "proof_ger_l1root") (merkle_proof_try_from proof);
  leaf ← ok_or (MissingL1InfoTreeLeaf "l1_leaf") (pm_l1_leaf value);
  leaf ← map_err (InvalidL1InfoTreeLeaf "l1_leaf") (l1_info_tree_leaf_try_from leaf);
  Ok {| proof_ger_l1root := proof; l1_leaf := leaf |}.

(** [TryFrom<v1::ProvenInsertedGerWithBlockNumber>]. *)
Definition inserted_ger_with_block_number_try_from (value : ProvenInsertedGerWithBlockNumber)
    : outcome AggchainProofRequestError InsertedGerWithBlockNumber :=
  inserted_ger ← ok_or (MissingInsertedGer "proven_inserted_ger") (pmb_proven_inserted_ger value);
  inserted_ger ← map_err (λ e, InvalidInsertedGer "proven_inserted_ger" (request_error_report e))
    (inserted_ger_try_from inserted_ger);
  Ok {| igb_block_number := pmb_block_number value;
        igb_block_index := pmb_block_index value;
        inserted_ger := inserted_ger |}.

(** The closure over an entry of [ger_leaves]. *)
Definition ger_leaf_try_from (kv : string * ProvenInsertedGerWithBlockNumber)
    : outcome AggchainProofRequestError (string * InsertedGerWithBlockNumber) :=
  let '(k, v) := kv in
  v ← map_err
    (λ e, InvalidInsertedGerWithBlockNumberConversion "ger_leaves" (request_error_report e))
    (inserted_ger_with_block_number_try_from v);
  Ok (k, v).

(** [TryFrom<v1::GenerateAggchainProofRequest>]. *)
Definition aggchain_proof_inputs_try_from (value : GenerateAggchainProofRequest)
    : outcome AggchainProofRequestError AggchainProofInputs :=
  root ← ok_or (MissingL1InfoTreeRootHash "l1_info_tree_root_hash")
           (gm_l1_info_tree_root_hash value);
  root ← map_err (InvalidDigest "l1_info_tree_root_hash") (digest_try_from root);
  leaf ← ok_or (MissingL1InfoTreeLeaf "l1_info_tree_leaf") (gm_l1_info_tree_leaf value);
  leaf ← map_err (InvalidL1InfoTreeLeaf "l1_info_tree_leaf") (l1_info_tree_leaf_try_from leaf);
  proof ← ok_or (MissingL1InfoTreeMerkleProof "l1_info_tree_merkle_proof")
            (gm_l1_info_tree_merkle_proof value);
  proof ← map_err (λ source, InvalidL1InfoTreeMerkleProof source "l1_info_tree_merkle_proof")
            (merkle_proof_try_from proof);
  gers ← traverse ger_leaf_try_from (hash_map_iter (gm_ger_leaves value));
  exits ← map_err
    (λ e, InvalidImportedBridgeExit "imported_bridge_exits" (request_error_report e))
    (traverse imported_bridge_exit_try_from (gm_imported_bridge_exits value));
  Ok {| last_proven_block := gm_last_proven_block value;
        requested_end_block := gm_requested_end_block value;
        l1_info_tree_root_hash := root;
        api_l1_info_tree_leaf := leaf;
        l1_info_tree_merkle_proof := proof;
        ger_leaves := list_to_map gers;
        imported_bridge_exits := exits |}.

(** [TryFrom<v1::GenerateOptimisticAggchainProofRequest>]. *)
Definition optimistic_aggchain_proof_inputs_try_from
    (value : GenerateOptimisticAggchainProofRequest)
    : outcome AggchainProofRequestError OptimisticAggchainProofInputs :=
  signature ← ok_or (MissingOptimisticModeSignature "optimistic_mode_signature")
                (om_optimistic_mode_signature value);
  signature ← map_err (InvalidOptimisticModeSignature "optimistic_mode_signature")
                (signature_try_from (Conversion.value signature));
  request ← ok_or (MissingAggchainProofRequest "aggchain_proof_request")
              (om_aggchain_proof_request value);
  request ← map_err
    (λ e, InvalidAggchainProofRequest "aggchain_proof_request" (request_error_report e))
    (aggchain_proof_inputs_try_from request);
  Ok {| opt_signature_optimistic_mode := signature; aggchain_proof_inputs := request |}.

(** ** The context of a proof request *)

(** [context()]: the values inserted, in order; [usize] indices are formatted in
    decimal. *)
Definition ger_entries (entry : string * InsertedGerWithBlockNumber) : list (string * bytes) :=
  let '(name, ger) := entry in
  [("ger/" +:+ name +:+ "/block_number", be_bytes 8 (igb_block_number ger));
   ("ger/" +:+ name +:+ "/block_index", be_bytes 8 (igb_block_index ger));
   ("ger/" +:+ name +:+ "/l1_leaf_index",
    be_bytes 4 (l1_info_tree_index (l1_leaf (inserted_ger ger))))].

Definition ibe_entries (i : nat) (ibe : ImportedBridgeExitWithBlockNumber)
    : list (string * bytes) :=
  [("ibe/" +:+ pretty i +:+ "/block_number", be_bytes 8 (ibe_block_number ibe));
   ("ibe/" +:+ pretty i +:+ "/bridge_exit_hash", vec_to_list (ibe_bridge_exit_hash ibe));
   ("ibe/" +:+ pretty i +:+ "/global_index",
    be_bytes 32 (global_index_into_u256 (ibe_global_index ibe)))].

Definition field_entries (self : AggchainProofInputs) : list (string * bytes) :=
  let leaf := api_l1_info_tree_leaf self in
  [("last_proven_block", be_bytes 8 (last_proven_block self));
   ("requested_end_block", be_bytes 8 (requested_end_block self));
   ("l1_info_tree_root_hash", vec_to_list (l1_info_tree_root_hash self));
   ("l1_info_tree_index", be_bytes 4 (l1_info_tree_index leaf));
   ("l1_info_tree_rer", vec_to_list (rer leaf));
   ("l1_info_tree_mer", vec_to_list (mer leaf));
   ("l1_info_tree_ger", vec_to_list (global_exit_root (inner leaf)));
   ("l1_info_tree_block_hash", vec_to_list (block_hash (inner leaf)));
   ("l1_info_tree_timestamp", be_bytes 8 (timestamp (inner leaf)))].

Definition context_entries (self : AggchainProofInputs) : list (string * bytes) :=
  field_entries self ++
  (hash_map_iter (ger_leaves self) ≫= ger_entries) ++
  concat (imap ibe_entries (imported_bridge_exits self)).

(** Successive [HashMap::insert]s. *)
Definition insert_all (m : gmap string bytes) (l : list (string * bytes)) : gmap string bytes :=
  foldl (λ m '(k, v), <[k:=v]> m) m l.

Definition context (self : AggchainProofInputs) : gmap string bytes :=
  insert_all ∅ (context_entries self).

Definition optimistic_context (self : OptimisticAggchainProofInputs) : gmap string bytes :=
  context (aggchain_proof_inputs self).
End conversions.

(** ** What the conversions accept, and what they report *)

Section conversion_properties.
Context `{InteropGrpc} {orders : UnspecifiedOrders} `{!UnspecifiedOrdersLaws orders}.

(** A bridge exit has an index and a hash, and both convert, each to its own part. *)
Record exit_converts (m : ImportedBridgeExitMessage) (exit : ImportedBridgeExitWithBlockNumber)
    : Prop := {
  ec_block : ibe_block_number exit = im_block_number m;
  ec_index : ∃ i, im_global_index m = Some i ∧
                  global_index_try_from i = Ok (ibe_global_index exit);
  ec_hash : ∃ h, im_bridge_exit_hash m = Some h ∧
                 digest_try_from h = Ok (ibe_bridge_exit_hash exit);
}.

(** A GER has a proof and a leaf, and both convert. *)
Record ger_converts (m : ProvenInsertedGerWithBlockNumber) (g : InsertedGerWithBlockNumber)
    : Prop := {
  gc_block : igb_block_number g = pmb_block_number m;
  gc_index : igb_block_index g = pmb_block_index m;
  gc_ger : ∃ p, pmb_proven_inserted_ger m = Some p ∧
    (∃ proof, pm_proof_ger_l1root p = Some proof ∧
              merkle_proof_try_from proof = Ok (proof_ger_l1root (inserted_ger g))) ∧
    (∃ leaf, pm_l1_leaf p = Some leaf ∧
             l1_info_tree_leaf_try_from leaf = Ok (l1_leaf (inserted_ger g)));
}.

Lemma imported_bridge_exit_try_from_ok m exit :
  imported_bridge_exit_try_from m = Ok exit ↔ exit_converts m exit.
Proof.
  unfold imported_bridge_exit_try_from. split.
  - intros Hm. outcome_inv. split; simpl; eauto.
  - destruct exit as [n i h]. intros [Hn (i' & Hi & Hi') (h' & Hh & Hh')]. simpl in *.
    rewrite Hi. simpl. rewrite Hi'. simpl. rewrite Hh. simpl. rewrite Hh'. simpl. by subst.
Qed.

Lemma inserted_ger_with_block_number_try_from_ok m g :
  inserted_ger_with_block_number_try_from m = Ok g ↔ ger_converts m g.
Proof.
  unfold inserted_ger_with_block_number_try_from, inserted_ger_try_from. split.
  - intros Hm. outcome_inv. split; simpl; eauto 10.
  - destruct g as [n [p l] i]. intros [Hn Hi (x & Hx & (p' & Hp & Hp') & (l' & Hl & Hl'))].
    simpl in *. rewrite Hx. simpl. rewrite Hp. simpl. rewrite Hp'. simpl. rewrite Hl. simpl.
    rewrite Hl'. simpl. by subst.
Qed.

(** Every part of the request is there and converts to its part of the inputs. *)
Record request_converts (m : GenerateAggchainProofRequest) (inputs : AggchainProofInputs)
    : Prop := {
  rc_last : last_proven_block inputs = gm_last_proven_block m;
  rc_end : requested_end_block inputs = gm_requested_end_block m;
  rc_root : ∃ r, gm_l1_info_tree_root_hash m = Some r ∧
                 digest_try_from r = Ok (l1_info_tree_root_hash inputs);
  rc_leaf : ∃ l, gm_l1_info_tree_leaf m = Some l ∧
                 l1_info_tree_leaf_try_from l = Ok (api_l1_info_tree_leaf inputs);
  rc_proof : ∃ p, gm_l1_info_tree_merkle_proof m = Some p ∧
                  merkle_proof_try_from p = Ok (l1_info_tree_merkle_proof inputs);
  rc_gers : map_Forall2 (λ _, ger_converts) (gm_ger_leaves m) (ger_leaves inputs);
  rc_exits : Forall2 exit_converts (gm_imported_bridge_exits m) (imported_bridge_exits inputs);
}.

(** The traversal of the map, in whatever order, is the conversion of every entry. *)
Lemma ger_leaf_try_from_ok k v kv :
  ger_leaf_try_from (k, v) = Ok kv ↔
  kv.1 = k ∧ inserted_ger_with_block_number_try_from v = Ok kv.2.
Proof.
  unfold ger_leaf_try_from. rewrite outcome_bind_ok. split.
  - intros (g & Hg%map_err_ok & [= <-]). done.
  - destruct kv as [k' g]. simpl. intros [-> Hg]. exists g. by rewrite map_err_ok.
Qed.

Lemma traverse_keys l gers :
  traverse ger_leaf_try_from l = Ok gers → gers.*1 = l.*1.
Proof.
  rewrite traverse_ok. induction 1 as [|[k v] kv l gers Hkv _ IH]; [done|].
  apply ger_leaf_try_from_ok in Hkv as [Hk _]. csimpl. by rewrite Hk, IH.
Qed.

Lemma hash_map_keys_NoDup {V} (m : gmap string V) : NoDup (hash_map_iter m).*1.
Proof. rewrite hash_map_iter_perm. apply NoDup_fst_map_to_list. Qed.

Lemma hash_map_iter_spec {V} (m : gmap string V) k v :
  (k, v) ∈ hash_map_iter m ↔ m !! k = Some v.
Proof. rewrite hash_map_iter_perm. apply elem_of_map_to_list. Qed.

Lemma traverse_gers_lookup m gers k :
  traverse ger_leaf_try_from (hash_map_iter m) = Ok gers →
  option_Forall2 (λ a b, inserted_ger_with_block_number_try_from a = Ok b)
    (m !! k) ((list_to_map gers : gmap string InsertedGerWithBlockNumber) !! k).
Proof.
  intros Ht. pose proof (traverse_keys _ _ Ht) as Hkeys.
  assert (NoDup gers.*1) as Hnd by (rewrite Hkeys; apply hash_map_keys_NoDup).
  rewrite traverse_ok in Ht.
  destruct (m !! k) as [v|] eqn:Hk.
  - apply hash_map_iter_spec in Hk.
    apply list_elem_of_lookup in Hk as [i Hi].
    destruct (Forall2_lookup_l _ _ _ _ _ Ht Hi) as ([k' g] & Hg & Hconv).
    apply ger_leaf_try_from_ok in Hconv as [? Hconv]. simpl in *. subst k'.
    rewrite (elem_of_list_to_map_1 gers k g Hnd); [by constructor|].
    by apply list_elem_of_lookup_2 in Hg.
  - rewrite (proj1 (not_elem_of_list_to_map gers k)); [constructor|].
    rewrite Hkeys. intros ([? v] & -> & Hv)%list_elem_of_fmap.
    apply hash_map_iter_spec in Hv. simpl in *. congruence.
Qed.

Lemma traverse_gers_complete m (g : gmap string InsertedGerWithBlockNumber) :
  map_Forall2 (λ _ a b, inserted_ger_with_block_number_try_from a = Ok b) m g →
  ∃ gers, traverse ger_leaf_try_from (hash_map_iter m) = Ok gers ∧ list_to_map gers = g.
Proof.
  intros Hg.
  assert (∃ gers, traverse ger_leaf_try_from (hash_map_iter m) = Ok gers) as [gers Hgers].
  { assert (∀ k v, (k, v) ∈ hash_map_iter m →
            ∃ b, inserted_ger_with_block_number_try_from v = Ok b) as Hall.
    { intros k v Hk%hash_map_iter_spec. pose proof (Hg k) as Hgk.
      rewrite Hk in Hgk. inversion Hgk; subst. eauto. }
    induction (hash_map_iter m) as [|[k v] l IH]; [by exists []|].
    destruct (Hall k v) as [b Hb]; [left|].
    destruct IH as [gers Hgers]; [intros; apply (Hall k0); by right|].
    exists ((k, b) :: gers). simpl. by rewrite Hb, Hgers. }
  exists gers. split; [done|]. apply map_eq. intros k.
  pose proof (traverse_gers_lookup _ _ k Hgers) as Hk1. pose proof (Hg k) as Hk2.
  inversion Hk1 as [a b Hab Ha Hb|Ha Hb]; rewrite <-Ha in Hk2; inversion Hk2; congruence.
Qed.

Lemma option_Forall2_mono {A B} (P Q : A → B → Prop) o1 o2 :
  option_Forall2 P o1 o2 → (∀ a b, P a b → Q a b) → option_Forall2 Q o1 o2.
Proof. intros [] HPQ; constructor. by apply HPQ. Qed.

Lemma request_converts_ok m inputs :
  aggchain_proof_inputs_try_from m = Ok inputs ↔ request_converts m inputs.
Proof.
  split.
  - unfold aggchain_proof_inputs_try_from. intros Hm. outcome_inv.
    split; simpl; [done|done|by eexists|by eexists|by eexists| |].
    + intros k. eapply option_Forall2_mono; [by apply traverse_gers_lookup|].
      intros. by apply inserted_ger_with_block_number_try_from_ok.
    + match goal with H : traverse imported_bridge_exit_try_from _ = Ok _ |- _ =>
        apply traverse_ok in H; eapply Forall2_impl; [|exact H] end.
      intros. by apply imported_bridge_exit_try_from_ok.
  - intros [Hl He (r & Hr & Hr') (l & Hlf & Hlf') (p & Hp & Hp') Hg Hx].
    unfold aggchain_proof_inputs_try_from. rewrite Hr; simpl. rewrite Hr'; simpl.
    rewrite Hlf; simpl. rewrite Hlf'; simpl. rewrite Hp; simpl. rewrite Hp'; simpl.
    destruct (traverse_gers_complete (gm_ger_leaves m) (ger_leaves inputs))
      as (gers & Hgers & Hmap).
    { intros k. eapply option_Forall2_mono; [apply Hg|]. intros.
      by apply inserted_ger_with_block_number_try_from_ok. }
    rewrite Hgers; simpl.
    assert (traverse imported_bridge_exit_try_from (gm_imported_bridge_exits m)
            = Ok (imported_bridge_exits inputs)) as ->.
    { apply traverse_ok. eapply Forall2_impl; [|exact Hx].
      intros. by apply imported_bridge_exit_try_from_ok. }
    simpl. destruct inputs; simpl in *. by subst.
Qed.

(** The fields of a request, in the order the conversion looks at them, and what it is
    for each of them to be valid. *)
Definition request_fields : list string :=
  ["l1_info_tree_root_hash"; "l1_info_tree_leaf"; "l1_info_tree_merkle_proof"; "ger_leaves";
   "imported_bridge_exits"].

Definition field_valid (m : GenerateAggchainProofRequest) (field : string) : Prop :=
  if decide (field = "l1_info_tree_root_hash") then
    ∃ x r, gm_l1_info_tree_root_hash m = Some x ∧ digest_try_from x = Ok r
  else if decide (field = "l1_info_tree_leaf") then
    ∃ x r, gm_l1_info_tree_leaf m = Some x ∧ l1_info_tree_leaf_try_from x = Ok r
  else if decide (field = "l1_info_tree_merkle_proof") then
    ∃ x r, gm_l1_info_tree_merkle_proof m = Some x ∧ merkle_proof_try_from x = Ok r
  else if decide (field = "ger_leaves") then
    ∀ k x, gm_ger_leaves m !! k = Some x →
      ∃ r, inserted_ger_with_block_number_try_from x = Ok r
  else if decide (field = "imported_bridge_exits") then
    ∀ x, x ∈ gm_imported_bridge_exits m → ∃ r, imported_bridge_exit_try_from x = Ok r
  else False.

(** A failing traversal names an element that does not convert. *)
Lemma traverse_err_elem {E A B} (f : A → outcome E B) l e :
  traverse f l = Err e → ∃ a, a ∈ l ∧ f a = Err e.
Proof.
  intros (l1 & a & l2 & bs & -> & _ & Ha)%traverse_err. exists a. split; [|done].
  apply elem_of_app. right. left.
Qed.

Lemma traverse_ok_elem {E A B} (f : A → outcome E B) l bs a :
  traverse f l = Ok bs → a ∈ l → ∃ b, f a = Ok b.
Proof.
  rewrite traverse_ok. intros Hf [i Hi]%list_elem_of_lookup.
  destruct (Forall2_lookup_l _ _ _ _ _ Hf Hi) as (b & _ & Hb). by exists b.
Qed.

Lemma gers_valid m gers :
  traverse ger_leaf_try_from (hash_map_iter (gm_ger_leaves m)) = Ok gers →
  field_valid m "ger_leaves".
Proof.
  intros Ht k x Hx%hash_map_iter_spec.
  destruct (traverse_ok_elem _ _ _ _ Ht Hx) as [kv Hkv].
  apply ger_leaf_try_from_ok in Hkv as [_ Hkv]. by exists kv.2.
Qed.

(** One part of the request: a required message, then its conversion. *)
Lemma part_err {X R C} (o : option X) (conv : X → outcome report R) missing invalid
    (k : R → outcome AggchainProofRequestError C) path e :
  field_path missing = path → (∀ r, field_path (invalid r) = path) →
  (x ← ok_or missing o; r ← map_err invalid (conv x); k r) = Err e →
  (field_path e = path ∧ ¬ ∃ x r, o = Some x ∧ conv x = Ok r) ∨
  (∃ x r, o = Some x ∧ conv x = Ok r ∧ k r = Err e).
Proof.
  intros Hmiss Hinv.
  intros [[-> ->]%ok_or_err|(x & ->%ok_or_ok & Hk)]%outcome_bind_err.
  { left. naive_solver. }
  apply outcome_bind_err in Hk as [(e0 & Hc & ->)%map_err_err|(r & Hr%map_err_ok & Hk)].
  - left. split; [done|]. intros (? & ? & [= <-] & ?). congruence.
  - right. eauto.
Qed.

(** The error of the conversion is about the first invalid field. *)
Lemma request_error_field m e :
  aggchain_proof_inputs_try_from m = Err e →
  ∃ n, request_fields !! n = Some (field_path e) ∧
    Forall (field_valid m) (take n request_fields) ∧ ¬ field_valid m (field_path e).
Proof.
  unfold aggchain_proof_inputs_try_from. intros Hm.
  apply (part_err _ _ _ _ _ "l1_info_tree_root_hash") in Hm
    as [[Hp Hv]|(x1 & r1 & Hx1 & Hr1 & Hm)]; [| |done..].
  { exists 0%nat. rewrite Hp. split_and!; [done|constructor|exact Hv]. }
  assert (field_valid m "l1_info_tree_root_hash") as Hv1 by (by exists x1, r1).
  apply (part_err _ _ _ _ _ "l1_info_tree_leaf") in Hm
    as [[Hp Hv]|(x2 & r2 & Hx2 & Hr2 & Hm)]; [| |done..].
  { exists 1%nat. rewrite Hp. split_and!; [done|by repeat constructor|exact Hv]. }
  assert (field_valid m "l1_info_tree_leaf") as Hv2 by (by exists x2, r2).
  apply (part_err _ _ _ _ _ "l1_info_tree_merkle_proof") in Hm
    as [[Hp Hv]|(x3 & r3 & Hx3 & Hr3 & Hm)]; [| |done..].
  { exists 2%nat. rewrite Hp. split_and!; [done|by repeat constructor|exact Hv]. }
  assert (field_valid m "l1_info_tree_merkle_proof") as Hv3 by (by exists x3, r3).
  apply outcome_bind_err in Hm as [Hm|(gers & Hgers%gers_valid & Hm)].
  - apply traverse_err_elem in Hm as ([k x] & Hin%hash_map_iter_spec & Hx).
    apply outcome_bind_err in Hx as [(e0 & Hx & ->)%map_err_err|(? & _ & [=])].
    exists 3%nat. split_and!; [done|by repeat constructor|].
    intros Hv. destruct (Hv k x Hin) as [r Hr]. congruence.
  - apply outcome_bind_err in Hm as [(e0 & Hm & ->)%map_err_err|(? & _ & [=])].
    apply traverse_err_elem in Hm as (x & Hin & Hx).
    exists 4%nat. split_and!; [done|by repeat constructor|].
    intros Hv. destruct (Hv x Hin) as [r Hr]. congruence.
Qed.

(** C29: the conversion of a request succeeds exactly when every part of the request is
    there and converts, with each part in its place: the five fields, each bridge exit, with
    its index and its hash, and each entry of the map of GER leaves, under its key, with its
    proof and its leaf; whatever order the map is iterated in. *)
Theorem request_conversion_ok m inputs :
  aggchain_proof_inputs_try_from m = Ok inputs ↔ request_converts m inputs.
Proof. apply request_converts_ok. Qed.

(** C30: the error of a request's conversion names the first field, in the order of the
    request, that is missing or does not convert. *)
Theorem request_error_pinpoints m e :
  aggchain_proof_inputs_try_from m = Err e →
  ∃ n, request_fields !! n = Some (field_path e) ∧
    Forall (field_valid m) (take n request_fields) ∧ ¬ field_valid m (field_path e).
Proof. apply request_error_field. Qed.

(** A bridge exit without its hash is reported as one without its global index. *)
Lemma missing_bridge_exit_hash_reported m gi msg :
  im_global_index m = Some msg → global_index_try_from msg = Ok gi →
  im_bridge_exit_hash m = None →
  imported_bridge_exit_try_from m = Err (MissingGlobalIndex "global_index").
Proof.
  unfold imported_bridge_exit_try_from. intros -> Hgi ->. simpl. by rewrite Hgi.
Qed.
End conversion_properties.

(** ** The context holds every entry *)

(** The keys of an entry, and what keeps those of different entries apart. *)
Definition ger_keys (name : string) : list string :=
  ["ger/" +:+ name +:+ "/block_number"; "ger/" +:+ name +:+ "/block_index";
   "ger/" +:+ name +:+ "/l1_leaf_index"].

Definition ibe_keys (i : nat) : list string :=
  ["ibe/" +:+ pretty i +:+ "/block_number"; "ibe/" +:+ pretty i +:+ "/bridge_exit_hash";
   "ibe/" +:+ pretty i +:+ "/global_index"].

Definition field_keys : list string :=
  ["last_proven_block"; "requested_end_block"; "l1_info_tree_root_hash"; "l1_info_tree_index";
   "l1_info_tree_rer"; "l1_info_tree_mer"; "l1_info_tree_ger"; "l1_info_tree_block_hash";
   "l1_info_tree_timestamp"].

(** Two keys with a common prefix and suffixes that differ within eight characters, or
    with a common suffix. *)
Ltac keys_apart :=
  match goal with
  | Heq : ?p +:+ (?s1 +:+ ?t1) = ?p +:+ (?s2 +:+ ?t2) |- _ =>
      apply (inj (String.append p)) in Heq;
      first [ apply (suffix_inj s1 s2 t1) in Heq
            | exfalso; revert Heq; apply (suffix_neq 8); [discriminate|simpl; lia..] ]
  end.

Lemma ger_keys_inj n1 n2 y : y ∈ ger_keys n1 → y ∈ ger_keys n2 → n1 = n2.
Proof.
  unfold ger_keys. rewrite !elem_of_cons, !list.elem_of_nil.
  intros [->|[->|[->|[]]]] [Heq|[Heq|[Heq|[]]]]; keys_apart; done.
Qed.

Lemma ibe_keys_inj i1 i2 y : y ∈ ibe_keys i1 → y ∈ ibe_keys i2 → i1 = i2.
Proof.
  unfold ibe_keys. rewrite !elem_of_cons, !list.elem_of_nil.
  intros [->|[->|[->|[]]]] [Heq|[Heq|[Heq|[]]]]; keys_apart; by apply (inj pretty).
Qed.

Lemma ger_keys_NoDup n : NoDup (ger_keys n).
Proof.
  unfold ger_keys. rewrite !list.NoDup_cons, !elem_of_cons, !list.elem_of_nil.
  split_and!; [intros [Heq|[Heq|[]]]|intros [Heq|[]]|intros []|constructor];
    by apply (inj (String.append "ger/")), (inj (String.append n)) in Heq.
Qed.

Lemma ibe_keys_NoDup i : NoDup (ibe_keys i).
Proof.
  unfold ibe_keys. rewrite !list.NoDup_cons, !elem_of_cons, !list.elem_of_nil.
  split_and!; [intros [Heq|[Heq|[]]]|intros [Heq|[]]|intros []|constructor];
    by apply (inj (String.append "ibe/")), (inj (String.append (pretty i))) in Heq.
Qed.

Definition first_ascii (s : string) : option Ascii.ascii :=
  head (String.list_ascii_of_string s).

Lemma ger_keys_first names y :
  y ∈ names ≫= ger_keys → first_ascii y = first_ascii "g".
Proof.
  intros (n & Hy & _)%list_elem_of_bind. unfold ger_keys in Hy.
  rewrite !elem_of_cons, list.elem_of_nil in Hy. by destruct Hy as [->|[->|[->|[]]]].
Qed.

Lemma ibe_keys_first ids y : y ∈ ids ≫= ibe_keys → first_ascii y = first_ascii "i".
Proof.
  intros (n & Hy & _)%list_elem_of_bind. unfold ibe_keys in Hy.
  rewrite !elem_of_cons, list.elem_of_nil in Hy. by destruct Hy as [->|[->|[->|[]]]].
Qed.

Lemma field_keys_first y :
  y ∈ field_keys → first_ascii y = first_ascii "l" ∨ first_ascii y = first_ascii "r".
Proof.
  unfold field_keys. rewrite !elem_of_cons, list.elem_of_nil.
  intros [->|[->|[->|[->|[->|[->|[->|[->|[->|[]]]]]]]]]]; by (left + right).
Qed.

Lemma context_keys_NoDup names n :
  NoDup names → NoDup (field_keys ++ (names ≫= ger_keys) ++ (seq 0 n ≫= ibe_keys)).
Proof.
  intros Hnd. apply list.NoDup_app. split_and!.
  - by apply (bool_decide_unpack _).
  - intros y Hy%field_keys_first. rewrite elem_of_app.
    intros [Hk%ger_keys_first|Hk%ibe_keys_first]; rewrite Hk in Hy; by destruct Hy.
  - apply list.NoDup_app. split_and!.
    + apply list.NoDup_bind; [|intros; apply ger_keys_NoDup|done].
      intros x1 x2 y _ _. apply ger_keys_inj.
    + intros y Hg%ger_keys_first Hi%ibe_keys_first. by rewrite Hg in Hi.
    + apply list.NoDup_bind; [|intros; apply ibe_keys_NoDup|apply list.NoDup_seq].
      intros x1 x2 y _ _. apply ibe_keys_inj.
Qed.

(** Inserting entries with distinct keys: each of them is found, the rest is untouched. *)
Lemma insert_all_lookup m l k v :
  NoDup l.*1 →
  insert_all m l !! k = Some v ↔ (k, v) ∈ l ∨ ((k ∉ l.*1) ∧ m !! k = Some v).
Proof.
  revert m. induction l as [|[k1 v1] l IH]; intros m; csimpl; rewrite ?list.NoDup_cons.
  { intros _. split; [intros; right; by split; [apply not_elem_of_nil|]|].
    by intros [?%list.elem_of_nil|[_ ?]]. }
  intros [Hk1 Hnd]. unfold insert_all in *. simpl. rewrite IH by done.
  rewrite !elem_of_cons, lookup_insert_Some. split.
  - intros [?|[? [[-> ->]|[? ?]]]]; [by left; right|by left; left|]. right. naive_solver.
  - intros [[[= -> ->]|?]|[Hk ?]]; [right; naive_solver|by left|].
    right. split; [naive_solver|]. right. naive_solver.
Qed.

Section context_properties.
Context `{InteropGrpc} {orders : UnspecifiedOrders} `{!UnspecifiedOrdersLaws orders}.
Implicit Types self : AggchainProofInputs.

Lemma ger_entries_keys entries :
  (entries ≫= ger_entries).*1 = entries.*1 ≫= ger_keys.
Proof. induction entries as [|[name ger] l IH]; [done|]. csimpl. by rewrite IH. Qed.

Lemma ibe_entries_keys l n :
  (concat (imap (λ i, ibe_entries (n + i)) l)).*1 = seq n (length l) ≫= ibe_keys.
Proof.
  revert n. induction l as [|ibe l IH]; intros n; [done|]. csimpl.
  rewrite Nat.add_0_r. do 3 f_equal. rewrite <-IH. do 2 f_equal.
  apply imap_ext. intros i x _. simpl. by rewrite Nat.add_succ_r.
Qed.

Lemma context_entries_keys self :
  (context_entries self).*1 =
    field_keys ++ ((hash_map_iter (ger_leaves self)).*1 ≫= ger_keys) ++
    (seq 0 (length (imported_bridge_exits self)) ≫= ibe_keys).
Proof.
  unfold context_entries. rewrite !fmap_app, ger_entries_keys.
  do 2 f_equal. apply (ibe_entries_keys _ 0).
Qed.

Lemma context_entries_NoDup self : NoDup (context_entries self).*1.
Proof. rewrite context_entries_keys. apply context_keys_NoDup, hash_map_keys_NoDup. Qed.

Lemma context_lookup_entry self k v :
  context self !! k = Some v ↔ (k, v) ∈ context_entries self.
Proof.
  unfold context. rewrite insert_all_lookup by apply context_entries_NoDup.
  rewrite lookup_empty. naive_solver.
Qed.

(** The keys the service adds afterwards are none of the context's. *)
Lemma context_fresh self k :
  k ∉ field_keys → first_ascii k ≠ first_ascii "g" → first_ascii k ≠ first_ascii "i" →
  context self !! k = None.
Proof.
  intros Hk Hg Hi. destruct (context self !! k) as [v|] eqn:Hv; [|done].
  apply context_lookup_entry in Hv.
  assert (k ∈ (context_entries self).*1) as Hin by (apply list_elem_of_fmap; by exists (k, v)).
  rewrite context_entries_keys, !elem_of_app in Hin.
  by destruct Hin as [?|[?%ger_keys_first|?%ibe_keys_first]].
Qed.

(** C31: no entry of a proof's context overwrites another: the context maps a key to a
    value exactly when they are one of the entries of the request: its nine fields,
    three values per GER leaf, three per imported bridge exit. *)
Theorem context_complete self k v :
  context self !! k = Some v ↔
  (k, v) ∈ field_entries self ∨
  (∃ name ger, ger_leaves self !! name = Some ger ∧ (k, v) ∈ ger_entries (name, ger)) ∨
  (∃ i ibe, imported_bridge_exits self !! i = Some ibe ∧ (k, v) ∈ ibe_entries i ibe).
Proof.
  rewrite context_lookup_entry. unfold context_entries.
  rewrite !elem_of_app, list_elem_of_bind. f_equiv. f_equiv.
  - split.
    + intros ([name ger] & Hk & Hin%hash_map_iter_spec). eauto.
    + intros (name & ger & Hin%hash_map_iter_spec & Hk). eauto.
  - rewrite list_elem_of_In, in_concat. split.
    + intros (x & (i & ibe & -> & Hi)%list_elem_of_In%elem_of_lookup_imap & Hk).
      exists i, ibe. by rewrite list_elem_of_In.
    + intros (i & ibe & Hi & Hk). exists (ibe_entries i ibe).
      split; [|by apply list_elem_of_In]. apply list_elem_of_In, elem_of_lookup_imap. eauto.
Qed.
End context_properties.

(** ** A concrete request *)

Module ConversionSample.
Import Toy ToyOrders.

(** Messages that are what they convert to; an absent value is malformed. *)
#[export] Instance interop_grpc : InteropGrpc := {|
  L1InfoTreeLeafWithContext := option L1InfoTreeLeaf;
  MerkleProofMessage := option MerkleProof;
  digest_try_from m := ok_or (ReportMsg "digest") (to_array 32 (value m));
  global_index_try_from m := Ok (be_value (value m) : GlobalIndex);
  l1_info_tree_leaf_try_from := ok_or (ReportMsg "leaf");
  merkle_proof_try_from := ok_or (ReportMsg "proof");
  signature_try_from bs := Ok (to_array 20 bs : Signature);
|}.

Definition hash_message (z : Z) : FixedBytes := {| value := be_bytes 32 z |}.

Definition ger_message (l : L1InfoTreeLeaf) (proof : MerkleProof) (block index : Z)
    : ProvenInsertedGerWithBlockNumber :=
  {| pmb_block_number := block;
     pmb_proven_inserted_ger :=
       Some {| pm_proof_ger_l1root := Some (Some proof); pm_l1_leaf := Some (Some l) |};
     pmb_block_index := index |}.

(** The request whose inputs are those of the other samples. *)
Definition message_of (inputs : AggchainProofInputs) : GenerateAggchainProofRequest :=
  {| gm_last_proven_block := last_proven_block inputs;
     gm_requested_end_block := requested_end_block inputs;
     gm_l1_info_tree_root_hash :=
       Some {| value := vec_to_list (l1_info_tree_root_hash inputs) |};
     gm_l1_info_tree_leaf := Some (Some (api_l1_info_tree_leaf inputs));
     gm_l1_info_tree_merkle_proof := Some (Some (l1_info_tree_merkle_proof inputs));
     gm_ger_leaves :=
       (λ ger, ger_message (l1_leaf (inserted_ger ger)) (proof_ger_l1root (inserted_ger ger))
                 (igb_block_number ger) (igb_block_index ger)) <$> ger_leaves inputs;
     gm_imported_bridge_exits :=
       (λ ibe, {| im_block_number := ibe_block_number ibe;
                  im_global_index := Some {| value := be_bytes 32 (ibe_global_index ibe) |};
                  im_bridge_exit_hash :=
                    Some {| value := vec_to_list (ibe_bridge_exit_hash ibe) |} |})
       <$> imported_bridge_exits inputs |}.

Definition message : GenerateAggchainProofRequest := message_of ProofInputsSample.inputs.

Example message_converts : is_ok (aggchain_proof_inputs_try_from message) = true.
Proof. vm_compute. reflexivity. Qed.

Lemma request_conversion_ok_witness :
  ∃ inputs, request_converts message inputs ∧ last_proven_block inputs = 50.
Proof.
  pose proof message_converts as Hm.
  destruct (aggchain_proof_inputs_try_from message) as [inputs|?|?] eqn:Hi;
    [|discriminate Hm..].
  exists inputs. apply request_conversion_ok in Hi. split; [exact Hi|]. by rewrite (rc_last _ _ Hi).
Defined.

(** A request whose leaf is malformed; its bridge exits are incomplete, too. *)
Definition bad_message : GenerateAggchainProofRequest :=
  {| gm_last_proven_block := 50;
     gm_requested_end_block := 60;
     gm_l1_info_tree_root_hash := Some (hash_message 3);
     gm_l1_info_tree_leaf := Some None;
     gm_l1_info_tree_merkle_proof := None;
     gm_ger_leaves := ∅;
     gm_imported_bridge_exits :=
       [{| im_block_number := 51; im_global_index := None; im_bridge_exit_hash := None |}] |}.

Lemma request_error_pinpoints_witness :
  field_valid bad_message "l1_info_tree_root_hash" ∧
  ¬ field_valid bad_message "l1_info_tree_leaf".
Proof.
  destruct (request_error_pinpoints bad_message
              (InvalidL1InfoTreeLeaf "l1_info_tree_leaf" (ReportMsg "leaf")))
    as (n & Hn & Hpre & Hpost).
  - reflexivity.
  - split; [|exact Hpost].
    assert (n = 1%nat) as -> by (do 5 (destruct n as [|n]; [by simplify_eq/=|]); done).
    by apply Forall_inv in Hpre.
Defined.

Lemma context_complete_witness :
  context ProofInputsSample.inputs !! "ger/b/block_index" = Some (be_bytes 8 0).
Proof.
  apply (context_complete (orders:=forwards)). right. left.
  exists "b", (ProofInputsSample.ger_leaf 1 55 0). split; [reflexivity|]. right. left.
Defined.
End ConversionSample.
