(* ===== verification/Rpc.v ===== *)
(** gRPC statuses ([tonic], [tonic_types]), as the RPC handlers of both provers build
    them. *)

From S2P Require Import Prelude Bytes.

(** [tonic::Code]. *)
Inductive Code : Type :=
  | CodeOk | CodeCancelled | CodeUnknown | CodeInvalidArgument | CodeDeadlineExceeded
  | CodeNotFound | CodeAlreadyExists | CodePermissionDenied | CodeResourceExhausted
  | CodeFailedPrecondition | CodeAborted | CodeOutOfRange | CodeUnimplemented | CodeInternal
  | CodeUnavailable | CodeDataLoss | CodeUnauthenticated.

#[export] Instance Code_eq_dec : EqDecision Code.
Proof. solve_decision. Defined.

(** A bad-request violation: the field and what is wrong with it. *)
Record Violation : Type := { violation_field : string; violation_description : string }.

#[export] Instance Violation_eq_dec : EqDecision Violation.
Proof. solve_decision. Defined.

(** The details of a status: none, the standard error details
    ([tonic_types::ErrorDetails], of which the code uses the violations), or bytes. *)
Inductive Details : Type :=
  | NoDetails
  | BadRequest (violations : list Violation)
  | RawDetails (details : bytes).

#[export] Instance Details_eq_dec : EqDecision Details.
Proof. solve_decision. Defined.

Record Status : Type := {
  status_code : Code;
  status_message : string;
  status_details : Details;
}.

#[export] Instance Status_eq_dec : EqDecision Status.
Proof. solve_decision. Defined.

(** [Status::internal], [Status::invalid_argument]. *)
Definition status_internal (msg : string) : Status :=
  {| status_code := CodeInternal; status_message := msg; status_details := NoDetails |}.
Definition status_invalid_argument (msg : string) : Status :=
  {| status_code := CodeInvalidArgument; status_message := msg; status_details := NoDetails |}.

(** [Status::with_error_details] with one violation. *)
Definition invalid_field (msg field description : string) : Status :=
  {| status_code := CodeInvalidArgument;
     status_message := msg;
     status_details :=
       BadRequest [{| violation_field := field; violation_description := description |}] |}.

(** [Status::with_details]. *)
Definition status_with_details (code : Code) (msg : string) (details : bytes) : Status :=
  {| status_code := code; status_message := msg; status_details := RawDetails details |}.
