(* ===== verification/Codec.v ===== *)
(** A self-delimiting codec: one that can be written for every message of the provers.

    The protobuf encoding is [prost]'s, and an interface here ([Tonic.Message]); this codec is
    the instance that the sample clients and servers use. *)

From S2P Require Import Prelude Bytes.

(** [get] reads back what [put] wrote, whatever follows. *)
Class Wire (A : Type) := {
  put : A → bytes;
  get : bytes → option (A * bytes);
}.

Class WireLaws (A : Type) `{!Wire A} : Prop := {
  get_put (a : A) rest : get (put a ++ rest) = Some (a, rest);
}.

(** ** Numbers *)

(** Binary digits, lowest first; the highest one ends the number. *)
Fixpoint put_digits (p : positive) : bytes :=
  match p with
  | xH => [x02]
  | xO p => x00 :: put_digits p
  | xI p => x01 :: put_digits p
  end.

Fixpoint get_digits (bs : bytes) : option (positive * bytes) :=
  match bs with
  | x02 :: rest => Some (xH, rest)
  | x00 :: rest => '(p, rest) ← get_digits rest; Some (xO p, rest)
  | x01 :: rest => '(p, rest) ← get_digits rest; Some (xI p, rest)
  | _ => None
  end.

Lemma get_put_digits p rest : get_digits (put_digits p ++ rest) = Some (p, rest).
Proof. induction p as [p IH|p IH|]; simpl; by rewrite ?IH. Qed.

#[export] Instance wire_Z : Wire Z := {|
  put z := match z with Z0 => [x00] | Zpos p => x01 :: put_digits p | Zneg p => x02 :: put_digits p end;
  get bs :=
    match bs with
    | x00 :: rest => Some (0, rest)
    | x01 :: rest => '(p, rest) ← get_digits rest; Some (Zpos p, rest)
    | x02 :: rest => '(p, rest) ← get_digits rest; Some (Zneg p, rest)
    | _ => None
    end;
|}.
#[export] Instance wire_Z_laws : WireLaws Z.
Proof. split. intros [|p|p] rest; simpl; by rewrite ?get_put_digits. Qed.

(** ** Images of other types *)

Section image.
Context {A B : Type} `{WireLaws B} (f : A → B) (g : B → option A).

Definition wire_image : Wire A := {|
  put a := put (f a);
  get bs := '(b, rest) ← get bs; a ← g b; Some (a, rest);
|}.

Lemma wire_image_laws : (∀ a, g (f a) = Some a) → WireLaws A (Wire0:=wire_image).
Proof. intros Hg. split. intros a rest. simpl. rewrite get_put. simpl. by rewrite Hg. Qed.
End image.

(** ** Structures *)

#[export] Instance wire_prod {A B} `{!Wire A, !Wire B} : Wire (A * B) := {|
  put x := put x.1 ++ put x.2;
  get bs := '(a, rest) ← get bs; '(b, rest) ← get rest; Some ((a, b), rest);
|}.
#[export] Instance wire_prod_laws {A B} `{WireLaws A, WireLaws B} : WireLaws (A * B).
Proof.
  split. intros [a b] rest. simpl. rewrite <-(assoc_L (++)), get_put. simpl. by rewrite get_put.
Qed.

#[export] Instance wire_option {A} `{!Wire A} : Wire (option A) := {|
  put x := match x with None => [x00] | Some a => x01 :: put a end;
  get bs :=
    match bs with
    | x00 :: rest => Some (None, rest)
    | x01 :: rest => '(a, rest) ← get rest; Some (Some a, rest)
    | _ => None
    end;
|}.
#[export] Instance wire_option_laws {A} `{WireLaws A} : WireLaws (option A).
Proof. split. intros [a|] rest; simpl; [by rewrite get_put|done]. Qed.

(** A list is its length and its elements. *)
Fixpoint get_elements {A} `{!Wire A} (n : nat) (bs : bytes) : option (list A * bytes) :=
  match n with
  | O => Some ([], bs)
  | S n => '(a, rest) ← get bs; '(l, rest) ← get_elements n rest; Some (a :: l, rest)
  end.

Lemma get_elements_put {A} `{WireLaws A} (l : list A) rest :
  get_elements (length l) (concat (put <$> l) ++ rest) = Some (l, rest).
Proof.
  induction l as [|a l IH]; [done|]. cbn. rewrite <-(assoc_L (++)), get_put. simpl.
  by rewrite IH.
Qed.

#[export] Instance wire_list {A} `{!Wire A} : Wire (list A) := {|
  put l := put (Z.of_nat (length l)) ++ concat (put <$> l);
  get bs := '(n, rest) ← get bs; get_elements (Z.to_nat n) rest;
|}.
#[export] Instance wire_list_laws {A} `{WireLaws A} : WireLaws (list A).
Proof.
  split. intros l rest. cbn [put get wire_list]. rewrite <-(assoc_L (++)), get_put. simpl.
  by rewrite Nat2Z.id, get_elements_put.
Qed.

#[export] Instance wire_byte : Wire byte := {|
  put b := [b];
  get bs := match bs with [] => None | b :: rest => Some (b, rest) end;
|}.
#[export] Instance wire_byte_laws : WireLaws byte.
Proof. by split. Qed.

#[export] Instance wire_array n : Wire (u8s n) :=
  wire_image (vec_to_list (n:=n)) (to_array n).
#[export] Instance wire_array_laws n : WireLaws (u8s n).
Proof. apply wire_image_laws, to_array_vec. Qed.

#[export] Instance wire_string : Wire string :=
  wire_image String.list_byte_of_string (λ bs, Some (String.string_of_list_byte bs)).
#[export] Instance wire_string_laws : WireLaws string.
Proof. apply wire_image_laws. intros s. by rewrite String.string_of_list_byte_of_string. Qed.

Definition map_of_list {V} (l : list (string * V)) : option (gmap string V) :=
  Some (list_to_map l).

#[export] Instance wire_map {V} `{!Wire V} : Wire (gmap string V) :=
  wire_image map_to_list map_of_list.
#[export] Instance wire_map_laws {V} `{WireLaws V} : WireLaws (gmap string V).
Proof. apply wire_image_laws. intros m. unfold map_of_list. by rewrite list_to_map_to_list. Qed.
