(* ===== verification/Tonic.v ===== *)
(** gRPC over [tonic]: what the generated clients and servers of both provers share
    ([crates/aggkit-prover-types/src/generated/aggkit.prover.v1.tonic.rs] and
    [crates/agglayer-prover-types/src/generated/agglayer.prover.v1.tonic.rs]).

    The runtime of [tonic] is an interface, with what it documents about a unary call whose
    path leads to a handler as its laws.  The specification of a remote method is
    [delivers]: a client's call is the handler's, within the limits on message sizes. *)

From S2P Require Import Prelude Bytes Rpc.

(** ** The interface of [tonic] *)

Inductive CompressionEncoding : Type := Gzip | Deflate | Zstd.

(** [prost::Message]: the encoding of a message. *)
Class Message (M : Type) := {
  encode_to_vec : M → bytes;
  decode : bytes → option M;
}.

Definition encoded_len `{Message M} (m : M) : Z := Z.of_nat (length (encode_to_vec m)).

(** A message that survives its encoding: its integers have their width, its strings are
    UTF-8. *)
Definition encodable `{Message M} (m : M) : Prop := decode (encode_to_vec m) = Some m.

(** Messages that are encodable by construction. *)
Class MessageLaws (M : Type) `{Message M} : Prop := { encodable_all (m : M) : encodable m }.

Record http_request (Body : Type) : Type := { rq_path : string; rq_body : Body }.
Record http_response (Body : Type) : Type := { rs_headers : gmap string string; rs_body : Body }.
Arguments rq_path {Body}. Arguments rq_body {Body}.
Arguments rs_headers {Body}. Arguments rs_body {Body}.

(** [EnabledCompressionEncodings]. *)
Class Encodings := {
  EnabledCompressionEncodings : Type;
  encodings_default : EnabledCompressionEncodings;
  enable : CompressionEncoding → EnabledCompressionEncodings → EnabledCompressionEncodings;
}.

(** What a [tonic::server::Grpc] is set up with. *)
Record grpc_config `{Encodings} : Type := {
  gc_accept : EnabledCompressionEncodings;
  gc_send : EnabledCompressionEncodings;
  gc_max_decoding_message_size : option Z;
  gc_max_encoding_message_size : option Z;
}.

(** [tonic::GrpcMethod]. *)
Record GrpcMethod : Type := { method_service : string; method_name : string }.

(** What a client sends its requests to: a [GrpcService<BoxBody>], whose errors are texts. *)
Record transport (W Body : Type) : Type := {
  t_ready : io W string ();
  t_call : http_request Body → io W string (http_response Body);
}.
Arguments t_ready {W Body}. Arguments t_call {W Body}.

Class Tonic (W : Type) `{Encodings} := {
  (** [BoxBody] and [empty_body()]. *)
  Body : Type;
  empty_body : Body;
  (** [Grpc::new(codec)], its configuration, and [unary]. *)
  server_unary {Req Res : Type} `{!Message Req, !Message Res} :
    grpc_config → (Req → io W Status Res) → http_request Body →
    io W Empty_set (http_response Body);
  (** [tonic::client::Grpc]. *)
  Grpc : Type;
  grpc_new : transport W Body → Grpc;
  grpc_with_origin : transport W Body → string → Grpc;
  grpc_send_compressed : CompressionEncoding → Grpc → Grpc;
  grpc_accept_compressed : CompressionEncoding → Grpc → Grpc;
  grpc_max_decoding_message_size : Z → Grpc → Grpc;
  grpc_max_encoding_message_size : Z → Grpc → Grpc;
  grpc_ready : Grpc → io W string ();
  grpc_unary {Req Res : Type} `{!Message Req, !Message Res} :
    Grpc → Req → GrpcMethod → string → io W Status Res;
  (** [tonic::transport]: [Endpoint::new] and [connect]. *)
  Endpoint : Type;
  endpoint_new : string → outcome string Endpoint;
  endpoint_connect : Endpoint → io W string (transport W Body);
  (** [InterceptedService::new], around a client's transport and around a server. *)
  Interceptor : Type;
  intercepted_transport : transport W Body → Interceptor → transport W Body;
  intercepted_service {R : Type} : (http_request Body → io W Empty_set R) → Interceptor →
    http_request Body → io W Empty_set R;
}.

(** ** What a remote method promises *)

(** [tonic]'s limits where none is set: 4 MiB to decode, [usize::MAX] to encode. *)
Definition DEFAULT_MAX_RECV_MESSAGE_SIZE : Z := 4 * 1024 * 1024.
Definition USIZE_MAX : Z := 2 ^ 64 - 1.

Definition decoding_limit `{Encodings} (config : grpc_config) : Z :=
  default DEFAULT_MAX_RECV_MESSAGE_SIZE (gc_max_decoding_message_size config).
Definition encoding_limit `{Encodings} (config : grpc_config) : Z :=
  default USIZE_MAX (gc_max_encoding_message_size config).

(** A request within the limit of the server is handled, and what the handler ends in
    arrives: its status, or its response if that keeps the limits of the server and of a
    client with none set.  A larger request is refused without running the handler. *)
Definition delivers {W Req Res} `{Encodings, !Message Req, !Message Res}
    (config : grpc_config) (handler rpc : Req → io W Status Res) : Prop :=
  ∀ m w, encodable m →
    if encoded_len m <=? decoding_limit config then
      match handler m w with
      | (Ok res, w') =>
          encodable res → encoded_len res <= encoding_limit config →
          encoded_len res <= DEFAULT_MAX_RECV_MESSAGE_SIZE → rpc m w = (Ok res, w')
      | (Err status, w') => status_code status ≠ CodeOk → rpc m w = (Err status, w')
      | (Panic _, _) => True
      end
    else ∃ status, status_code status = CodeOutOfRange ∧ rpc m w = (Err status, w).

(** A response that a client has is one that the handler sent. *)
Definition genuine {W Req Res} `{!Message Req, !Message Res}
    (handler rpc : Req → io W Status Res) : Prop :=
  ∀ m res w w', encodable m → rpc m w = (Ok res, w') →
    ∃ sent, handler m w = (Ok sent, w') ∧ decode (encode_to_vec sent) = Some res.

(** [AggchainProofServiceServer] and its like, as the transport of a client. *)
Definition over_wire {W B} (serve : http_request B → io W Empty_set (http_response B))
    : transport W B :=
  {| t_ready := mret ();
     t_call req w := let '(r, w') := serve req w in (never r, w') |}.

Class TonicLaws (W : Type) `{Tonic W} : Prop := {
  grpc_ready_new t : grpc_ready (grpc_new t) = t_ready t;
  (** A unary call over a transport that hands the path to a unary method. *)
  unary_delivers {Req Res} `{!Message Req, !Message Res} config
      (handler : Req → io W Status Res) serve method path :
    (∀ req, rq_path req = path → serve req = server_unary config handler req) →
    delivers config handler (λ m, grpc_unary (grpc_new (over_wire serve)) m method path);
  unary_genuine {Req Res} `{!Message Req, !Message Res} config
      (handler : Req → io W Status Res) serve method path :
    (∀ req, rq_path req = path → serve req = server_unary config handler req) →
    genuine handler (λ m, grpc_unary (grpc_new (over_wire serve)) m method path);
}.

(** ** The parts of the generated code *)

Section generated.
Context {W : Type} `{Tonic W}.

(** *** Servers *)

(** [AggchainProofServiceServer<T>] and [PessimisticProofServiceServer<T>]. *)
Record GrpcServer (T : Type) : Type := {
  server_inner : T;
  accept_compression_encodings : EnabledCompressionEncodings;
  send_compression_encodings : EnabledCompressionEncodings;
  server_max_decoding_message_size : option Z;
  server_max_encoding_message_size : option Z;
}.

Definition from_arc {T} (inner : T) : GrpcServer T :=
  {| server_inner := inner;
     accept_compression_encodings := encodings_default;
     send_compression_encodings := encodings_default;
     server_max_decoding_message_size := None;
     server_max_encoding_message_size := None |}.

Definition server_new {T} (inner : T) : GrpcServer T := from_arc inner.

Definition accept_compressed {T} (encoding : CompressionEncoding) (self : GrpcServer T)
    : GrpcServer T :=
  {| server_inner := server_inner _ self;
     accept_compression_encodings := enable encoding (accept_compression_encodings _ self);
     send_compression_encodings := send_compression_encodings _ self;
     server_max_decoding_message_size := server_max_decoding_message_size _ self;
     server_max_encoding_message_size := server_max_encoding_message_size _ self |}.

Definition send_compressed {T} (encoding : CompressionEncoding) (self : GrpcServer T)
    : GrpcServer T :=
  {| server_inner := server_inner _ self;
     accept_compression_encodings := accept_compression_encodings _ self;
     send_compression_encodings := enable encoding (send_compression_encodings _ self);
     server_max_decoding_message_size := server_max_decoding_message_size _ self;
     server_max_encoding_message_size := server_max_encoding_message_size _ self |}.

Definition set_max_decoding_message_size {T} (limit : Z) (self : GrpcServer T) : GrpcServer T :=
  {| server_inner := server_inner _ self;
     accept_compression_encodings := accept_compression_encodings _ self;
     send_compression_encodings := send_compression_encodings _ self;
     server_max_decoding_message_size := Some limit;
     server_max_encoding_message_size := server_max_encoding_message_size _ self |}.

Definition set_max_encoding_message_size {T} (limit : Z) (self : GrpcServer T) : GrpcServer T :=
  {| server_inner := server_inner _ self;
     accept_compression_encodings := accept_compression_encodings _ self;
     send_compression_encodings := send_compression_encodings _ self;
     server_max_decoding_message_size := server_max_decoding_message_size _ self;
     server_max_encoding_message_size := Some limit |}.

(** [apply_compression_config] and [apply_max_message_size_config]. *)
Definition config_of {T} (self : GrpcServer T) : grpc_config :=
  {| gc_accept := accept_compression_encodings _ self;
     gc_send := send_compression_encodings _ self;
     gc_max_decoding_message_size := server_max_decoding_message_size _ self;
     gc_max_encoding_message_size := server_max_encoding_message_size _ self |}.

(** The answer to any other path: [Code::Unimplemented as i32] and the content type. *)
Definition unimplemented : http_response Body :=
  {| rs_headers :=
       <["content-type" := "application/grpc"]> (<["grpc-status" := "12"]> ∅);
     rs_body := empty_body |}.

(** *** Clients *)

(** [AggchainProofServiceClient<T>] and [PessimisticProofServiceClient<T>]. *)
Record GrpcClient : Type := { client_inner : Grpc }.

Definition client_new (inner : transport W Body) : GrpcClient :=
  {| client_inner := grpc_new inner |}.

Definition client_with_origin (inner : transport W Body) (origin : string) : GrpcClient :=
  {| client_inner := grpc_with_origin inner origin |}.

Definition client_with_interceptor (inner : transport W Body) (interceptor : Interceptor)
    : GrpcClient :=
  client_new (intercepted_transport inner interceptor).

Definition client_connect (dst : string) : io W string GrpcClient :=
  endpoint ← lift (endpoint_new dst);
  conn ← endpoint_connect endpoint;
  mret (client_new conn).

Definition client_send_compressed (encoding : CompressionEncoding) (self : GrpcClient)
    : GrpcClient := {| client_inner := grpc_send_compressed encoding (client_inner self) |}.
Definition client_accept_compressed (encoding : CompressionEncoding) (self : GrpcClient)
    : GrpcClient := {| client_inner := grpc_accept_compressed encoding (client_inner self) |}.
Definition client_max_decoding_message_size (limit : Z) (self : GrpcClient) : GrpcClient :=
  {| client_inner := grpc_max_decoding_message_size limit (client_inner self) |}.
Definition client_max_encoding_message_size (limit : Z) (self : GrpcClient) : GrpcClient :=
  {| client_inner := grpc_max_encoding_message_size limit (client_inner self) |}.

(** [Status::unknown]. *)
Definition status_unknown (msg : string) : Status :=
  {| status_code := CodeUnknown; status_message := msg; status_details := NoDetails |}.

(** [self.inner.ready().await.map_err(..)?]. *)
Definition client_ready (self : GrpcClient) : io W Status () :=
  io_map_err (λ e, status_unknown ("Service was not ready: " +:+ e))
    (grpc_ready (client_inner self)).

(** A client that is not ready sends nothing. *)
Lemma client_not_ready {A} (self : GrpcClient) (rest : io W Status A) w e w' :
  grpc_ready (client_inner self) w = (Err e, w') →
  (client_ready self ≫= λ _, rest) w =
    (Err (status_unknown ("Service was not ready: " +:+ e)), w').
Proof. intros He. unfold client_ready, io_map_err, mbind, io_bind. by rewrite He. Qed.

(** A server is always ready. *)
Lemma client_ready_over_wire `{!TonicLaws W} {A} serve (rest : io W Status A) w :
  (client_ready (client_new (over_wire serve)) ≫= λ _, rest) w = rest w.
Proof.
  unfold client_ready, io_map_err, mbind, io_bind. simpl.
  by rewrite grpc_ready_new.
Qed.

(** A client method whose path a server hands to a handler is that handler. *)
Lemma method_delivers `{!TonicLaws W} {Req Res} `{!Message Req, !Message Res} config
    (handler : Req → io W Status Res) serve method path :
  (∀ req, rq_path req = path → serve req = server_unary config handler req) →
  let rpc m :=
    client_ready (client_new (over_wire serve)) ≫= λ _,
      grpc_unary (client_inner (client_new (over_wire serve))) m method path in
  delivers config handler rpc ∧ genuine handler rpc.
Proof.
  intros Hserve rpc. subst rpc. split.
  - intros m w Hm. rewrite client_ready_over_wire. by apply unary_delivers.
  - intros m res w w' Hm. rewrite client_ready_over_wire. by eapply unary_genuine.
Qed.
End generated.

Arguments server_inner {_ _} _.
Arguments accept_compression_encodings {_ _} _.
Arguments send_compression_encodings {_ _} _.
Arguments server_max_decoding_message_size {_ _} _.
Arguments server_max_encoding_message_size {_ _} _.

(** ** A sample runtime *)

Module ToyTonic.

(** A body is a message on its way, or the answer to it. *)
Inductive toy_body : Type := Sent (bs : bytes) | Answered (answer : Status + bytes) | Empty.

Definition status_of (code : Code) (msg : string) : Status :=
  {| status_code := code; status_message := msg; status_details := NoDetails |}.

#[export] Instance encodings : Encodings := {|
  EnabledCompressionEncodings := list CompressionEncoding;
  encodings_default := [];
  enable encoding l := l ++ [encoding];
|}.

Definition answer (a : Status + bytes) : http_response toy_body :=
  {| rs_headers := ∅; rs_body := Answered a |}.

Section unary.
Context {W Req Res : Type} `{!Message Req, !Message Res}.

Definition toy_server_unary (config : grpc_config) (handler : Req → io W Status Res)
    (req : http_request toy_body) : io W Empty_set (http_response toy_body) := λ w,
  match rq_body req with
  | Sent bs =>
      if Z.of_nat (length bs) <=? decoding_limit config then
        match decode bs with
        | None => (Ok (answer (inl (status_of CodeInternal "decode"))), w)
        | Some m =>
            match handler m w with
            | (Ok res, w') =>
                (Ok (answer (if encoded_len res <=? encoding_limit config
                             then inr (encode_to_vec res)
                             else inl (status_of CodeOutOfRange "encode"))), w')
            | (Err status, w') => (Ok (answer (inl status)), w')
            | (Panic p, w') => (Panic p, w')
            end
        end
      else (Ok (answer (inl (status_of CodeOutOfRange "message too large"))), w)
  | _ => (Ok (answer (inl (status_of CodeInternal "body"))), w)
  end.

Definition toy_grpc_unary (t : transport W toy_body) (m : Req) (method : GrpcMethod)
    (path : string) : io W Status Res := λ w,
  match t_call t {| rq_path := path; rq_body := Sent (encode_to_vec m) |} w with
  | (Ok response, w') =>
      match rs_body response with
      | Answered (inr bs) =>
          if Z.of_nat (length bs) <=? DEFAULT_MAX_RECV_MESSAGE_SIZE then
            (ok_or (status_of CodeInternal "decode") (decode bs), w')
          else (Err (status_of CodeOutOfRange "message too large"), w')
      | Answered (inl status) =>
          (Err (if decide (status_code status = CodeOk) then status_of CodeUnknown "no message"
                else status), w')
      | _ => (Err (status_of CodeUnimplemented "no answer"), w')
      end
  | (Err e, w') => (Err (status_of CodeUnknown e), w')
  | (Panic _, w') => (Err (status_of CodeUnavailable "connection closed"), w')
  end.

Context (config : grpc_config) (handler : Req → io W Status Res).
Context (serve : http_request toy_body → io W Empty_set (http_response toy_body)).
Context (method : GrpcMethod) (path : string).
Hypothesis Hserve : ∀ req, rq_path req = path → serve req = toy_server_unary config handler req.

Lemma toy_delivers :
  delivers config handler (λ m, toy_grpc_unary (over_wire serve) m method path).
Proof.
  intros m w Hm. unfold toy_grpc_unary, over_wire, t_call. rewrite Hserve by done.
  unfold toy_server_unary, rq_body. fold (encoded_len m).
  destruct (encoded_len m <=? decoding_limit config).
  - rewrite Hm. destruct (handler m w) as [[res|status|p] w']; [| |done].
    + intros Hr He%Z.leb_le Hd%Z.leb_le. rewrite He. simpl. fold (encoded_len res).
      by rewrite Hd, Hr.
    + intros Hc. simpl. by rewrite decide_False.
  - by exists (status_of CodeOutOfRange "message too large").
Qed.

Lemma toy_genuine : genuine handler (λ m, toy_grpc_unary (over_wire serve) m method path).
Proof.
  intros m res w w' Hm. unfold toy_grpc_unary, over_wire, t_call. rewrite Hserve by done.
  unfold toy_server_unary, rq_body. fold (encoded_len m).
  destruct (encoded_len m <=? decoding_limit config); [|done].
  rewrite Hm. destruct (handler m w) as [[sent|status|p] w1]; [|done..]. simpl.
  destruct (encoded_len sent <=? encoding_limit config); simpl; [|done].
  destruct (_ <=? DEFAULT_MAX_RECV_MESSAGE_SIZE); [|done].
  destruct (decode (encode_to_vec sent)) as [r|] eqn:Hd; [|done].
  intros [= <- <-]. by exists sent.
Qed.
End unary.

#[export] Instance tonic {W} : Tonic W := {|
  Body := toy_body;
  empty_body := Empty;
  server_unary _ _ _ _ := toy_server_unary;
  Grpc := transport W toy_body;
  grpc_new t := t;
  grpc_with_origin t _ := t;
  grpc_send_compressed _ t := t;
  grpc_accept_compressed _ t := t;
  grpc_max_decoding_message_size _ t := t;
  grpc_max_encoding_message_size _ t := t;
  grpc_ready t := t_ready t;
  grpc_unary _ _ _ _ := toy_grpc_unary;
  Endpoint := string;
  endpoint_new dst := Ok dst;
  endpoint_connect dst := throw (dst +:+ ": connection refused");
  Interceptor := ();
  intercepted_transport t _ := t;
  intercepted_service _ s _ := s;
|}.

#[export] Instance tonic_laws {W} : TonicLaws W.
Proof.
  split; [done|..]; intros Req Res ? ? config handler serve method path Hserve.
  - by apply toy_delivers.
  - exact (toy_genuine config handler serve method path Hserve).
Qed.
End ToyTonic.
