(* ===== verification/AggkitRpc.v ===== *)
(** The gRPC front of the aggkit prover: [crates/aggkit-prover/src/rpc.rs].

    Two handlers turn a request message into a call of the aggchain proof service and
    its response into a message.  The service sits behind a buffer, shared by the clones
    each handler makes of it. *)

From S2P Require Import Prelude Bytes Panics Interop Abi StaticCall FilterValues Bridge Fep AggchainProof ProofInputs Config Executor Contracts Vkey Builder Proposer Service Conversion Rpc.

Definition MAX_CONCURRENT_REQUESTS : Z := 100.

(** ** Messages and encodings of the libraries *)

(** [agglayer_interop::grpc::v1::{AggchainProof, Sp1StarkProof}]; a digest becomes the
    message of its bytes. *)
Record Sp1StarkProof : Type := { stark_version : string; stark_proof : bytes; stark_vkey : bytes }.

Record AggchainProofMessage : Type := {
  ap_aggchain_params : option FixedBytes;
  ap_signature : option FixedBytes;
  ap_context : gmap string bytes;
  ap_proof : option Sp1StarkProof;
}.

Definition digest_into (d : Digest) : FixedBytes := {| value := vec_to_list d |}.

Class RpcDeps := {
  (** [sp1_sdk::SP1_CIRCUIT_VERSION]. *)
  SP1_CIRCUIT_VERSION : string;
  (** [bincode::sp1v4().serialize(&public_values)]. *)
  serialize_public_values : AggchainProofPublicValues → outcome string bytes;
}.

Record GenerateAggchainProofResponse : Type := {
  gr_aggchain_proof : option AggchainProofMessage;
  gr_last_proven_block : Z;
  gr_end_block : Z;
  gr_local_exit_root_hash : option FixedBytes;
  gr_custom_chain_data : bytes;
}.

Record GenerateOptimisticAggchainProofResponse : Type := {
  or_aggchain_proof : option AggchainProofMessage;
  or_local_exit_root_hash : option FixedBytes;
  or_custom_chain_data : bytes;
}.

Definition ascii_bytes (s : string) : bytes := String.list_byte_of_string s.

(** ** The handlers *)

Section rpc.
Context {W : Type} `{!P3Fields, !Ecdsa, !UnifiedBridge, !Hashing, !SolAbi, !GlobalIndices,
  !UnspecifiedOrders, !EvmClient, !Urls, !Node W, !HostExecutor W, !Sp1Sdk W, !Sp1Proofs W,
  !Tokio W, !TowerLayers W, !BuilderDeps W, !VKeyHashes W, !ProposerElfs W,
  !ProposerGrpc W, !AggregationSdk W, !ProposerDeps (W:=W), !InteropGrpc, !RpcDeps}.

Abbreviation ServiceError := (ServiceError (W:=W)).

Record GrpcService : Type := {
  grpc_service :
    service W AggchainProofServiceRequest AggchainProofServiceResponse (BoxError ServiceError);
}.

Implicit Types self : GrpcService.

(** [BoxError::to_string]. *)
Definition box_error_display (e : BoxError ServiceError) : string :=
  match e with
  | Boxed e => service_error_display e
  | BoxedOther text => text
  end.

Definition fallback_public_values : bytes := ascii_bytes "bincode serialization failed".

(** The three values the response adds to the context. *)
Definition insert_response (context : gmap string bytes) (public_values : bytes)
    (response : AggchainProofServiceResponse) : gmap string bytes :=
  let context := <["public_values" := public_values]> context in
  let context := <["local_exit_root_hash" := vec_to_list (sr_local_exit_root_hash response)]>
                   context in
  <["end_block" := be_bytes 8 (sr_end_block response)]> context.

Definition aggchain_proof_message (context : gmap string bytes)
    (response : AggchainProofServiceResponse) : AggchainProofMessage :=
  {| ap_aggchain_params := Some (digest_into (sr_aggchain_params response));
     ap_signature := None;
     ap_context := context;
     ap_proof := Some {| stark_version := SP1_CIRCUIT_VERSION;
                         stark_proof := sr_proof response;
                         stark_vkey := sr_vkey response |} |}.

(** [service.ready().await.map_err(..)?] and the call, whose error becomes a status. *)
Definition call_service self (proof_request : AggchainProofServiceRequest)
    : io W Status AggchainProofServiceResponse :=
  _ ← io_map_err (λ _, status_internal "Unable to use the aggchain proof service")
    (ready (grpc_service self));
  io_map_err (λ error, status_internal (box_error_display error))
    (call (grpc_service self) proof_request).

Definition range_violation (msg : string) : Status :=
  invalid_field msg "requested_end_block"
    "requested_end_block must be greater than last_proven_block".

Definition generate_aggchain_proof self (request : GenerateAggchainProofRequest)
    : io W Status GenerateAggchainProofResponse :=
  if decide (gm_requested_end_block request <= gm_last_proven_block request) then
    throw (range_violation "Invalid GenerateAggchainProof request argument(s)")
  else
    aggchain_proof_inputs ← lift (map_err (λ error,
        invalid_field "Invalid GenerateAggchainProof request data" (field_path error)
          (request_error_display error))
      (aggchain_proof_inputs_try_from request));
    let context := context aggchain_proof_inputs in
    response ← call_service self (Normal aggchain_proof_inputs);
    public_values ← lift
      match serialize_public_values (sr_public_values response) with
      | Ok public_values => Ok public_values
      | Err _ => Ok fallback_public_values
      | Panic p => Panic p
      end;
    let context := insert_response context public_values response in
    mret {| gr_aggchain_proof := Some (aggchain_proof_message context response);
            gr_last_proven_block := sr_last_proven_block response;
            gr_end_block := sr_end_block response;
            gr_local_exit_root_hash := Some (digest_into (sr_local_exit_root_hash response));
            gr_custom_chain_data := sr_custom_chain_data response |}.

Definition generate_optimistic_aggchain_proof self
    (request : GenerateOptimisticAggchainProofRequest)
    : io W Status GenerateOptimisticAggchainProofResponse :=
  inputs ← lift (map_err (λ error,
      invalid_field "Invalid GenerateOptimisticAggchainProof request data" (field_path error)
        (request_error_display error))
    (optimistic_aggchain_proof_inputs_try_from request));
  if decide (requested_end_block (aggchain_proof_inputs inputs) <=
             last_proven_block (aggchain_proof_inputs inputs)) then
    throw (range_violation "Invalid GenerateOptimisticAggchainProof request argument(s)")
  else
    let context := optimistic_context inputs in
    response ← call_service self (Optimistic inputs);
    public_values ← lift
      (Ok match sp1_fast (serialize_public_values (sr_public_values response)) with
          | Ok (inr public_values) => public_values
          | Ok (inl _) => fallback_public_values
          | _ => fallback_public_values
          end);
    let context := insert_response context public_values response in
    mret {| or_aggchain_proof := Some (aggchain_proof_message context response);
            or_local_exit_root_hash := Some (digest_into (sr_local_exit_root_hash response));
            or_custom_chain_data := sr_custom_chain_data response |}.

(** ** Construction *)

Variables (program_version : Z) (overflow_checks info_enabled debug_assertions : bool).
Variable client_error_text : ProposerClientError W → string.

(** The aggchain proof service as a tower service. *)
Definition proof_service (self : AggchainProofService (W:=W))
    : service W AggchainProofServiceRequest AggchainProofServiceResponse ServiceError :=
  {| poll_ready := service_poll_ready self;
     ready :=
       _ ← io_map_err ProposerServiceError (ready (as_proposer_service self));
       io_map_err AggchainProofBuilderPollReadyFailed (ready (as_aggchain_proof_builder self));
     call := service_call program_version self |}.

Definition grpc_service_new (env : Env) (erigon_elf aggchain_proof_elf : bytes)
    (config : AggchainProofServiceConfig (W:=W)) : io W ServiceError GrpcService :=
  service ← service_new overflow_checks info_enabled debug_assertions client_error_text env
              erigon_elf aggchain_proof_elf config;
  mret {| grpc_service := buffer (proof_service service) MAX_CONCURRENT_REQUESTS |}.
End rpc.

(** ** Properties *)

Section properties.
Context {W : Type} `{!P3Fields, !Ecdsa, !UnifiedBridge, !Hashing, !SolAbi, !GlobalIndices}
  {orders : UnspecifiedOrders} `{!UnspecifiedOrdersLaws orders}
  `{!EvmClient, !Urls, !Node W, !HostExecutor W, !Sp1Sdk W, !Sp1Proofs W,
  !Tokio W, !TowerLayers W, !BuilderDeps W, !VKeyHashes W, !ProposerElfs W,
  !ProposerGrpc W, !AggregationSdk W, !ProposerDeps (W:=W), !InteropGrpc, !RpcDeps}.
Implicit Types self : GrpcService (W:=W).

(** A status that blames one field of the request. *)
Definition blames (status : Status) (field : string) : Prop :=
  status_code status = CodeInvalidArgument ∧
  ∃ description, status_details status =
    BadRequest [{| violation_field := field; violation_description := description |}].

(** C28: a request whose block range is empty, or that does not convert, is answered with
    InvalidArgument and one violation, without touching the service: the violation is
    about the end block in the first case, about the first invalid field in the second. *)
Theorem rpc_rejects_invalid self request w :
  gm_requested_end_block request <= gm_last_proven_block request ∨
    (∃ e, aggchain_proof_inputs_try_from request = Err e) →
  ∃ status, generate_aggchain_proof self request w = (Err status, w) ∧
    if decide (gm_requested_end_block request <= gm_last_proven_block request) then
      blames status "requested_end_block"
    else
      ∃ n field, request_fields !! n = Some field ∧
        Forall (field_valid request) (take n request_fields) ∧
        ¬ field_valid request field ∧ blames status field.
Proof.
  intros Hbad. unfold generate_aggchain_proof. case_decide as Hr.
  { eexists. split; [reflexivity|]. split; [done|]. by eexists. }
  destruct Hbad as [?|[e He]]; [done|]. rewrite He. eexists. split; [reflexivity|].
  apply request_error_field in He as (n & Hn & Hpre & Hv). exists n, (field_path e).
  split_and!; [done..|]. split; [done|]. by eexists.
Qed.

(** The optimistic endpoint rejects in the same way: InvalidArgument and one
    violation, without touching the service. *)
Theorem rpc_optimistic_rejects_invalid self request w :
  match optimistic_aggchain_proof_inputs_try_from request with
  | Ok inputs => requested_end_block (aggchain_proof_inputs inputs) <=
                 last_proven_block (aggchain_proof_inputs inputs)
  | Err _ => True
  | Panic _ => False
  end →
  ∃ status field, generate_optimistic_aggchain_proof self request w = (Err status, w) ∧
    blames status field ∧
    field ∈ ["optimistic_mode_signature"; "aggchain_proof_request"; "requested_end_block"].
Proof.
  intros Hbad. unfold generate_optimistic_aggchain_proof.
  destruct (optimistic_aggchain_proof_inputs_try_from request) as [inputs|e|] eqn:He; [| |done].
  - rewrite (io_bind_eq_ok _ _ _ inputs w) by done. rewrite decide_True by done.
    eexists _, _. split; [reflexivity|]. split; [split; [done|by eexists]|set_solver].
  - eexists _, (field_path e). split; [reflexivity|].
    split; [split; [done|by eexists]|]. unfold optimistic_aggchain_proof_inputs_try_from in He.
    apply outcome_bind_err in He as [[_ ->]%ok_or_err|(? & _ & He)]; [simpl; set_solver|].
    apply outcome_bind_err in He as [(? & _ & ->)%map_err_err|(? & _ & He)];
      [simpl; set_solver|].
    apply outcome_bind_err in He as [[_ ->]%ok_or_err|(? & _ & He)]; [simpl; set_solver|].
    apply outcome_bind_err in He as [(? & _ & ->)%map_err_err|(? & _ & [=])].
    simpl; set_solver.
Qed.

(** What the service's response becomes in the context of the message. *)
Lemma insert_response_lookup (c : gmap string bytes) pv res k :
  insert_response c pv res !! k =
    if decide (k = "end_block") then Some (be_bytes 8 (sr_end_block res) : bytes)
    else if decide (k = "local_exit_root_hash") then
      Some (vec_to_list (sr_local_exit_root_hash res))
    else if decide (k = "public_values") then Some pv
    else c !! k.
Proof.
  unfold insert_response. repeat case_decide; subst; simplify_map_eq; done.
Qed.

Lemma insert_response_keeps inputs pv res k v :
  context inputs !! k = Some v → insert_response (context inputs) pv res !! k = Some v.
Proof.
  intros Hk. rewrite insert_response_lookup.
  repeat case_decide; subst; try done;
    by rewrite context_fresh in Hk by (done || by apply (bool_decide_unpack _)).
Qed.

Lemma call_service_ok self req w res w' :
  call_service self req w = (Ok res, w') →
  ∃ w1, ready (grpc_service self) w = (Ok (), w1) ∧
        call (grpc_service self) req w1 = (Ok res, w').
Proof.
  intros Hc. io_step Hc as u w1 Hu. destruct u. exists w1.
  by apply io_map_err_ok in Hu, Hc.
Qed.

(** The public values in the context: serialized, or the fallback text. *)
Definition public_values_bytes (pv : AggchainProofPublicValues) (bs : bytes) : Prop :=
  serialize_public_values pv = Ok bs ∨
  (is_ok (serialize_public_values pv) = false ∧ bs = fallback_public_values).

Lemma generate_inv self request w resp w' :
  generate_aggchain_proof self request w = (Ok resp, w') →
  gm_last_proven_block request < gm_requested_end_block request ∧
  ∃ inputs res bs w1,
    request_converts request inputs ∧
    ready (grpc_service self) w = (Ok (), w1) ∧
    call (grpc_service self) (Normal inputs) w1 = (Ok res, w') ∧
    public_values_bytes (sr_public_values res) bs ∧
    resp = {| gr_aggchain_proof :=
                Some (aggchain_proof_message (insert_response (context inputs) bs res) res);
              gr_last_proven_block := sr_last_proven_block res;
              gr_end_block := sr_end_block res;
              gr_local_exit_root_hash := Some (digest_into (sr_local_exit_root_hash res));
              gr_custom_chain_data := sr_custom_chain_data res |}.
Proof.
  unfold generate_aggchain_proof. intros Hg. case_decide as Hr; [discriminate Hg|].
  split; [lia|]. io_step Hg as inputs w1 Hi. apply lift_ok in Hi as [Hi%map_err_ok ->].
  apply request_converts_ok in Hi. io_step Hg as res w2 Hc.
  apply call_service_ok in Hc as (w3 & Hready & Hcall).
  io_step Hg as bs w4 Hb. apply lift_ok in Hb as [Hb ->]. injection Hg as <- <-.
  exists inputs, res, bs, w3. split_and!; [done..| |done]. unfold public_values_bytes.
  destruct (serialize_public_values _); simplify_eq; auto.
Qed.

Lemma generate_optimistic_inv self request w resp w' :
  generate_optimistic_aggchain_proof self request w = (Ok resp, w') →
  ∃ inputs res bs w1,
    optimistic_aggchain_proof_inputs_try_from request = Ok inputs ∧
    last_proven_block (aggchain_proof_inputs inputs) <
      requested_end_block (aggchain_proof_inputs inputs) ∧
    ready (grpc_service self) w = (Ok (), w1) ∧
    call (grpc_service self) (Optimistic inputs) w1 = (Ok res, w') ∧
    public_values_bytes (sr_public_values res) bs ∧
    resp = {| or_aggchain_proof :=
                Some (aggchain_proof_message
                        (insert_response (optimistic_context inputs) bs res) res);
              or_local_exit_root_hash := Some (digest_into (sr_local_exit_root_hash res));
              or_custom_chain_data := sr_custom_chain_data res |}.
Proof.
  unfold generate_optimistic_aggchain_proof. intros Hg.
  io_step Hg as inputs w1 Hi. apply lift_ok in Hi as [Hi%map_err_ok ->].
  case_decide as Hr; [discriminate Hg|]. io_step Hg as res w2 Hc.
  apply call_service_ok in Hc as (w3 & Hready & Hcall).
  io_step Hg as bs w4 Hb. apply lift_ok in Hb as [[= Hb] ->]. injection Hg as <- <-.
  exists inputs, res, bs, w3. split_and!; [done|lia|done..| |done].
  unfold public_values_bytes. subst bs.
  destruct (serialize_public_values _); simpl; auto.
Qed.

(** C27: a response means that the block range was not empty, that the whole request
    converted, and that the service, once ready, answered for exactly these inputs; the
    message carries the service's proof, key, params, blocks, exit root and custom chain
    data, and a context in which every entry of the request's context is still there
    next to the public values, the exit root and the end block. *)
Theorem rpc_response_ok self request w resp w' :
  generate_aggchain_proof self request w = (Ok resp, w') →
  gm_last_proven_block request < gm_requested_end_block request ∧
  ∃ inputs res w1 msg,
    request_converts request inputs ∧
    ready (grpc_service self) w = (Ok (), w1) ∧
    call (grpc_service self) (Normal inputs) w1 = (Ok res, w') ∧
    gr_last_proven_block resp = sr_last_proven_block res ∧
    gr_end_block resp = sr_end_block res ∧
    gr_custom_chain_data resp = sr_custom_chain_data res ∧
    gr_local_exit_root_hash resp = Some (digest_into (sr_local_exit_root_hash res)) ∧
    gr_aggchain_proof resp = Some msg ∧
    ap_aggchain_params msg = Some (digest_into (sr_aggchain_params res)) ∧
    ap_signature msg = None ∧
    ap_proof msg = Some {| stark_version := SP1_CIRCUIT_VERSION; stark_proof := sr_proof res;
                           stark_vkey := sr_vkey res |} ∧
    (∀ k v, context inputs !! k = Some v → ap_context msg !! k = Some v) ∧
    (∃ bs, public_values_bytes (sr_public_values res) bs ∧
           ap_context msg !! "public_values" = Some bs) ∧
    ap_context msg !! "local_exit_root_hash" =
      Some (vec_to_list (sr_local_exit_root_hash res)) ∧
    ap_context msg !! "end_block" = Some (be_bytes 8 (sr_end_block res) : bytes).
Proof.
  intros (Hr & inputs & res & bs & w1 & Hi & Hready & Hc & Hbs & ->)%generate_inv.
  split; [done|]. eexists inputs, res, w1, _.
  split_and!; try done; simpl.
  - intros k v. apply insert_response_keeps.
  - exists bs. by rewrite insert_response_lookup.
  - by rewrite insert_response_lookup.
  - by rewrite insert_response_lookup.
Qed.

Context `{!TokioLaws (W:=W), !TowerLayersLaws W, !BuilderDepsLaws W}.
Variables (program_version : Z) (overflow_checks info_enabled debug_assertions : bool).
Variable client_error_text : ProposerClientError W → string.

Abbreviation grpc_service_new :=
  (grpc_service_new program_version overflow_checks info_enabled debug_assertions
     client_error_text).

(** The message of either endpoint. *)
Definition responds self (w : W) (msg : AggchainProofMessage) (w' : W) : Prop :=
  (∃ request resp, generate_aggchain_proof self request w = (Ok resp, w') ∧
     gr_aggchain_proof resp = Some msg) ∨
  (∃ request resp, generate_optimistic_aggchain_proof self request w = (Ok resp, w') ∧
     or_aggchain_proof resp = Some msg).

Lemma rpc_message_verified env erigon_elf elf config w0 self w1 w msg w' :
  grpc_service_new env erigon_elf elf config w0 = (Ok self, w1) →
  responds self w msg w' →
  ∃ p pv bs, verified elf p ∧
    deserialize_public_values (proof_public_values p) = Ok pv ∧
    ap_aggchain_params msg = Some (digest_into (apv_aggchain_params pv)) ∧
    ap_context msg !! "local_exit_root_hash" =
      Some (vec_to_list (apv_new_local_exit_root pv)) ∧
    ap_context msg !! "public_values" = Some bs ∧ public_values_bytes pv bs.
Proof.
  intros Hn Hm. unfold AggkitRpc.grpc_service_new in Hn. io_step Hn as s w2 Hs.
  injection Hn as <- _.
  assert (∃ req res bs c w3 w4, service_call program_version s req w3 = (Ok res, w4) ∧
            public_values_bytes (sr_public_values res) bs ∧
            msg = aggchain_proof_message (insert_response c bs res) res)
    as (req & res & bs & c & w3 & w4 & Hc & Hb & ->).
  { destruct Hm as [(request & resp & Hg & Hmsg)|(request & resp & Hg & Hmsg)].
    - apply generate_inv in Hg as (_ & inputs & res & bs & w3 & _ & _ & Hc & Hb & ->).
      apply buffer_ok in Hc as (w4 & w5 & Hc). apply (inj Some) in Hmsg as <-.
      do 6 eexists. split_and!; [exact Hc|exact Hb|reflexivity].
    - apply generate_optimistic_inv in Hg as (inputs & res & bs & w3 & _ & _ & _ & Hc & Hb & ->).
      apply buffer_ok in Hc as (w4 & w5 & Hc). apply (inj Some) in Hmsg as <-.
      do 6 eexists. split_and!; [exact Hc|exact Hb|reflexivity]. }
  destruct (service_response_verified _ _ _ _ _ _ _ _ _ _ _ _ _ _ _ _ Hs Hc)
    as (p & Hv & Hd & Hparams & Hler).
  exists p, (sr_public_values res), bs.
  split_and!; simpl; [done|done| | | |done].
  - by rewrite Hparams.
  - by rewrite insert_response_lookup, Hler.
  - by rewrite insert_response_lookup.
Qed.

(** End to end, for both endpoints: a proof message sent by the server of a program
    comes from a proof of that program which the SDK's verifier accepted; the params of
    the message are those the proof's public values commit to, and those public values
    are the ones in the context. *)
Theorem rpc_proof_verified env erigon_elf elf config w0 self w1 w msg w' :
  grpc_service_new env erigon_elf elf config w0 = (Ok self, w1) →
  responds self w msg w' →
  ∃ p pv bs, verified elf p ∧
    deserialize_public_values (proof_public_values p) = Ok pv ∧
    ap_aggchain_params msg = Some (digest_into (apv_aggchain_params pv)) ∧
    ap_context msg !! "local_exit_root_hash" =
      Some (vec_to_list (apv_new_local_exit_root pv)) ∧
    ap_context msg !! "public_values" = Some bs ∧ public_values_bytes pv bs.
Proof. exact (rpc_message_verified env erigon_elf elf config w0 self w1 w msg w'). Qed.
End properties.

(** ** A concrete server *)

Module RpcSample.
Import Toy ToyAbi ToyEvm ToyOrders ToyNode ConfigSample BuilderSample ServiceSample
  ConversionSample.
Import (hints) ToyProposer.

#[export] Instance rpc_deps : RpcDeps := {|
  SP1_CIRCUIT_VERSION := "v5.0.0";
  serialize_public_values pv :=
    if decide (apv_origin_network pv = 0) then Err "network 0"
    else Ok (be_bytes 4 (apv_origin_network pv) : bytes);
|}.

(** A service that answers every request alike. *)
Definition answer : AggchainProofServiceResponse := {|
  sr_proof := [x01];
  sr_aggchain_params := be_array 32 5;
  sr_vkey := [x02];
  sr_last_proven_block := 50;
  sr_end_block := 58;
  sr_local_exit_root_hash := be_array 32 6;
  sr_custom_chain_data := [x03];
  sr_public_values := {|
    apv_prev_local_exit_root := be_array 32 4;
    apv_new_local_exit_root := be_array 32 6;
    apv_l1_info_root := be_array 32 7;
    apv_origin_network := 3;
    apv_commit_imported_bridge_exits := be_array 32 8;
    apv_aggchain_params := be_array 32 5 |} |}.

Definition echo : GrpcService (W:=world) :=
  {| grpc_service :=
       {| poll_ready w := (Ready (Ok ()), w); ready := mret (); call _ := mret answer |} |}.

Lemma rpc_rejects_invalid_witness :
  (∃ status, generate_aggchain_proof echo bad_message [] = (Err status, []) ∧
             blames status "l1_info_tree_leaf").
Proof.
  destruct (rpc_rejects_invalid echo bad_message []) as (status & Hs & Hb).
  { right. exists (InvalidL1InfoTreeLeaf "l1_info_tree_leaf" (ReportMsg "leaf")). reflexivity. }
  exists status. split; [exact Hs|]. vm_compute in Hs. injection Hs as <-.
  split; [reflexivity|]. eexists. reflexivity.
Defined.

Definition optimistic_message : GenerateOptimisticAggchainProofRequest :=
  {| om_aggchain_proof_request := Some message;
     om_optimistic_mode_signature := Some {| value := be_bytes 20 51 |} |}.

Lemma rpc_optimistic_rejects_invalid_witness :
  ∃ status, generate_optimistic_aggchain_proof echo
              {| om_aggchain_proof_request := Some bad_message;
                 om_optimistic_mode_signature := Some {| value := [] |} |} [] = (Err status, []) ∧
            status_code status = CodeInvalidArgument.
Proof.
  edestruct (rpc_optimistic_rejects_invalid echo) as (status & field & Hs & [Hc _] & _);
    [|exists status; split; [exact Hs|exact Hc]].
  exact I.
Defined.

Definition rpc_response : option GenerateAggchainProofResponse :=
  sketch_of (generate_aggchain_proof echo message []).

Example rpc_response_some : is_some rpc_response = true.
Proof. vm_compute. reflexivity. Qed.

Lemma rpc_response_ok_witness :
  ∃ resp, rpc_response = Some resp ∧ gr_end_block resp = 58.
Proof.
  pose proof rpc_response_some as Hs. destruct rpc_response as [resp|] eqn:Hr; [|discriminate Hs].
  exists resp. split; [reflexivity|]. apply sketch_of_ok in Hr as [w' Hr].
  destruct (rpc_response_ok echo message [] resp w' Hr)
    as (_ & inputs & res & w1 & msg & _ & _ & Hc & _ & He & _).
  injection Hc as <- _. exact He.
Defined.

(** The whole stack, behind the optimistic endpoint. *)
Definition the_server : option (GrpcService (W:=world)) :=
  sketch_of (grpc_service_new 7 true true true (λ _, "") (λ _, Some "key") [x00] [x00; x01]
               service_config []).

Definition optimistic_response : option GenerateOptimisticAggchainProofResponse :=
  s ← the_server; sketch_of (generate_optimistic_aggchain_proof s optimistic_message []).

Example optimistic_response_some : is_some optimistic_response = true.
Proof. vm_compute. reflexivity. Qed.

Lemma rpc_proof_verified_witness :
  ∃ resp msg (p : toy_proof),
    optimistic_response = Some resp ∧ or_aggchain_proof resp = Some msg ∧
    verified (W:=world) [x00; x01] p.
Proof.
  pose proof optimistic_response_some as Hs.
  destruct optimistic_response as [resp|] eqn:Hr; [|discriminate Hs].
  unfold optimistic_response in Hr. destruct the_server as [s|] eqn:Hn; [|discriminate Hr].
  apply sketch_of_ok in Hr as [w' Hr]. apply sketch_of_ok in Hn as [w1 Hn].
  pose proof (generate_optimistic_inv s optimistic_message [] resp w' Hr)
    as (inputs & res & bs & w2 & _ & _ & _ & _ & _ & Hresp).
  destruct (or_aggchain_proof resp) as [msg|] eqn:Hmsg; [|by rewrite Hresp in Hmsg].
  destruct (rpc_proof_verified 7 true true true (λ _, "") (λ _, Some "key") [x00] [x00; x01]
              service_config [] s w1 [] msg w' Hn) as (p & pv & bs' & Hv & _).
  { right. exists optimistic_message, resp. split; [exact Hr|exact Hmsg]. }
  exists resp, msg, p. split; [reflexivity|]. split; [exact Hmsg|exact Hv].
Defined.
End RpcSample.
