(* ===== verification/Truthful.v ===== *)
(** What an answer of the aggkit prover says about its request.

    [GuestRuns] tells when the guest accepts the witness that the builder made for a request.
    Here this is carried through the executor, the builder
    ([crates/aggchain-proof-builder/src/lib.rs]), the service
    ([crates/aggchain-proof-service/src/service.rs]) and the handlers
    ([crates/aggkit-prover/src/rpc.rs]): a request that gets an answer is true. *)

From S2P Require Import Prelude Bytes Panics Interop Abi StaticCall FilterValues Bridge Fep AggchainProof Binding ProofInputs Config Executor Contracts Vkey Builder Runs Proposer Service GuestRuns Conversion Rpc AggkitRpc.

Section truthful.
Context {W G : Type} `{!P3Fields, !Ecdsa, !UnifiedBridge, !Hashing, !SolAbi, !GlobalIndices}
  {orders : UnspecifiedOrders} `{!UnspecifiedOrdersLaws orders}
  `{!EvmClient, !Urls, !Node W, !HostExecutor W, !Sp1Sdk W, !Sp1Proofs W, !Tokio W,
  !TowerLayers W, !BuilderDeps W, !VKeyHashes W, !ProposerElfs W, !ProposerGrpc W,
  !AggregationSdk W, !ProposerDeps (W:=W), !InteropGrpc, !RpcDeps}.
Context `{!TokioLaws (W:=W), !TowerLayersLaws W, !BuilderDepsLaws W}.
Context `{!ZkvmIo G, !GuestRuns W G, !GuestRunsLaws W G}.
Variables (elf : bytes).
Context `{!RunsSound W elf (guest_commits (G:=G))}.
Variables (overflow_checks info_enabled : bool).

(** ** The builder *)

(** The data [d] that the contracts answered make the request true: it describes what
    happened on L2 in its range, its execution is attested, and [params] are the packed
    aggchain params. *)
Record vouched (b : AggchainProofBuilder) (request : AggchainProofBuilderRequest)
    (d : chain_data) (params : Digest) : Prop := {
  vouched_range : range_described request (bd_static_call_caller_address b) d;
  vouched_execution : ∃ stdin, execution_attested (G:=G) request d stdin;
  vouched_params : aggchain_params (E:=ProofError) (cd_fep d) = Ok params;
}.

(** A response of a builder was made from data that make its request true. *)
Lemma builder_response_true config cc w0 b w1 request w res w' :
  builder_new elf config cc w0 = (Ok b, w1) →
  in_width 32 (network_id b) →
  builder_call overflow_checks info_enabled b request w = (Ok res, w') →
  ∃ d params,
    gathered overflow_checks (contracts_client b) request (aggregation_vkey b)
      (bd_range_vkey_commitment b) d ∧
    vouched b request d params ∧
    res_public_values res = built_values request (network_id b) d params ∧
    res_aggchain_params res = params ∧ res_new_local_exit_root res = cd_new_ler d.
Proof.
  intros Hn Hnid Hc.
  destruct (builder_response_proved _ _ _ _ _ _ _ _ _ _ _ _ Hn Hc)
    as (inputs & w2 & p & stark & Hr & Hp & Hpv & _).
  apply builder_call_inv in Hc as (_ & _ & Hparams & Hler & _).
  apply (proved_on_commits elf (guest_commits (G:=G))) in Hp. simpl in Hp.
  apply retrieve_chain_data_inv in Hr as (d & Hd & Hstdin & _).
  destruct (built_stdin_true (G:=G) _ _ _ _ _ _ _ _ _ _ Hd Hstdin Hnid Hp)
    as (Hrange & Hatt & params & Hap & Hbs).
  rewrite Hbs, (committed_deserializes W G) in Hpv by done. injection Hpv as Hpv.
  rewrite <-Hpv in Hparams, Hler.
  exists d, params. split_and!; [done| |done..]. split; [done|by exists (api_stdin inputs)|done].
Qed.

(** ** The service and the handlers *)

Variables (program_version : Z) (debug_assertions : bool).
Variable client_error_text : ProposerClientError W → string.
Variables (env : Env) (erigon_elf : bytes).

(** The request was true: the contracts of the configuration answered with data that make
    the builder's request true, with the given params and exit root. *)
Definition answered_truly (config : AggchainProofServiceConfig (W:=W))
    (request : AggchainProofBuilderRequest) (params new_local_exit_root : Digest) : Prop :=
  ∃ cc b w0 w1 d, configured_client env config cc ∧
    builder_new elf (asc_aggchain_proof_builder config) cc w0 = (Ok b, w1) ∧
    gathered overflow_checks cc request (aggregation_vkey b) (bd_range_vkey_commitment b) d ∧
    vouched b request d params ∧ cd_new_ler d = new_local_exit_root.

Abbreviation service_new := (service_new overflow_checks info_enabled debug_assertions
  client_error_text env erigon_elf elf).
Abbreviation grpc_service_new := (grpc_service_new program_version overflow_checks info_enabled
  debug_assertions client_error_text env erigon_elf elf).

Lemma service_response_true config w0 self w1 req w res w' :
  service_new config w0 = (Ok self, w1) →
  in_width 32 (cfg_network_id (asc_aggchain_proof_builder config)) →
  service_call program_version self req w = (Ok res, w') →
  ∃ inputs request, answers_request inputs req request ∧
    sr_end_block res = req_end_block request ∧
    answered_truly config request (sr_aggchain_params res) (sr_local_exit_root_hash res).
Proof.
  intros (cc & b & w2 & w3 & Hcc & Hb & Hbuilder)%service_new_parts Hnid Hc.
  pose proof (builder_new_parts _ _ _ _ _ _ Hb) as (_ & Hclient & Hnet & _).
  apply service_call_inv in Hc as (inputs & request & bres & w4 & Ha & Hcall & -> & _).
  rewrite Hbuilder in Hcall. rewrite <-Hnet in Hnid.
  destruct (builder_response_true _ _ _ _ _ _ _ _ _ Hb Hnid Hcall)
    as (d & params & Hd & Hv & _ & <- & Hler).
  rewrite Hclient in Hd. exists inputs, request. split; [done|]. split; [done|].
  by exists cc, b, w2, w3, d.
Qed.

(** What a message carries was answered truly, for a request made of the given inputs. *)
Definition message_true (config : AggchainProofServiceConfig (W:=W))
    (req : AggchainProofServiceRequest) (end_block : Z) (msg : AggchainProofMessage)
    (local_exit_root_hash : option FixedBytes) : Prop :=
  ∃ inputs request params ler, answers_request inputs req request ∧
    req_end_block request = end_block ∧
    answered_truly config request params ler ∧
    ap_aggchain_params msg = Some (digest_into params) ∧
    local_exit_root_hash = Some (digest_into ler).

(** C4: an answered request is true: whoever gets a response from a server that was created
    for the guest, on either endpoint, gave it inputs for which the contracts of the
    configuration answered so that the inputs describe what happened on L2 up to the end
    block of the response, nothing was removed or unset in the range, and the execution was
    proven or signed by the trusted sequencer; the params and the exit root of the response
    are those of these answers. *)
Theorem answered_requests_true config w0 self w1 :
  grpc_service_new config w0 = (Ok self, w1) →
  in_width 32 (cfg_network_id (asc_aggchain_proof_builder config)) →
  (∀ request w resp w', generate_aggchain_proof self request w = (Ok resp, w') →
     ∃ inputs msg, request_converts request inputs ∧ gr_aggchain_proof resp = Some msg ∧
       message_true config (Normal inputs) (gr_end_block resp) msg
         (gr_local_exit_root_hash resp)) ∧
  (∀ request w resp w', generate_optimistic_aggchain_proof self request w = (Ok resp, w') →
     ∃ inputs msg, optimistic_aggchain_proof_inputs_try_from request = Ok inputs ∧
       or_aggchain_proof resp = Some msg ∧
       message_true config (Optimistic inputs)
         (requested_end_block (aggchain_proof_inputs inputs)) msg
         (or_local_exit_root_hash resp)).
Proof.
  intros Hn Hnid. unfold AggkitRpc.grpc_service_new in Hn. io_step Hn as s w2 Hs.
  injection Hn as <- _. split; intros request w resp w' Hg.
  - apply generate_inv in Hg as (_ & inputs & res & bs & w3 & Hi & _ & Hc & _ & ->).
    apply buffer_ok in Hc as (w4 & w5 & Hc).
    destruct (service_response_true _ _ _ _ _ _ _ _ Hs Hnid Hc) as (inputs' & breq & Ha & He & Ht).
    eexists inputs, _. split; [done|]. split; [done|].
    by exists inputs', breq, (sr_aggchain_params res), (sr_local_exit_root_hash res).
  - apply generate_optimistic_inv in Hg as (inputs & res & bs & w3 & Hi & _ & _ & Hc & _ & ->).
    apply buffer_ok in Hc as (w4 & w5 & Hc).
    destruct (service_response_true _ _ _ _ _ _ _ _ Hs Hnid Hc) as (inputs' & breq & Ha & He & Ht).
    eexists inputs, _. split; [done|]. split; [done|].
    exists inputs', breq, (sr_aggchain_params res), (sr_local_exit_root_hash res).
    split_and!; try done. by inversion Ha.
Qed.
End truthful.

(** ** A sample server *)

Module TruthfulSample.
Import Toy ToyAbi ToyEvm ToyOrders ToyNode ConfigSample BuilderSample ServiceSample
  ConversionSample RpcSample GuestSample.
Import (hints) ToyProposer.

(** The toy SDK proves a witness only when the guest accepts it. *)
Lemma toy_proof_commits (stdin : option AggchainProofWitness) (p : toy_proof) (w w' : world) :
  run_guest stdin w = (Ok p, w') → guest_commits (W:=world) (G:=guest) stdin (toy_values p).
Proof.
  destruct stdin as [wit|]; [|done]. simpl. unfold proven.
  destruct (decide (witness_wf wit)) as [Hwf|] eqn:Hd; [|done].
  destruct (verify_aggchain_inputs _ _ _ wit) as [pv| |] eqn:Hv; [|done..].
  intros [= <- _]. apply (reads_commits (W:=world) (G:=guest) _ wit).
  - exists (None, []). simpl. by rewrite decide_True.
  - exists pv. split; [by apply (read_unwrap_ok (W:=world) (G:=guest) wit), unwrap_ok|].
    simpl. unfold proven. by rewrite Hd, Hv.
Qed.

#[export] Instance runs_sound :
  RunsSound world [x00; x01] (guest_commits (W:=world) (G:=guest)).
Proof.
  split; intros prover pk vk w0 w1 stdin mode t w p w' _ Hrun _;
    exact (toy_proof_commits stdin p w w' Hrun).
Qed.

Definition end_block_of (request : GenerateOptimisticAggchainProofRequest) : option Z :=
  match optimistic_aggchain_proof_inputs_try_from request with
  | Ok inputs => Some (requested_end_block (aggchain_proof_inputs inputs))
  | _ => None
  end.

Example converted_end_block : end_block_of optimistic_message = Some 60.
Proof. vm_compute. reflexivity. Qed.

Lemma answered_requests_true_witness :
  ∃ resp msg inputs, optimistic_response = Some resp ∧ or_aggchain_proof resp = Some msg ∧
    message_true (W:=world) (G:=guest) [x00; x01] true (λ _, Some "key") service_config
      (Optimistic inputs) 60 msg (or_local_exit_root_hash resp).
Proof.
  pose proof optimistic_response_some as Hs.
  destruct optimistic_response as [resp|] eqn:Hr; [|discriminate Hs].
  unfold optimistic_response in Hr. destruct the_server as [s|] eqn:Hn; [|discriminate Hr].
  apply sketch_of_ok in Hr as [w' Hr]. apply sketch_of_ok in Hn as [w1 Hn].
  destruct (answered_requests_true (G:=guest) [x00; x01] true true 7 true (λ _, "")
              (λ _, Some "key") [x00] service_config [] s w1 Hn) as [_ Htrue];
    [split; [discriminate|reflexivity]|].
  destruct (Htrue optimistic_message [] resp w' Hr) as (inputs & msg & Hi & Hmsg & Ht).
  assert (requested_end_block (aggchain_proof_inputs inputs) = 60) as He.
  { pose proof converted_end_block as He. unfold end_block_of in He. rewrite Hi in He.
    by apply (inj Some). }
  rewrite He in Ht. exists resp, msg, inputs. split; [reflexivity|]. split; [exact Hmsg|exact Ht].
Defined.
End TruthfulSample.
