(* ===== verification/Answered.v ===== *)
(** Which requests the aggkit prover answers.

    A request that describes what happened on L2 is answered, as long as the services around
    the prover work: the contracts answer, SP1 proves the executions of the guest, and nothing
    times out.  The proof follows the response from the prover of the SDK through the layers
    ([crates/prover-executor], [crates/aggchain-proof-builder],
    [crates/aggchain-proof-service]) to the handler ([crates/aggkit-prover/src/rpc.rs]). *)

From S2P Require Import Prelude Bytes Panics Interop Abi StaticCall FilterValues Bridge Fep AggchainProof Binding ProofInputs Config Executor Contracts Vkey Builder Runs Proposer Service GuestRuns Conversion Rpc AggkitRpc.

(** ** When the environment works *)

(** SP1 proves every execution of the guest that ends, in compressed mode. *)
Abbreviation Sp1Complete W G elf :=
  (RunsComplete W elf Stark (guest_commits (G:=G))
     (λ p, ∃ stark, try_as_compressed p = Ok (Some stark))).

(** A service that is always ready, and that proves the executions of the guest. *)
Abbreviation proves_guest G s :=
  (proves_runs Stark (guest_commits (G:=G)) (λ p, ∃ stark, try_as_compressed p = Ok (Some stark))
     s).

(** Keys and proofs can be serialized. *)
Class SerializesAll (W : Type) `{!P3Fields, !Ecdsa, !UnifiedBridge, !EvmClient, !Sp1Sdk W,
    !Sp1Proofs W, !BuilderDeps W} : Prop := {
  vkey_serializes vk : ∃ bs, serialize_vkey vk = Ok bs;
  stark_serializes stark : ∃ bs, serialize_stark stark = Ok bs;
}.

(** ** The builder *)

Section builder.
Context {W G : Type} `{!P3Fields, !Ecdsa, !UnifiedBridge, !Hashing, !SolAbi, !GlobalIndices}
  {orders : UnspecifiedOrders}
  `{!EvmClient, !Urls, !Node W, !HostExecutor W, !Sp1Sdk W, !Sp1Proofs W, !Tokio W,
  !TowerLayers W, !BuilderDeps W, !VKeyHashes W, !ProposerElfs W}.
Context `{!TokioLaws (W:=W), !PromptRuntime W, !SerializesAll W}.
Context `{!ZkvmIo G, !GuestRuns W G, !GuestRunsLaws W G}.
Variables (overflow_checks info_enabled : bool).

Abbreviation last_proven request := (last_proven_block (req_aggchain_proof_inputs request)).

(** The contracts always answer with the given data, and the data fit the request. *)
Record chain_gives (cc : ContractsClient W) (request : AggchainProofBuilderRequest)
    (vk : SP1VerifyingKey) (rvc : Digest) (d : chain_data) : Prop := {
  gives_range : new_blocks_range overflow_checks (E:=BuilderError) request = Ok (cd_range d);
  gives_prev_ler : always (get_l2_local_exit_root _ cc (last_proven request)) (cd_prev_ler d);
  gives_new_ler : always (get_l2_local_exit_root _ cc (req_end_block request)) (cd_new_ler d);
  gives_pre : always (get_l2_output_at_block _ cc (last_proven request)) (cd_pre d);
  gives_claim : always (get_l2_output_at_block _ cc (req_end_block request)) (cd_claim d);
  gives_config : always (get_op_succinct_config _ cc) (cd_config d);
  gives_keys : validate_op_succinct_config_keys (cd_config d) vk rvc = Ok ();
  gives_prev_sketch :
    always (get_prev_l2_block_sketch _ cc (Number (last_proven request))) (cd_prev_sketch d);
  gives_new_sketch :
    always (get_new_l2_block_sketch _ cc (Number (req_end_block request))) (cd_new_sketch d);
  gives_sequencer : always (get_trusted_sequencer_address _ cc) (cd_sequencer d);
  gives_vkey_hash : hash_babybear vk = Ok (cd_vkey_hash d);
  gives_fep :
    apply_fep_verification (req_fep_verification request)
      (fep_inputs_of request (cd_config d) (cd_pre d) (cd_claim d) (cd_sequencer d)
         (cd_vkey_hash d)) = Ok (cd_fep d);
}.

Lemma chain_gives_gathered cc request vk rvc d (w : W) :
  chain_gives cc request vk rvc d → gathered overflow_checks cc request vk rvc d.
Proof.
  assert (∀ E A (m : io W E A) a, always m a → answered m a) as Ha by (intros E A m a Hm; by exists w).
  intros []. by split; auto.
Qed.

Lemma chain_gives_params `{!P3FieldsLaws} cc request vk rvc d :
  chain_gives cc request vk rvc d → key_packs (cd_vkey_hash d) →
  ∃ params, aggchain_params (E:=ProofError) (cd_fep d) = Ok params.
Proof.
  intros Hgives Hpacks. apply aggchain_params_packs.
  apply gives_fep, apply_fep_verification_ok in Hgives; [|done].
  destruct (req_fep_verification request); [by destruct Hgives as [-> _]|by rewrite Hgives].
Qed.

Lemma aggchain_params_any {E E'} (self : FepInputs) d :
  aggchain_params (E:=E) self = Ok d → aggchain_params (E:=E') self = Ok d.
Proof.
  intros (e & He & [= <-])%outcome_bind_ok. apply outcome_bind_ok. exists e.
  split; [by eapply encoded_aggchain_params_any|done].
Qed.

Lemma log_aggchain_params_ok fep params :
  aggchain_params (E:=BuilderError) fep = Ok params → log_aggchain_params info_enabled fep = Ok ().
Proof.
  intros Hp. unfold log_aggchain_params. destruct info_enabled; [|done].
  pose proof Hp as (e & (v & Hv & _)%outcome_bind_ok & _)%outcome_bind_ok.
  rewrite Hv. simpl. by rewrite Hp.
Qed.

(** One step of a computation that always succeeds. *)
Ltac always_step H :=
  let w' := fresh "w" in let Hw := fresh "Hw" in
  match goal with
  | |- ∃ w', io_bind _ _ ?w = _ => destruct (H w) as [w' Hw]
  | |- ∃ w', (_ ≫= _) ?w = _ => destruct (H w) as [w' Hw]
  end;
  erewrite io_bind_eq_ok; [|by apply io_map_err_ok, Hw].

Lemma retrieve_chain_data_complete cc request nid vk caller rvc d params sin :
  chain_gives cc request vk rvc d →
  aggchain_params (E:=BuilderError) (cd_fep d) = Ok params →
  build_stdin (req_fep_verification request) vk (witness_from request nid caller d) = Ok sin →
  always (retrieve_chain_data overflow_checks info_enabled cc request nid vk caller rvc)
    {| api_output_root := compute_claim_root (cd_fep d); api_stdin := sin |}.
Proof.
  intros [Hrange Hpl Hnl Hpre Hclaim Hcfg Hkeys Hs1 Hs2 Hseq Hvkh Hfep] Hparams Hsin w.
  unfold retrieve_chain_data. rewrite (io_bind_eq_ok _ _ _ (cd_range d) w) by (by rewrite Hrange).
  always_step Hpl. always_step Hnl. always_step Hpre. always_step Hclaim. always_step Hcfg.
  erewrite io_bind_eq_ok; [|by apply lift_ok; split].
  always_step Hs1. always_step Hs2. always_step Hseq.
  erewrite io_bind_eq_ok; [|by apply lift_ok; split; [apply never_ok|]].
  erewrite io_bind_eq_ok; [|by apply lift_ok; split].
  erewrite io_bind_eq_ok; [|by apply lift_ok; split; [eapply log_aggchain_params_ok|]].
  erewrite io_bind_eq_ok; [|by apply lift_ok; split; [apply map_err_ok, sp1_fast_infallible_ok|]].
  by eexists.
Qed.

Implicit Types self : AggchainProofBuilder.

(** The builder answers when the guest accepts what it writes. *)
Lemma builder_call_complete self request d params sin pv w :
  proves_guest G (prover self) →
  chain_gives (contracts_client self) request (aggregation_vkey self)
    (bd_range_vkey_commitment self) d →
  aggchain_params (E:=BuilderError) (cd_fep d) = Ok params →
  build_stdin (req_fep_verification request) (aggregation_vkey self)
    (witness_from request (network_id self) (bd_static_call_caller_address self) d) = Ok sin →
  guest_commits (G:=G) sin (serialize_committed pv) → in_width 32 (apv_origin_network pv) →
  ∃ res w', builder_call overflow_checks info_enabled self request w = (Ok res, w') ∧
    res_public_values res = pv ∧ res_aggchain_params res = apv_aggchain_params pv ∧
    res_new_local_exit_root res = apv_new_local_exit_root pv.
Proof.
  intros [Hready Hprove] Hgives Hparams Hsin Hcommits Hnet.
  destruct (retrieve_chain_data_complete _ _ _ _ _ _ _ _ _ Hgives Hparams Hsin w) as [w1 Hr].
  destruct (Hready w1) as [w2 Hw2].
  destruct (Hprove sin _ w2 Hcommits) as (p & w3 & Hcall & Hpv & stark & Hstark).
  destruct (vkey_serializes (aggchain_vkey self)) as [vkb Hvkb].
  destruct (stark_serializes stark) as [starkb Hstarkb].
  eexists _, w3. split.
  - apply io_flatten_sp1_async_ok. unfold builder_generate.
    erewrite io_bind_eq_ok by exact Hr.
    erewrite io_bind_eq_ok; [|by apply io_map_err_ok, Hw2].
    erewrite io_bind_eq_ok; [|by apply io_map_err_ok, Hcall]. simpl.
    erewrite io_bind_eq_ok; [|apply lift_ok; split; [|reflexivity]; apply unwrap_ok;
      rewrite Hpv; by apply (committed_deserializes W G)].
    erewrite io_bind_eq_ok; [|by apply lift_ok; split; [apply never_ok|]].
    erewrite io_bind_eq_ok; [|by apply lift_ok; split; [apply ok_or_ok|]].
    erewrite io_bind_eq_ok; [|by apply lift_ok; split; [apply map_err_ok|]].
    erewrite io_bind_eq_ok; [|by apply lift_ok; split; [apply map_err_ok|]].
    reflexivity.
  - by split_and!.
Qed.

(** So it answers every true request. *)
Lemma true_request_answered elf `{!Sp1Complete W G elf} config cc w0 self w1 request d params
    sin w :
  builder_new elf config cc w0 = (Ok self, w1) →
  in_width 32 (network_id self) →
  chain_gives cc request (aggregation_vkey self) (bd_range_vkey_commitment self) d →
  let wit := witness_from request (network_id self) (bd_static_call_caller_address self) d in
  build_stdin (req_fep_verification request) (aggregation_vkey self) wit = Ok sin →
  readable wit →
  range_described request (bd_static_call_caller_address self) d →
  execution_attested (G:=G) request d sin →
  aggchain_params (E:=ProofError) (cd_fep d) = Ok params →
  ∃ res w', builder_call overflow_checks info_enabled self request w = (Ok res, w') ∧
    res_public_values res = built_values request (network_id self) d params ∧
    res_aggchain_params res = params ∧ res_new_local_exit_root res = cd_new_ler d.
Proof.
  intros ((ex & w2 & w3 & Hex & Hprover) & <- & _ & _)%builder_new_parts Hnid Hgives wit Hsin
    Hread Hrange Hatt Hparams.
  assert (guest_commits (G:=G) sin
    (serialize_committed (built_values request (network_id self) d params))) as Hc.
  { eapply built_stdin_accepted; [by eapply (chain_gives_gathered _ _ _ _ _ w0)|done..|].
    split_and!; [done..|by exists params]. }
  apply (builder_call_complete self request d params sin
    (built_values request (network_id self) d params) w).
  - rewrite Hprover. apply proves_runs_buffer. by eapply executor_proves_runs.
  - done.
  - by eapply aggchain_params_any.
  - done.
  - done.
  - done.
Qed.
End builder.

(** ** The handler *)

Section handler.
Context {W G : Type} `{!P3Fields, !Ecdsa, !UnifiedBridge, !Hashing, !SolAbi, !GlobalIndices}
  {orders : UnspecifiedOrders}
  `{!EvmClient, !Urls, !Node W, !HostExecutor W, !Sp1Sdk W, !Sp1Proofs W, !Tokio W,
  !TowerLayers W, !BuilderDeps W, !VKeyHashes W, !ProposerElfs W, !ProposerGrpc W,
  !AggregationSdk W, !ProposerDeps (W:=W), !InteropGrpc, !RpcDeps}.
Context `{!P3FieldsLaws, !TokioLaws (W:=W), !PromptRuntime W, !SerializesAll W}.
Context `{!ZkvmIo G, !GuestRuns W G, !GuestRunsLaws W G}.
Variables (program_version : Z) (overflow_checks info_enabled : bool).

(** The server around a builder and a proposer service. *)
Definition server_of (proposer : service W FepProposerRequest ProposerResponse ProposerError)
    (b : AggchainProofBuilder) : GrpcService (W:=W) :=
  {| grpc_service :=
       buffer (proof_service program_version
         {| as_proposer_service := proposer;
            as_aggchain_proof_builder := builder_service overflow_checks info_enabled b |})
         AggkitRpc.MAX_CONCURRENT_REQUESTS |}.

Definition optimistic_builder_request (inputs : OptimisticAggchainProofInputs)
    : AggchainProofBuilderRequest :=
  {| req_fep_verification := FepOptimistic (opt_signature_optimistic_mode inputs);
     req_end_block := requested_end_block (aggchain_proof_inputs inputs);
     req_aggchain_proof_inputs := aggchain_proof_inputs inputs |}.

Lemma server_ready proposer b :
  always (ready proposer) () → always (ready (prover b)) () →
  always (ready (grpc_service (server_of proposer b))) ().
Proof.
  intros Hp Hb w. destruct (Hp w) as [w1 Hw1], (Hb w1) as [w2 Hw2]. exists w2.
  apply buffer_ready, io_bind_ok. exists (), w1. split; [by apply io_map_err_ok|].
  by apply io_map_err_ok, io_map_err_ok.
Qed.

(** The rest of the handler never fails. *)
Lemma generate_optimistic_ok self request inputs res w w1 w' :
  optimistic_aggchain_proof_inputs_try_from request = Ok inputs →
  last_proven_block (aggchain_proof_inputs inputs) <
    requested_end_block (aggchain_proof_inputs inputs) →
  ready (grpc_service self) w = (Ok (), w1) →
  call (grpc_service self) (Optimistic inputs) w1 = (Ok res, w') →
  ∃ msg, generate_optimistic_aggchain_proof self request w =
      (Ok {| or_aggchain_proof := Some msg;
             or_local_exit_root_hash := Some (digest_into (sr_local_exit_root_hash res));
             or_custom_chain_data := sr_custom_chain_data res |}, w') ∧
    ap_aggchain_params msg = Some (digest_into (sr_aggchain_params res)).
Proof.
  intros Hi Hlt Hready Hcall. unfold generate_optimistic_aggchain_proof.
  rewrite (io_bind_eq_ok _ _ _ inputs w) by (by rewrite Hi).
  rewrite decide_False by lia.
  erewrite io_bind_eq_ok; [|apply io_bind_ok; exists (), w1;
    split; [by apply io_map_err_ok|by apply io_map_err_ok, Hcall]].
  eexists. split; [by erewrite io_bind_eq_ok by reflexivity|done].
Qed.

(** C14: true requests are answered in optimistic mode.  The services around the prover work:
    the contracts always give the same data [d], with the keys that the builder was created
    for; SP1 proves every run of the guest; keys and proofs serialize; and nothing times out.
    The digest of the aggregation key packs: its leading word is at least 2^23, without which
    the params of every request panic ([Fep.to_hash_bn254_spec]).  Then a request that
    converts, whose block range is not empty, whose witness can be written for the guest and
    read by it, which describes what happened on L2 in the range, and whose signature by the
    trusted sequencer is over its execution, gets a response: with the params of this
    execution, and the new local exit root of L2. *)
Theorem true_optimistic_request_answered elf `{!Sp1Complete W G elf} config cc w0 b w1 proposer
    request inputs d sin w :
  builder_new elf config cc w0 = (Ok b, w1) →
  always (ready proposer) () →
  in_width 32 (cfg_network_id config) →
  optimistic_aggchain_proof_inputs_try_from request = Ok inputs →
  last_proven_block (aggchain_proof_inputs inputs) <
    requested_end_block (aggchain_proof_inputs inputs) →
  let builder_request := optimistic_builder_request inputs in
  let caller := cc_static_call_caller_address (cfg_contracts config) in
  chain_gives overflow_checks cc builder_request (aggregation_vkey b)
    (bd_range_vkey_commitment b) d →
  let wit := witness_from builder_request (cfg_network_id config) caller d in
  build_stdin (req_fep_verification builder_request) (aggregation_vkey b) wit = Ok sin →
  readable wit →
  range_described builder_request caller d →
  recover_address_from_prehash (opt_signature_optimistic_mode inputs)
    (signature_commitment (cd_fep d) (cd_new_ler d) (range_commitment builder_request d))
    = Ok (trusted_sequencer (cd_fep d)) →
  key_packs (cd_vkey_hash d) →
  ∃ params resp msg w', aggchain_params (E:=ProofError) (cd_fep d) = Ok params ∧
    generate_optimistic_aggchain_proof (server_of proposer b) request w = (Ok resp, w') ∧
    or_aggchain_proof resp = Some msg ∧ ap_aggchain_params msg = Some (digest_into params) ∧
    or_local_exit_root_hash resp = Some (digest_into (cd_new_ler d)).
Proof.
  intros Hb Hproposer Hnid Hi Hlt breq caller Hgives wit Hsin Hread Hrange Hsig Hpacks.
  destruct (chain_gives_params _ _ _ _ _ _ Hgives Hpacks) as [params Hparams].
  pose proof (builder_new_parts _ _ _ _ _ _ Hb) as ((ex & w2 & w3 & Hex & Hprover) & _ & Hn & Hcaller).
  assert (always (ready (prover b)) ()) as Hready.
  { rewrite Hprover. eapply runs_ready, proves_runs_buffer. by eapply executor_proves_runs. }
  destruct (server_ready proposer b Hproposer Hready w) as [w4 Hw4].
  pose proof (chain_gives_gathered _ _ _ _ _ _ w Hgives) as Hd.
  pose proof (gathered_fep _ _ _ _ _ _ Hd) as (_ & _ & _ & _ & _ & Hseq & _).
  rewrite Hseq in Hsig. unfold wit in *. unfold caller in *. rewrite <-Hn, <-Hcaller in *.
  destruct (true_request_answered (G:=G) overflow_checks info_enabled elf config cc w0 b w1 breq d
              params sin w4 Hb Hnid Hgives Hsin Hread Hrange Hsig Hparams)
    as (res & w5 & Hcall & _ & Hap & Hler).
  destruct (generate_optimistic_ok (server_of proposer b) request inputs
    (service_response program_version res (last_proven_block (aggchain_proof_inputs inputs))
       (requested_end_block (aggchain_proof_inputs inputs))) w w4 w5 Hi Hlt Hw4)
    as (msg & Hg & Hmsg).
  { apply buffer_prompt. simpl. unfold handle_optimistic_request.
    erewrite io_bind_eq_ok; [|by apply io_map_err_ok, Hcall]. reflexivity. }
  eexists params, _, msg, w5. split; [done|]. split; [exact Hg|]. simpl. rewrite Hmsg. simpl.
  rewrite Hap, Hler. done.
Qed.

(** *** In normal mode *)




Context `{!TowerLayersLaws W, !BuilderDepsLaws W, !DeferredProofLaws W G}.

End handler.

(** ** A sample request *)

Module AnsweredSample.
Import Toy ToyAbi ToyEvm ToyOrders ToyNode ConfigSample BuilderSample ServiceSample
  ConversionSample RpcSample GuestSample.
Import (hints) ToyProposer.

(** The toy SDK and its layers work. *)
#[export] Instance prompt : PromptRuntime world.
Proof.
  split; try done; try (intros; by apply io_map_err_ok).
  intros R f w r w' Hf. simpl. by rewrite Hf.
Qed.

#[export] Instance serializes : SerializesAll world.
Proof. split; intros; by eexists. Qed.

Lemma toy_run_completes stdin bs (w : world) :
  guest_commits (W:=world) (G:=guest) stdin bs →
  ∃ p, run_guest stdin w = (Ok p, w) ∧ toy_verify p 2 = Ok () ∧ toy_values p = bs.
Proof.
  intros (wit & pv & Hwf & [g Hr] & Hok & ->)%commits_reads.
  destruct stdin as [wit'|]; [|discriminate Hr]. simpl in Hr.
  case_decide; [|discriminate Hr]. injection Hr as -> _. exists (OfGuest wit).
  assert (proven wit = Some pv) as Hp.
  { unfold proven. rewrite decide_True by done.
    assert (verify_aggchain_inputs Zkvm (λ _ _, Ok ()) U32_MAX wit = Ok pv) as ->; [|done].
    by apply verify_aggchain_inputs_ok; [apply wf_slices|]. }
  simpl. rewrite Hp. done.
Qed.

#[export] Instance complete : Sp1Complete world guest [x00; x01].
Proof.
  split; intros prover pk vk w0 w1 stdin bs t w Hs Hc;
    (assert (vk = 2) as -> by (cbv in Hs; by simplify_eq));
    destruct (toy_run_completes stdin bs w Hc) as (p & Hrun & Hv & <-);
    (exists p, w; split_and!; [done..|by exists (toy_values p)]).
Qed.

(** Contracts that always answer alike. *)
Definition steady : ContractsClient world := {|
  get_l2_local_exit_root n := mret (BridgeSample.digest (n + 39));
  get_l2_output_at_block n := mret (output_at n);
  get_op_succinct_config := get_op_succinct_config _ cc;
  get_trusted_sequencer_address := mret (be_array 20 51);
  get_prev_l2_block_sketch _ := mret (BridgeSample.digest 50, ToyNode.storage 50);
  get_new_l2_block_sketch _ := mret (BridgeSample.digest 60, ToyNode.storage 60);
|}.

Definition signature : Signature := Some (be_array 20 51).

Definition converted : OptimisticAggchainProofInputs :=
  {| aggchain_proof_inputs := ProofInputsSample.inputs;
     opt_signature_optimistic_mode := signature |}.

Definition true_request : AggchainProofBuilderRequest := optimistic_builder_request converted.

Definition op_config : OpSuccinctConfig :=
  {| cfg_aggregation_vkey_hash := BridgeSample.digest 7;
     cfg_range_vkey_commitment := BridgeSample.digest 14;
     cfg_rollup_config_hash := BridgeSample.digest 3 |}.

Definition data : chain_data := {|
  cd_range := ProofInputsSample.range;
  cd_prev_ler := BridgeSample.digest 89;
  cd_new_ler := BridgeSample.digest 99;
  cd_pre := output_at 50;
  cd_claim := output_at 60;
  cd_config := op_config;
  cd_prev_sketch := (BridgeSample.digest 50, ToyNode.storage 50);
  cd_new_sketch := (BridgeSample.digest 60, ToyNode.storage 60);
  cd_sequencer := be_array 20 51;
  cd_vkey_hash := ToyKeys.digest_of 7;
  cd_fep := set_signature
    (fep_inputs_of (W:=world) true_request op_config (output_at 50) (output_at 60) (be_array 20 51)
       (ToyKeys.digest_of 7)) signature |}.

Lemma data_given : chain_gives (W:=world) true steady true_request (7 : Z) rvc data.
Proof. split; try (intros w; by eexists); reflexivity. Qed.

Definition true_witness : AggchainProofWitness :=
  witness_from (W:=world) true_request 1 caller data.

Example true_witness_verifies :
  verify U32_MAX (bridge_constraints_input true_witness) = Ok ().
Proof. vm_compute. reflexivity. Qed.

Lemma true_request_described : range_described (W:=world) true_request caller data.
Proof.
  apply (built_bridge_ok (W:=world) true steady true_request (7 : Z) rvc 1 caller data).
  - exact (chain_gives_gathered _ _ _ _ _ _ [] data_given).
  - apply (verify_ok U32_MAX); [by split|exact true_witness_verifies].
Qed.

Example request_converted :
  optimistic_aggchain_proof_inputs_try_from optimistic_message = Ok converted.
Proof.
  vm_cast_no_check (eq_refl (Ok (E:=AggchainProofRequestError) converted)).
Qed.

Definition steady_builder : option AggchainProofBuilder :=
  sketch_of (builder_new [x00; x01] config steady []).

Example steady_builder_keys :
  (λ b, (aggregation_vkey b, bd_range_vkey_commitment b)) <$> steady_builder = Some (7 : Z, rvc).
Proof. vm_compute. reflexivity. Qed.

Lemma key_packed : key_packs (cd_vkey_hash data).
Proof. vm_compute. discriminate. Qed.

(** A proposer that is not asked. *)
Definition idle_proposer
    : service world FepProposerRequest (ProposerResponse (W:=world)) (ProposerError (W:=world)) :=
  {| poll_ready w := (Ready (Ok ()), w);
     ready := mret ();
     call _ := throw (ProposerOther (ReportMsg "idle")) |}.

Lemma true_optimistic_request_answered_witness :
  ∃ b resp w', steady_builder = Some b ∧
    generate_optimistic_aggchain_proof (server_of 7 true true idle_proposer b) optimistic_message []
      = (Ok resp, w') ∧
    or_local_exit_root_hash resp = Some (digest_into (BridgeSample.digest 99)).
Proof.
  pose proof steady_builder_keys as Hkeys.
  destruct steady_builder as [b|] eqn:Hb; [|discriminate Hkeys]. simpl in Hkeys.
  injection Hkeys as Hvk Hrvc. apply sketch_of_ok in Hb as [w1 Hb].
  destruct (true_optimistic_request_answered (G:=guest) 7 true true [x00; x01] config steady [] b w1
              idle_proposer optimistic_message converted data (Some true_witness) [] Hb)
    as (params & resp & msg & w' & _ & Hg & _ & _ & Hler).
  - intros w. by exists w.
  - split; [discriminate|reflexivity].
  - exact request_converted.
  - reflexivity.
  - pose proof data_given as Hd. rewrite <-Hvk, <-Hrvc in Hd. exact Hd.
  - reflexivity.
  - exact I.
  - exact true_request_described.
  - reflexivity.
  - exact key_packed.
  - exists b, resp, w'. split; [reflexivity|]. split; [exact Hg|exact Hler].
Defined.












End AnsweredSample.
