(* ===== verification/AgglayerRpc.v ===== *)
(** The agglayer prover: [crates/agglayer-prover/src/{rpc,fake,prover}.rs] and
    [crates/agglayer-prover-types/src/error.rs].

    Its gRPC service deserializes the input of the pessimistic proof, has the executor
    prove it, and serializes the proof; errors become statuses with encoded details. *)

From S2P Require Import Prelude Bytes Panics Interop Abi StaticCall Config Executor Vkey Builder Rpc Tonic.

(** ** Messages *)

Record GenerateProofRequest : Type := { gp_stdin : option bytes }.
Record GenerateProofResponse : Type := { gp_proof : bytes }.

Inductive ErrorKind : Type :=
  | KindUnspecified
  | KindUnableToExecuteProver
  | KindProverFailed
  | KindProofVerificationFailed
  | KindExecutorFailed.

(** [impl From<ErrorKind> for i32]. *)
Definition error_kind_into (k : ErrorKind) : Z :=
  match k with
  | KindUnspecified => 0
  | KindUnableToExecuteProver => 1
  | KindProverFailed => 2
  | KindProofVerificationFailed => 3
  | KindExecutorFailed => 4
  end.

Record GenerateProofError : Type := { ge_error : bytes; ge_error_type : Z }.

(** [prover_executor::Error] as text: the [#[error]] attributes. *)
Definition verification_error_display (e : ProofVerificationError) : string :=
  match e with
  | VersionMismatch s => "Version mismatch: " +:+ s
  | Core s => "Core machine verification error: " +:+ s
  | Recursion s => "Recursion verification error: " +:+ s
  | Plonk s => "Plonk verification error: " +:+ s
  | Groth16 s => "Groth16 verification error: " +:+ s
  | InvalidPublicValues => "Invalid public values"
  | Other s => "Other verification error: " +:+ s
  end.

Definition executor_error_display (e : ExecutorError) : string :=
  match e with
  | UnableToExecuteProver => "Unable to execute prover"
  | ProverFailed s => "Prover failed: " +:+ s
  | ProofVerificationFailed e => "Prover verification failed: " +:+ verification_error_display e
  | ExecutorFailed _ => "Prover executor failed"
  | UnableToInitializePrimaryProver => "Unable to initialize the primary prover"
  | UnableToInitializeFallbackProver => "Unable to initialize the fallback prover"
  end.

(** [bincode::default()] on the values the prover sends and receives, and the telemetry
    counters. *)
Class AgglayerWire (W : Type) `{!Sp1Sdk W} := {
  wire_stdin : bytes → outcome string SP1Stdin;
  wire_proof : SP1ProofWithPublicValues → outcome string bytes;
  wire_generate_proof_error : GenerateProofError → outcome string bytes;
  wire_verification_error : ProofVerificationError → outcome string bytes;
  wire_executor_data : bytes → outcome string bytes;
}.

Inductive ProvingMetric : Type :=
  PROVING_REQUEST_RECV | PROVING_REQUEST_SUCCEEDED | PROVING_REQUEST_FAILED.

#[export] Instance ProvingMetric_eq_dec : EqDecision ProvingMetric.
Proof. solve_decision. Defined.

Class Metrics (W : Type) := {
  (** [COUNTER.add(1, &[])]. *)
  metric_add : ProvingMetric → W → W;
}.

Definition add_metric {W E} `{!Metrics W} (m : ProvingMetric) : io W E () :=
  λ w, (Ok (), metric_add m w).

Section agglayer.
Context {W : Type} `{!Sp1Sdk W, !Tokio W, !TowerLayers W, !Urls, !AgglayerWire W,
  !Metrics W}.

(** [ErrorWrapper::try_into_status]. *)
Definition try_into_status (value : ExecutorError) : outcome string Status :=
  let of_kind kind error :=
    wire_generate_proof_error {| ge_error := error; ge_error_type := error_kind_into kind |} in
  '(code, msg, details) ←
    match value with
    | UnableToExecuteProver =>
        details ← of_kind KindUnableToExecuteProver [];
        Ok (CodeInternal, "Unable to execute prover", details)
    | ProverFailed _ =>
        details ← of_kind KindProverFailed [];
        Ok (CodeInternal, executor_error_display value, details)
    | ProofVerificationFailed proof_verification_error =>
        error ← wire_verification_error proof_verification_error;
        details ← of_kind KindProofVerificationFailed error;
        Ok (CodeInvalidArgument, executor_error_display value, details)
    | ExecutorFailed proof_error =>
        error ← wire_executor_data proof_error;
        details ← of_kind KindExecutorFailed error;
        Ok (CodeInvalidArgument, executor_error_display value, details)
    | UnableToInitializePrimaryProver =>
        details ← of_kind KindExecutorFailed [];
        Ok (CodeInternal, "Executor failed to initialize the primary prover", details)
    | UnableToInitializeFallbackProver =>
        details ← of_kind KindExecutorFailed [];
        Ok (CodeInternal, "Executor failed to initialize the fallback prover", details)
    end;
  Ok (status_with_details code msg details).

(** ** The service *)

Record ProverRPC : Type := {
  executor : service W Request Response (BoxError ExecutorError);
}.

Definition prover_rpc_new (executor : service W Request Response (BoxError ExecutorError))
    : ProverRPC :=
  {| executor := executor |}.

Definition read_stdin (request : GenerateProofRequest) : outcome Status SP1Stdin :=
  match gp_stdin request with
  | Some stdin =>
      flatten (λ _, status_invalid_argument "Unable to deserialize stdin")
        (λ _, status_invalid_argument "Unable to deserialize stdin")
        (sp1_fast (wire_stdin stdin))
  | None => Err (status_invalid_argument "stdin is required")
  end.

(** The status of a failed call: an error of the executor, or one of tower's. *)
Definition call_error_status (error : BoxError ExecutorError) : outcome Status Status :=
  match error with
  | Boxed error =>
      match try_into_status error with
      | Ok response => Ok response
      | Err _ => Ok (status_invalid_argument (executor_error_display error))
      | Panic p => Panic p
      end
  | BoxedOther _ => Ok (status_internal "Failed to generate proof")
  end.

Definition generate_proof (self : ProverRPC) (request : GenerateProofRequest)
    : io W Status GenerateProofResponse :=
  _ ← add_metric PROVING_REQUEST_RECV;
  stdin ← lift (read_stdin request);
  _ ← io_map_err (λ _, status_internal "Unable to get proof executor") (ready (executor self));
  let request := {| stdin := stdin; proof_type := PlonkProof |} in
  (λ w,
    match call (executor self) request w with
    | (Ok result, w) =>
        (response ← lift
           (flatten (λ _, status_internal "Unable to serialize generated proof")
              (λ _, status_internal "Unable to serialize generated proof")
              (sp1_fast (wire_proof (proof result))));
         _ ← add_metric PROVING_REQUEST_SUCCEEDED;
         mret {| gp_proof := response |}) w
    | (Err error, w) =>
        (_ ← add_metric PROVING_REQUEST_FAILED;
         status ← lift (call_error_status error);
         throw status) w
    | (Panic p, w) => (Panic p, w)
    end) : io W Status GenerateProofResponse.

(** ** The fake prover *)

Record FakeProver : Type := {
  fk_prover : CpuProverClient;
  fk_proving_key : SP1ProvingKey;
}.

Definition fake_prover_new (elf : bytes) : io W report FakeProver :=
  r ← sp1_blocking
    (prover ← cpu_prover_mock;
     '(proving_key, _verifying_key) ← cpu_setup prover elf;
     mret {| fk_proving_key := proving_key; fk_prover := prover |});
  mret (infallible r).

(** [sp1_fast] around the call of the prover leaves its effects and catches its panics,
    as [sp1_async] does. *)
Definition fake_generate_proof (self : FakeProver) (request : GenerateProofRequest)
    : io W Status GenerateProofResponse :=
  stdin ← lift (read_stdin request);
  let of_error error := status_invalid_argument (executor_error_display error) in
  proof ← io_map_err of_error
    (io_flatten (λ error, ProverFailed (report_display error)) ProverFailed
       (sp1_async (cpu_run (fk_prover self) (fk_proving_key self) stdin ModePlonk true)));
  proof ← lift (map_err of_error
    (flatten (λ error, ProverFailed (report_display error)) ProverFailed
       (sp1_fast (wire_proof proof))));
  mret {| gp_proof := proof |}.

(** ** Construction *)

(** The generated server around the handler. *)
Definition PessimisticProofServiceServer `{!Encodings} : Type := GrpcServer ProverRPC.

(** [tower::timeout::Timeout] as a value, whose [into_inner] gives back the service. *)
Record Timeout (S : Type) : Type := { timeout_inner : S; timeout_duration : Duration }.
Arguments timeout_inner {S}.

Context `{!P3Fields, !Ecdsa, !UnifiedBridge, !EvmClient, !Sp1Proofs W, !BuilderDeps W,
  !Encodings}.

(** [Prover::create_service]: [ServiceBuilder] puts the timeout outside of the
    concurrency limit, and [into_inner] is that of the service it built. *)
Definition create_service (config : Agglayer.AgglayerProverConfig) (program : bytes)
    : io W report PessimisticProofServiceServer :=
  executor_service ← io_map_err
    (ReportContext "Failed to create executor service for Agglayer Prover")
    (executor_new (Agglayer.al_primary_prover config) (Agglayer.al_fallback_prover config)
       program);
  let service :=
    {| timeout_inner := concurrency_limit_layer (Agglayer.al_max_concurrency_limit config)
         (Executor.executor_service executor_service);
       timeout_duration := Agglayer.al_max_request_duration config |} in
  let executor := timeout_inner service in
  let executor := buffer executor (Agglayer.al_max_buffered_queries config) in
  let rpc := prover_rpc_new executor in
  let server := server_new rpc in
  let server :=
    set_max_decoding_message_size (max_decoding_message_size (Agglayer.al_grpc config)) server in
  let server :=
    set_max_encoding_message_size (max_encoding_message_size (Agglayer.al_grpc config)) server in
  mret (accept_compressed Zstd (send_compressed Zstd server)).

(** [lib.rs]: [compute_program_vkey], the key's [bytes32()]. *)
Definition agglayer_compute_program_vkey (bytes32 : SP1VerifyingKey → string) (program : bytes)
    : io W report string :=
  vkey ← io_map_err (ReportContext "Failed to compute program vkey")
    (Executor.compute_program_vkey program);
  mret (bytes32 vkey).
End agglayer.

(** ** Properties *)

Section properties.
Context {W : Type} `{!Sp1Sdk W, !Tokio W, !TowerLayers W, !Urls, !AgglayerWire W,
  !Metrics W}.
Implicit Types self : ProverRPC (W:=W).

Lemma generate_proof_inv self request w resp w' :
  generate_proof self request w = (Ok resp, w') →
  ∃ stdin w1 w2 res,
    read_stdin request = Ok stdin ∧
    ready (executor self) (metric_add PROVING_REQUEST_RECV w) = (Ok (), w1) ∧
    call (executor self) {| stdin := stdin; proof_type := PlonkProof |} w1 = (Ok res, w2) ∧
    wire_proof (proof res) = Ok (gp_proof resp) ∧
    w' = metric_add PROVING_REQUEST_SUCCEEDED w2.
Proof.
  intros Hg. unfold generate_proof in Hg. io_step Hg as u w1 Hu. injection Hu as <- <-.
  io_step Hg as s w2 Hs. apply lift_ok in Hs as [Hs ->].
  io_step Hg as u w3 Hu. destruct u. apply io_map_err_ok in Hu.
  destruct (call _ _ w3) as [[res|e|p] w4] eqn:Hc; [| |discriminate Hg].
  - io_step Hg as bs w5 Hb. apply lift_ok in Hb as [Hb%flatten_sp1_fast_ok ->].
    injection Hg as <- <-. by exists s, w3, w4, res.
  - io_step Hg as u w5 Hm. io_step Hg as st w6 Hst. discriminate Hg.
Qed.

(** *** Panics *)

(** The codec does not panic on the details of errors. *)
Definition details_safe : Prop :=
  (∀ e p, wire_generate_proof_error e ≠ Panic p) ∧
  (∀ e p, wire_verification_error e ≠ Panic p) ∧
  (∀ bs p, wire_executor_data bs ≠ Panic p).

Lemma try_into_status_no_panic e p : details_safe → try_into_status e ≠ Panic p.
Proof.
  intros (Hg & Hv & Hd). unfold try_into_status. rewrite outcome_bind_panic.
  intros [He|(a & _ & He)]; [|by destruct a as [[] ?]].
  destruct e; repeat (rewrite outcome_bind_panic in He; destruct He as [He|(? & _ & He)]);
    first [destruct (Hg _ _ He)|destruct (Hv _ _ He)|destruct (Hd _ _ He)|discriminate He].
Qed.

Lemma read_stdin_no_panic request p : read_stdin request ≠ Panic p.
Proof.
  unfold read_stdin. destruct (gp_stdin request); [apply flatten_sp1_fast_no_panic|done].
Qed.

Lemma call_error_status_no_panic e p : details_safe → call_error_status e ≠ Panic p.
Proof.
  intros Hs. destruct e as [e|]; [|done]. simpl.
  pose proof (λ p, try_into_status_no_panic e p Hs) as Hn.
  destruct (try_into_status e) as [| |q]; [done|done|by destruct (Hn q)].
Qed.

(** The agglayer prover contains the panics of deserialization and of the
    serialization of proofs: a request can only panic in the executor, or in the
    serialization of an error's details, which is not wrapped. *)
Theorem generate_proof_contains_panics self request w :
  details_safe →
  (∀ w, is_panic (ready (executor self) w).1 = false) →
  (∀ req w, is_panic (call (executor self) req w).1 = false) →
  is_panic (generate_proof self request w).1 = false.
Proof.
  intros Hd Hr Hc. unfold generate_proof, mbind, io_bind, add_metric, lift, io_map_err.
  destruct (read_stdin request) as [s|e|p] eqn:Hs;
    [|done|by destruct (read_stdin_no_panic request p)].
  specialize (Hr (metric_add PROVING_REQUEST_RECV w)).
  destruct (ready _ _) as [[[]|e|p] w1]; [|done|done]. simpl.
  specialize (Hc {| stdin := s; proof_type := PlonkProof |} w1).
  destruct (call _ _ w1) as [[res|e|p] w2]; [| |done].
  - by destruct (wire_proof (proof res)).
  - pose proof (call_error_status_no_panic e) as Hn.
    destruct (call_error_status e) as [st|st|p]; [done..|by destruct (Hn p)].
Qed.

(** The fake prover contains every panic of the SDK and of the codec. *)
Theorem fake_prover_never_panics (self : FakeProver (W:=W)) request w :
  is_panic (fake_generate_proof self request w).1 = false.
Proof.
  unfold fake_generate_proof, mbind, io_bind, lift, io_map_err.
  destruct (read_stdin request) as [s|e|p] eqn:Hs;
    [|done|by destruct (read_stdin_no_panic request p)].
  pose proof (io_flatten_sp1_async_no_panic (λ error, ProverFailed (report_display error))
    ProverFailed (cpu_run (fk_prover self) (fk_proving_key self) s ModePlonk true) w) as Hn.
  destruct (io_flatten _ _ _ w) as [[pr|e|p] w1]; [|done|done]. simpl.
  by destruct (wire_proof pr).
Qed.

(** *** The counters *)

(** The counters as part of the world: counting changes one of them, the executor none. *)
Class Counted (self : ProverRPC (W:=W)) (count : ProvingMetric → W → Z) : Prop := {
  count_add m m' w :
    count m (metric_add m' w) = count m w + (if decide (m = m') then 1 else 0);
  count_ready m w : count m (ready (executor self) w).2 = count m w;
  count_call m req w : count m (call (executor self) req w).2 = count m w;
}.

(** C36: every request is counted as received once; it is counted as succeeded exactly
    when it is answered with a proof, and then not as failed; so the counters never
    report more outcomes than requests. *)
Theorem metrics_account self count request w :
  Counted self count →
  let '(r, w') := generate_proof self request w in
  count PROVING_REQUEST_RECV w' = count PROVING_REQUEST_RECV w + 1 ∧
  count PROVING_REQUEST_SUCCEEDED w' =
    count PROVING_REQUEST_SUCCEEDED w + (if is_ok r then 1 else 0) ∧
  count PROVING_REQUEST_FAILED w <= count PROVING_REQUEST_FAILED w' <=
    count PROVING_REQUEST_FAILED w + (if is_ok r then 0 else 1).
Proof.
  intros [Hadd Hready Hcall]. unfold generate_proof, mbind, io_bind, add_metric, lift, io_map_err.
  destruct (read_stdin request) as [s|e|p]; [|by rewrite !Hadd; simpl; lia..].
  specialize (Hready).
  pose proof (λ m, Hready m (metric_add PROVING_REQUEST_RECV w)) as Hr.
  destruct (ready _ _) as [[[]|e|p] w1]; simpl in Hr;
    [|by simpl; rewrite !Hr, !Hadd; simpl; lia..]. simpl.
  pose proof (λ m, Hcall m {| stdin := s; proof_type := PlonkProof |} w1) as Hc.
  destruct (call _ _ w1) as [[res|e|p] w2]; simpl in Hc.
  - destruct (wire_proof (proof res)); simpl; rewrite ?Hadd, !Hc, !Hr, !Hadd; simpl; lia.
  - destruct (call_error_status e); simpl; rewrite !Hadd, !Hc, !Hr, !Hadd; simpl; lia.
  - rewrite !Hc, !Hr, !Hadd; simpl; lia.
Qed.
End properties.

Section verified.
Context {W : Type} `{!Sp1Sdk W, !Tokio W, !TowerLayers W, !Urls, !AgglayerWire W,
  !Metrics W, !P3Fields, !Ecdsa, !UnifiedBridge, !EvmClient, !Sp1Proofs W, !BuilderDeps W,
  !TokioLaws (W:=W), !TowerLayersLaws W, !BuilderDepsLaws W, !Encodings}.

(** A response carries a proof for the input of its request. *)
Lemma generate_proof_proved config program w0 self w1 request w resp w' :
  create_service config program w0 = (Ok self, w1) →
  generate_proof (server_inner self) request w = (Ok resp, w') →
  ∃ stdin p, read_stdin request = Ok stdin ∧
    proved_on program {| stdin := stdin; proof_type := PlonkProof |} p ∧
    wire_proof p = Ok (gp_proof resp).
Proof.
  intros Hn Hg. unfold create_service in Hn. io_step Hn as ex w2 Hex.
  injection Hn as <- _. apply io_map_err_ok in Hex.
  apply generate_proof_inv in Hg as (s & w3 & w4 & res & Hs & _ & Hc & Hw & _).
  exists s, (proof res). split_and!; [done| |done].
  apply buffer_ok in Hc as (w5 & w6 & Hc). apply concurrency_limit_layer_ok in Hc
    as (w7 & w8 & Hc). simpl in Hc.
  by eapply executor_response_proved.
Qed.

Lemma generate_proof_verified config program w0 self w1 request w resp w' :
  create_service config program w0 = (Ok self, w1) →
  generate_proof (server_inner self) request w = (Ok resp, w') →
  ∃ p, verified program p ∧ wire_proof p = Ok (gp_proof resp).
Proof.
  intros Hn Hg.
  destruct (generate_proof_proved _ _ _ _ _ _ _ _ _ Hn Hg) as (s & p & _ & Hp & Hw).
  exists p. split; [by eapply proved_on_verified|done].
Qed.

(** A proof the agglayer prover sends, whatever its configuration, is the encoding
    of one that the SDK's verifier accepted under a key of the program the service was
    created for. *)
Theorem agglayer_proof_verified config program w0 self w1 request w resp w' :
  create_service config program w0 = (Ok self, w1) →
  generate_proof (server_inner self) request w = (Ok resp, w') →
  ∃ p, verified program p ∧ wire_proof p = Ok (gp_proof resp).
Proof. exact (generate_proof_verified config program w0 self w1 request w resp w'). Qed.

(** The configured [max_request_duration] does not influence the service. *)
Lemma max_request_duration_ignored config program d :
  create_service
    {| Agglayer.al_grpc_endpoint := Agglayer.al_grpc_endpoint config;
       Agglayer.al_grpc := Agglayer.al_grpc config;
       Agglayer.al_log := Agglayer.al_log config;
       Agglayer.al_telemetry := Agglayer.al_telemetry config;
       Agglayer.al_shutdown := Agglayer.al_shutdown config;
       Agglayer.al_max_concurrency_limit := Agglayer.al_max_concurrency_limit config;
       Agglayer.al_max_request_duration := d;
       Agglayer.al_max_buffered_queries := Agglayer.al_max_buffered_queries config;
       Agglayer.al_primary_prover := Agglayer.al_primary_prover config;
       Agglayer.al_fallback_prover := Agglayer.al_fallback_prover config |} program =
  create_service config program.
Proof. done. Qed.
End verified.

(** ** A concrete prover *)

Module AgglayerSample.
Import ConfigSample Toy ToyAbi ToyEvm ToyTonic.

(** A world that counts received, succeeded and failed requests. *)
Definition counters : Type := Z * Z * Z.

Definition bump (m : ProvingMetric) (w : counters) : counters :=
  let '(r, s, f) := w in
  match m with
  | PROVING_REQUEST_RECV => (r + 1, s, f)
  | PROVING_REQUEST_SUCCEEDED => (r, s + 1, f)
  | PROVING_REQUEST_FAILED => (r, s, f + 1)
  end.

Definition count (m : ProvingMetric) (w : counters) : Z :=
  let '(r, s, f) := w in
  match m with
  | PROVING_REQUEST_RECV => r
  | PROVING_REQUEST_SUCCEEDED => s
  | PROVING_REQUEST_FAILED => f
  end.

(** Proofs are their inputs; 13 cannot be proved, on 14 the prover panics. *)
Definition run (stdin : Z) : io counters string Z := λ w,
  (if decide (stdin = 13) then Err "unlucky"
   else if decide (stdin = 14) then Panic (PayloadStr "sdk") else Ok stdin, w).

#[export] Instance sdk : Sp1Sdk counters := {|
  SP1Stdin := Z;
  SP1ProvingKey := ();
  SP1VerifyingKey := Z;
  SP1ProofWithPublicValues := Z;
  CpuProverClient := ();
  NetworkProverClient := ();
  cpu_prover_new := mret ();
  cpu_prover_mock := mret ();
  network_prover_build _ _ := mret ();
  cpu_setup _ program := mret ((), Z.of_nat (length program));
  network_setup _ program := mret ((), Z.of_nat (length program));
  cpu_run _ _ stdin _ _ := run stdin;
  network_run _ _ stdin _ _ := run stdin;
  cpu_verify _ p _ := ToySdk.sample_verify p;
  network_verify _ p _ := ToySdk.sample_verify p;
|}.

#[export] Instance metrics : Metrics counters := {| metric_add := bump |}.

#[export] Instance wire : AgglayerWire counters := {|
  wire_stdin bs := Ok (be_value bs);
  wire_proof p := Ok (be_bytes 8 p : bytes);
  wire_generate_proof_error e := Ok ((be_bytes 4 (ge_error_type e) : bytes) ++ ge_error e);
  wire_verification_error _ := Ok [];
  wire_executor_data bs := Ok bs;
|}.

Definition simple : ProverRPC (W:=counters) :=
  {| executor :=
       {| poll_ready w := (Ready (Ok ()), w); ready := mret ();
          call req w :=
            (if decide (stdin req = 13) then Err (Boxed UnableToExecuteProver)
             else Ok {| proof := stdin req |}, w) |} |}.

Definition ask (z : Z) : GenerateProofRequest := {| gp_stdin := Some (be_bytes 8 z : bytes) |}.

Example answered : generate_proof simple (ask 9) (0, 0, 0) =
  (Ok {| gp_proof := be_bytes 8 9 |}, (1, 1, 0)).
Proof. vm_compute. reflexivity. Qed.

Example refused : generate_proof simple (ask 13) (5, 3, 1) =
  (Err (status_with_details CodeInternal "Unable to execute prover" (be_bytes 4 1)),
   (6, 3, 2)).
Proof. vm_compute. reflexivity. Qed.

Lemma generate_proof_contains_panics_witness :
  is_panic (generate_proof simple (ask 14) (0, 0, 0)).1 = false.
Proof.
  apply generate_proof_contains_panics.
  - split_and!; intros; discriminate.
  - reflexivity.
  - intros req w. simpl. by case_decide.
Defined.

#[export] Instance counted : Counted simple count.
Proof.
  split; [|done|done].
  intros m m' [[r s] f]. destruct m, m'; simpl; lia.
Qed.

Lemma metrics_account_witness :
  let '(r, w') := generate_proof simple (ask 13) (5, 3, 1) in
  count PROVING_REQUEST_RECV w' = 6 ∧ is_ok r = false.
Proof.
  pose proof (metrics_account simple count (ask 13) (5, 3, 1) counted) as Hm.
  rewrite refused in Hm |- *. destruct Hm as [Hm _]. split; [exact Hm|reflexivity].
Defined.

#[export] Instance proofs : Sp1Proofs counters := {|
  SP1ReduceProof := ();
  proof_public_values p := be_bytes 8 p : bytes;
  proof_mode _ := Ok ModePlonk;
  try_as_compressed _ := Ok None;
|}.

#[export] Instance deps : BuilderDeps counters := {|
  stdin_new := Ok (0 : SP1Stdin);
  stdin_write stdin _ := Ok stdin;
  stdin_write_proof stdin _ _ := Ok stdin;
  deserialize_public_values _ := Err "not used";
  serialize_vkey vkey := Ok (be_bytes 4 vkey : bytes);
  serialize_stark _ := Ok [];
  buffer Req Res E s _ := service_map_err Boxed s;
|}.

#[export] Instance deps_laws : BuilderDepsLaws counters.
Proof. split. intros Req Res E s n req w res w' Hc%io_map_err_ok. by exists w, w'. Qed.

#[export] Instance tokio : Tokio counters := tokio_direct.
#[export] Instance tokio_laws : TokioLaws (W:=counters) := ToySdk.tokio_laws.
#[export] Instance layers : TowerLayers counters := ToySdk.layers.
#[export] Instance layers_laws : TowerLayersLaws counters := ToySdk.layers_laws.

Definition config : outcome report Agglayer.AgglayerProverConfig :=
  Agglayer.agglayer_prover_config_default (λ _, None).

Definition run_once : option (ProverRPC (W:=counters) * GenerateProofResponse) :=
  match config return _ with
  | Ok config =>
      match create_service config [x00; x01] (0, 0, 0) return _ with
      | (Ok self, _) =>
          match generate_proof (server_inner self) (ask 9) (0, 0, 0) return _ with
          | (Ok resp, _) => Some (server_inner self, resp)
          | _ => None
          end
      | _ => None
      end
  | _ => None
  end.

Example run_once_ok : snd <$> run_once = Some {| gp_proof := be_bytes 8 9 |}.
Proof. vm_compute. reflexivity. Qed.

Lemma agglayer_proof_verified_witness :
  ∃ p : Z, verified (W:=counters) [x00; x01] p ∧ be_bytes 8 p = (be_bytes 8 9 : bytes).
Proof.
  pose proof run_once_ok as Hs. unfold run_once in Hs.
  destruct config as [cfg| |]; [|discriminate Hs..].
  destruct (create_service cfg [x00; x01] (0, 0, 0)) as [[self| |] w1] eqn:Hn;
    [|discriminate Hs..].
  destruct (generate_proof (server_inner self) (ask 9) (0, 0, 0)) as [[resp| |] w'] eqn:Hg;
    [|discriminate Hs..].
  injection Hs as Hs.
  destruct (agglayer_proof_verified cfg [x00; x01] (0, 0, 0) self w1 (ask 9) (0, 0, 0) resp w'
              Hn Hg) as (p & Hv & Hw).
  exists p. split; [exact Hv|]. injection Hw as Hw. rewrite Hs in Hw. exact Hw.
Defined.
End AgglayerSample.
