(* ===== verification/Engine.v ===== *)
(** The server engine: [crates/prover-engine/src/lib.rs], and how the two provers use it:
    [crates/aggkit-prover/src/lib.rs] and [crates/agglayer-prover/src/lib.rs].

    The engine collects RPC services, starts a metrics server and the RPC server, and
    waits for a signal to shut both down.  Starting is a computation that leaves a trace
    of events; what the main task and the two servers do from then on is in [Shutdown]. *)

From S2P Require Import Prelude Bytes Panics Config.

(** ** axum and tonic *)

(** A tonic service: its [NamedService::NAME], and the rest of it. *)
Class Grpc := {
  Handler : Type;
  (** The health and reflection services, and the descriptor of the former. *)
  health_name : string;
  health_handler : Handler;
  health_descriptor : bytes;
  reflection_v1_name : string;
  reflection_v1alpha_name : string;
  (** [Builder::configure()], the registered descriptors, and [build_v1] / [build_v1alpha]. *)
  build_v1 : list bytes → outcome report Handler;
  build_v1alpha : list bytes → outcome report Handler;
}.

Record rpc_service `{!Grpc} : Type := { NAME : string; handler : Handler }.

(** [axum::Router]: [route_service] panics on a path that overlaps with a route, and adds
    a route otherwise. *)
Class Axum `{!Grpc} := {
  Router : Type;
  router_new : Router;
  routes : Router → list (string * rpc_service);
  route_service : Router → string → rpc_service → outcome Empty_set Router;
}.

Class AxumLaws `{Axum} : Prop := {
  routes_new : routes router_new = [];
  route_service_fresh r path s :
    path ∉ (routes r).*1 →
    ∃ r', route_service r path s = Ok r' ∧ routes r' = routes r ++ [(path, s)];
  route_service_overlap r path s :
    path ∈ (routes r).*1 → is_panic (route_service r path s) = true;
}.

(** ** The engine *)

Inductive RuntimeName : Type :=
  | AggkitRuntime | AgglayerRuntime | ProverRuntime | MetricsRuntime | MainRuntime.

(** A [CancellationToken]; clones of a token are the same token.  The provers make a global
    one, [unwrap_or_default] makes one where none is set. *)
Inductive CancellationToken : Type := GlobalToken | DefaultToken.

Inductive event : Type :=
  | BuiltRuntime (name : RuntimeName)
  | BuiltMetricsServer (addr : SocketAddr) (stop : CancellationToken)
  | SpawnedMetrics
  | Bound (addr : SocketAddr)
  | ServingStatus (service : string)
  | SpawnedRpc (paths : list string) (stop : CancellationToken)
  | Cancelled (token : CancellationToken).

#[export] Instance SocketAddr_inhabited : Inhabited SocketAddr :=
  populate {| ip := DEFAULT_IP; port := 0 |}.

(** What the operating system does to the engine: building a runtime, the metrics server,
    and binding the RPC socket may fail. *)
Record Environment : Type := {
  env_runtime : RuntimeName → outcome report ();
  env_metrics : SocketAddr → outcome report ();
  env_bind : SocketAddr → outcome report ();
}.

Definition emit {E} (e : event) : io (list event) E () := λ trace, (Ok (), trace ++ [e]).

(** An event that may fail, then is traced. *)
Definition attempt (r : outcome report ()) (e : event) : io (list event) report () :=
  _ ← lift r; emit e.

Section engine.
Context `{Axum}.

Record ProverEngine : Type := {
  rpc_server : Router;
  rpc_runtime : option RuntimeName;
  metrics_runtime : option RuntimeName;
  reflection : list bytes;
  healthy_service : list string;
  cancellation_token : option CancellationToken;
  metric_socket_addr : SocketAddr;
  rpc_socket_addr : SocketAddr;
  runtime_shutdown_timeout : Duration;
}.

Definition engine_new (rpc_socket_addr metric_socket_addr : SocketAddr)
    (runtime_shutdown_timeout : Duration) : ProverEngine :=
  {| rpc_server := router_new;
     reflection := [health_descriptor];
     healthy_service := [];
     rpc_runtime := None;
     metrics_runtime := None;
     cancellation_token := None;
     metric_socket_addr := metric_socket_addr;
     rpc_socket_addr := rpc_socket_addr;
     runtime_shutdown_timeout := runtime_shutdown_timeout |}.

Definition set_rpc_runtime (self : ProverEngine) (runtime : RuntimeName) : ProverEngine :=
  {| rpc_server := rpc_server self; rpc_runtime := Some runtime;
     metrics_runtime := metrics_runtime self; reflection := reflection self;
     healthy_service := healthy_service self; cancellation_token := cancellation_token self;
     metric_socket_addr := metric_socket_addr self; rpc_socket_addr := rpc_socket_addr self;
     runtime_shutdown_timeout := runtime_shutdown_timeout self |}.

Definition set_metrics_runtime (self : ProverEngine) (runtime : RuntimeName) : ProverEngine :=
  {| rpc_server := rpc_server self; rpc_runtime := rpc_runtime self;
     metrics_runtime := Some runtime; reflection := reflection self;
     healthy_service := healthy_service self; cancellation_token := cancellation_token self;
     metric_socket_addr := metric_socket_addr self; rpc_socket_addr := rpc_socket_addr self;
     runtime_shutdown_timeout := runtime_shutdown_timeout self |}.

Definition set_cancellation_token (self : ProverEngine) (token : CancellationToken)
    : ProverEngine :=
  {| rpc_server := rpc_server self; rpc_runtime := rpc_runtime self;
     metrics_runtime := metrics_runtime self; reflection := reflection self;
     healthy_service := healthy_service self; cancellation_token := Some token;
     metric_socket_addr := metric_socket_addr self; rpc_socket_addr := rpc_socket_addr self;
     runtime_shutdown_timeout := runtime_shutdown_timeout self |}.

(** Two methods that do the same. *)
Definition add_rpc_reflection (self : ProverEngine) (descriptor : bytes) : ProverEngine :=
  {| rpc_server := rpc_server self; rpc_runtime := rpc_runtime self;
     metrics_runtime := metrics_runtime self;
     reflection := reflection self ++ [descriptor];
     healthy_service := healthy_service self; cancellation_token := cancellation_token self;
     metric_socket_addr := metric_socket_addr self; rpc_socket_addr := rpc_socket_addr self;
     runtime_shutdown_timeout := runtime_shutdown_timeout self |}.

Definition add_reflection_service (self : ProverEngine) (descriptor : bytes) : ProverEngine :=
  {| rpc_server := rpc_server self; rpc_runtime := rpc_runtime self;
     metrics_runtime := metrics_runtime self; reflection := reflection self ++ [descriptor];
     healthy_service := healthy_service self; cancellation_token := cancellation_token self;
     metric_socket_addr := metric_socket_addr self; rpc_socket_addr := rpc_socket_addr self;
     runtime_shutdown_timeout := runtime_shutdown_timeout self |}.

(** The path [format!("/{}/{{*rest}}", S::NAME)]. *)
Definition service_path (name : string) : string := "/" +:+ name +:+ "/{*rest}".

Definition router_add_rpc_service (router : Router) (service : rpc_service)
    : outcome Empty_set Router :=
  route_service router (service_path (NAME service)) service.

Definition add_rpc_service (self : ProverEngine) (service : rpc_service)
    : outcome Empty_set ProverEngine :=
  router ← router_add_rpc_service (rpc_server self) service;
  Ok {| rpc_server := router; rpc_runtime := rpc_runtime self;
        metrics_runtime := metrics_runtime self; reflection := reflection self;
        healthy_service := healthy_service self ++ [NAME service];
        cancellation_token := cancellation_token self;
        metric_socket_addr := metric_socket_addr self;
        rpc_socket_addr := rpc_socket_addr self;
        runtime_shutdown_timeout := runtime_shutdown_timeout self |}.

(** A loop of effects. *)
Fixpoint for_each {A} (l : list A) (f : A → io (list event) report ())
    : io (list event) report () :=
  match l with
  | [] => mret ()
  | a :: l => _ ← f a; for_each l f
  end.

(** The body of [start] up to the point where it waits for a signal. *)
Definition start_servers (env : Environment) (self : ProverEngine) (token : CancellationToken)
    : io (list event) report Router :=
  _ ← match metrics_runtime self with
      | Some _ => mret ()
      | None => attempt (env_runtime env MetricsRuntime) (BuiltRuntime MetricsRuntime)
      end;
  _ ← match rpc_runtime self with
      | Some _ => mret ()
      | None => attempt (env_runtime env ProverRuntime) (BuiltRuntime ProverRuntime)
      end;
  _ ← attempt (env_metrics env (metric_socket_addr self))
        (BuiltMetricsServer (metric_socket_addr self) token);
  _ ← emit SpawnedMetrics;
  _ ← attempt (env_bind env (rpc_socket_addr self)) (Bound (rpc_socket_addr self));
  reflection_v1 ← lift (map_err (ReportContext "Unable to build the reflection_v1")
    (build_v1 (reflection self)));
  reflection_v1alpha ← lift (map_err (ReportContext "Unable to build the reflection_v1alpha")
    (build_v1alpha (reflection self)));
  _ ← for_each (healthy_service self) (λ service_name, emit (ServingStatus service_name));
  rpc_server ← lift (never (router_add_rpc_service (rpc_server self)
    {| NAME := reflection_v1_name; handler := reflection_v1 |}));
  rpc_server ← lift (never (router_add_rpc_service rpc_server
    {| NAME := reflection_v1alpha_name; handler := reflection_v1alpha |}));
  rpc_server ← lift (never (router_add_rpc_service rpc_server
    {| NAME := health_name; handler := health_handler |}));
  _ ← emit (SpawnedRpc (routes rpc_server).*1 token);
  _ ← attempt (env_runtime env MainRuntime) (BuiltRuntime MainRuntime);
  mret rpc_server.

(** The guard [_cancel_on_panic] cancels the token when [start] is left early. *)
Definition start (env : Environment) (self : ProverEngine) : io (list event) report Router :=
  let token := default DefaultToken (cancellation_token self) in
  λ trace,
    match start_servers env self token trace with
    | (Ok router, trace) => (Ok router, trace)
    | (Err e, trace) => (Err e, trace ++ [Cancelled token])
    | (Panic p, trace) => (Panic p, trace ++ [Cancelled token])
    end.

(** *** The provers' engines *)

(** [aggkit_prover::runtime], from the loaded configuration and the service. *)
Definition aggkit_engine {S} `{!Urls} (config : Aggkit.AggkitProverConfig S)
    (aggchain_proof_service : rpc_service) (descriptor : bytes)
    : outcome Empty_set ProverEngine :=
  self ← add_rpc_service
    (engine_new (Aggkit.ak_grpc_endpoint S config) (addr (Aggkit.ak_telemetry S config))
       (runtime_timeout (Aggkit.ak_shutdown S config)))
    aggchain_proof_service;
  Ok (set_cancellation_token
        (set_metrics_runtime
           (set_rpc_runtime (add_reflection_service self descriptor) AggkitRuntime)
           MetricsRuntime)
        GlobalToken).

(** [agglayer_prover::main]: no reflection of its own service. *)
Definition agglayer_engine `{!Urls} (config : Agglayer.AgglayerProverConfig)
    (pp_service : rpc_service) : outcome Empty_set ProverEngine :=
  self ← add_rpc_service
    (engine_new (Agglayer.al_grpc_endpoint config) (addr (Agglayer.al_telemetry config))
       (runtime_timeout (Agglayer.al_shutdown config)))
    pp_service;
  Ok (set_cancellation_token
        (set_metrics_runtime (set_rpc_runtime self AgglayerRuntime) MetricsRuntime)
        GlobalToken).
End engine.

(** ** What is served *)

Section serving.
Context `{AxumLaws}.

Lemma service_path_inj n1 n2 : service_path n1 = service_path n2 → n1 = n2.
Proof. unfold service_path. intros Heq%(inj (String.append "/")). by apply suffix_inj in Heq. Qed.

(** The routes of services, in the order they were added. *)
Definition paths (names : list string) : list string := service_path <$> names.

Lemma elem_of_paths name names : service_path name ∈ paths names ↔ name ∈ names.
Proof.
  unfold paths. rewrite list_elem_of_fmap. split.
  - by intros (n & Heq%service_path_inj & Hn); subst.
  - eauto.
Qed.

Lemma router_add r names (s : rpc_service) :
  (routes r).*1 = paths names → NAME s ∉ names →
  ∃ r', router_add_rpc_service r s = Ok r' ∧ (routes r').*1 = paths (names ++ [NAME s]).
Proof.
  intros Hr Hs. destruct (route_service_fresh r (service_path (NAME s)) s) as (r' & Hr' & Hrs).
  - by rewrite Hr, elem_of_paths.
  - exists r'. split; [done|]. unfold paths. by rewrite Hrs, !fmap_app, Hr.
Qed.

Lemma router_add_dup r names (s : rpc_service) :
  (routes r).*1 = paths names → NAME s ∈ names →
  is_panic (router_add_rpc_service r s) = true.
Proof. intros Hr Hs. apply route_service_overlap. by rewrite Hr, elem_of_paths. Qed.

Lemma router_add_inv r names (s : rpc_service) r' :
  (routes r).*1 = paths names → router_add_rpc_service r s = Ok r' →
  (routes r').*1 = paths (names ++ [NAME s]).
Proof.
  intros Hr Hs. destruct (decide (NAME s ∈ names)) as [Hin|Hin].
  - apply (router_add_dup r names s Hr) in Hin. by rewrite Hs in Hin.
  - destruct (router_add r names s Hr Hin) as (r1 & Hr1 & Hrs). congruence.
Qed.

(** A chain of [add_rpc_service] calls. *)
Fixpoint add_services (self : ProverEngine) (services : list rpc_service)
    : outcome Empty_set ProverEngine :=
  match services with
  | [] => Ok self
  | s :: services => self ← add_rpc_service self s; add_services self services
  end.

Lemma add_services_ok (self : ProverEngine) names services :
  (routes (rpc_server self)).*1 = paths names → healthy_service self = names →
  NoDup (names ++ (NAME <$> services)) →
  ∃ self', add_services self services = Ok self' ∧
    (routes (rpc_server self')).*1 = paths (names ++ (NAME <$> services)) ∧
    healthy_service self' = names ++ (NAME <$> services) ∧
    rpc_runtime self' = rpc_runtime self ∧ metrics_runtime self' = metrics_runtime self ∧
    rpc_socket_addr self' = rpc_socket_addr self ∧
    metric_socket_addr self' = metric_socket_addr self ∧ reflection self' = reflection self ∧
    cancellation_token self' = cancellation_token self.
Proof.
  revert self names. induction services as [|s services IH]; intros self names Hr Hh Hnd.
  { exists self. csimpl. by rewrite app_nil_r. }
  rewrite fmap_cons, cons_middle, (assoc_L (++)) in Hnd.
  assert (NAME s ∉ names) as Hfresh.
  { intros Hs. apply list.NoDup_app in Hnd as (Hnd & _ & _).
    apply list.NoDup_app in Hnd as (_ & Hd & _). apply (Hd _ Hs). by left. }
  destruct (router_add (rpc_server self) names s Hr Hfresh) as (r' & Hr' & Hrs).
  simpl. unfold add_rpc_service. rewrite Hr'. simpl.
  match goal with |- context [add_services ?e services] =>
    destruct (IH e (names ++ [NAME s])) as (self' & Hadd & Hself');
      [exact Hrs|simpl; by rewrite Hh|done|] end.
  exists self'. rewrite <-(assoc_L (++)) in Hself'. split; [exact Hadd|exact Hself'].
Qed.

Lemma for_each_emit {A} (l : list A) (f : A → event) trace :
  for_each l (λ a, emit (f a)) trace = (Ok (), trace ++ (f <$> l)).
Proof.
  revert trace. induction l as [|a l IH]; intros trace; simpl.
  - by rewrite app_nil_r.
  - unfold mbind, io_bind, emit. rewrite IH. by rewrite <-(assoc_L (++)).
Qed.

Lemma attempt_ok r e (trace : list event) x trace' :
  attempt r e trace = (Ok x, trace') → trace' = trace ++ [e].
Proof.
  intros Ha. io_step Ha as u t Hu. apply lift_ok in Hu as [_ ->]. by injection Ha as _ <-.
Qed.

(** Services with distinct names can all be added, and an engine that starts serves
    exactly them and the reflection and health services; the metrics server is up before
    the RPC socket is bound, every added service is reported healthy before the RPC
    server runs, and both servers stop with the token that was set. *)
Theorem engine_serves services rpc metrics timeout token :
  NoDup ((NAME <$> services) ++ [reflection_v1_name; reflection_v1alpha_name; health_name]) →
  ∃ self, add_services (engine_new rpc metrics timeout) services = Ok self ∧
    ∀ env trace router trace',
      start env (set_cancellation_token self token) trace = (Ok router, trace') →
      let all := paths ((NAME <$> services) ++
                   [reflection_v1_name; reflection_v1alpha_name; health_name]) in
      (routes router).*1 = all ∧
      trace' = trace ++
        [BuiltRuntime MetricsRuntime; BuiltRuntime ProverRuntime;
         BuiltMetricsServer metrics token; SpawnedMetrics; Bound rpc] ++
        (ServingStatus <$> (NAME <$> services)) ++ [SpawnedRpc all token; BuiltRuntime MainRuntime].
Proof.
  intros (Hnds & _ & _)%list.NoDup_app.
  destruct (add_services_ok (engine_new rpc metrics timeout) [] services)
    as (self & Hadd & Hroutes & Hhealthy & Hrr & Hmr & Hrs & Hms & _ & _);
    [by simpl; rewrite routes_new|done|done|].
  exists self. split; [done|]. intros env trace router trace' Hs. cbn zeta.
  unfold start in Hs. simpl in Hs. destruct (start_servers _ _ _ trace) as [[r|e|p] t] eqn:Hst; [|discriminate Hs..].
  injection Hs as -> ->. unfold start_servers in Hst. simpl in Hst.
  rewrite Hrr, Hmr, Hrs, Hms, Hhealthy in Hst. simpl in Hroutes.
  io_step Hst as u1 t1 E1. apply attempt_ok in E1 as ->.
  io_step Hst as u2 t2 E2. apply attempt_ok in E2 as ->.
  io_step Hst as u3 t3 E3. apply attempt_ok in E3 as ->.
  io_step Hst as u4 t4 E4. injection E4 as _ <-.
  io_step Hst as u5 t5 E5. apply attempt_ok in E5 as ->.
  io_step Hst as v1 t6 E6. apply lift_ok in E6 as [_ ->].
  io_step Hst as v1a t7 E7. apply lift_ok in E7 as [_ ->].
  io_step Hst as u8 t8 E8. rewrite for_each_emit in E8. injection E8 as _ <-.
  io_step Hst as r1 t9 E9. apply lift_ok in E9 as [E9%never_ok ->].
  io_step Hst as r2 t10 E10. apply lift_ok in E10 as [E10%never_ok ->].
  io_step Hst as r3 t11 E11. apply lift_ok in E11 as [E11%never_ok ->].
  io_step Hst as u12 t12 E12. injection E12 as _ <-.
  io_step Hst as u13 t13 E13. apply attempt_ok in E13 as ->. injection Hst as <- <-.
  assert ((routes r3).*1 = paths ((NAME <$> services) ++
            [reflection_v1_name; reflection_v1alpha_name; health_name])) as Hr3.
  { apply (router_add_inv _ _ _ _ Hroutes) in E9. apply (router_add_inv _ _ _ _ E9) in E10.
    apply (router_add_inv _ _ _ _ E10) in E11. simpl in E11. by rewrite <-!(assoc_L (++)) in E11. }
  split; [done|]. rewrite Hr3. by rewrite <-!(assoc_L (++)).
Qed.
End serving.

(** ** A concrete engine *)

Module EngineSample.
#[export] Instance grpc : Grpc := {|
  Handler := ();
  health_name := "grpc.health.v1.Health";
  health_handler := ();
  health_descriptor := [];
  reflection_v1_name := "grpc.reflection.v1.ServerReflection";
  reflection_v1alpha_name := "grpc.reflection.v1alpha.ServerReflection";
  build_v1 _ := Ok ();
  build_v1alpha _ := Ok ();
|}.

#[export] Instance axum : Axum := {|
  Router := list (string * rpc_service);
  router_new := [];
  routes r := r;
  route_service r path s :=
    if decide (path ∈ (r.*1)) then Panic (PayloadString "Overlapping method route")
    else Ok (r ++ [(path, s)]);
|}.

#[export] Instance axum_laws : AxumLaws.
Proof.
  split; [done| |]; intros r path s Hp; simpl.
  - rewrite decide_False by done. by eexists.
  - by rewrite decide_True by done.
Qed.

Definition pessimistic : rpc_service :=
  {| NAME := "agglayer.prover.v1.PessimisticProofService"; handler := () |}.

Definition calm : Environment :=
  {| env_runtime _ := Ok (); env_metrics _ := Ok (); env_bind _ := Ok () |}.

Definition rpc_addr : SocketAddr := Agglayer.agglayer_socket_addr.
Definition metrics_addr : SocketAddr := Agglayer.agglayer_metrics_api_addr.

Lemma engine_serves_witness :
  ∃ self, add_services (engine_new rpc_addr metrics_addr 5) [pessimistic] = Ok self ∧
    ∃ router trace, start calm (set_cancellation_token self GlobalToken) [] = (Ok router, trace) ∧
      (routes router).*1 = paths [NAME pessimistic; reflection_v1_name;
                                  reflection_v1alpha_name; health_name].
Proof.
  destruct (engine_serves [pessimistic] rpc_addr metrics_addr 5 GlobalToken) as (self & Hadd & Hs).
  - apply (bool_decide_unpack _). vm_compute. exact I.
  - exists self. split; [exact Hadd|].
    destruct (start calm (set_cancellation_token self GlobalToken) []) as [r trace] eqn:Hst.
    vm_compute in Hadd. injection Hadd as <-. pose proof Hst as Hst'.
    vm_compute in Hst'. injection Hst' as <- <-.
    eexists _, _. split; [reflexivity|]. exact (proj1 (Hs calm [] _ _ Hst)).
Defined.

(** A socket that cannot be bound: the token is cancelled, nothing is reported healthy. *)
Definition busy : Environment :=
  {| env_runtime _ := Ok (); env_metrics _ := Ok ();
     env_bind _ := Err (ReportMsg "address in use") |}.

Example busy_socket :
  match add_services (engine_new rpc_addr metrics_addr 5) [pessimistic] return _ with
  | Ok self => start busy self []
  | _ => (Panic PayloadOther, [])
  end =
  (Err (ReportMsg "address in use"),
   [BuiltRuntime MetricsRuntime; BuiltRuntime ProverRuntime;
    BuiltMetricsServer metrics_addr DefaultToken; SpawnedMetrics; Cancelled DefaultToken]).
Proof. vm_compute. reflexivity. Qed.
End EngineSample.
