(* ===== verification/Shutdown.v ===== *)
(** How the server engine stops: the end of [ProverEngine::start] in
    [crates/prover-engine/src/lib.rs], from the [select!] on, and the two servers that it has
    spawned.

    The main task and the two servers run concurrently, and meet in the cancellation token
    and in the join handles of the servers.  They are a transition system: a state has the
    place of the main task, the signals that have arrived, the token and the two servers; an
    action is one instruction of the main task, one thing that a server does, or one thing
    that happens to the process.  An action is a partial function on states, so that
    sequences of actions can be run.

    Nothing in this file makes a server stop by itself: it drains only once the token is
    cancelled, and only the main task's [cancel] does that for sure.  Nor does a signal have to
    arrive. *)

From S2P Require Import Prelude.

(** ** The system *)

Inductive signal : Type := SIGTERM | SIGINT.

(** The tasks of [prover_handle] and of [metrics_handle]. *)
Inductive server_name : Type := Prover | Metrics.

(** Where the main task is; the two branches of the [select!] are the same but for their
    message.  [cancellation_token.cancel()] is an instruction of its own, like the two awaits
    and the two [shutdown_timeout] calls. *)
Inductive main_task : Type :=
  | Selecting
  | Cancelling (s : signal)
  | AwaitingProver (s : signal)
  | AwaitingMetrics (s : signal)
  | StoppingProverRuntime
  | StoppingMetricsRuntime
  | Returned.

(** A server made by [axum::serve(..).with_graceful_shutdown(token.cancelled())], with its
    open connections: it accepts connections, or accepts no more and waits for those that
    are open, or its task is over, for whatever reason. *)
Inductive server : Type :=
  | Serving (connections : nat)
  | Draining (connections : nat)
  | Finished.

Record system : Type := {
  main : main_task;
  sigterm_pending : bool;
  sigint_pending : bool;
  token_cancelled : bool;
  prover : server;
  metrics : server;
}.

Definition pending (s : system) (sg : signal) : bool :=
  match sg with SIGTERM => sigterm_pending s | SIGINT => sigint_pending s end.

Definition server_of (s : system) (who : server_name) : server :=
  match who with Prover => prover s | Metrics => metrics s end.

Definition with_main (m : main_task) (s : system) : system :=
  {| main := m; sigterm_pending := sigterm_pending s; sigint_pending := sigint_pending s;
     token_cancelled := token_cancelled s; prover := prover s; metrics := metrics s |}.

Definition with_pending (sg : signal) (b : bool) (s : system) : system :=
  {| main := main s;
     sigterm_pending := match sg with SIGTERM => b | SIGINT => sigterm_pending s end;
     sigint_pending := match sg with SIGTERM => sigint_pending s | SIGINT => b end;
     token_cancelled := token_cancelled s; prover := prover s; metrics := metrics s |}.

Definition cancelled (s : system) : system :=
  {| main := main s; sigterm_pending := sigterm_pending s; sigint_pending := sigint_pending s;
     token_cancelled := true; prover := prover s; metrics := metrics s |}.

Definition with_server (who : server_name) (x : server) (s : system) : system :=
  {| main := main s; sigterm_pending := sigterm_pending s; sigint_pending := sigint_pending s;
     token_cancelled := token_cancelled s;
     prover := match who with Prover => x | Metrics => prover s end;
     metrics := match who with Prover => metrics s | Metrics => x end |}.

(** Both servers are spawned, no signal has arrived. *)
Definition started : system :=
  {| main := Selecting; sigterm_pending := false; sigint_pending := false;
     token_cancelled := false; prover := Serving 0; metrics := Serving 0 |}.

(** ** What can happen *)

Inductive action : Type :=
  (** The instructions of the main task. *)
  | Select (sg : signal)
  | Cancel
  | JoinProver
  | JoinMetrics
  | StopProverRuntime
  | StopMetricsRuntime
  (** A server sees that the token is cancelled; an open connection ends; the task of a server
      with none left ends. *)
  | Drain (who : server_name)
  | ConnectionEnds (who : server_name)
  | Stop (who : server_name)
  (** What happens to the process: a signal, a cancellation by the owner of the token, a
      connection, the end of a server task by an error or a panic. *)
  | SignalArrives (sg : signal)
  | CancelOutside
  | ConnectionOpens (who : server_name)
  | ServerFails (who : server_name).

#[export] Instance signal_eq_dec : EqDecision signal.
Proof. solve_decision. Defined.

#[export] Instance server_name_eq_dec : EqDecision server_name.
Proof. solve_decision. Defined.


Definition step (a : action) (s : system) : option system :=
  match a with
  | Select sg =>
      match main s with
      | Selecting =>
          if pending s sg then Some (with_main (Cancelling sg) (with_pending sg false s))
          else None
      | _ => None
      end
  | Cancel =>
      match main s with
      | Cancelling sg => Some (with_main (AwaitingProver sg) (cancelled s))
      | _ => None
      end
  | JoinProver =>
      match main s, prover s with
      | AwaitingProver sg, Finished => Some (with_main (AwaitingMetrics sg) s)
      | _, _ => None
      end
  | JoinMetrics =>
      match main s, metrics s with
      | AwaitingMetrics _, Finished => Some (with_main StoppingProverRuntime s)
      | _, _ => None
      end
  | StopProverRuntime =>
      match main s with
      | StoppingProverRuntime => Some (with_main StoppingMetricsRuntime s)
      | _ => None
      end
  | StopMetricsRuntime =>
      match main s with
      | StoppingMetricsRuntime => Some (with_main Returned s)
      | _ => None
      end
  | Drain who =>
      match server_of s who with
      | Serving n => if token_cancelled s then Some (with_server who (Draining n) s) else None
      | _ => None
      end
  | ConnectionEnds who =>
      match server_of s who with
      | Serving (S n) => Some (with_server who (Serving n) s)
      | Draining (S n) => Some (with_server who (Draining n) s)
      | _ => None
      end
  | Stop who =>
      match server_of s who with
      | Draining 0 => Some (with_server who Finished s)
      | _ => None
      end
  | SignalArrives sg => Some (with_pending sg true s)
  | CancelOutside => Some (cancelled s)
  | ConnectionOpens who =>
      match server_of s who with
      | Serving n => Some (with_server who (Serving (S n)) s)
      | _ => None
      end
  | ServerFails who =>
      match server_of s who with
      | Finished => None
      | _ => Some (with_server who Finished s)
      end
  end.

(** The actions one after the other, where each is possible. *)
Fixpoint exec (acts : list action) (s : system) : option system :=
  match acts with
  | [] => Some s
  | a :: acts => s' ← step a s; exec acts s'
  end.

(** What the program does sooner or later if it can: the instructions of the main task, and
    the servers' reaction to the token, the end of their connections included.  The rest
    need not happen. *)
Definition obliged (a : action) : bool :=
  match a with
  | Select _ | Cancel | JoinProver | JoinMetrics | StopProverRuntime | StopMetricsRuntime
  | Drain _ | ConnectionEnds _ | Stop _ => true
  | SignalArrives _ | CancelOutside | ConnectionOpens _ | ServerFails _ => false
  end.

Definition main_action (a : action) : bool :=
  match a with
  | Select _ | Cancel | JoinProver | JoinMetrics | StopProverRuntime | StopMetricsRuntime => true
  | _ => false
  end.

(** *** Runs without an end

    At each moment an action is taken or nothing happens. *)

Definition engine_run (σ : nat → system) (acts : nat → option action) : Prop :=
  σ 0%nat = started ∧
  ∀ i, match acts i with
       | Some a => step a (σ i) = Some (σ (S i))
       | None => σ (S i) = σ i
       end.

(** No action that the program owes is possible for ever without being taken. *)
Definition fair (σ : nat → system) (acts : nat → option action) : Prop :=
  ∀ a i, obliged a = true →
    ∃ j, (i <= j)%nat ∧ (acts j = Some a ∨ step a (σ j) = None).

(** ** Safety *)

(** How far the main task is. *)
Definition progress (m : main_task) : nat :=
  match m with
  | Selecting => 0
  | Cancelling _ => 1
  | AwaitingProver _ => 2
  | AwaitingMetrics _ => 3
  | StoppingProverRuntime => 4
  | StoppingMetricsRuntime => 5
  | Returned => 6
  end.

(** The instructions of the branch of a signal, and the rest of [start]. *)
Definition script (sg : signal) : list action :=
  [Select sg; Cancel; JoinProver; JoinMetrics; StopProverRuntime; StopMetricsRuntime].

Definition join_of (who : server_name) : action :=
  match who with Prover => JoinProver | Metrics => JoinMetrics end.

Definition connections (x : server) : nat :=
  match x with Serving n | Draining n => n | Finished => 0 end.


Lemma exec_snoc acts a s s' :
  exec (acts ++ [a]) s = Some s' ↔ ∃ s1, exec acts s = Some s1 ∧ step a s1 = Some s'.
Proof.
  revert s. induction acts as [|b acts IH]; intros s; simpl.
  - split.
    + intros (s1 & Ha & [= ->])%bind_Some. eauto.
    + intros (s1 & [= ->] & ->). done.
  - split.
    + intros (s2 & -> & Hs)%bind_Some. by apply IH.
    + intros (s1 & (s2 & -> & Hs)%bind_Some & Ha). apply IH. eauto.
Qed.

(** An invariant of states and of the actions that led to them. *)
Lemma exec_ind (P : list action → system → Prop) :
  P [] started →
  (∀ acts a s s', P acts s → step a s = Some s' → P (acts ++ [a]) s') →
  ∀ acts s, exec acts started = Some s → P acts s.
Proof.
  intros H0 Hstep acts. induction acts as [|a acts IH] using rev_ind; intros s Hs.
  - by injection Hs as <-.
  - apply exec_snoc in Hs as (s1 & Hs1 & Ha). eauto.
Qed.

(** The cases of a step, with the state taken apart. *)
Ltac step_cases a s :=
  destruct s as [mt pt pi tok [np|np|] [nm|nm|]], a as [[]| | | | | |[]|[]|[]|[]| |[]|[]];
  simpl in *; repeat case_match; try discriminate; simplify_eq/=.

Lemma step_main a s s' :
  step a s = Some s' →
  if main_action a then
    progress (main s') = S (progress (main s)) ∧
    ∀ sg, (main s = Selecting → a = Select sg) → script sg !! progress (main s) = Some a
  else main s' = main s.
Proof. intros Hs. step_cases a s; naive_solver. Qed.

Lemma step_pending a s s' sg :
  step a s = Some s' → pending s' sg = true → pending s sg = true ∨ a = SignalArrives sg.
Proof. intros Hs Hp. step_cases a s; destruct sg; naive_solver. Qed.

Lemma elem_of_snoc {A} (l : list A) x a : x ∈ l ∨ a = x → x ∈ l ++ [a].
Proof. rewrite elem_of_app, list_elem_of_singleton. naive_solver. Qed.

(** The main task executes the instructions of one script in order, and its signal was there
    before. *)
Definition on_script (acts : list action) (s : system) : Prop :=
  (∀ sg, pending s sg = true → SignalArrives sg ∈ acts) ∧
  ∃ sg, filter main_action acts = take (progress (main s)) (script sg) ∧
    (main s = Selecting ∨
     SignalArrives sg :: take (progress (main s)) (script sg) `sublist_of` acts).

Lemma exec_on_script acts s : exec acts started = Some s → on_script acts s.
Proof.
  revert acts s. apply exec_ind.
  { split; [by intros []|]. exists SIGTERM. split; [done|by left]. }
  intros acts a s s' [Hp (sg & Hf & Ho)] Hs. split.
  { intros sg' Hsg'. apply elem_of_snoc.
    destruct (step_pending _ _ _ _ Hs Hsg') as [|]; auto. }
  pose proof (step_main _ _ _ Hs) as Hm. rewrite filter_app.
  destruct (main_action a) eqn:Ha.
  - destruct Hm as [Hpr Hm]. rewrite Hpr. rewrite filter_cons_True by (by rewrite Ha).
    destruct (decide (progress (main s) = 0)%nat) as [H0|H0].
    + assert (main s = Selecting) as H1 by by destruct (main s).
      assert (∃ sg', a = Select sg' ∧ pending s sg' = true) as (sg' & -> & Hsg').
      { clear - Hs H1 Ha. destruct s, a; simplify_eq/=; case_match; naive_solver. }
      exists sg'. rewrite Hf, H0. split; [done|]. right. simpl.
      apply (sublist_app [_] _ [_]); [|done]. apply singleton_sublist_l, Hp, Hsg'.
    + destruct Ho as [Ho|Ho]; [by rewrite Ho in H0|].
      assert (script sg !! progress (main s) = Some a) as Hsc.
      { apply Hm. intros Hsel. by rewrite Hsel in H0. }
      exists sg. rewrite (take_S_r _ _ _ Hsc), Hf. split; [reflexivity|]. right.
      by apply (sublist_app (_ :: _) _ [_]).
  - rewrite Hm. rewrite filter_cons_False by (rewrite Ha; by intros []).
    exists sg. rewrite app_nil_r. split; [done|].
    destruct Ho as [Ho|Ho]; [by left|right]. by apply sublist_inserts_r.
Qed.

(** What happens to a server in a step. *)
Inductive server_step (a : action) (who : server_name) : server → server → Prop :=
  | server_failed x : a = ServerFails who → server_step a who x Finished
  | server_same x :
      a ≠ ConnectionEnds who → a ≠ ConnectionOpens who → server_step a who x x
  | server_drains n : a = Drain who → server_step a who (Serving n) (Draining n)
  | server_opens n : a = ConnectionOpens who → server_step a who (Serving n) (Serving (S n))
  | server_ends n : a = ConnectionEnds who → server_step a who (Serving (S n)) (Serving n)
  | server_drains_one n :
      a = ConnectionEnds who → server_step a who (Draining (S n)) (Draining n)
  | server_stops : a = Stop who → server_step a who (Draining 0) Finished.

Lemma step_server a s s' who :
  step a s = Some s' → server_step a who (server_of s who) (server_of s' who).
Proof.
  intros Hs. step_cases a s; destruct who; simpl;
    first [by apply server_same|by eapply server_failed|by eapply server_drains
          |by eapply server_opens|by eapply server_ends|by eapply server_drains_one
          |by eapply server_stops].
Qed.

(** The instruction that a server is awaited by comes last, and finds the server finished. *)
Definition joined_at (who : server_name) : nat :=
  match who with Prover => 3 | Metrics => 4 end.

Lemma step_joins a s s' who :
  step a s = Some s' → (joined_at who <= progress (main s'))%nat →
  (joined_at who <= progress (main s))%nat ∨ a = join_of who ∧ server_of s who = Finished.
Proof. intros Hs Hj. step_cases a s; destruct who; simpl in *; naive_solver lia. Qed.

Lemma step_finished a s s' who :
  step a s = Some s' → server_of s who = Finished → server_of s' who = Finished.
Proof. intros Hs Hf. step_cases a s; by destruct who. Qed.

(** What holds of the state alone. *)
Definition joined_ok (s : system) : Prop :=
  ((2 <= progress (main s))%nat → token_cancelled s = true) ∧
  ∀ who, (joined_at who <= progress (main s))%nat → server_of s who = Finished.

Lemma step_joined_ok a s s' : step a s = Some s' → joined_ok s → joined_ok s'.
Proof.
  intros Hs [Ht Hj]. split.
  - clear Hj. step_cases a s; try done; intros;
      first [lia|apply Ht; lia].
  - intros who Hp. destruct (step_joins _ _ _ _ Hs Hp) as [Hb|[_ Hf]];
      eapply step_finished; eauto.
Qed.

Lemma started_joined_ok : joined_ok started.
Proof. split; simpl; [lia|]. intros []; simpl; lia. Qed.






(** Without a signal [start] does not return: neither the token nor the ends of the servers
    wake the main task. *)
Lemma no_signal_no_return acts s :
  exec acts started = Some s → (∀ sg, SignalArrives sg ∉ acts) → main s = Selecting.
Proof.
  intros Hs Hn. destruct (exec_on_script _ _ Hs) as (_ & sg & _ & [Ho|Ho]); [done|].
  destruct (Hn sg). eapply elem_of_sublist; [|exact Ho]. by left.
Qed.

(** The token is cancelled by its owner, both servers stop as they should; [start] waits on. *)
Example deserted :
  exec [CancelOutside; Drain Metrics; Stop Metrics; Drain Prover; Stop Prover] started =
  Some {| main := Selecting; sigterm_pending := false; sigint_pending := false;
          token_cancelled := true; prover := Finished; metrics := Finished |}.
Proof. reflexivity. Qed.

(** ** Liveness *)

(** The place of the main task at which it executes an instruction. *)
Definition position (a : action) : nat :=
  match a with
  | Cancel => 1
  | JoinProver => 2
  | JoinMetrics => 3
  | StopProverRuntime => 4
  | StopMetricsRuntime => 5
  | _ => 0
  end.

Lemma possible_position a s :
  main_action a = true → step a s ≠ None → progress (main s) = position a.
Proof. destruct s as [mt ? ? ? [] []], a; simpl; try done; by destruct mt. Qed.

(** Only the main task takes away what it waits for. *)
Lemma possible_stays a b s s' :
  main_action a = true → step a s ≠ None → step b s = Some s' → main s' = main s →
  step a s' ≠ None.
Proof.
  intros Ha Hs Hb Hm. destruct a as [sg| | | | | |who|who|who| | |who|who]; try done; simpl in *;
    rewrite Hm; try by destruct (main s).
  - destruct (main s) eqn:Hsel; try done. destruct (pending s sg) eqn:Hp; [|done].
    assert (pending s' sg = true) as ->; [|done].
    clear Hs Ha. step_cases b s; by destruct sg.
  - destruct (main s); try done. destruct (prover s) eqn:Hp; try done.
    by rewrite (step_finished _ _ _ Prover Hb Hp : prover s' = Finished).
  - destruct (main s); try done. destruct (metrics s) eqn:Hp; try done.
    by rewrite (step_finished _ _ _ Metrics Hb Hp : metrics s' = Finished).
Qed.

Lemma join_possible who s :
  progress (main s) = position (join_of who) → server_of s who = Finished →
  step (join_of who) s ≠ None.
Proof.
  intros Hp Hf. destruct who; simpl in *; rewrite Hf; by destruct (main s).
Qed.

Section liveness.
Context (σ : nat → system) (acts : nat → option action).
Hypothesis Hrun : engine_run σ acts.
Hypothesis Hfair : fair σ acts.

(** Where [P] holds, [Q] holds then or later. *)
Definition leads_to (P Q : system → Prop) : Prop :=
  ∀ i, P (σ i) → ∃ j, (i <= j)%nat ∧ Q (σ j).

(** No step makes [P] false. *)
Definition stable (P : system → Prop) : Prop := ∀ a s s', step a s = Some s' → P s → P s'.

Lemma run_step i : σ (S i) = σ i ∨ ∃ a, step a (σ i) = Some (σ (S i)).
Proof. destruct Hrun as [_ Hr]. specialize (Hr i). destruct (acts i); eauto. Qed.

Lemma stable_run P i j : stable P → (i <= j)%nat → P (σ i) → P (σ j).
Proof.
  intros HP. induction 1 as [|j _ IH]; [done|]. intros Hi. specialize (IH Hi).
  destruct (run_step j) as [->|[a Ha]]; eauto.
Qed.

Lemma always_joined_ok i : joined_ok (σ i).
Proof.
  apply (stable_run _ 0); [intros a s s'; apply step_joined_ok|lia|].
  rewrite (proj1 Hrun). apply started_joined_ok.
Qed.

Lemma leads_to_now P Q : (∀ s, P s → Q s) → leads_to P Q.
Proof. intros HPQ i Hi. exists i. auto. Qed.

Lemma leads_to_trans P Q R : leads_to P Q → leads_to Q R → leads_to P R.
Proof.
  intros HPQ HQR i (j & Hij & Hj)%HPQ. destruct (HQR j Hj) as (k & Hjk & Hk).
  exists k. split; [lia|done].
Qed.

(** What holds for ever goes on to hold. *)
Lemma leads_to_keep P Q R : stable R → leads_to P Q → leads_to (λ s, R s ∧ P s) (λ s, R s ∧ Q s).
Proof.
  intros HR HPQ i [Hi (j & Hij & Hj)%HPQ]. exists j. split; [done|]. split; [|done].
  by apply (stable_run _ i).
Qed.

(** An action that the program owes, that is possible as long as [P] holds, and that [P] waits
    for. *)
Lemma leads_to_action a P Q :
  obliged a = true →
  (∀ s, P s → step a s ≠ None) →
  (∀ b s s', P s → step b s = Some s' → P s' ∨ Q s') →
  (∀ s s', P s → step a s = Some s' → Q s') →
  leads_to P Q.
Proof.
  intros Ha Hen Hwait Hdo i Hi. destruct (Hfair a i Ha) as (j & Hij & Hj).
  assert (P (σ j) ∨ ∃ k, (i <= k)%nat ∧ Q (σ k)) as [HP|]; [|..|done].
  { clear Hj. induction Hij as [|j Hij IH]; [by left|].
    destruct IH as [HP|]; [|by right].
    destruct (run_step j) as [->|[b Hb]]; [by left|].
    destruct (Hwait _ _ _ HP Hb); [by left|right]. exists (S j). split; [lia|done]. }
  destruct Hj as [Hj|Hj]; [|by destruct (Hen _ HP)].
  exists (S j). split; [lia|]. eapply Hdo; [exact HP|].
  destruct Hrun as [_ Hr]. specialize (Hr j). by rewrite Hj in Hr.
Qed.

Lemma progress_stable n : stable (λ s, (n <= progress (main s))%nat).
Proof.
  intros a s s' Hs. pose proof (step_main _ _ _ Hs) as Hm.
  destruct (main_action a); [destruct Hm as [-> _]; lia|by rewrite Hm].
Qed.

Lemma token_stable : stable (λ s, token_cancelled s = true).
Proof. intros a s s' Hs Ht. by step_cases a s. Qed.

(** A server whose token is cancelled finishes: it drains, its connections end one after the
    other, and it stops. *)
Lemma drained_finishes who n :
  leads_to (λ s, server_of s who = Draining n) (λ s, server_of s who = Finished).
Proof.
  induction n as [|n IH].
  - apply (leads_to_action (Stop who)); [done|..].
    + intros s Hs. simpl. by rewrite Hs.
    + intros b s s' Hs Hb. pose proof (step_server _ _ _ who Hb) as Hw. rewrite Hs in Hw.
      inversion Hw; subst; auto.
    + intros s s' Hs Hb. simpl in Hb. rewrite Hs in Hb. injection Hb as <-. by destruct who.
  - apply (leads_to_trans _
      (λ s, server_of s who = Draining n ∨ server_of s who = Finished)).
    + apply (leads_to_action (ConnectionEnds who)); [done|..].
      * intros s Hs. simpl. by rewrite Hs.
      * intros b s s' Hs Hb. pose proof (step_server _ _ _ who Hb) as Hw. rewrite Hs in Hw.
        inversion Hw; subst; auto.
      * intros s s' Hs Hb. simpl in Hb. rewrite Hs in Hb. injection Hb as <-.
        left. by destruct who.
    + intros i [Hi|Hi]; [by apply IH|]. by exists i.
Qed.

Lemma cancelled_finishes who :
  leads_to (λ s, token_cancelled s = true) (λ s, server_of s who = Finished).
Proof.
  intros i Hi. destruct (server_of (σ i) who) as [n|n|] eqn:Hw.
  - assert (leads_to (λ s, token_cancelled s = true ∧ ∃ n, server_of s who = Serving n)
              (λ s, (∃ n, server_of s who = Draining n) ∨ server_of s who = Finished)) as Hd.
    { apply (leads_to_action (Drain who)); [done|..].
      - intros s [Ht [k Hk]]. simpl. by rewrite Hk, Ht.
      - intros b s s' [Ht [k Hk]] Hb. pose proof (token_stable _ _ _ Hb Ht).
        pose proof (step_server _ _ _ who Hb) as Hs. rewrite Hk in Hs.
        inversion Hs; subst; eauto.
      - intros s s' [Ht [k Hk]] Hb. simpl in Hb. rewrite Hk, Ht in Hb. injection Hb as <-.
        left. exists k. by destruct who. }
    destruct (Hd i (conj Hi (ex_intro _ n Hw))) as (j & Hij & [[k Hk]|Hk]); [|by exists j].
    destruct (drained_finishes who k j Hk) as (l & Hjl & Hl). exists l. split; [lia|done].
  - by apply (drained_finishes who n).
  - by exists i.
Qed.

(** An instruction of the main task that is possible is executed. *)
Lemma main_executes a :
  main_action a = true →
  leads_to (λ s, step a s ≠ None) (λ s, (S (position a) <= progress (main s))%nat).
Proof.
  intros Ha. apply (leads_to_action a); [by destruct a|done|..].
  - intros b s s' Hs Hb. pose proof (step_main _ _ _ Hb) as Hm.
    destruct (main_action b).
    + right. rewrite (proj1 Hm), (possible_position a s) by done. lia.
    + left. by apply (possible_stays a b s).
  - intros s s' Hs Hb. pose proof (step_main _ _ _ Hb) as Hm. rewrite Ha in Hm.
    rewrite (proj1 Hm), (possible_position a s) by done. lia.
Qed.

(** The main task goes on from where [a] comes next, if [a] becomes possible there. *)
Lemma main_advances a :
  main_action a = true →
  (∀ i, progress (main (σ i)) = position a →
     ∃ j, (i <= j)%nat ∧
       (step a (σ j) ≠ None ∨ (S (position a) <= progress (main (σ j)))%nat)) →
  leads_to (λ s, (position a <= progress (main s))%nat)
           (λ s, (S (position a) <= progress (main s))%nat).
Proof.
  intros Ha Hready i Hi.
  destruct (decide (progress (main (σ i)) = position a)) as [Heq|Hne];
    [|exists i; split; [|cbn beta in Hi]; lia].
  destruct (Hready i Heq) as (j & Hij & [Hj|Hj]); [|by exists j].
  destruct (main_executes a Ha j Hj) as (k & Hjk & Hk). exists k. split; [lia|done].
Qed.

(** A server that is awaited will have finished, for the token is cancelled. *)
Lemma join_advances who :
  leads_to (λ s, (position (join_of who) <= progress (main s))%nat)
           (λ s, (S (position (join_of who)) <= progress (main s))%nat).
Proof.
  apply main_advances; [by destruct who|]. intros i Hi.
  destruct (always_joined_ok i) as [Ht _].
  destruct (cancelled_finishes who i) as (j & Hij & Hj).
  { apply Ht. rewrite Hi. destruct who; simpl; lia. }
  exists j. split; [done|].
  pose proof (stable_run _ i j (progress_stable (position (join_of who))) Hij
    ltac:(cbn beta; lia)) as Hp. cbn beta in Hp.
  destruct (decide (progress (main (σ j)) = position (join_of who))) as [Heq|]; [left|right; lia].
  by apply join_possible.
Qed.

Lemma signal_selected sg :
  leads_to (λ s, pending s sg = true) (λ s, (1 <= progress (main s))%nat).
Proof.
  intros i Hi. destruct (main (σ i)) eqn:Hm;
    try (exists i; split; [done|]; rewrite Hm; simpl; lia).
  apply (main_executes (Select sg) eq_refl). simpl. by rewrite Hm, Hi.
Qed.

Lemma immediate_advances a :
  main_action a = true → (∀ s, progress (main s) = position a → step a s ≠ None) →
  leads_to (λ s, (position a <= progress (main s))%nat)
           (λ s, (S (position a) <= progress (main s))%nat).
Proof. intros Ha Hs. apply main_advances; [done|]. intros i Hi. exists i. auto. Qed.

(** C39: on a signal the engine shuts down, whatever else happens: in every fair run, if a
    signal has arrived at some moment, there is a later one from which on [start] has
    returned, with the token cancelled and both servers finished.  Fair means that the main
    task and the servers go on when they can: in particular that the open connections of a
    server that accepts no more end.  That the token gets cancelled, and so the servers
    drain, is the main task's doing. *)
Theorem shutdown_inevitable sg i :
  pending (σ i) sg = true →
  ∃ j, (i <= j)%nat ∧ ∀ k, (j <= k)%nat →
    main (σ k) = Returned ∧ token_cancelled (σ k) = true ∧
    prover (σ k) = Finished ∧ metrics (σ k) = Finished.
Proof.
  intros Hi.
  assert (leads_to (λ s, pending s sg = true) (λ s, (6 <= progress (main s))%nat)) as Hall.
  { eapply leads_to_trans; [apply signal_selected|].
    eapply leads_to_trans; [by apply (immediate_advances Cancel); [|intros [[]]]|].
    eapply leads_to_trans; [apply (join_advances Prover)|].
    eapply leads_to_trans; [apply (join_advances Metrics)|].
    eapply leads_to_trans; [by apply (immediate_advances StopProverRuntime); [|intros [[]]]|].
    by apply (immediate_advances StopMetricsRuntime); [|intros [[]]]. }
  destruct (Hall i Hi) as (j & Hij & Hj). exists j. split; [done|]. intros k Hk.
  pose proof (stable_run _ j k (progress_stable 6) Hk Hj) as Hp. cbn beta in Hp.
  destruct (always_joined_ok k) as [Ht Hf]. split_and!.
  - destruct (main (σ k)); simpl in Hp; try lia. done.
  - apply Ht. lia.
  - apply (Hf Prover). simpl. lia.
  - apply (Hf Metrics). simpl. lia.
Qed.
End liveness.

(** ** A run *)

Module ShutdownSample.
(** A request is open when SIGTERM arrives, and ends before its server stops; the metrics
    server fails; SIGINT comes too late to matter. *)
Definition stop_actions : list action :=
  [ConnectionOpens Prover; SignalArrives SIGTERM; Select SIGTERM; ServerFails Metrics; Cancel;
   Drain Prover; SignalArrives SIGINT; ConnectionEnds Prover; Stop Prover; JoinProver;
   JoinMetrics; StopProverRuntime; StopMetricsRuntime].

Definition stopped : system :=
  {| main := Returned; sigterm_pending := false; sigint_pending := true;
     token_cancelled := true; prover := Finished; metrics := Finished |}.

Lemma stop_actions_run : exec stop_actions started = Some stopped.
Proof. reflexivity. Qed.


(** The actions, and then nothing more. *)
Definition stop_states (i : nat) : system := default started (exec (take i stop_actions) started).

Lemma stop_states_late i : (13 <= i)%nat → stop_states i = stopped.
Proof. intros Hi. unfold stop_states. by rewrite take_ge by (simpl; lia). Qed.

Lemma stop_states_run : engine_run stop_states (λ i, stop_actions !! i).
Proof.
  split; [reflexivity|]. intros i. destruct (decide (i < 13)%nat) as [Hi|Hi].
  - do 13 (destruct i as [|i]; [vm_compute; reflexivity|]). lia.
  - rewrite lookup_ge_None_2 by (simpl; lia). by rewrite !stop_states_late by lia.
Qed.

Lemma stop_states_fair : fair stop_states (λ i, stop_actions !! i).
Proof.
  intros a i Ha. exists (13 + i)%nat. split; [lia|right].
  rewrite stop_states_late by lia. by destruct a as [[]| | | | | |[]|[]|[]|[]| |[]|[]].
Qed.

Lemma shutdown_inevitable_witness :
  ∃ j, ∀ k, (j <= k)%nat → main (stop_states k) = Returned.
Proof.
  destruct (shutdown_inevitable stop_states _ stop_states_run stop_states_fair SIGTERM 2 eq_refl)
    as (j & _ & Hj).
  exists j. intros k Hk. exact (proj1 (Hj k Hk)).
Defined.

(** If the token were not cancelled, no server would drain and the main task would wait for
    ever: nothing that the program owes is possible. *)
Example await_blocks :
  let s := {| main := AwaitingProver SIGTERM; sigterm_pending := false; sigint_pending := false;
              token_cancelled := false; prover := Serving 0; metrics := Serving 0 |} in
  forallb (λ a, match step a s with None => true | _ => false end)
    [Select SIGTERM; Select SIGINT; Cancel; JoinProver; JoinMetrics; StopProverRuntime;
     StopMetricsRuntime; Drain Prover; Drain Metrics; ConnectionEnds Prover;
     ConnectionEnds Metrics; Stop Prover; Stop Metrics] = true.
Proof. reflexivity. Qed.
End ShutdownSample.
