(* ===== verification/AggkitGrpc.v ===== *)
(** The generated client and server of the aggkit prover:
    [crates/aggkit-prover-types/src/generated/aggkit.prover.v1.tonic.rs].

    The server finds a method by the path of a request; the methods of the client send
    theirs to these paths.  A client connected to a server therefore has the handlers of the
    service behind it ([AggkitRpc.GrpcService] in the prover). *)

From S2P Require Import Prelude Bytes Panics Interop Abi StaticCall FilterValues Bridge Fep AggchainProof ProofInputs Config Executor Contracts Vkey Builder Proposer Service Conversion Rpc Codec Tonic AggkitRpc Engine.

(** The generated trait [AggchainProofService]. *)
Class AggchainProofService (W T : Type)
    `{!UnifiedBridge, !Ecdsa, !GlobalIndices, !InteropGrpc} := {
  svc_generate_aggchain_proof :
    T → GenerateAggchainProofRequest → io W Status GenerateAggchainProofResponse;
  svc_generate_optimistic_aggchain_proof :
    T → GenerateOptimisticAggchainProofRequest →
    io W Status GenerateOptimisticAggchainProofResponse;
}.

Definition SERVICE_NAME : string := "aggkit.prover.v1.AggchainProofService".

Section grpc.
Context {W : Type} `{!UnifiedBridge, !Ecdsa, !GlobalIndices, !InteropGrpc, !Encodings,
  !Tonic W}.
Context `{!Message GenerateAggchainProofRequest, !Message GenerateAggchainProofResponse,
  !Message GenerateOptimisticAggchainProofRequest,
  !Message GenerateOptimisticAggchainProofResponse}.

(** [AggchainProofServiceServer::{poll_ready, call}]. *)
Definition server_poll_ready : outcome Empty_set () := Ok ().

Definition server_call `{!AggchainProofService W T} (self : GrpcServer T)
    (req : http_request Body) : io W Empty_set (http_response Body) :=
  if decide (rq_path req = "/aggkit.prover.v1.AggchainProofService/GenerateAggchainProof") then
    server_unary (config_of self) (svc_generate_aggchain_proof (server_inner self)) req
  else if decide
      (rq_path req = "/aggkit.prover.v1.AggchainProofService/GenerateOptimisticAggchainProof")
  then
    server_unary (config_of self) (svc_generate_optimistic_aggchain_proof (server_inner self))
      req
  else mret unimplemented.

(** [AggchainProofServiceServer::with_interceptor]. *)
Definition server_with_interceptor `{!AggchainProofService W T} (inner : T)
    (interceptor : Interceptor) : http_request Body → io W Empty_set (http_response Body) :=
  intercepted_service (server_call (server_new inner)) interceptor.

(** The methods of [AggchainProofServiceClient]. *)
Definition client_generate_aggchain_proof (self : GrpcClient (W:=W))
    (request : GenerateAggchainProofRequest) : io W Status GenerateAggchainProofResponse :=
  _ ← client_ready self;
  let path := "/aggkit.prover.v1.AggchainProofService/GenerateAggchainProof" in
  let method := {| method_service := "aggkit.prover.v1.AggchainProofService";
                   method_name := "GenerateAggchainProof" |} in
  grpc_unary (client_inner self) request method path.

Definition client_generate_optimistic_aggchain_proof (self : GrpcClient (W:=W))
    (request : GenerateOptimisticAggchainProofRequest)
    : io W Status GenerateOptimisticAggchainProofResponse :=
  _ ← client_ready self;
  let path := "/aggkit.prover.v1.AggchainProofService/GenerateOptimisticAggchainProof" in
  let method := {| method_service := "aggkit.prover.v1.AggchainProofService";
                   method_name := "GenerateOptimisticAggchainProof" |} in
  grpc_unary (client_inner self) request method path.

(** ** Properties *)

(** The two methods of a connected client. *)
Lemma client_methods `{!TonicLaws W, !AggchainProofService W T} (self : GrpcServer T) :
  let client := client_new (over_wire (server_call self)) in
  (delivers (config_of self) (svc_generate_aggchain_proof (server_inner self))
     (client_generate_aggchain_proof client) ∧
   genuine (svc_generate_aggchain_proof (server_inner self))
     (client_generate_aggchain_proof client)) ∧
  (delivers (config_of self) (svc_generate_optimistic_aggchain_proof (server_inner self))
     (client_generate_optimistic_aggchain_proof client) ∧
   genuine (svc_generate_optimistic_aggchain_proof (server_inner self))
     (client_generate_optimistic_aggchain_proof client)).
Proof.
  intros client. split.
  - apply method_delivers. intros req Hp. unfold server_call. by rewrite decide_True.
  - apply method_delivers. intros req Hp. unfold server_call.
    rewrite decide_False by (by rewrite Hp). by rewrite decide_True.
Qed.

Lemma client_genuine `{!TonicLaws W, !AggchainProofService W T} (self : GrpcServer T) :
  let client := client_new (over_wire (server_call self)) in
  genuine (svc_generate_aggchain_proof (server_inner self))
    (client_generate_aggchain_proof client) ∧
  genuine (svc_generate_optimistic_aggchain_proof (server_inner self))
    (client_generate_optimistic_aggchain_proof client).
Proof. intros client. destruct (client_methods self) as [[_ ?] [_ ?]]. by split. Qed.

(** C19: a client connected to a server has the two methods of the service behind it: a
    request within the server's limit is handled by the method it was made for, and its
    response or status arrives; a response the client has was sent by that method.  Any
    other path is answered as unimplemented, and the service is not called. *)
Theorem aggkit_client_reaches_service `{!TonicLaws W, !AggchainProofService W T}
    (self : GrpcServer T) :
  let client := client_new (over_wire (server_call self)) in
  (delivers (config_of self) (svc_generate_aggchain_proof (server_inner self))
     (client_generate_aggchain_proof client) ∧
   genuine (svc_generate_aggchain_proof (server_inner self))
     (client_generate_aggchain_proof client)) ∧
  (delivers (config_of self) (svc_generate_optimistic_aggchain_proof (server_inner self))
     (client_generate_optimistic_aggchain_proof client) ∧
   genuine (svc_generate_optimistic_aggchain_proof (server_inner self))
     (client_generate_optimistic_aggchain_proof client)) ∧
  ∀ req w, rq_path req ∉
      ["/aggkit.prover.v1.AggchainProofService/GenerateAggchainProof";
       "/aggkit.prover.v1.AggchainProofService/GenerateOptimisticAggchainProof"] →
    server_call self req w = (Ok unimplemented, w).
Proof.
  intros client. destruct (client_methods self) as [Hm Ho]. split; [exact Hm|].
  split; [exact Ho|].
  intros req w [Hn1 [Hn2 _]%not_elem_of_cons]%not_elem_of_cons. unfold server_call.
  by rewrite !decide_False by done.
Qed.

(** A connection that is not ready is an [Unknown] status, and nothing is sent. *)
Lemma aggkit_client_not_ready (self : GrpcClient (W:=W)) request w e w' :
  grpc_ready (client_inner self) w = (Err e, w') →
  client_generate_aggchain_proof self request w =
    (Err (status_unknown ("Service was not ready: " +:+ e)), w').
Proof. apply client_not_ready. Qed.
End grpc.

(** *** In the prover *)

Section prover.
Context {W : Type} `{!P3Fields, !Ecdsa, !UnifiedBridge, !Hashing, !SolAbi, !GlobalIndices}
  {orders : UnspecifiedOrders} `{!UnspecifiedOrdersLaws orders}
  `{!EvmClient, !Urls, !Node W, !HostExecutor W, !Sp1Sdk W, !Sp1Proofs W,
  !Tokio W, !TowerLayers W, !BuilderDeps W, !VKeyHashes W, !ProposerElfs W,
  !ProposerGrpc W, !AggregationSdk W, !ProposerDeps (W:=W), !InteropGrpc, !RpcDeps}.

(** [impl AggchainProofService for GrpcService]. *)
#[export] Instance grpc_service_methods : AggchainProofService W (GrpcService (W:=W)) := {|
  svc_generate_aggchain_proof := generate_aggchain_proof;
  svc_generate_optimistic_aggchain_proof := generate_optimistic_aggchain_proof;
|}.

(** The requests of the client are routed to the service: their paths are below the route
    that the engine adds for its name. *)
Lemma client_paths_routed method :
  method ∈ ["GenerateAggchainProof"; "GenerateOptimisticAggchainProof"] →
  ∃ route, service_path SERVICE_NAME = route +:+ "{*rest}" ∧
    ("/aggkit.prover.v1.AggchainProofService/" +:+ method) = route +:+ method.
Proof. by exists "/aggkit.prover.v1.AggchainProofService/". Qed.
End prover.

(** ** A client of a sample server *)

Module AggkitGrpcSample.
Import Toy ToyAbi ToyEvm ToyOrders ToyNode ConfigSample BuilderSample ServiceSample
  ConversionSample RpcSample ToyTonic.
Import (hints) ToyProposer.

(** The messages are records of fields that the sample codec knows. *)
Definition wire_message {M} `{!Wire M} : Message M := {|
  encode_to_vec m := put m;
  Tonic.decode bs := match get bs with Some (m, []) => Some m | _ => None end;
|}.

Lemma wire_message_laws {M} `{WireLaws M} : MessageLaws M (H:=wire_message).
Proof.
  split. intros m. unfold encodable. cbn [encode_to_vec Tonic.decode wire_message].
  by rewrite <-(app_nil_r (put m)), get_put.
Qed.

#[export] Instance wire_fixed_bytes : Wire FixedBytes :=
  wire_image value (λ bs, Some {| value := bs |}).
#[export] Instance wire_fixed_bytes_laws : WireLaws FixedBytes.
Proof. by apply wire_image_laws; intros []. Qed.

#[export] Instance wire_leaf_inner : Wire L1InfoTreeLeafInner :=
  wire_image (λ l, (global_exit_root l, block_hash l, timestamp l))
    (λ '(ger, hash, time),
       Some {| global_exit_root := ger; block_hash := hash; timestamp := time |}).
#[export] Instance wire_leaf_inner_laws : WireLaws L1InfoTreeLeafInner.
Proof. by apply wire_image_laws; intros []. Qed.

#[export] Instance wire_leaf : Wire L1InfoTreeLeaf :=
  wire_image (λ l, (l1_info_tree_index l, rer l, mer l, inner l))
    (λ '(index, r, m, leaf),
       Some {| l1_info_tree_index := index; rer := r; mer := m; inner := leaf |}).
#[export] Instance wire_leaf_laws : WireLaws L1InfoTreeLeaf.
Proof. by apply wire_image_laws; intros []. Qed.

#[export] Instance wire_bridge_exit : Wire ImportedBridgeExitMessage :=
  wire_image (λ m, (im_block_number m, im_global_index m, im_bridge_exit_hash m))
    (λ '(block, index, hash), Some {| im_block_number := block; im_global_index := index;
                                      im_bridge_exit_hash := hash |}).
#[export] Instance wire_bridge_exit_laws : WireLaws ImportedBridgeExitMessage.
Proof. by apply wire_image_laws; intros []. Qed.

#[export] Instance wire_proven_ger : Wire ProvenInsertedGer :=
  wire_image (A:=ProvenInsertedGer) (B:=option (option (Digest * Digest)) * option (option L1InfoTreeLeaf))
    (λ m, (pm_proof_ger_l1root m, pm_l1_leaf m))
    (λ '(proof, leaf), Some {| pm_proof_ger_l1root := proof; pm_l1_leaf := leaf |}).
#[export] Instance wire_proven_ger_laws : WireLaws ProvenInsertedGer.
Proof. by apply wire_image_laws; intros []. Qed.

#[export] Instance wire_ger : Wire ProvenInsertedGerWithBlockNumber :=
  wire_image (λ m, (pmb_block_number m, pmb_proven_inserted_ger m, pmb_block_index m))
    (λ '(block, ger, index), Some {| pmb_block_number := block; pmb_proven_inserted_ger := ger;
                                     pmb_block_index := index |}).
#[export] Instance wire_ger_laws : WireLaws ProvenInsertedGerWithBlockNumber.
Proof. by apply wire_image_laws; intros []. Qed.

#[export] Instance wire_request : Wire GenerateAggchainProofRequest :=
  wire_image (A:=GenerateAggchainProofRequest)
    (B:=Z * Z * option FixedBytes * option (option L1InfoTreeLeaf) *
        option (option (Digest * Digest)) * gmap string ProvenInsertedGerWithBlockNumber *
        list ImportedBridgeExitMessage)
    (λ m, (gm_last_proven_block m, gm_requested_end_block m, gm_l1_info_tree_root_hash m,
           gm_l1_info_tree_leaf m, gm_l1_info_tree_merkle_proof m, gm_ger_leaves m,
           gm_imported_bridge_exits m))
    (λ '(last, requested, root, leaf, proof, gers, exits),
       Some {| gm_last_proven_block := last; gm_requested_end_block := requested;
               gm_l1_info_tree_root_hash := root; gm_l1_info_tree_leaf := leaf;
               gm_l1_info_tree_merkle_proof := proof; gm_ger_leaves := gers;
               gm_imported_bridge_exits := exits |}).
#[export] Instance wire_request_laws : WireLaws GenerateAggchainProofRequest.
Proof. by apply wire_image_laws; intros []. Qed.

#[export] Instance wire_optimistic_request : Wire GenerateOptimisticAggchainProofRequest :=
  wire_image (λ m, (om_aggchain_proof_request m, om_optimistic_mode_signature m))
    (λ '(request, signature), Some {| om_aggchain_proof_request := request;
                                      om_optimistic_mode_signature := signature |}).
#[export] Instance wire_optimistic_request_laws : WireLaws GenerateOptimisticAggchainProofRequest.
Proof. by apply wire_image_laws; intros []. Qed.

#[export] Instance wire_stark : Wire Sp1StarkProof :=
  wire_image (λ m, (stark_version m, stark_proof m, stark_vkey m))
    (λ '(version, proof, vkey),
       Some {| stark_version := version; stark_proof := proof; stark_vkey := vkey |}).
#[export] Instance wire_stark_laws : WireLaws Sp1StarkProof.
Proof. by apply wire_image_laws; intros []. Qed.

#[export] Instance wire_proof : Wire AggchainProofMessage :=
  wire_image (λ m, (ap_aggchain_params m, ap_signature m, ap_context m, ap_proof m))
    (λ '(params, signature, context, proof),
       Some {| ap_aggchain_params := params; ap_signature := signature;
               ap_context := context; ap_proof := proof |}).
#[export] Instance wire_proof_laws : WireLaws AggchainProofMessage.
Proof. by apply wire_image_laws; intros []. Qed.

#[export] Instance wire_response : Wire GenerateAggchainProofResponse :=
  wire_image (λ m, (gr_aggchain_proof m, gr_last_proven_block m, gr_end_block m,
                    gr_local_exit_root_hash m, gr_custom_chain_data m))
    (λ '(proof, last, end_block, root, data),
       Some {| gr_aggchain_proof := proof; gr_last_proven_block := last;
               gr_end_block := end_block; gr_local_exit_root_hash := root;
               gr_custom_chain_data := data |}).
#[export] Instance wire_response_laws : WireLaws GenerateAggchainProofResponse.
Proof. by apply wire_image_laws; intros []. Qed.

#[export] Instance wire_optimistic_response : Wire GenerateOptimisticAggchainProofResponse :=
  wire_image (λ m, (or_aggchain_proof m, or_local_exit_root_hash m, or_custom_chain_data m))
    (λ '(proof, root, data),
       Some {| or_aggchain_proof := proof; or_local_exit_root_hash := root;
               or_custom_chain_data := data |}).
#[export] Instance wire_optimistic_response_laws :
  WireLaws GenerateOptimisticAggchainProofResponse.
Proof. by apply wire_image_laws; intros []. Qed.

#[export] Instance request_message : Message GenerateAggchainProofRequest := wire_message.
#[export] Instance request_message_laws : MessageLaws GenerateAggchainProofRequest.
Proof. apply wire_message_laws. Qed.
#[export] Instance optimistic_request_message :
  Message GenerateOptimisticAggchainProofRequest := wire_message.
#[export] Instance optimistic_request_message_laws :
  MessageLaws GenerateOptimisticAggchainProofRequest.
Proof. apply wire_message_laws. Qed.
#[export] Instance response_message : Message GenerateAggchainProofResponse := wire_message.
#[export] Instance response_message_laws : MessageLaws GenerateAggchainProofResponse.
Proof. apply wire_message_laws. Qed.
#[export] Instance optimistic_response_message :
  Message GenerateOptimisticAggchainProofResponse := wire_message.
#[export] Instance optimistic_response_message_laws :
  MessageLaws GenerateOptimisticAggchainProofResponse.
Proof. apply wire_message_laws. Qed.

Definition server : GrpcServer (GrpcService (W:=world)) := server_new echo.
Definition client : GrpcClient (W:=world) := client_new (over_wire (server_call server)).

Example message_fits : encoded_len message <=? DEFAULT_MAX_RECV_MESSAGE_SIZE = true.
Proof. vm_compute. reflexivity. Qed.

Example answer_fits :
  match svc_generate_aggchain_proof (server_inner server) message [] return _ with
  | (Ok resp, w) =>
      Some (gr_end_block resp, encoded_len resp <=? DEFAULT_MAX_RECV_MESSAGE_SIZE, w)
  | _ => None
  end = Some (58, true, []).
Proof. vm_compute. reflexivity. Qed.

(** The sample request is answered by the service, and the client gets this answer. *)
Lemma aggkit_client_reaches_service_witness :
  ∃ resp, client_generate_aggchain_proof client message [] = (Ok resp, []) ∧
    gr_end_block resp = 58.
Proof.
  destruct (aggkit_client_reaches_service server) as [[Hd _] _].
  specialize (Hd message [] (encodable_all message)).
  change (decoding_limit _) with DEFAULT_MAX_RECV_MESSAGE_SIZE in Hd.
  change (encoding_limit _) with USIZE_MAX in Hd.
  rewrite message_fits in Hd. pose proof answer_fits as Ha.
  destruct (svc_generate_aggchain_proof _ _ _) as [[resp| |] w] eqn:Hs; [|discriminate Ha..].
  apply (inj Some), (inj2 pair) in Ha as [Ha ->]. apply (inj2 pair) in Ha as [He Hf%Z.leb_le].
  exists resp. split; [|exact He]. apply Hd; [apply encodable_all| |exact Hf].
  eapply Z.le_trans; [exact Hf|]. by vm_compute.
Defined.
End AggkitGrpcSample.
