(* ===== verification/AgglayerGrpc.v ===== *)
(** The generated client and server of the agglayer prover:
    [crates/agglayer-prover-types/src/generated/agglayer.prover.v1.tonic.rs], and the
    prover seen through them. *)

From S2P Require Import Prelude Bytes Panics Interop Abi StaticCall Config Executor Vkey Builder Rpc Tonic AgglayerRpc Engine.

(** The generated trait [PessimisticProofService]. *)
Class PessimisticProofService (W T : Type) := {
  svc_generate_proof : T → GenerateProofRequest → io W Status GenerateProofResponse;
}.

Definition SERVICE_NAME : string := "agglayer.prover.v1.PessimisticProofService".

Section grpc.
Context {W : Type} `{!Encodings, !Tonic W}.
Context `{!Message GenerateProofRequest, !Message GenerateProofResponse}.

(** [PessimisticProofServiceServer::call]. *)
Definition server_call `{!PessimisticProofService W T} (self : GrpcServer T)
    (req : http_request Body) : io W Empty_set (http_response Body) :=
  if decide (rq_path req = "/agglayer.prover.v1.PessimisticProofService/GenerateProof") then
    server_unary (config_of self) (svc_generate_proof (server_inner self)) req
  else mret unimplemented.

(** [PessimisticProofServiceServer::with_interceptor]. *)
Definition server_with_interceptor `{!PessimisticProofService W T} (inner : T)
    (interceptor : Interceptor) : http_request Body → io W Empty_set (http_response Body) :=
  intercepted_service (server_call (server_new inner)) interceptor.

(** [PessimisticProofServiceClient::generate_proof]. *)
Definition client_generate_proof (self : GrpcClient (W:=W)) (request : GenerateProofRequest)
    : io W Status GenerateProofResponse :=
  _ ← client_ready self;
  let path := "/agglayer.prover.v1.PessimisticProofService/GenerateProof" in
  let method := {| method_service := "agglayer.prover.v1.PessimisticProofService";
                   method_name := "GenerateProof" |} in
  grpc_unary (client_inner self) request method path.

Lemma agglayer_client_reaches_service `{!TonicLaws W, !PessimisticProofService W T}
    (self : GrpcServer T) :
  let client := client_new (over_wire (server_call self)) in
  delivers (config_of self) (svc_generate_proof (server_inner self))
    (client_generate_proof client) ∧
  genuine (svc_generate_proof (server_inner self)) (client_generate_proof client).
Proof. apply method_delivers. intros req Hp. unfold server_call. by rewrite decide_True. Qed.

(** Any other path is answered as unimplemented; the service is not called. *)
Lemma agglayer_unimplemented `{!PessimisticProofService W T} (self : GrpcServer T) req w :
  rq_path req ≠ "/agglayer.prover.v1.PessimisticProofService/GenerateProof" →
  server_call self req w = (Ok unimplemented, w).
Proof. intros Hp. unfold server_call. by rewrite decide_False. Qed.
End grpc.

(** *** The prover and its client *)

Section prover.
Context {W : Type} `{!Sp1Sdk W, !Tokio W, !TowerLayers W, !Urls, !AgglayerWire W,
  !Metrics W, !P3Fields, !Ecdsa, !UnifiedBridge, !EvmClient, !Sp1Proofs W, !BuilderDeps W,
  !Encodings, !Tonic W, !Message GenerateProofRequest, !Message GenerateProofResponse}.

(** [impl PessimisticProofService for ProverRPC], and for [FakeProver]. *)
#[export] Instance prover_rpc_methods : PessimisticProofService W (ProverRPC (W:=W)) :=
  {| svc_generate_proof := generate_proof |}.

#[export] Instance fake_prover_methods : PessimisticProofService W (FakeProver (W:=W)) :=
  {| svc_generate_proof := fake_generate_proof |}.

(** The limits of the created server are those of the configuration. *)
Lemma create_service_limits config program w self w' :
  create_service config program w = (Ok self, w') →
  decoding_limit (config_of self) = max_decoding_message_size (Agglayer.al_grpc config) ∧
  encoding_limit (config_of self) = max_encoding_message_size (Agglayer.al_grpc config).
Proof.
  intros Hn. unfold create_service in Hn. io_step Hn as ex w2 Hex. by injection Hn as <- _.
Qed.

(** C32: end to end, through the generated client and server: a response that a client of the
    agglayer prover has for a request carries the encoding of a proof which the SDK's
    verifier accepted under a key of the prover's program.  A request beyond the configured
    size is refused without any effect on the prover. *)
Theorem agglayer_client_proof_verified `{!TonicLaws W, !TokioLaws (W:=W), !TowerLayersLaws W,
    !BuilderDepsLaws W, !MessageLaws GenerateProofRequest, !MessageLaws GenerateProofResponse}
    config program w0 self w1 :
  create_service config program w0 = (Ok self, w1) →
  let client := client_new (over_wire (server_call self)) in
  (∀ request w resp w', client_generate_proof client request w = (Ok resp, w') →
     ∃ p, verified program p ∧ wire_proof p = Ok (gp_proof resp)) ∧
  (∀ request w, max_decoding_message_size (Agglayer.al_grpc config) < encoded_len request →
     ∃ status, status_code status = CodeOutOfRange ∧
       client_generate_proof client request w = (Err status, w)).
Proof.
  intros Hn client. destruct (agglayer_client_reaches_service self) as [Hd Hg]. split.
  - intros request w resp w' Hr.
    destruct (Hg request resp w w' (encodable_all request) Hr) as (sent & Hs & Hdec).
    rewrite (encodable_all sent) in Hdec. injection Hdec as <-.
    exact (generate_proof_verified _ _ _ _ _ _ _ _ _ Hn Hs).
  - intros request w Hlen. specialize (Hd request w (encodable_all request)).
    rewrite (proj1 (create_service_limits _ _ _ _ _ Hn)) in Hd.
    by rewrite (proj2 (Z.leb_gt _ _) Hlen) in Hd.
Qed.
End prover.

(** ** A client of a sample prover *)

Module AgglayerGrpcSample.
Import ConfigSample Toy ToyAbi ToyEvm ToyTonic AgglayerSample.

(** A present input is marked with a byte. *)
#[export] Instance request_message : Message GenerateProofRequest := {|
  encode_to_vec m := match gp_stdin m with Some bs => x0a :: bs | None => [] end;
  decode bs :=
    Some {| gp_stdin := match bs with [] => None | _ :: stdin => Some stdin end |};
|}.
#[export] Instance request_message_laws : MessageLaws GenerateProofRequest.
Proof. by split; intros [[]]. Qed.

#[export] Instance response_message : Message GenerateProofResponse := {|
  encode_to_vec m := gp_proof m;
  decode bs := Some {| gp_proof := bs |};
|}.
#[export] Instance response_message_laws : MessageLaws GenerateProofResponse.
Proof. by split; intros []. Qed.

(** The prover of the sample configuration. *)
Definition connected : option (PessimisticProofServiceServer (W:=counters)) :=
  match config return _ with
  | Ok config =>
      match create_service config [x00; x01] (0, 0, 0) return _ with
      | (Ok self, _) => Some self
      | _ => None
      end
  | _ => None
  end.

Definition connected_answer (self : PessimisticProofServiceServer (W:=counters))
    : outcome Status GenerateProofResponse :=
  (client_generate_proof (client_new (over_wire (server_call self))) (ask 9) (0, 0, 0)).1.

Example connected_answers :
  connected_answer <$> connected = Some (Ok {| gp_proof := be_bytes 8 9 |}).
Proof. reflexivity. Qed.

Lemma agglayer_client_proof_verified_witness :
  ∃ p : Z, verified (W:=counters) [x00; x01] p ∧ be_bytes 8 p = (be_bytes 8 9 : bytes).
Proof.
  pose proof connected_answers as Ha. unfold connected in Ha.
  destruct config as [cfg| |]; [|discriminate Ha..].
  destruct (create_service cfg [x00; x01] (0, 0, 0)) as [[self| |] w1] eqn:Hn;
    [|discriminate Ha..].
  apply (inj Some) in Ha. unfold connected_answer in Ha.
  destruct (client_generate_proof _ _ _) as [r w'] eqn:Hr. simpl in Ha. subst r.
  destruct (agglayer_client_proof_verified cfg [x00; x01] (0, 0, 0) self w1 Hn) as [Hv _].
  destruct (Hv (ask 9) (0, 0, 0) _ w' Hr) as (p & Hp & Hw).
  exists p. split; [exact Hp|]. exact (inj Ok _ _ Hw).
Defined.
End AgglayerGrpcSample.
