(* ===== verification/Text.v ===== *)
(** Text that the standard library prints, and how it is read back: decimal integers, and
    the [{:?}] form of arrays of integers, which is also their literal in Rust source. *)

From S2P Require Import Prelude Bytes.

(** ** Decimal integers *)

Definition digit_value (c : Ascii.ascii) : option Z :=
  let n := Z.of_N (Ascii.N_of_ascii c) in
  if (48 <=? n) && (n <=? 57) then Some (n - 48) else None.

(** The value of a non-empty string of digits, after the digits of [acc]. *)
Fixpoint decimal_value (acc : Z) (s : string) : option Z :=
  match s with
  | EmptyString => Some acc
  | String c s => d ← digit_value c; decimal_value (acc * 10 + d) s
  end.

Definition parse_decimal (s : string) : option Z :=
  match s with EmptyString => None | _ => decimal_value 0 s end.

(** [ToString::to_string] and [{:?}] of an unsigned integer. *)
Definition to_string (n : Z) : string := pretty n.

Lemma digit_value_char x : (x < 10)%N → digit_value (pretty_N_char x) = Some (Z.of_N x).
Proof.
  intros. assert (x = 0 ∨ x = 1 ∨ x = 2 ∨ x = 3 ∨ x = 4 ∨ x = 5 ∨ x = 6 ∨ x = 7 ∨ x = 8
    ∨ x = 9)%N as Hx by lia. by repeat destruct Hx as [->|Hx]; [reflexivity..|subst].
Qed.

Lemma decimal_value_go x s acc :
  ∃ k, 0 <= k ∧ decimal_value acc (pretty_N_go x s) = decimal_value (acc * 10 ^ k + Z.of_N x) s.
Proof.
  revert s acc. induction (N.lt_wf_0 x) as [x _ IH]; intros s acc.
  assert (x = 0 ∨ 0 < x)%N as [->|Hx] by lia.
  { exists 0. split; [done|]. rewrite pretty_N_go_0. f_equal. lia. }
  rewrite pretty_N_go_step by done.
  destruct (IH (x `div` 10)%N ltac:(by apply N.div_lt) (String (pretty_N_char (x `mod` 10)) s) acc)
    as (k & Hk & ->).
  exists (k + 1). split; [lia|]. simpl. rewrite digit_value_char by (by apply N.mod_lt). simpl.
  f_equal. rewrite Z.pow_add_r, Z.pow_1_r by lia.
  rewrite N2Z.inj_mod, N2Z.inj_div. pose proof (Z.div_mod (Z.of_N x) 10). lia.
Qed.

Lemma to_string_of_N n : 0 <= n → to_string n = pretty (Z.to_N n).
Proof. by destruct n. Qed.

Lemma pretty_N_go_nonempty x : (0 < x)%N → pretty_N_go x "" ≠ "".
Proof.
  intros Hx Heq. pose proof (pretty_N_go_step x "" Hx) as Hs. rewrite Heq in Hs.
  assert (∀ y s, s ≠ "" → pretty_N_go y s ≠ "") as Hne.
  { intros y. induction (N.lt_wf_0 y) as [y _ IH]; intros s Hs'.
    assert (y = 0 ∨ 0 < y)%N as [->|Hy] by lia; [by rewrite pretty_N_go_0|].
    rewrite pretty_N_go_step by done. by apply IH; [apply N.div_lt|]. }
  by eapply Hne; [|symmetry; exact Hs].
Qed.

(** A printed integer is read back. *)
Lemma parse_to_string n : 0 <= n → parse_decimal (to_string n) = Some n.
Proof.
  intros Hn. rewrite to_string_of_N by done. unfold pretty, pretty_N.
  case_decide as Hz; [simpl; f_equal; lia|].
  assert (parse_decimal (pretty_N_go (Z.to_N n) "") =
          decimal_value 0 (pretty_N_go (Z.to_N n) "")) as ->.
  { pose proof (pretty_N_go_nonempty (Z.to_N n) ltac:(lia)). by destruct (pretty_N_go _ _). }
  destruct (decimal_value_go (Z.to_N n) "" 0) as (k & _ & ->). simpl. f_equal. lia.
Qed.

(** ** Strings *)

Lemma string_app_assoc s1 s2 s3 : s1 +:+ (s2 +:+ s3) = (s1 +:+ s2) +:+ s3.
Proof. induction s1 as [|c s1 IH]; [done|]. exact (f_equal (String c) IH). Qed.

Lemma string_app_nil_r s : s +:+ "" = s.
Proof. induction s as [|c s IH]; [done|]. exact (f_equal (String c) IH). Qed.

Lemma string_app_length s1 s2 : String.length (s1 +:+ s2) = (String.length s1 + String.length s2)%nat.
Proof. induction s1 as [|c s1 IH]; [done|]. exact (f_equal S IH). Qed.

(** What follows a given prefix. *)
Fixpoint strip_prefix (p s : string) : option string :=
  match p, s with
  | EmptyString, s => Some s
  | String a p, String b s => if decide (a = b) then strip_prefix p s else None
  | _, _ => None
  end.

Lemma strip_prefix_app p s : strip_prefix p (p +:+ s) = Some s.
Proof. induction p as [|c p IH]; [by destruct s|]. simpl. by rewrite decide_True. Qed.

(** The longest prefix of characters that satisfy [P], and the rest. *)
Fixpoint span (P : Ascii.ascii → bool) (s : string) : string * string :=
  match s with
  | EmptyString => ("", "")
  | String c s' => if P c then let '(a, b) := span P s' in (String c a, b) else ("", s)
  end.

Definition all_chars (P : Ascii.ascii → bool) (s : string) : Prop :=
  Forall (λ c, P c = true) (String.list_ascii_of_string s).

Definition stops (P : Ascii.ascii → bool) (s : string) : Prop :=
  match s with EmptyString => True | String c _ => P c = false end.

Lemma span_app P a b : all_chars P a → stops P b → span P (a +:+ b) = (a, b).
Proof.
  intros Ha Hb. unfold all_chars in Ha. induction a as [|c a IH]; simpl in *.
  - destruct b as [|c b]; [done|]. simpl in *. by rewrite Hb.
  - inversion Ha as [|? ? Hc Ha']; subst. by rewrite Hc, IH.
Qed.

(** ** Arrays of integers *)

Fixpoint join (sep : string) (l : list string) : string :=
  match l with
  | [] => ""
  | [s] => s
  | s :: l => s +:+ sep +:+ join sep l
  end.

(** [{:?}] of a sequence, from that of its items, and of a string without escapes. *)
Definition debug_list (items : list string) : string := "[" +:+ join ", " items +:+ "]".
Definition quoted (s : string) : string :=
  let quote := String (Ascii.ascii_of_nat 34) EmptyString in quote +:+ s +:+ quote.
Definition debug_array (l : list Z) : string := debug_list (to_string <$> l).

Definition is_digit (c : Ascii.ascii) : bool :=
  match digit_value c with Some _ => true | None => false end.

(** An array literal, at its opening bracket, and what follows it. *)
Fixpoint read_items (fuel : nat) (s : string) : option (list Z * string) :=
  match fuel with
  | O => None
  | S fuel =>
      let '(digits, rest) := span is_digit s in
      n ← parse_decimal digits;
      match strip_prefix ", " rest with
      | Some rest => '(l, rest) ← read_items fuel rest; Some (n :: l, rest)
      | None => rest ← strip_prefix "]" rest; Some ([n], rest)
      end
  end.

Definition read_array (s : string) : option (list Z * string) :=
  s ← strip_prefix "[" s;
  match strip_prefix "]" s with
  | Some rest => Some ([], rest)
  | None => read_items (String.length s) s
  end.

Lemma decimal_value_digits s acc n :
  decimal_value acc s = Some n → all_chars is_digit s.
Proof.
  revert acc. induction s as [|c s IH]; intros acc; [constructor|]. simpl. unfold all_chars. simpl.
  destruct (digit_value c) as [d|] eqn:Hd; [|done]. simpl. intros Hn.
  constructor; [unfold is_digit; by rewrite Hd|]. by eapply IH.
Qed.

Lemma parse_decimal_digits s n :
  parse_decimal s = Some n → all_chars is_digit s ∧ (0 < String.length s)%nat.
Proof.
  destruct s as [|c s]; [done|]. intros Hn%decimal_value_digits. split; [done|simpl; lia].
Qed.

Lemma read_items_debug fuel l rest :
  l ≠ [] → Forall (λ n, 0 <= n) l → (length l <= fuel)%nat →
  read_items fuel (join ", " (to_string <$> l) +:+ "]" +:+ rest) = Some (l, rest).
Proof.
  revert fuel. induction l as [|n l IH]; intros fuel Hne Hl Hf; [done|].
  destruct fuel as [|fuel]; [simpl in Hf; lia|].
  inversion Hl as [|? ? Hn Hl']; subst.
  pose proof (parse_to_string n Hn) as Hp. destruct (parse_decimal_digits _ _ Hp) as [Hd _].
  destruct l as [|n' l].
  - cbn [fmap list_fmap join read_items]. rewrite span_app by done. cbv beta iota.
    rewrite Hp. reflexivity.
  - change (join ", " (to_string <$> n :: n' :: l)) with
      (to_string n +:+ ", " +:+ join ", " (to_string <$> n' :: l)).
    cbn [read_items]. rewrite <-!string_app_assoc, span_app by done. cbv beta iota.
    rewrite Hp. cbn [mbind option_bind]. rewrite strip_prefix_app.
    by rewrite (IH fuel) by (done || simpl in *; lia).
Qed.

Lemma join_length sep l :
  Forall (λ s, 0 < String.length s)%nat l → (length l <= String.length (join sep l))%nat.
Proof.
  induction 1 as [|s l Hs Hl IH]; [simpl; lia|].
  destruct l as [|s' l]; [simpl in *; lia|].
  change (join sep (s :: s' :: l)) with (s +:+ sep +:+ join sep (s' :: l)).
  rewrite !string_app_length. simpl length in *. lia.
Qed.

(** A printed array is read back. *)
Lemma read_array_debug l rest :
  Forall (λ n, 0 <= n) l → read_array (debug_array l +:+ rest) = Some (l, rest).
Proof.
  intros Hl. unfold read_array, debug_array, debug_list. rewrite <-!string_app_assoc.
  rewrite strip_prefix_app. cbn [mbind option_bind].
  destruct l as [|n l]; [done|].
  assert (strip_prefix "]" (join ", " (to_string <$> n :: l) +:+ "]" +:+ rest) = None) as ->.
  { inversion Hl as [|? ? Hn _]; subst. pose proof (parse_to_string n Hn) as Hp.
    destruct (parse_decimal_digits _ _ Hp) as [Hd Hlen]. unfold all_chars in Hd.
    assert (∃ c s, join ", " (to_string <$> n :: l) = String c s ∧ is_digit c = true)
      as (c & s & -> & Hc).
    { cbn [fmap list_fmap join]. destruct (to_string n) as [|c s]; [simpl in Hlen; lia|].
      inversion Hd as [|? ? Hc _]; subst.
      destruct l as [|n' l]; cbn [fmap list_fmap join]; [by exists c, s|].
      by eexists c, _. }
    simpl. rewrite decide_False; [done|]. by intros <-. }
  apply read_items_debug; [done..|].
  rewrite string_app_length. etrans; [|apply Nat.le_add_r].
  rewrite <-(length_fmap to_string). apply join_length. rewrite Forall_fmap.
  revert Hl. apply Forall_impl. intros m Hm. simpl.
  by apply (parse_decimal_digits _ m), parse_to_string.
Qed.
