(* ===== verification/Serde.v ===== *)
(** The serde data model, and the shape of the (de)serializers that [pbjson] generates
    under [crates/*/src/generated].

    A value is serialized into a tree of the data model; a self-describing format, such as
    JSON, writes and reads such trees.  A generated message is a struct that leaves default
    fields out.  It is read by a visitor: a loop over the entries of a map that fills one
    slot per field, refuses unknown keys and filled slots, and gives defaults to the slots
    that stay empty.  The loop is the same in every message; the fields, their names and
    their types are what a message instantiates it with. *)

From S2P Require Import Prelude Bytes ProofInputs Text.

(** ** The data model *)

Inductive content : Type :=
  | CNull
  | CBool (b : bool)
  | CU64 (n : Z)
  | CI64 (n : Z)
  | CStr (s : string)
  | CSeq (l : list content)
  | CMap (entries : list (string * content))
  | CStruct (name : string) (len : nat) (fields : list (string * content)).

(** [serde::ser::Error] and [serde::de::Error], by the constructor used. *)
Inductive ser_error : Type := SerCustom (msg : string).

Inductive de_error : Type :=
  | UnknownField (field : string) (expected : list string)
  | UnknownVariant (variant : string) (expected : list string)
  | DuplicateField (field : string)
  | MissingField (field : string)
  | InvalidLength (len : nat)
  | InvalidType (expected : string)
  | InvalidValue (unexpected : Z)
  | DeCustom (msg : string).

#[export] Instance de_error_eq_dec : EqDecision de_error.
Proof. solve_decision. Defined.

Class Serialize (T : Type) := serialize : T → outcome ser_error content.
Class Deserialize (T : Type) := deserialize : content → outcome de_error T.

(** What is written is read back; it is never a null, which an optional value would read
    as its absence. *)
Definition round_trips {T} (ser : T → outcome ser_error content)
    (de : content → outcome de_error T) (x : T) : Prop :=
  ∃ c, ser x = Ok c ∧ c ≠ CNull ∧ de c = Ok x.

Class RoundTrips (T : Type) `{Serialize T, Deserialize T} (valid : T → Prop) : Prop :=
  round_trip x : valid x → round_trips serialize deserialize x.

(** *** serde's own implementations *)

#[export] Instance string_serialize : Serialize string := λ s, Ok (CStr s).

(** [Vec<T>]. *)
#[export] Instance vec_serialize `{Serialize T} : Serialize (list T) := λ l,
  CSeq <$> traverse serialize l.

#[export] Instance vec_deserialize `{Deserialize T} : Deserialize (list T) := λ c,
  match c with
  | CSeq l => traverse deserialize l
  | _ => Err (InvalidType "a sequence")
  end.

(** [Option<T>]. *)
Definition option_deserialize {T} (de : content → outcome de_error T) (c : content)
    : outcome de_error (option T) :=
  match c with
  | CNull => Ok None
  | c => Some <$> de c
  end.

(** [HashMap<String, V>]: written in the order of its iteration, read by inserting the
    entries one after the other. *)
#[export] Instance hash_map_serialize {orders : UnspecifiedOrders} `{Serialize V}
    : Serialize (gmap string V) := λ m,
  CMap <$> traverse (λ '(k, v), (λ c, (k, c)) <$> serialize v) (hash_map_iter m).

Fixpoint insert_entries `{Deserialize V} (m : gmap string V)
    (entries : list (string * content)) : outcome de_error (gmap string V) :=
  match entries with
  | [] => Ok m
  | (k, c) :: entries => v ← deserialize c; insert_entries (<[k := v]> m) entries
  end.

#[export] Instance hash_map_deserialize `{Deserialize V} : Deserialize (gmap string V) :=
  λ c,
    match c with
    | CMap entries | CStruct _ _ entries => insert_entries ∅ entries
    | _ => Err (InvalidType "a map")
    end.

(** *** [pbjson] *)

(** [pbjson::private]: numbers are read from numbers and strings, bytes from base64. *)
Class Pbjson := {
  base64_encode : bytes → string;
  number_deserialize : content → outcome de_error Z;
  bytes_deserialize : content → outcome de_error bytes;
}.

Class PbjsonLaws `{Pbjson} : Prop := {
  number_of_string n : in_width 64 n → number_deserialize (CStr (to_string n)) = Ok n;
  bytes_of_base64 bs : bytes_deserialize (CStr (base64_encode bs)) = Ok bs;
}.

(** ** Writing a struct *)

(** A [SerializeStruct] in progress. *)
Record struct_ser : Type := {
  ss_name : string;
  ss_len : nat;
  ss_fields : list (string * content);
}.

Definition serialize_struct (name : string) (len : nat) : outcome ser_error struct_ser :=
  Ok {| ss_name := name; ss_len := len; ss_fields := [] |}.

Definition serialize_field (key : string) (value : outcome ser_error content)
    (struct_ser : struct_ser) : outcome ser_error Serde.struct_ser :=
  c ← value;
  Ok {| ss_name := ss_name struct_ser; ss_len := ss_len struct_ser;
        ss_fields := ss_fields struct_ser ++ [(key, c)] |}.

Definition ss_end (struct_ser : struct_ser) : outcome ser_error content :=
  Ok (CStruct (ss_name struct_ser) (ss_len struct_ser) (ss_fields struct_ser)).

(** [if cond { len += 1; }]. *)
Definition count_if (cond : bool) : nat := if cond then 1 else 0.

(** [if cond { struct_ser.serialize_field(key, value)?; }]. *)
Definition field_if (cond : bool) (key : string) (value : outcome ser_error content)
    (struct_ser : struct_ser) : outcome ser_error Serde.struct_ser :=
  if cond then serialize_field key value struct_ser else Ok struct_ser.

(** [if let Some(v) = o { struct_ser.serialize_field(key, v)?; }]. *)
Definition field_some {T} (o : option T) (key : string)
    (value : T → outcome ser_error content) (struct_ser : struct_ser)
    : outcome ser_error Serde.struct_ser :=
  match o with
  | Some v => serialize_field key (value v) struct_ser
  | None => Ok struct_ser
  end.

Definition nonzero (n : Z) : bool := bool_decide (n ≠ 0).
Definition nonempty {A} (l : list A) : bool := match l with [] => false | _ => true end.
Definition is_some {A} (o : option A) : bool := match o with Some _ => true | None => false end.

(** ** Reading a struct *)

Section visitor.
Context {Field : Type} `{EqDecision Field} (ty : Field → Type).

(** The local variables of [visit_map]: one option per field. *)
Definition slots : Type := ∀ f : Field, option (ty f).

Definition no_slots : slots := λ _, None.

Definition set_slot (st : slots) (f : Field) (v : option (ty f)) : slots := λ g,
  match decide (f = g) with
  | left e => eq_rect f (λ h, option (ty h)) v g e
  | right _ => st g
  end.

Context (visit_str : string → outcome de_error Field).
Context (field_name : Field → string).
(** What the variable of a field is assigned, from the value read. *)
Context (next_value : ∀ f, content → outcome de_error (option (ty f))).

(** [while let Some(k) = map_.next_key()? { match k { .. } }]. *)
Fixpoint visit_map (st : slots) (entries : list (string * content))
    : outcome de_error slots :=
  match entries with
  | [] => Ok st
  | (k, c) :: entries =>
      f ← visit_str k;
      match st f with
      | Some _ => Err (DuplicateField (field_name f))
      | None => v ← next_value f c; visit_map (set_slot st f v) entries
      end
  end.

Context {T : Type} (finish : slots → T).

(** [deserializer.deserialize_struct(name, FIELDS, GeneratedVisitor)]. *)
Definition deserialize_struct (name : string) (c : content) : outcome de_error T :=
  match c with
  | CMap entries | CStruct _ _ entries => finish <$> visit_map no_slots entries
  | _ => Err (InvalidType ("struct " +:+ name))
  end.

(** *** Slots *)

Implicit Types (st : slots) (entries : list (string * content)).
Implicit Types (vs : list { f : Field & option (ty f) }).

Lemma set_slot_eq st f v : set_slot st f v f = v.
Proof.
  unfold set_slot. destruct (decide (f = f)) as [e|]; [|done].
  by rewrite (proof_irrel e eq_refl).
Qed.

Lemma set_slot_ne st f v g : f ≠ g → set_slot st f v g = st g.
Proof. intros. unfold set_slot. by destruct (decide (f = g)). Qed.

(** *** What the loop accepts *)

(** An entry, as the field it names and what its variable is assigned. *)
Definition read_entry (e : string * content)
    : outcome de_error { f : Field & option (ty f) } :=
  f ← visit_str e.1;
  v ← next_value f e.2;
  Ok (existT f v).

Fixpoint assign st vs : slots :=
  match vs with
  | [] => st
  | existT f v :: vs => assign (set_slot st f v) vs
  end.

(** No variable is assigned once it holds a value. *)
Fixpoint fresh st vs : Prop :=
  match vs with
  | [] => True
  | existT f v :: vs => st f = None ∧ fresh (set_slot st f v) vs
  end.

Lemma visit_map_ok st entries st' :
  visit_map st entries = Ok st' ↔
  ∃ vs, traverse read_entry entries = Ok vs ∧ fresh st vs ∧ st' = assign st vs.
Proof.
  revert st. induction entries as [|[k c] entries IH]; intros st.
  { simpl. split; [intros [= <-]; by exists []|]. by intros (vs & [= <-] & _ & ->). }
  split.
  - simpl. intros (f & Hk & H)%outcome_bind_ok.
    destruct (st f) eqn:Hf; [done|].
    apply outcome_bind_ok in H as (v & Hv & (vs & Hvs & Hfr & ->)%IH).
    exists (existT f v :: vs). simpl.
    assert (read_entry (k, c) = Ok (existT f v)) as ->.
    { unfold read_entry. simpl. rewrite Hk. simpl. by rewrite Hv. }
    simpl. by rewrite Hvs.
  - simpl. intros (vs & Ht & Hfr & ->).
    apply outcome_bind_ok in Ht as (x & Hx & (vs' & Hvs & [= <-])%outcome_bind_ok).
    unfold read_entry in Hx. simpl in Hx.
    apply outcome_bind_ok in Hx as (f & Hk & (v & Hv & [= <-])%outcome_bind_ok).
    simpl in Hfr. destruct Hfr as [Hf Hfr]. rewrite Hk. simpl. rewrite Hf, Hv. simpl.
    apply IH. by exists vs'.
Qed.

(** Each field at most once: nothing can be assigned twice. *)
Lemma fresh_NoDup st vs :
  NoDup (projT1 <$> vs) → (∀ f, f ∈ (projT1 <$> vs) → st f = None) → fresh st vs.
Proof.
  revert st. induction vs as [|[f v] vs IH]; intros st Hnd Hst; [done|].
  rewrite fmap_cons, list.NoDup_cons in Hnd. simpl in Hnd. destruct Hnd as [Hf Hnd].
  split; [apply Hst; by left|]. apply IH; [done|]. intros g Hg.
  rewrite set_slot_ne by congruence. apply Hst. by right.
Qed.

Lemma assign_not_elem st vs g : g ∉ (projT1 <$> vs) → assign st vs g = st g.
Proof.
  revert st. induction vs as [|[f v] vs IH]; intros st Hg; [done|].
  rewrite fmap_cons, not_elem_of_cons in Hg. simpl in *. destruct Hg as [Hf Hg].
  rewrite IH by done. by apply set_slot_ne.
Qed.

Lemma assign_elem st vs f v :
  NoDup (projT1 <$> vs) → existT f v ∈ vs → assign st vs f = v.
Proof.
  revert st. induction vs as [|[g w] vs IH]; intros st Hnd Hin; [by inversion Hin|].
  rewrite fmap_cons, list.NoDup_cons in Hnd. simpl in *. destruct Hnd as [Hg Hnd].
  apply elem_of_cons in Hin as [Heq|Hin]; [|by apply IH].
  inversion_sigma Heq. destruct Heq1. simpl in *. subst.
  rewrite assign_not_elem by done. apply set_slot_eq.
Qed.

(** The loop on entries that name distinct fields: every entry ends up in its slot. *)
Lemma visit_map_NoDup entries vs :
  traverse read_entry entries = Ok vs → NoDup (projT1 <$> vs) →
  visit_map no_slots entries = Ok (assign no_slots vs).
Proof.
  intros Ht Hnd. apply visit_map_ok. exists vs. split_and!; [done| |done].
  by apply fresh_NoDup.
Qed.

(** The loop stops at the first entry it refuses: an unknown key, a field whose variable
    holds a value already, or a value that does not decode. *)
Lemma visit_map_err st entries e :
  visit_map st entries = Err e ↔
  ∃ l1 k c l2 st1, entries = l1 ++ (k, c) :: l2 ∧ visit_map st l1 = Ok st1 ∧
    (visit_str k = Err e ∨
     ∃ f, visit_str k = Ok f ∧
       ((is_Some (st1 f) ∧ e = DuplicateField (field_name f)) ∨
        (st1 f = None ∧ next_value f c = Err e))).
Proof.
  revert st. induction entries as [|[k c] entries IH]; intros st; simpl.
  { split; [done|]. intros (l1 & ? & ? & ? & ? & Hl & _). by destruct l1. }
  rewrite outcome_bind_err. split.
  - intros [Hk|(f & Hk & H)]; [exists [], k, c, entries, st; naive_solver|].
    destruct (st f) as [x|] eqn:Hf.
    { injection H as <-. exists [], k, c, entries, st. split_and!; [done|done|].
      right. exists f. split; [done|]. left. rewrite Hf. eauto. }
    apply outcome_bind_err in H as [Hv|(v & Hv & (l1 & k' & c' & l2 & st1 & -> & Hl & H)%IH)].
    + exists [], k, c, entries, st. naive_solver.
    + exists ((k, c) :: l1), k', c', l2, st1. split_and!; [done| |done].
      simpl. rewrite Hk. simpl. rewrite Hf, Hv. exact Hl.
  - intros (l1 & k' & c' & l2 & st1 & Hl & Hv & H). destruct l1 as [|[k1 c1] l1]; simplify_eq/=.
    + destruct H as [H|(f & Hk & [[[x Hf] ->]|[Hf H]])]; [by left|right..];
        exists f; (split; [done|]); rewrite Hf; [done|]. apply outcome_bind_err. by left.
    + apply outcome_bind_ok in Hv as (f & Hk & Hv). right. exists f. split; [done|].
      destruct (st f); [done|]. apply outcome_bind_ok in Hv as (v & Hv & Hl).
      apply outcome_bind_err. right. exists v. split; [done|]. apply IH. naive_solver.
Qed.

(** *** The value of a field

    The entry that names a field, wherever it is in the map. *)
Definition names (f : Field) (e : string * content) : bool :=
  match visit_str e.1 with Ok g => bool_decide (g = f) | _ => false end.

Definition value_of entries (f : Field) : option content := snd <$> List.find (names f) entries.

Lemma value_of_none entries fields f :
  traverse (λ e, visit_str e.1) entries = Ok fields → f ∉ fields → value_of entries f = None.
Proof.
  rewrite traverse_ok. unfold value_of.
  induction 1 as [|e g entries fields Hg _ IH]; intros Hf; [done|]. simpl. unfold names at 1.
  rewrite Hg. apply not_elem_of_cons in Hf as [Hf Hfs].
  rewrite bool_decide_false by done. by apply IH.
Qed.

(** What the loop leaves in the slots, given what the entries say. *)
Definition filled entries st st' : Prop :=
  ∀ f, match value_of entries f with
       | Some c => next_value f c = Ok (st' f)
       | None => st' f = st f
       end.

Lemma visit_map_filled st entries fields :
  traverse (λ e, visit_str e.1) entries = Ok fields → NoDup fields →
  (∀ f, f ∈ fields → st f = None) →
  (∀ st', visit_map st entries = Ok st' → filled entries st st') ∧
  (∀ st', filled entries st st' → ∃ st2, visit_map st entries = Ok st2 ∧ ∀ f, st2 f = st' f).
Proof.
  intros Ht Hnd. pose proof Ht as Hf. apply traverse_ok in Hf. revert st.
  induction Hf as [|[k c] g entries fields Hg Hf IH]; intros st Hst; simpl in *.
  { split; [intros st' [= <-] f; done|]. intros st' Hfill. exists st. split; [done|].
    intros f. symmetry. apply Hfill. }
  rewrite list.NoDup_cons in Hnd. destruct Hnd as [Hfresh Hnd]. apply traverse_ok in Hf.
  assert (value_of entries g = None) as Hnone by by eapply value_of_none.
  assert (∀ f, value_of ((k, c) :: entries) f = if decide (g = f) then Some c else value_of entries f)
    as Hval.
  { intros f. unfold value_of. simpl. unfold names at 1. simpl. rewrite Hg.
    case_bool_decide; by case_decide. }
  assert (∀ v f, f ∈ fields → set_slot st g v f = None) as Hst'.
  { intros v f Hin. rewrite set_slot_ne by congruence. apply Hst. by right. }
  rewrite Hg. simpl. rewrite (Hst g) by left. split.
  - intros st' (v & Hv & Hvisit)%outcome_bind_ok f.
    apply (IH Hf Hnd (set_slot st g v) (Hst' v)) in Hvisit. specialize (Hvisit f).
    rewrite Hval. case_decide as Hgf; [subst f|].
    + rewrite Hnone, set_slot_eq in Hvisit. by rewrite Hvisit.
    + rewrite set_slot_ne in Hvisit by done. done.
  - intros st' Hfill. pose proof (Hfill g) as Hv. rewrite Hval, decide_True in Hv by done.
    rewrite Hv. simpl. apply (IH Hf Hnd (set_slot st g (st' g)) (Hst' _)). intros f.
    specialize (Hfill f). rewrite Hval in Hfill. case_decide as Hgf; [subst f|].
    + by rewrite Hnone, set_slot_eq.
    + rewrite set_slot_ne by done. done.
Qed.

(** The value a map is read as depends on the slots only, whichever way they were filled. *)
Definition extensional : Prop :=
  ∀ st1 st2, (∀ f, st1 f = st2 f) → finish st1 = finish st2.

(** A struct is read from entries of distinct fields by what they say of each field. *)
Lemma deserialize_fields name entries fields x :
  extensional → traverse (λ e, visit_str e.1) entries = Ok fields → NoDup fields →
  deserialize_struct name (CMap entries) = Ok x ↔
  ∃ st, filled entries no_slots st ∧ finish st = x.
Proof.
  intros Hext Ht Hnd. destruct (visit_map_filled no_slots entries fields Ht Hnd) as [Hto Hfrom];
    [done|]. simpl. rewrite outcome_fmap_ok. split.
  - intros (st & Hst%Hto & ->). by exists st.
  - intros (st & (st2 & Hst2 & Heq)%Hfrom & <-). exists st2. split; [done|].
    apply Hext. intros f. by rewrite Heq.
Qed.

(** An entry that a map is refused for: the entries before it filled some slots, and this
    one names no field, or a field that has its value, or holds a value that cannot be
    read. *)
Definition refused_for (before : list (string * content)) (entry : string * content)
    (e : de_error) : Prop :=
  ∃ st, visit_map no_slots before = Ok st ∧
    (visit_str entry.1 = Err e ∨
     ∃ f, visit_str entry.1 = Ok f ∧
       ((is_Some (st f) ∧ e = DuplicateField (field_name f)) ∨
        (st f = None ∧ next_value f entry.2 = Err e))).

Lemma deserialize_refuses name entries e :
  deserialize_struct name (CMap entries) = Err e ↔
  ∃ before entry after, entries = before ++ entry :: after ∧ refused_for before entry e.
Proof.
  assert (deserialize_struct name (CMap entries) = Err e ↔
          visit_map no_slots entries = Err e) as ->.
  { simpl. destruct (visit_map no_slots entries); simpl; naive_solver. }
  rewrite visit_map_err. split.
  - intros (l1 & k & c & l2 & st & -> & Hst & H). exists l1, (k, c), l2.
    split; [done|]. by exists st.
  - intros (l1 & [k c] & l2 & -> & st & Hst & H). by exists l1, k, c, l2, st.
Qed.

(** *** Reading back what was written *)

(** A written struct: per field, in some order, what is written of it, if anything. *)
Definition emitted (key : Field → string) (em : Field → option content)
    (fields : list Field) : list (string * content) :=
  concat ((λ f, from_option (λ c, [(key f, c)]) [] (em f)) <$> fields).

(** What is written of every field is read as the value of its slot; what is not written
    is absent. *)
Definition reads_back (key : Field → string) (em : Field → option content) (val : slots)
    : Prop :=
  ∀ f, visit_str (key f) = Ok f ∧
       match em f with
       | Some c => next_value f c = Ok (val f)
       | None => val f = None
       end.

Lemma emitted_cons key em f fields :
  emitted key em (f :: fields) =
  from_option (λ c, [(key f, c)]) [] (em f) ++ emitted key em fields.
Proof. done. Qed.

Lemma read_emitted key em val fields :
  reads_back key em val →
  ∃ vs, traverse read_entry (emitted key em fields) = Ok vs ∧
        sublist (projT1 <$> vs) fields ∧
        (∀ f, f ∈ fields → is_Some (em f) → existT f (val f) ∈ vs) ∧
        (∀ f, f ∈ (projT1 <$> vs) → is_Some (em f)).
Proof.
  intros Hrb. induction fields as [|f fields (vs & Ht & Hs & Hin & Hem)].
  { exists []. split_and!; [done..| |]; intros ?; by rewrite elem_of_nil. }
  destruct (Hrb f) as [Hk Hv]. rewrite emitted_cons. destruct (em f) as [c|] eqn:Hc.
  - exists (existT f (val f) :: vs). simpl.
    assert (read_entry (key f, c) = Ok (existT f (val f))) as ->.
    { unfold read_entry. simpl. rewrite Hk. simpl. by rewrite Hv. }
    simpl. rewrite Ht. split_and!; [done|by constructor|..].
    + intros g [->|Hg]%elem_of_cons Hs'; [by left|right; by apply Hin].
    + intros g [->|Hg]%elem_of_cons; [by rewrite Hc|by apply Hem].
  - exists vs. split_and!; [done|by constructor| |done].
    intros g [->|Hg]%elem_of_cons Hs'; [|by apply Hin]. rewrite Hc in Hs'. by destruct Hs'.
Qed.

Lemma deserialize_emitted name len key em val fields :
  extensional → reads_back key em val → NoDup fields → (∀ f, f ∈ fields) →
  deserialize_struct name (CStruct name len (emitted key em fields)) = Ok (finish val).
Proof.
  intros Hext Hrb Hnd Hall. destruct (read_emitted key em val fields Hrb)
    as (vs & Ht & Hs & Hin & Hem).
  assert (NoDup (projT1 <$> vs)) as Hnd' by by eapply sublist_NoDup.
  simpl. rewrite (visit_map_NoDup _ vs) by done. simpl. f_equal. apply Hext. intros f.
  destruct (em f) as [c|] eqn:Hc.
  - apply assign_elem; [done|]. apply Hin; [done|]. by rewrite Hc.
  - rewrite assign_not_elem; [|intros Hf%Hem; rewrite Hc in Hf; by destruct Hf].
    pose proof (proj2 (Hrb f)) as Hv. by rewrite Hc in Hv.
Qed.
End visitor.

(** ** Writing and reading messages *)

(** A message in order: it declares as many fields as it writes, writes none twice, and is
    read back. *)
Definition well_written {T} (ser : T → outcome ser_error content)
    (de : content → outcome de_error T) (x : T) : Prop :=
  ∃ name fields, ser x = Ok (CStruct name (length fields) fields) ∧ NoDup (fields.*1) ∧
    de (CStruct name (length fields) fields) = Ok x.

Lemma well_written_round_trips {T} ser de (x : T) :
  well_written ser de x → round_trips ser de x.
Proof. intros (name & fields & Hs & _ & Hd). by eexists. Qed.

(** The value of a serialization that succeeds. *)
Definition ok_content (r : outcome ser_error content) : option content :=
  match r with Ok c => Some c | _ => None end.

Definition push (key : string) (o : option content) (ss : struct_ser) : struct_ser :=
  {| ss_name := ss_name ss; ss_len := ss_len ss;
     ss_fields := ss_fields ss ++ from_option (λ c, [(key, c)]) [] o |}.

Lemma field_if_push cond key value ss :
  (cond = true → is_ok value = true) →
  field_if cond key value ss = Ok (push key (if cond then ok_content value else None) ss).
Proof.
  unfold push. destruct cond; intros Hv; simpl.
  - destruct value as [c|?|?]; [done|discriminate (Hv eq_refl)..].
  - rewrite app_nil_r. by destruct ss.
Qed.

Lemma field_some_push {T} (o : option T) key value ss :
  (∀ v, o = Some v → is_ok (value v) = true) →
  field_some o key value ss = Ok (push key (o ≫= λ v, ok_content (value v)) ss).
Proof.
  unfold push. destruct o as [v|]; intros Hv; simpl.
  - specialize (Hv v eq_refl). unfold serialize_field. by destruct (value v).
  - rewrite app_nil_r. by destruct ss.
Qed.

Lemma option_round_trip {T} ser (de : content → outcome de_error T) x :
  round_trips ser de x → ∃ c, ser x = Ok c ∧ option_deserialize de c = Ok (Some x).
Proof.
  intros (c & Hs & Hn & Hd). exists c. split; [done|].
  destruct c; try done; unfold option_deserialize; by rewrite Hd.
Qed.

(** *** Fields

    Per kind of field: what is written, how it is read back, and how much it counts. *)

Lemma length_entry (key : string) (o : option content) :
  length (from_option (λ c, [(key, c)]) [] o) = count_if (is_some o).
Proof. by destruct o. Qed.

Lemma is_some_if (cond : bool) r :
  (cond = true → is_ok r = true) → is_some (if cond then ok_content r else None) = cond.
Proof. destruct cond; [|done]. destruct r; intros Hr; [done|discriminate (Hr eq_refl)..]. Qed.

Lemma is_some_bind {T} (o : option T) (ser : T → outcome ser_error content) :
  (∀ v, o = Some v → is_ok (ser v) = true) →
  is_some (o ≫= λ v, ok_content (ser v)) = is_some o.
Proof. destruct o as [v|]; [|done]. intros Hv. specialize (Hv v eq_refl). simpl. by destruct (ser v). Qed.

Lemma round_trips_is_ok {T} ser (de : content → outcome de_error T) x :
  round_trips ser de x → is_ok (ser x) = true.
Proof. by intros (c & -> & _). Qed.

(** What a field is read as, when [written] was written of it. *)
Definition reads {A} (read : content → outcome de_error (option A))
    (written : option content) (slot : option A) : Prop :=
  match written with
  | Some c => read c = Ok slot
  | None => slot = None
  end.

Lemma reads_option {T} ser (de : content → outcome de_error T) o :
  (∀ v, o = Some v → round_trips ser de v) →
  reads (option_deserialize de) (o ≫= λ v, ok_content (ser v)) o.
Proof.
  destruct o as [v|]; [|done]. intros Hv.
  destruct (option_round_trip ser de v (Hv v eq_refl)) as (c & Hs & Hd).
  unfold reads. simpl. by rewrite Hs.
Qed.

Lemma reads_if {T} (cond : bool) ser (de : content → outcome de_error T) x :
  (cond = true → round_trips ser de x) →
  reads (λ c, Some <$> de c) (if cond then ok_content (ser x) else None)
    (if cond then Some x else None).
Proof.
  destruct cond; [|done]. intros Hx. destruct (Hx eq_refl) as (c & Hs & _ & Hd).
  unfold reads. rewrite Hs. simpl. by rewrite Hd.
Qed.

Lemma round_trips_number `{PbjsonLaws} n :
  in_width 64 n → round_trips (λ n, serialize (to_string n)) number_deserialize n.
Proof. intros Hn. eexists. split_and!; [done|done|by apply number_of_string]. Qed.

Lemma round_trips_bytes `{PbjsonLaws} bs :
  round_trips (λ bs, serialize (base64_encode bs)) bytes_deserialize bs.
Proof. eexists. split_and!; [done|done|apply bytes_of_base64]. Qed.

Lemma default_nonzero n : default 0 (if nonzero n then Some n else None) = n.
Proof. unfold nonzero. case_bool_decide; [done|]. simpl. lia. Qed.

Lemma default_nonempty {A} (l : list A) : default [] (if nonempty l then Some l else None) = l.
Proof. by destruct l. Qed.

Lemma default_nonempty_map {A} (m : gmap string A) :
  default ∅ (if bool_decide (m ≠ ∅) then Some m else None) = m.
Proof. case_bool_decide as Hm; [done|]. simpl. symmetry. by destruct (decide (m = ∅)). Qed.

(** *** Structs *)

Section structs.
Context {Field : Type} `{EqDecision Field} {ty : Field → Type}.
Context {visit_str : string → outcome de_error Field} {field_name : Field → string}.
Context {next_value : ∀ f, content → outcome de_error (option (ty f))}.
Context {T : Type} {finish : slots ty → T}.

Lemma emitted_keys_NoDup em val fields :
  reads_back ty visit_str next_value field_name em val → NoDup fields →
  NoDup ((emitted field_name em fields).*1).
Proof.
  intros Hrb Hnd. assert (Inj (=) (=) field_name) as Hinj.
  { intros f g Hfg. apply (inj (Ok (E:=de_error))).
    by rewrite <-(proj1 (Hrb f)), Hfg, (proj1 (Hrb g)). }
  apply (sublist_NoDup _ (field_name <$> fields)); [by apply NoDup_fmap_2|].
  clear Hnd. induction fields as [|f fields IH]; [done|].
  rewrite emitted_cons, fmap_app, fmap_cons. destruct (em f); simpl; by constructor.
Qed.

(** A struct whose serializer writes the fields [fields] in order is well written. *)
Lemma struct_well_written name em val fields ser self :
  extensional ty finish → reads_back ty visit_str next_value field_name em val →
  NoDup fields → (∀ f, f ∈ fields) → finish val = self →
  ser self = Ok (CStruct name (length (emitted field_name em fields))
                   (emitted field_name em fields)) →
  well_written ser
    (deserialize_struct ty visit_str field_name next_value finish name) self.
Proof.
  intros Hext Hrb Hnd Hall Hval Hser. exists name, (emitted field_name em fields).
  split_and!; [done|by eapply emitted_keys_NoDup|].
  rewrite <-Hval. by apply deserialize_emitted.
Qed.
End structs.

(** *** Automation

    Hints are the round trips of the values of fields; [struct_fields] discharges the side
    conditions on the list of fields, [struct_written] walks through a serializer, and
    [struct_lengths] compares what it counted with what it wrote. *)
Create HintDb serde.
#[export] Hint Resolve round_trips_number round_trips_bytes : serde.

Ltac field_ok :=
  first [ done
        | intros; eapply round_trips_is_ok; solve [eauto with serde] ].

Ltac struct_fields :=
  lazymatch goal with
  | |- NoDup _ => by apply (bool_decide_unpack _)
  | |- ∀ f, f ∈ _ => intros []; by apply (bool_decide_unpack _)
  end.

Ltac struct_written :=
  unfold serialize_struct; cbn [mbind outcome_bind];
  repeat (first [rewrite field_if_push by field_ok | rewrite field_some_push by field_ok];
          cbn [mbind outcome_bind]);
  unfold ss_end, push; cbn [ss_name ss_len ss_fields];
  rewrite ?emitted_cons, ?length_app, ?length_entry, ?app_nil_l;
  unfold emitted; cbn [fmap list_fmap concat length];
  rewrite ?app_nil_r, ?Nat.add_0_r.

Ltac struct_lengths :=
  repeat (first [rewrite is_some_if by field_ok | rewrite is_some_bind by field_ok]);
  by rewrite <-?Nat.add_assoc, <-?app_assoc.

Section containers.
Context `{RoundTrips T valid}.

Lemma traverse_round_trip l :
  Forall valid l →
  ∃ cs, traverse serialize l = Ok cs ∧ traverse deserialize cs = Ok l.
Proof.
  induction 1 as [|x l Hx _ (cs & Hs & Hd)]; [by exists []|].
  destruct (round_trip x Hx) as (c & Hc & _ & Hdc). exists (c :: cs). simpl.
  rewrite Hc, Hdc. simpl. by rewrite Hs, Hd.
Qed.

#[export] Instance vec_round_trips : RoundTrips (list T) (Forall valid).
Proof.
  intros l (cs & Hs & Hd)%traverse_round_trip. exists (CSeq cs).
  unfold serialize, vec_serialize. by rewrite Hs.
Qed.

Lemma insert_entries_round_trip (kvs : list (string * T)) m :
  Forall (λ kv, valid kv.2) kvs →
  ∃ es, traverse (λ '(k, v), (λ c, (k, c)) <$> serialize v) kvs = Ok es ∧
        insert_entries m es = Ok (foldl (λ m kv, <[kv.1 := kv.2]> m) m kvs).
Proof.
  intros Hf. revert m. induction Hf as [|[k v] kvs Hv _ IH]; intros m; [by exists []|].
  destruct (round_trip v Hv) as (c & Hc & _ & Hdc).
  destruct (IH (<[k := v]> m)) as (es & Hs & Hd). exists ((k, c) :: es). simpl.
  rewrite Hc. simpl. rewrite Hs. simpl. rewrite Hdc. simpl. done.
Qed.

Lemma foldl_insert (kvs : list (string * T)) (m : gmap string T) :
  NoDup (kvs.*1) →
  foldl (λ m kv, <[kv.1 := kv.2]> m) m kvs = list_to_map kvs ∪ m.
Proof.
  revert m. induction kvs as [|[k v] kvs IH]; intros m Hnd; simpl.
  { by rewrite map_empty_union. }
  rewrite fmap_cons, list.NoDup_cons in Hnd. destruct Hnd as [Hk Hnd]. simpl in Hk.
  rewrite IH by done. rewrite <-insert_union_l, <-insert_union_r; [done|].
  by apply not_elem_of_list_to_map_1.
Qed.

#[export] Instance hash_map_round_trips {orders : UnspecifiedOrders}
    `{!UnspecifiedOrdersLaws orders} :
  RoundTrips (gmap string T) (map_Forall (λ _, valid)).
Proof.
  intros m Hm. pose proof (hash_map_iter_perm m) as Hp.
  destruct (insert_entries_round_trip (hash_map_iter m) ∅) as (es & Hs & Hd).
  { rewrite list.Forall_forall. intros [k v]. rewrite Hp, elem_of_map_to_list. apply Hm. }
  exists (CMap es). unfold serialize, hash_map_serialize. rewrite Hs.
  split_and!; [done..|]. unfold deserialize, hash_map_deserialize. rewrite Hd. f_equal.
  assert (NoDup ((hash_map_iter m).*1)) as Hnd
    by (rewrite Hp; apply NoDup_fst_map_to_list).
  rewrite foldl_insert, map_union_empty by done.
  rewrite (list_to_map_proper _ _ Hnd Hp). apply list_to_map_to_list.
Qed.
End containers.

Module ToyPbjson.
(** Bytes are written as they are instead of in base64. *)
#[export] Instance pbjson : Pbjson := {|
  base64_encode := String.string_of_list_byte;
  number_deserialize c :=
    match c with
    | CU64 n => Ok n
    | CStr s => ok_or (DeCustom "number") (parse_decimal s)
    | _ => Err (DeCustom "number")
    end;
  bytes_deserialize c :=
    match c with
    | CStr s => Ok (String.list_byte_of_string s)
    | _ => Err (DeCustom "bytes")
    end;
|}.

#[export] Instance pbjson_laws : PbjsonLaws.
Proof.
  split; simpl.
  - intros n [Hn _]. by rewrite parse_to_string.
  - intros bs. by rewrite String.list_byte_of_string_of_list_byte.
Qed.

End ToyPbjson.
