(* ===== verification/Derive.v ===== *)
(** What [#[derive(Serialize, Deserialize)]] makes of a configuration struct, and what a
    TOML file keeps of it.

    A struct is described by its fields in order, each with the attributes that matter: its
    key and aliases, its codec, its default, the condition under which it is not written.
    The derived implementations are functions of that description. *)

From S2P Require Import Prelude Bytes Serde.

(** ** Codecs *)

Record codec (F : Type) : Type := {
  c_write : F → outcome ser_error content;
  c_read : content → outcome de_error F;
}.
Arguments c_write {F}. Arguments c_read {F}.

(** Unsigned integers of width [w]. *)
Definition uint_codec (w : Z) : codec Z := {|
  c_write n := Ok (CU64 n);
  c_read c :=
    match c with
    | CU64 n | CI64 n => if decide (0 <= n < 2 ^ w) then Ok n else Err (InvalidValue n)
    | _ => Err (InvalidType "an unsigned integer")
    end;
|}.

Definition bool_codec : codec bool := {|
  c_write b := Ok (CBool b);
  c_read c := match c with CBool b => Ok b | _ => Err (InvalidType "a boolean") end;
|}.

Definition string_codec : codec string := {|
  c_write s := Ok (CStr s);
  c_read c := match c with CStr s => Ok s | _ => Err (InvalidType "a string") end;
|}.

(** A type with a textual form. *)
Definition text_codec {F} (print : F → string) (parse : string → option F) : codec F := {|
  c_write x := Ok (CStr (print x));
  c_read c :=
    match c with
    | CStr s => ok_or (DeCustom s) (parse s)
    | _ => Err (InvalidType "a string")
    end;
|}.

Definition option_codec {F} (K : codec F) : codec (option F) := {|
  c_write o := match o with Some x => c_write K x | None => Ok CNull end;
  c_read := option_deserialize (c_read K);
|}.

Definition vec_codec {F} (K : codec F) : codec (list F) := {|
  c_write l := CSeq <$> traverse (c_write K) l;
  c_read c :=
    match c with
    | CSeq l => traverse (c_read K) l
    | _ => Err (InvalidType "a sequence")
    end;
|}.

(** ** Enums

    A variant without data is its name; a variant that holds a value is a table whose one
    key is its name.  What a format takes for a missing value is up to the format. *)

Class UnitVariants := unit_variant : content → outcome de_error ().

(** What [deserialize_enum] finds: the name of a variant, and its value if any. *)
Definition enum_entry (c : content) : outcome de_error (string * option content) :=
  match c with
  | CStr s => Ok (s, None)
  | CMap [(s, c)] => Ok (s, Some c)
  | _ => Err (InvalidType "a string or a table with one key")
  end.

Definition unit_enum_codec `{!UnitVariants} {A} (name : A → string) (variants : list A)
    : codec A := {|
  c_write a := Ok (CStr (name a));
  c_read c :=
    '(s, value) ← enum_entry c;
    a ← ok_or (UnknownVariant s (name <$> variants))
          (snd <$> list_find (λ a, name a = s) variants);
    _ ← match value with Some c => unit_variant c | None => Ok () end;
    Ok a;
|}.

(** [newtype_variant]. *)
Definition newtype_value (value : option content) : outcome de_error content :=
  ok_or (InvalidType "newtype variant") value.

(** ** Structs *)

Record field (S F : Type) : Type := {
  f_key : string;
  f_aliases : list string;
  f_get : S → F;
  f_codec : codec F;
  f_skip : F → bool;                        (** [skip_serializing_if] *)
  f_default : option (outcome de_error F);  (** [default], [default = ".."] *)
  f_missing : outcome de_error F;           (** [serde::__private::de::missing_field] *)
}.
Arguments f_key {S F}. Arguments f_aliases {S F}. Arguments f_get {S F}.
Arguments f_codec {S F}. Arguments f_skip {S F}. Arguments f_default {S F}.
Arguments f_missing {S F}.

Section attributes.
Context {S F : Type}.

Definition required (key : string) (get : S → F) (K : codec F) : field S F :=
  {| f_key := key; f_aliases := []; f_get := get; f_codec := K; f_skip _ := false;
     f_default := None; f_missing := Err (MissingField key) |}.

(** A field of type [Option<F>], absent when it is missing. *)
Definition optional (key : string) (get : S → option F) (K : codec F) : field S (option F) :=
  {| f_key := key; f_aliases := []; f_get := get; f_codec := option_codec K;
     f_skip _ := false; f_default := None; f_missing := Ok None |}.

Definition or_default (default : outcome de_error F) (f : field S F) : field S F :=
  {| f_key := f_key f; f_aliases := f_aliases f; f_get := f_get f; f_codec := f_codec f;
     f_skip := f_skip f; f_default := Some default; f_missing := f_missing f |}.

Definition alias (name : string) (f : field S F) : field S F :=
  {| f_key := f_key f; f_aliases := f_aliases f ++ [name]; f_get := f_get f;
     f_codec := f_codec f; f_skip := f_skip f; f_default := f_default f;
     f_missing := f_missing f |}.

Definition skip_if (skip : F → bool) (f : field S F) : field S F :=
  {| f_key := f_key f; f_aliases := f_aliases f; f_get := f_get f; f_codec := f_codec f;
     f_skip := skip; f_default := f_default f; f_missing := f_missing f |}.

Definition f_names (f : field S F) : list string := f_key f :: f_aliases f.

(** The value of a field that the map does not have. *)
Definition absent (f : field S F) : outcome de_error F :=
  match f_default f with Some default => default | None => f_missing f end.
End attributes.

(** A constructor, applied to the fields one after the other. *)
Universe built.

Inductive derive (S : Type) : Type@{built} → Type :=
  | Build {T : Type@{built}} (t : T) : derive S T
  | With {F T : Type@{built}} (d : derive S (F → T)) (f : field S F) : derive S T.
Arguments Build {S T}. Arguments With {S F T}.

Notation "d ⊛ f" := (With d f) (at level 61, left associativity).

Section derive.
Context {S : Type}.

(** The local variables of [visit_map]. *)
Fixpoint locals {T} (d : derive S T) : Type :=
  match d with
  | Build _ => ()
  | @With _ F _ d _ => locals d * option F
  end.

Fixpoint no_locals {T} (d : derive S T) : locals d :=
  match d with
  | Build _ => ()
  | d ⊛ _ => (no_locals d, None)
  end.

(** One entry of the map: unknown keys are ignored. *)
Fixpoint assign_field {T} (d : derive S T) (k : string) (c : content)
    : locals d → outcome de_error (locals d) :=
  match d with
  | Build _ => λ l, Ok l
  | d ⊛ f => λ '(l, o),
      if decide (k ∈ f_names f) then
        match o with
        | Some _ => Err (DuplicateField (f_key f))
        | None => x ← c_read (f_codec f) c; Ok (l, Some x)
        end
      else l ← assign_field d k c l; Ok (l, o)
  end.

Fixpoint read_entries {T} (d : derive S T) (entries : list (string * content))
    (l : locals d) : outcome de_error (locals d) :=
  match entries with
  | [] => Ok l
  | (k, c) :: entries => l ← assign_field d k c l; read_entries d entries l
  end.

Fixpoint build {T} (d : derive S T) : locals d → outcome de_error T :=
  match d with
  | Build t => λ _, Ok t
  | d ⊛ f => λ '(l, o),
      g ← build d l;
      x ← match o with Some x => Ok x | None => absent f end;
      Ok (g x)
  end.

Fixpoint count_fields {T} (d : derive S T) : nat :=
  match d with Build _ => 0 | d ⊛ _ => Datatypes.S (count_fields d) end.

(** [visit_seq]: the fields in order, and the elements after the last one. *)
Fixpoint read_items {T} (d : derive S T) (l : list content)
    : outcome de_error (T * list content) :=
  match d with
  | Build t => Ok (t, l)
  | d ⊛ f =>
      '(g, rest) ← read_items d l;
      match rest with
      | c :: rest => x ← c_read (f_codec f) c; Ok (g x, rest)
      | [] =>
          x ← match f_default f with
              | Some default => default
              | None => Err (InvalidLength (count_fields d))
              end;
          Ok (g x, [])
      end
  end.

Fixpoint write_fields {T} (d : derive S T) (self : S)
    : outcome ser_error (list (string * content)) :=
  match d with
  | Build _ => Ok []
  | d ⊛ f =>
      es ← write_fields d self;
      if f_skip f (f_get f self) then Ok es
      else c ← c_write (f_codec f) (f_get f self); Ok (es ++ [(f_key f, c)])
  end.
End derive.

(** The derived implementations. *)
Definition derived {S} (name : string) (d : derive S S) : codec S := {|
  c_write self := es ← write_fields d self; Ok (CStruct name (length es) es);
  c_read c :=
    match c with
    | CMap entries | CStruct _ _ entries =>
        l ← read_entries d entries (no_locals d);
        build d l
    | CSeq l => fst <$> read_items d l
    | _ => Err (InvalidType ("struct " +:+ name))
    end;
|}.

(** ** What a TOML file keeps

    [reloads c c']: reading a TOML document that was written from [c] gives [c'].  A table
    keeps its entries in no particular order and has no entry for an absent value; integers
    are signed. *)

Definition I64_MAX : Z := 2 ^ 63 - 1.

Definition is_null (c : content) : bool := match c with CNull => true | _ => false end.

Definition present (entries : list (string * content)) : list (string * content) :=
  filter (λ e, is_null e.2 = false) entries.

Inductive reloads : content → content → Prop :=
  | reloads_bool b : reloads (CBool b) (CBool b)
  | reloads_int n : 0 <= n <= I64_MAX → reloads (CU64 n) (CI64 n)
  | reloads_str s : reloads (CStr s) (CStr s)
  | reloads_seq l l' : Forall2 reloads l l' → reloads (CSeq l) (CSeq l')
  | reloads_map es kept es' :
      Forall2 (λ e e', e.1 = e'.1 ∧ reloads e.2 e'.2) (present es) kept → kept ≡ₚ es' →
      reloads (CMap es) (CMap es')
  | reloads_struct name len es kept es' :
      Forall2 (λ e e', e.1 = e'.1 ∧ reloads e.2 e'.2) (present es) kept → kept ≡ₚ es' →
      reloads (CStruct name len es) (CMap es').

Definition reloads_entries (es es' : list (string * content)) : Prop :=
  ∃ kept, Forall2 (λ e e', e.1 = e'.1 ∧ reloads e.2 e'.2) (present es) kept ∧ kept ≡ₚ es'.

Lemma reloads_struct_inv name len es c :
  reloads (CStruct name len es) c → ∃ es', c = CMap es' ∧ reloads_entries es es'.
Proof. inversion 1; subst. eexists. split; [done|]. by eexists. Qed.

Lemma reloads_not_null c c' : reloads c c' → c ≠ CNull ∧ c' ≠ CNull.
Proof. by destruct 1. Qed.

(** A value survives when it is read back from the file that it is written to. *)
Definition survives {F} (K : codec F) (x : F) : Prop :=
  ∃ c, c_write K x = Ok c ∧ c ≠ CNull ∧ ∀ c', reloads c c' → c_read K c' = Ok x.

Section codecs.
Context {F : Type}.

Lemma survives_uint w n : 0 <= n < 2 ^ w → n <= I64_MAX → survives (uint_codec w) n.
Proof.
  intros Hw Hn. exists (CU64 n). split_and!; [done..|]. inversion 1; subst. simpl.
  by rewrite decide_True.
Qed.

Lemma survives_bool b : survives bool_codec b.
Proof. exists (CBool b). split_and!; [done..|]. by inversion 1. Qed.

Lemma survives_string s : survives string_codec s.
Proof. exists (CStr s). split_and!; [done..|]. by inversion 1. Qed.

Lemma survives_text (print : F → string) parse x :
  parse (print x) = Some x → survives (text_codec print parse) x.
Proof.
  intros Hp. exists (CStr (print x)). split_and!; [done..|]. inversion 1; subst. simpl.
  by rewrite Hp.
Qed.

Lemma survives_option (K : codec F) x : survives K x → survives (option_codec K) (Some x).
Proof.
  intros (c & Hw & Hn & Hr). exists c. split_and!; [done..|]. intros c' Hc. simpl.
  destruct (reloads_not_null _ _ Hc) as [_ Hn']. unfold option_deserialize.
  specialize (Hr c' Hc). destruct c'; try done; by rewrite Hr.
Qed.

Lemma survives_vec (K : codec F) l : Forall (survives K) l → survives (vec_codec K) l.
Proof.
  intros Hl.
  assert (∃ cs, traverse (c_write K) l = Ok cs ∧
    ∀ cs', Forall2 reloads cs cs' → traverse (c_read K) cs' = Ok l) as (cs & Hw & Hr).
  { induction Hl as [|x l (c & Hw & _ & Hr) _ (cs & Hws & Hrs)].
    - exists []. split; [done|]. by inversion 1.
    - exists (c :: cs). simpl. rewrite Hw. simpl. rewrite Hws. split; [done|].
      intros cs' Hcs. inversion Hcs as [|? c' ? cs0 Hc Hcs0]; subst. simpl.
      rewrite (Hr _ Hc). simpl. by rewrite (Hrs _ Hcs0). }
  exists (CSeq cs). split_and!; [by simpl; rewrite Hw|done|].
  inversion 1; subst. by apply Hr.
Qed.

Lemma survives_unit_enum `{!UnitVariants, !EqDecision F} (name : F → string) variants a :
  Inj (=) (=) name → a ∈ variants → survives (unit_enum_codec name variants) a.
Proof.
  intros Hinj Ha. exists (CStr (name a)). split_and!; [done..|]. inversion 1; subst. simpl.
  destruct (list_find (λ b, name b = name a) variants) as [[i b]|] eqn:Hf.
  - apply list_find_Some in Hf as (_ & Hb & _). apply Hinj in Hb as ->. done.
  - apply list_find_None in Hf. rewrite list.Forall_forall in Hf. by destruct (Hf a Ha).
Qed.
End codecs.

(** *** Structs *)

Section structs.
Context {S : Type}.

Fixpoint all_names {T} (d : derive S T) : list string :=
  match d with Build _ => [] | d ⊛ f => all_names d ++ f_names f end.

(** The struct that the fields of [self] build. *)
Fixpoint rebuilt {T} (d : derive S T) (self : S) : T :=
  match d with Build t => t | d ⊛ f => rebuilt d self (f_get f self) end.

(** The entries of a field. *)
Definition entries_of {F} (f : field S F) (es : list (string * content))
    : list (string * content) :=
  filter (λ e, e.1 ∈ f_names f) es.

(** The entries have the value of the field, or leave it to the default. *)
Definition has_field {F} (f : field S F) (es : list (string * content)) (x : F) : Prop :=
  match entries_of f es with
  | [] => absent f = Ok x
  | [(_, c)] => c_read (f_codec f) c = Ok x
  | _ => False
  end.

Fixpoint has_fields {T} (d : derive S T) (es : list (string * content)) (self : S) : Prop :=
  match d with
  | Build _ => True
  | d ⊛ f => has_fields d es self ∧ has_field f es (f_get f self)
  end.

Lemma assign_field_other {T} (d : derive S T) k c l :
  k ∉ all_names d → assign_field d k c l = Ok l.
Proof.
  induction d as [T t|F T d IH f]; [done|]. destruct l as [l o]. simpl. intros Hk.
  rewrite not_elem_of_app in Hk. destruct Hk as [Hd Hf].
  rewrite decide_False by done. by rewrite IH.
Qed.

(** The fields but the last, and the last one, are read independently. *)
Lemma read_entries_with {F T} (d : derive S (F → T)) (f : field S F) es l :
  (∀ k, k ∈ f_names f → k ∉ all_names d) →
  ∀ l' o, read_entries d es l = Ok l' →
  match entries_of f es with
  | [] => o = None
  | [(_, c)] => ∃ x, c_read (f_codec f) c = Ok x ∧ o = Some x
  | _ => False
  end → read_entries (d ⊛ f) es (l, None) = Ok (l', o).
Proof.
  intros Hdis l' o. revert l. induction es as [|[k c] es IH]; intros l.
  { intros [= <-] ->. done. }
  cbn [read_entries assign_field]. unfold entries_of. rewrite filter_cons. simpl.
  intros (l1 & Ha & Hl)%outcome_bind_ok Hf. destruct (decide (k ∈ f_names f)) as [Hk|Hk].
  - rewrite assign_field_other in Ha by auto. injection Ha as <-.
    destruct (filter (λ e, e.1 ∈ f_names f) es) eqn:Hes; [|done].
    destruct Hf as (x & Hx & ->). rewrite Hx. simpl. clear IH Hx.
    revert l Hl. induction es as [|[k' c'] es IH]; intros l Hl; [by injection Hl as ->|].
    cbn [read_entries assign_field] in Hl |- *. rewrite filter_cons in Hes. simpl in Hes.
    apply outcome_bind_ok in Hl as (l1 & Ha & Hl).
    destruct (decide (k' ∈ f_names f)); [done|]. rewrite Ha. simpl. by apply IH.
  - rewrite Ha. simpl. by apply IH.
Qed.

Lemma read_fields {T} (d : derive S T) es self :
  NoDup (all_names d) → has_fields d es self →
  ∃ l, read_entries d es (no_locals d) = Ok l ∧ build d l = Ok (rebuilt d self).
Proof.
  induction d as [T t|F T d IH f]; simpl.
  { intros _ _. exists (). split; [|done]. induction es as [|[k c] es IH]; [done|].
    exact IH. }
  rewrite list.NoDup_app. intros (Hd & Hdis & Hf) [Hes Hx].
  destruct (IH Hd Hes) as (l & Hl & Hb).
  assert (∃ o, read_entries (d ⊛ f) es (no_locals d, None) = Ok (l, o) ∧
    match o with Some x => Ok x | None => absent f end = Ok (f_get f self)) as (o & Ho & Hv).
  { unfold has_field in Hx. destruct (entries_of f es) as [|[k c] [|]] eqn:He.
    - exists None. split; [|done]. apply read_entries_with; [set_solver|done|by rewrite He].
    - eexists (Some _). split; [|done]. apply read_entries_with; [set_solver|done|].
      rewrite He. by eexists.
    - done. }
  exists (l, o). split; [done|]. rewrite Hb. simpl. by rewrite Hv.
Qed.

(** A map that has the fields of [self], in any order and next to any other keys, is read
    as [self]. *)
Lemma derived_reads name (d : derive S S) es self :
  NoDup (all_names d) → has_fields d es self → rebuilt d self = self →
  c_read (derived name d) (CMap es) = Ok self.
Proof.
  intros Hnd Hes Hself. destruct (read_fields d es self Hnd Hes) as (l & Hl & Hb).
  simpl. rewrite Hl. simpl. by rewrite Hb, Hself.
Qed.

(** *** Written structs *)

(** A field survives when it is written and its value does, or when it is not written, or
    written as an absent value, and its default is its value. *)
Definition field_survives {F} (f : field S F) (self : S) : Prop :=
  let x := f_get f self in
  (f_skip f x = true ∧ absent f = Ok x) ∨
  (f_skip f x = false ∧
    (survives (f_codec f) x ∨ (c_write (f_codec f) x = Ok CNull ∧ absent f = Ok x))).

Fixpoint fields_survive {T} (d : derive S T) (self : S) : Prop :=
  match d with
  | Build _ => True
  | d ⊛ f => fields_survive d self ∧ field_survives f self
  end.

(** What is written of the fields of [self]. *)
Definition wrote_field {F} (f : field S F) (es : list (string * content)) (x : F) : Prop :=
  if f_skip f x then entries_of f es = []
  else ∃ c, c_write (f_codec f) x = Ok c ∧ entries_of f es = [(f_key f, c)].

Fixpoint wrote_fields {T} (d : derive S T) (es : list (string * content)) (self : S) : Prop :=
  match d with
  | Build _ => True
  | d ⊛ f => wrote_fields d es self ∧ wrote_field f es (f_get f self)
  end.

Lemma wrote_fields_app {T} (d : derive S T) es k c self :
  k ∉ all_names d → wrote_fields d es self → wrote_fields d (es ++ [(k, c)]) self.
Proof.
  induction d as [T t|F T d IH f]; simpl; [done|].
  rewrite not_elem_of_app. intros [Hd Hf] [Hes Hx]. split; [by apply IH|].
  unfold wrote_field, entries_of in *. rewrite list.filter_app, filter_cons. simpl.
  rewrite decide_False, filter_nil, app_nil_r by done. exact Hx.
Qed.

Lemma write_fields_keys {T} (d : derive S T) self es :
  write_fields d self = Ok es → Forall (λ e, e.1 ∈ all_names d) es.
Proof.
  revert es. induction d as [T t|F T d IH f]; simpl; intros es.
  { intros [= <-]. constructor. }
  intros (es' & Hes & H)%outcome_bind_ok.
  assert (Forall (λ e, e.1 ∈ all_names d ++ f_names f) es') as Hall.
  { eapply Forall_impl; [|by apply IH]. intros e. rewrite elem_of_app. by left. }
  destruct (f_skip f (f_get f self)); [by injection H as <-|].
  apply outcome_bind_ok in H as (c & _ & [= <-]).
  apply Forall_app. split; [done|]. constructor; [|constructor]. simpl.
  rewrite elem_of_app. right. by left.
Qed.

Lemma write_fields_wrote {T} (d : derive S T) self es :
  NoDup (all_names d) → write_fields d self = Ok es → wrote_fields d es self.
Proof.
  revert es. induction d as [T t|F T d IH f]; simpl; intros es; [done|].
  rewrite list.NoDup_app. intros (Hd & Hdis & Hf) (es' & Hes & Hw)%outcome_bind_ok.
  specialize (IH es' Hd Hes).
  assert (entries_of f es' = []) as Hnone.
  { pose proof (write_fields_keys d self es' Hes) as Hk.
    unfold entries_of. clear -Hk Hdis. induction Hk as [|e es He _ IH]; [done|].
    rewrite filter_cons, decide_False; [exact IH|]. by apply Hdis. }
  unfold wrote_field. destruct (f_skip f (f_get f self)); [by injection Hw as <-|].
  apply outcome_bind_ok in Hw as (c & Hc & [= <-]).
  assert (f_key f ∈ f_names f) as Hkey by by left. split.
  { apply wrote_fields_app; [|done]. intros ?. by eapply Hdis. }
  exists c. split; [done|]. unfold entries_of in *.
  rewrite list.filter_app, Hnone, filter_cons, decide_True by done. by rewrite filter_nil.
Qed.

(** Reloading keeps the entries of each field. *)
Lemma entries_of_reloads {F} (f : field S F) es es' :
  reloads_entries es es' →
  match entries_of f es with
  | [] => entries_of f es' = []
  | [(k, c)] =>
      (c = CNull ∧ entries_of f es' = []) ∨
      (c ≠ CNull ∧ ∃ c', entries_of f es' = [(k, c')] ∧ reloads c c')
  | _ => True
  end.
Proof.
  intros (kept & Hk & Hp).
  assert (Forall2 (λ e e', e.1 = e'.1 ∧ reloads e.2 e'.2)
            (present (entries_of f es)) (entries_of f kept)) as Hf.
  { clear Hp. unfold entries_of, present in *.
    revert kept Hk. induction es as [|[k c] es IH]; intros kept Hk.
    { inversion Hk; subst. constructor. }
    rewrite !filter_cons in *. simpl in *. destruct (decide (is_null c = false)) as [Hc|Hc].
    - inversion Hk as [|? [k' c'] ? kept' [Hkk Hcc] Hk']; subst. simpl in *. subst k'.
      rewrite filter_cons. simpl. case_decide; [|by apply IH].
      rewrite filter_cons, decide_True by done. constructor; [done|by apply IH].
    - specialize (IH kept Hk). case_decide; [|done].
      rewrite filter_cons, decide_False by done. exact IH. }
  assert (entries_of f kept ≡ₚ entries_of f es') as Hp'.
  { unfold entries_of. by rewrite Hp. }
  assert (entries_of f kept = [] → entries_of f es' = []) as Hnil.
  { intros Hn. rewrite Hn in Hp'. by apply Permutation_nil in Hp'. }
  destruct (entries_of f es) as [|[k c] [|]]; [by apply Hnil, (Forall2_nil_inv_l _ _ Hf)| |done].
  destruct (decide (is_null c = false)) as [Hc|Hc].
  - right. split; [by destruct c|].
    assert (present [(k, c)] = [(k, c)]) as Hpr.
    { unfold present. by rewrite filter_cons, decide_True. }
    rewrite Hpr in Hf.
    apply Forall2_cons_inv_l in Hf as ([k' c'] & kept' & [Hk' Hcc] & Hf & Hkept).
    simpl in *. subst k'. apply Forall2_nil_inv_l in Hf as ->. rewrite Hkept in Hp'.
    apply Permutation_singleton_l in Hp' as <-. by exists c'.
  - left. split; [by destruct c|].
    assert (present [(k, c)] = []) as Hpr.
    { unfold present. by rewrite filter_cons, decide_False. }
    rewrite Hpr in Hf. by apply Hnil, (Forall2_nil_inv_l _ _ Hf).
Qed.

Lemma fields_reload {T} (d : derive S T) es es' self :
  reloads_entries es es' → wrote_fields d es self → fields_survive d self →
  has_fields d es' self.
Proof.
  intros He. induction d as [T t|F T d IH f]; simpl; [done|]. intros [Hd Hf] [Hds Hfs].
  split; [by apply IH|]. pose proof (entries_of_reloads f es es' He) as Hr.
  unfold wrote_field in Hf. unfold has_field.
  destruct Hfs as [[Hs Ha]|[Hs Hfs]]; rewrite Hs in Hf; [by rewrite Hf in Hr; rewrite Hr|].
  destruct Hf as (c & Hc & Hes). rewrite Hes in Hr.
  destruct Hfs as [(c0 & Hc0 & Hn & Hread)|[Hc0 Ha]]; rewrite Hc in Hc0; injection Hc0 as Hc0; subst c.
  - destruct Hr as [[-> _]|[_ (c' & -> & Hcc)]]; [done|]. by apply Hread.
  - by destruct Hr as [[_ ->]|[Hn _]].
Qed.

Lemma write_fields_ok {T} (d : derive S T) self :
  fields_survive d self → ∃ es, write_fields d self = Ok es.
Proof.
  induction d as [T t|F T d IH f]; simpl; [by exists []|]. intros [Hd Hf].
  destruct (IH Hd) as (es & ->). simpl.
  destruct Hf as [[-> _]|[-> [(c & -> & _)|[-> _]]]]; by eexists.
Qed.

(** A struct all of whose fields survive survives. *)
Lemma survives_derived name (d : derive S S) self :
  NoDup (all_names d) → fields_survive d self → rebuilt d self = self →
  survives (derived name d) self.
Proof.
  intros Hnd Hs Hself. destruct (write_fields_ok d self Hs) as (es & Hes).
  exists (CStruct name (length es) es). split_and!; [simpl; by rewrite Hes|done|].
  intros c' (es' & -> & Hre)%reloads_struct_inv. apply derived_reads; [done| |done].
  by eapply fields_reload, Hs; [|apply write_fields_wrote].
Qed.

(** *** What was read *)

(** A struct is built from the values of its fields. *)
Fixpoint built_from {T} (d : derive S T) (es : list (string * content)) : T → Prop :=
  match d with
  | Build t => λ t', t' = t
  | d ⊛ f => λ t', ∃ g x, built_from d es g ∧ has_field f es x ∧ t' = g x
  end.

Lemma read_entries_with_inv {F T} (d : derive S (F → T)) (f : field S F) es l o l' o' :
  (∀ k, k ∈ f_names f → k ∉ all_names d) →
  read_entries (d ⊛ f) es (l, o) = Ok (l', o') →
  read_entries d es l = Ok l' ∧
  match o, entries_of f es with
  | o, [] => o' = o
  | None, [(_, c)] => ∃ x, c_read (f_codec f) c = Ok x ∧ o' = Some x
  | _, _ => False
  end.
Proof.
  intros Hdis. revert l o. induction es as [|[k c] es IH]; intros l o.
  { intros [= -> ->]. split; [done|]. by destruct o'. }
  cbn [read_entries assign_field]. unfold entries_of. rewrite filter_cons. simpl.
  destruct (decide (k ∈ f_names f)) as [Hk|Hk].
  - destruct o; [done|]. intros (l1 & (x & Hx & [= <-])%outcome_bind_ok & Hl)%outcome_bind_ok.
    apply IH in Hl as [Hl Ho]. rewrite assign_field_other by auto. split; [done|].
    unfold entries_of in Ho. destruct (filter _ es); [|done]. by exists x.
  - intros (l1 & (l2 & Hl2 & [= <-])%outcome_bind_ok & Hl)%outcome_bind_ok.
    apply IH in Hl as [Hl Ho]. rewrite Hl2. by split.
Qed.

Lemma derived_inv name (d : derive S S) es t :
  NoDup (all_names d) → c_read (derived name d) (CMap es) = Ok t → built_from d es t.
Proof.
  intros Hnd (l & Hl & Hb)%outcome_bind_ok.
  enough (∀ T (d : derive S T) l t, NoDup (all_names d) →
    read_entries d es (no_locals d) = Ok l → build d l = Ok t → built_from d es t) by eauto.
  clear. intros T d. induction d as [T t0|F T d IH f]; intros l t Hnd Hl Hb.
  { by injection Hb as <-. }
  simpl in Hnd. apply list.NoDup_app in Hnd as (Hd & Hdis & _). destruct l as [l o].
  apply read_entries_with_inv in Hl as [Hl Ho]; [|set_solver].
  cbn [build] in Hb. apply outcome_bind_ok in Hb as (g & Hg & (x & Hx & [= <-])%outcome_bind_ok).
  exists g, x. split_and!; [by eapply IH| |done]. unfold has_field.
  destruct (entries_of f es) as [|[k c] [|]]; [by rewrite Ho in Hx| |done].
  destruct Ho as (y & Hy & ->). by injection Hx as <-.
Qed.

(** What is read of a field that was written. *)
Lemma has_field_reloaded {F} (f : field S F) es es' x y :
  reloads_entries es es' → wrote_field f es x → f_skip f x = false → has_field f es' y →
  ∃ c, c_write (f_codec f) x = Ok c ∧
    ((c = CNull ∧ absent f = Ok y) ∨ ∃ c', reloads c c' ∧ c_read (f_codec f) c' = Ok y).
Proof.
  intros He Hw Hs Hy. unfold wrote_field in Hw. rewrite Hs in Hw. destruct Hw as (c & Hc & Hes).
  exists c. split; [done|]. pose proof (entries_of_reloads f es es' He) as Hr. rewrite Hes in Hr.
  unfold has_field in Hy. destruct Hr as [[-> Hr]|[_ (c' & Hr & Hcc)]]; rewrite Hr in Hy.
  - by left.
  - right. by exists c'.
Qed.

(** A struct that was written, reloaded and read. *)
Lemma derived_reloaded name (d : derive S S) self c c' t :
  NoDup (all_names d) → c_write (derived name d) self = Ok c → reloads c c' →
  c_read (derived name d) c' = Ok t →
  ∃ es es', reloads_entries es es' ∧ wrote_fields d es self ∧ built_from d es' t.
Proof.
  intros Hnd (es & Hes & [= <-])%outcome_bind_ok (es' & -> & Hre)%reloads_struct_inv Ht.
  exists es, es'. split_and!; [done|by apply write_fields_wrote|by eapply derived_inv].
Qed.
End structs.

(** A map with none of the keys is read as the defaults, errors and panics included. *)
Lemma derived_reads_defaults {S} name (d : derive S S) es :
  Forall (λ e, e.1 ∉ all_names d) es →
  c_read (derived name d) (CMap es) = build d (no_locals d).
Proof.
  intros Hes. assert (read_entries d es (no_locals d) = Ok (no_locals d)) as Hr.
  { induction Hes as [|[k c] es Hk _ IH]; [done|]. simpl in *.
    by rewrite assign_field_other. }
  simpl. by rewrite Hr.
Qed.
