(* ===== verification/AggkitSerde.v ===== *)
(** The JSON form of the aggkit prover's messages:
    [crates/aggkit-prover-types/src/generated/aggkit.prover.v1.serde.rs].

    Each message instantiates the visitor of [Serde] with its fields.  Messages of the
    interop library are written and read by that library. *)

From S2P Require Import Prelude Bytes Panics Interop ProofInputs Conversion AggkitRpc Text Serde.

(** The (de)serializers of [agglayer_interop::grpc::v1]. *)
Class InteropSerde `{InteropGrpc} := {
  fixed_bytes32_serialize :: Serialize FixedBytes;
  fixed_bytes32_deserialize :: Deserialize FixedBytes;
  fixed_bytes65_serialize : FixedBytes → outcome ser_error content;
  fixed_bytes65_deserialize : content → outcome de_error FixedBytes;
  leaf_serialize :: Serialize L1InfoTreeLeafWithContext;
  leaf_deserialize :: Deserialize L1InfoTreeLeafWithContext;
  merkle_proof_serialize :: Serialize MerkleProofMessage;
  merkle_proof_deserialize :: Deserialize MerkleProofMessage;
  aggchain_proof_serialize :: Serialize AggchainProofMessage;
  aggchain_proof_deserialize :: Deserialize AggchainProofMessage;
}.

(** They are [pbjson]'s, too: what they write is read back. *)
Class InteropSerdeLaws `{InteropSerde} : Prop := {
  fixed_bytes32_round_trips :: RoundTrips FixedBytes (λ _, True);
  fixed_bytes65_round_trips x : round_trips fixed_bytes65_serialize fixed_bytes65_deserialize x;
  leaf_round_trips :: RoundTrips L1InfoTreeLeafWithContext (λ _, True);
  merkle_proof_round_trips :: RoundTrips MerkleProofMessage (λ _, True);
  aggchain_proof_round_trips :: RoundTrips AggchainProofMessage (λ _, True);
}.

(** ** The messages *)

Section messages.
Context `{!UnifiedBridge, !Ecdsa, !GlobalIndices, !InteropGrpc, !InteropSerde, !Pbjson}.
Context {orders : UnspecifiedOrders}.

(** *** [ImportedBridgeExitWithBlockNumber] *)

Inductive BridgeExitField : Type :=
  | BridgeExit_BlockNumber | BridgeExit_GlobalIndex | BridgeExit_BridgeExitHash.

#[export] Instance BridgeExitField_eq_dec : EqDecision BridgeExitField.
Proof. solve_decision. Defined.

Definition bridge_exit_FIELDS : list string :=
  ["block_number"; "blockNumber"; "global_index"; "globalIndex"; "bridge_exit_hash";
   "bridgeExitHash"].

Definition bridge_exit_visit_str (value : string) : outcome de_error BridgeExitField :=
  if decide (value ∈ ["blockNumber"; "block_number"]) then Ok BridgeExit_BlockNumber
  else if decide (value ∈ ["globalIndex"; "global_index"]) then Ok BridgeExit_GlobalIndex
  else if decide (value ∈ ["bridgeExitHash"; "bridge_exit_hash"])
    then Ok BridgeExit_BridgeExitHash
  else Err (UnknownField value bridge_exit_FIELDS).

(** The name a duplicate is reported under, which is the one that is written. *)
Definition bridge_exit_name (f : BridgeExitField) : string :=
  match f with
  | BridgeExit_BlockNumber => "blockNumber"
  | BridgeExit_GlobalIndex => "globalIndex"
  | BridgeExit_BridgeExitHash => "bridgeExitHash"
  end.

Definition bridge_exit_ty (f : BridgeExitField) : Type :=
  match f with
  | BridgeExit_BlockNumber => Z
  | BridgeExit_GlobalIndex => FixedBytes
  | BridgeExit_BridgeExitHash => FixedBytes
  end.

Definition bridge_exit_next_value (f : BridgeExitField) (c : content)
    : outcome de_error (option (bridge_exit_ty f)) :=
  match f return outcome de_error (option (bridge_exit_ty f)) with
  | BridgeExit_BlockNumber => Some <$> number_deserialize c
  | BridgeExit_GlobalIndex => option_deserialize deserialize c
  | BridgeExit_BridgeExitHash => option_deserialize deserialize c
  end.

Definition bridge_exit_finish (st : slots bridge_exit_ty) : ImportedBridgeExitMessage :=
  {| im_block_number := default 0 (st BridgeExit_BlockNumber);
     im_global_index := st BridgeExit_GlobalIndex;
     im_bridge_exit_hash := st BridgeExit_BridgeExitHash |}.

#[export] Instance bridge_exit_deserialize : Deserialize ImportedBridgeExitMessage :=
  deserialize_struct bridge_exit_ty bridge_exit_visit_str bridge_exit_name bridge_exit_next_value
    bridge_exit_finish "aggkit.prover.v1.ImportedBridgeExitWithBlockNumber".

#[export] Instance bridge_exit_serialize : Serialize ImportedBridgeExitMessage := λ self,
  let len := (count_if (nonzero (im_block_number self)) +
    count_if (is_some (im_global_index self)) +
    count_if (is_some (im_bridge_exit_hash self)))%nat in
  struct_ser ← serialize_struct "aggkit.prover.v1.ImportedBridgeExitWithBlockNumber" len;
  struct_ser ← field_if (nonzero (im_block_number self)) "blockNumber"
    (serialize (to_string (im_block_number self))) struct_ser;
  struct_ser ← field_some (im_global_index self) "globalIndex" serialize struct_ser;
  struct_ser ← field_some (im_bridge_exit_hash self) "bridgeExitHash" serialize struct_ser;
  ss_end struct_ser.

(** *** [ProvenInsertedGer] *)

Inductive ProvenGerField : Type :=
  | ProvenGer_ProofGerL1root | ProvenGer_L1Leaf.

#[export] Instance ProvenGerField_eq_dec : EqDecision ProvenGerField.
Proof. solve_decision. Defined.

Definition proven_ger_FIELDS : list string :=
  ["proof_ger_l1root"; "proofGerL1root"; "l1_leaf"; "l1Leaf"].

Definition proven_ger_visit_str (value : string) : outcome de_error ProvenGerField :=
  if decide (value ∈ ["proofGerL1root"; "proof_ger_l1root"])
    then Ok ProvenGer_ProofGerL1root
  else if decide (value ∈ ["l1Leaf"; "l1_leaf"]) then Ok ProvenGer_L1Leaf
  else Err (UnknownField value proven_ger_FIELDS).

(** The name a duplicate is reported under, which is the one that is written. *)
Definition proven_ger_name (f : ProvenGerField) : string :=
  match f with
  | ProvenGer_ProofGerL1root => "proofGerL1root"
  | ProvenGer_L1Leaf => "l1Leaf"
  end.

Definition proven_ger_ty (f : ProvenGerField) : Type :=
  match f with
  | ProvenGer_ProofGerL1root => MerkleProofMessage
  | ProvenGer_L1Leaf => L1InfoTreeLeafWithContext
  end.

Definition proven_ger_next_value (f : ProvenGerField) (c : content)
    : outcome de_error (option (proven_ger_ty f)) :=
  match f return outcome de_error (option (proven_ger_ty f)) with
  | ProvenGer_ProofGerL1root => option_deserialize deserialize c
  | ProvenGer_L1Leaf => option_deserialize deserialize c
  end.

Definition proven_ger_finish (st : slots proven_ger_ty) : ProvenInsertedGer :=
  {| pm_proof_ger_l1root := st ProvenGer_ProofGerL1root;
     pm_l1_leaf := st ProvenGer_L1Leaf |}.

#[export] Instance proven_ger_deserialize : Deserialize ProvenInsertedGer :=
  deserialize_struct proven_ger_ty proven_ger_visit_str proven_ger_name proven_ger_next_value
    proven_ger_finish "aggkit.prover.v1.ProvenInsertedGER".

#[export] Instance proven_ger_serialize : Serialize ProvenInsertedGer := λ self,
  let len := (count_if (is_some (pm_proof_ger_l1root self)) +
    count_if (is_some (pm_l1_leaf self)))%nat in
  struct_ser ← serialize_struct "aggkit.prover.v1.ProvenInsertedGER" len;
  struct_ser ← field_some (pm_proof_ger_l1root self) "proofGerL1root" serialize struct_ser;
  struct_ser ← field_some (pm_l1_leaf self) "l1Leaf" serialize struct_ser;
  ss_end struct_ser.

(** *** [ProvenInsertedGerWithBlockNumber] *)

Inductive GerBlockField : Type :=
  | GerBlock_BlockNumber | GerBlock_ProvenInsertedGer | GerBlock_BlockIndex.

#[export] Instance GerBlockField_eq_dec : EqDecision GerBlockField.
Proof. solve_decision. Defined.

Definition ger_block_FIELDS : list string :=
  ["block_number"; "blockNumber"; "proven_inserted_ger"; "provenInsertedGer"; "block_index";
   "blockIndex"].

Definition ger_block_visit_str (value : string) : outcome de_error GerBlockField :=
  if decide (value ∈ ["blockNumber"; "block_number"]) then Ok GerBlock_BlockNumber
  else if decide (value ∈ ["provenInsertedGer"; "proven_inserted_ger"])
    then Ok GerBlock_ProvenInsertedGer
  else if decide (value ∈ ["blockIndex"; "block_index"]) then Ok GerBlock_BlockIndex
  else Err (UnknownField value ger_block_FIELDS).

(** The name a duplicate is reported under, which is the one that is written. *)
Definition ger_block_name (f : GerBlockField) : string :=
  match f with
  | GerBlock_BlockNumber => "blockNumber"
  | GerBlock_ProvenInsertedGer => "provenInsertedGer"
  | GerBlock_BlockIndex => "blockIndex"
  end.

Definition ger_block_ty (f : GerBlockField) : Type :=
  match f with
  | GerBlock_BlockNumber => Z
  | GerBlock_ProvenInsertedGer => ProvenInsertedGer
  | GerBlock_BlockIndex => Z
  end.

Definition ger_block_next_value (f : GerBlockField) (c : content)
    : outcome de_error (option (ger_block_ty f)) :=
  match f return outcome de_error (option (ger_block_ty f)) with
  | GerBlock_BlockNumber => Some <$> number_deserialize c
  | GerBlock_ProvenInsertedGer => option_deserialize deserialize c
  | GerBlock_BlockIndex => Some <$> number_deserialize c
  end.

Definition ger_block_finish (st : slots ger_block_ty) : ProvenInsertedGerWithBlockNumber :=
  {| pmb_block_number := default 0 (st GerBlock_BlockNumber);
     pmb_proven_inserted_ger := st GerBlock_ProvenInsertedGer;
     pmb_block_index := default 0 (st GerBlock_BlockIndex) |}.

#[export] Instance ger_block_deserialize : Deserialize ProvenInsertedGerWithBlockNumber :=
  deserialize_struct ger_block_ty ger_block_visit_str ger_block_name ger_block_next_value
    ger_block_finish "aggkit.prover.v1.ProvenInsertedGERWithBlockNumber".

#[export] Instance ger_block_serialize : Serialize ProvenInsertedGerWithBlockNumber := λ self,
  let len := (count_if (nonzero (pmb_block_number self)) +
    count_if (is_some (pmb_proven_inserted_ger self)) +
    count_if (nonzero (pmb_block_index self)))%nat in
  struct_ser ← serialize_struct "aggkit.prover.v1.ProvenInsertedGERWithBlockNumber" len;
  struct_ser ← field_if (nonzero (pmb_block_number self)) "blockNumber"
    (serialize (to_string (pmb_block_number self))) struct_ser;
  struct_ser ← field_some (pmb_proven_inserted_ger self) "provenInsertedGer" serialize struct_ser;
  struct_ser ← field_if (nonzero (pmb_block_index self)) "blockIndex"
    (serialize (to_string (pmb_block_index self))) struct_ser;
  ss_end struct_ser.

(** *** [GenerateAggchainProofRequest] *)

Inductive RequestField : Type :=
  | Request_LastProvenBlock | Request_RequestedEndBlock | Request_L1InfoTreeRootHash
  | Request_L1InfoTreeLeaf | Request_L1InfoTreeMerkleProof | Request_GerLeaves
  | Request_ImportedBridgeExits.

#[export] Instance RequestField_eq_dec : EqDecision RequestField.
Proof. solve_decision. Defined.

Definition request_FIELDS : list string :=
  ["last_proven_block"; "lastProvenBlock"; "requested_end_block"; "requestedEndBlock";
   "l1_info_tree_root_hash"; "l1InfoTreeRootHash"; "l1_info_tree_leaf"; "l1InfoTreeLeaf";
   "l1_info_tree_merkle_proof"; "l1InfoTreeMerkleProof"; "ger_leaves"; "gerLeaves";
   "imported_bridge_exits"; "importedBridgeExits"].

Definition request_visit_str (value : string) : outcome de_error RequestField :=
  if decide (value ∈ ["lastProvenBlock"; "last_proven_block"])
    then Ok Request_LastProvenBlock
  else if decide (value ∈ ["requestedEndBlock"; "requested_end_block"])
    then Ok Request_RequestedEndBlock
  else if decide (value ∈ ["l1InfoTreeRootHash"; "l1_info_tree_root_hash"])
    then Ok Request_L1InfoTreeRootHash
  else if decide (value ∈ ["l1InfoTreeLeaf"; "l1_info_tree_leaf"])
    then Ok Request_L1InfoTreeLeaf
  else if decide (value ∈ ["l1InfoTreeMerkleProof"; "l1_info_tree_merkle_proof"])
    then Ok Request_L1InfoTreeMerkleProof
  else if decide (value ∈ ["gerLeaves"; "ger_leaves"]) then Ok Request_GerLeaves
  else if decide (value ∈ ["importedBridgeExits"; "imported_bridge_exits"])
    then Ok Request_ImportedBridgeExits
  else Err (UnknownField value request_FIELDS).

(** The name a duplicate is reported under, which is the one that is written. *)
Definition request_name (f : RequestField) : string :=
  match f with
  | Request_LastProvenBlock => "lastProvenBlock"
  | Request_RequestedEndBlock => "requestedEndBlock"
  | Request_L1InfoTreeRootHash => "l1InfoTreeRootHash"
  | Request_L1InfoTreeLeaf => "l1InfoTreeLeaf"
  | Request_L1InfoTreeMerkleProof => "l1InfoTreeMerkleProof"
  | Request_GerLeaves => "gerLeaves"
  | Request_ImportedBridgeExits => "importedBridgeExits"
  end.

Definition request_ty (f : RequestField) : Type :=
  match f with
  | Request_LastProvenBlock => Z
  | Request_RequestedEndBlock => Z
  | Request_L1InfoTreeRootHash => FixedBytes
  | Request_L1InfoTreeLeaf => L1InfoTreeLeafWithContext
  | Request_L1InfoTreeMerkleProof => MerkleProofMessage
  | Request_GerLeaves => gmap string ProvenInsertedGerWithBlockNumber
  | Request_ImportedBridgeExits => list ImportedBridgeExitMessage
  end.

Definition request_next_value (f : RequestField) (c : content)
    : outcome de_error (option (request_ty f)) :=
  match f return outcome de_error (option (request_ty f)) with
  | Request_LastProvenBlock => Some <$> number_deserialize c
  | Request_RequestedEndBlock => Some <$> number_deserialize c
  | Request_L1InfoTreeRootHash => option_deserialize deserialize c
  | Request_L1InfoTreeLeaf => option_deserialize deserialize c
  | Request_L1InfoTreeMerkleProof => option_deserialize deserialize c
  | Request_GerLeaves => Some <$> deserialize c
  | Request_ImportedBridgeExits => Some <$> deserialize c
  end.

Definition request_finish (st : slots request_ty) : GenerateAggchainProofRequest :=
  {| gm_last_proven_block := default 0 (st Request_LastProvenBlock);
     gm_requested_end_block := default 0 (st Request_RequestedEndBlock);
     gm_l1_info_tree_root_hash := st Request_L1InfoTreeRootHash;
     gm_l1_info_tree_leaf := st Request_L1InfoTreeLeaf;
     gm_l1_info_tree_merkle_proof := st Request_L1InfoTreeMerkleProof;
     gm_ger_leaves := default ∅ (st Request_GerLeaves);
     gm_imported_bridge_exits := default [] (st Request_ImportedBridgeExits) |}.

#[export] Instance request_deserialize : Deserialize GenerateAggchainProofRequest :=
  deserialize_struct request_ty request_visit_str request_name request_next_value
    request_finish "aggkit.prover.v1.GenerateAggchainProofRequest".

#[export] Instance request_serialize : Serialize GenerateAggchainProofRequest := λ self,
  let len := (count_if (nonzero (gm_last_proven_block self)) +
    count_if (nonzero (gm_requested_end_block self)) +
    count_if (is_some (gm_l1_info_tree_root_hash self)) +
    count_if (is_some (gm_l1_info_tree_leaf self)) +
    count_if (is_some (gm_l1_info_tree_merkle_proof self)) +
    count_if (bool_decide (gm_ger_leaves self ≠ ∅)) +
    count_if (nonempty (gm_imported_bridge_exits self)))%nat in
  struct_ser ← serialize_struct "aggkit.prover.v1.GenerateAggchainProofRequest" len;
  struct_ser ← field_if (nonzero (gm_last_proven_block self)) "lastProvenBlock"
    (serialize (to_string (gm_last_proven_block self))) struct_ser;
  struct_ser ← field_if (nonzero (gm_requested_end_block self)) "requestedEndBlock"
    (serialize (to_string (gm_requested_end_block self))) struct_ser;
  struct_ser ← field_some (gm_l1_info_tree_root_hash self) "l1InfoTreeRootHash" serialize struct_ser;
  struct_ser ← field_some (gm_l1_info_tree_leaf self) "l1InfoTreeLeaf" serialize struct_ser;
  struct_ser ← field_some (gm_l1_info_tree_merkle_proof self) "l1InfoTreeMerkleProof" serialize struct_ser;
  struct_ser ← field_if (bool_decide (gm_ger_leaves self ≠ ∅)) "gerLeaves"
    (serialize (gm_ger_leaves self)) struct_ser;
  struct_ser ← field_if (nonempty (gm_imported_bridge_exits self)) "importedBridgeExits"
    (serialize (gm_imported_bridge_exits self)) struct_ser;
  ss_end struct_ser.

(** *** [GenerateOptimisticAggchainProofRequest] *)

Inductive OptimisticRequestField : Type :=
  | OptimisticRequest_AggchainProofRequest | OptimisticRequest_OptimisticModeSignature.

#[export] Instance OptimisticRequestField_eq_dec : EqDecision OptimisticRequestField.
Proof. solve_decision. Defined.

Definition optimistic_request_FIELDS : list string :=
  ["aggchain_proof_request"; "aggchainProofRequest"; "optimistic_mode_signature";
   "optimisticModeSignature"].

Definition optimistic_request_visit_str (value : string) : outcome de_error OptimisticRequestField :=
  if decide (value ∈ ["aggchainProofRequest"; "aggchain_proof_request"])
    then Ok OptimisticRequest_AggchainProofRequest
  else if decide (value ∈ ["optimisticModeSignature"; "optimistic_mode_signature"])
    then Ok OptimisticRequest_OptimisticModeSignature
  else Err (UnknownField value optimistic_request_FIELDS).

(** The name a duplicate is reported under, which is the one that is written. *)
Definition optimistic_request_name (f : OptimisticRequestField) : string :=
  match f with
  | OptimisticRequest_AggchainProofRequest => "aggchainProofRequest"
  | OptimisticRequest_OptimisticModeSignature => "optimisticModeSignature"
  end.

Definition optimistic_request_ty (f : OptimisticRequestField) : Type :=
  match f with
  | OptimisticRequest_AggchainProofRequest => GenerateAggchainProofRequest
  | OptimisticRequest_OptimisticModeSignature => FixedBytes
  end.

Definition optimistic_request_next_value (f : OptimisticRequestField) (c : content)
    : outcome de_error (option (optimistic_request_ty f)) :=
  match f return outcome de_error (option (optimistic_request_ty f)) with
  | OptimisticRequest_AggchainProofRequest => option_deserialize deserialize c
  | OptimisticRequest_OptimisticModeSignature => option_deserialize fixed_bytes65_deserialize c
  end.

Definition optimistic_request_finish (st : slots optimistic_request_ty) : GenerateOptimisticAggchainProofRequest :=
  {| om_aggchain_proof_request := st OptimisticRequest_AggchainProofRequest;
     om_optimistic_mode_signature := st OptimisticRequest_OptimisticModeSignature |}.

#[export] Instance optimistic_request_deserialize : Deserialize GenerateOptimisticAggchainProofRequest :=
  deserialize_struct optimistic_request_ty optimistic_request_visit_str optimistic_request_name optimistic_request_next_value
    optimistic_request_finish "aggkit.prover.v1.GenerateOptimisticAggchainProofRequest".

#[export] Instance optimistic_request_serialize : Serialize GenerateOptimisticAggchainProofRequest := λ self,
  let len := (count_if (is_some (om_aggchain_proof_request self)) +
    count_if (is_some (om_optimistic_mode_signature self)))%nat in
  struct_ser ← serialize_struct "aggkit.prover.v1.GenerateOptimisticAggchainProofRequest" len;
  struct_ser ← field_some (om_aggchain_proof_request self) "aggchainProofRequest" serialize struct_ser;
  struct_ser ← field_some (om_optimistic_mode_signature self) "optimisticModeSignature" fixed_bytes65_serialize struct_ser;
  ss_end struct_ser.

(** *** [GenerateAggchainProofResponse] *)

Inductive ResponseField : Type :=
  | Response_AggchainProof | Response_LastProvenBlock | Response_EndBlock
  | Response_LocalExitRootHash | Response_CustomChainData.

#[export] Instance ResponseField_eq_dec : EqDecision ResponseField.
Proof. solve_decision. Defined.

Definition response_FIELDS : list string :=
  ["aggchain_proof"; "aggchainProof"; "last_proven_block"; "lastProvenBlock"; "end_block";
   "endBlock"; "local_exit_root_hash"; "localExitRootHash"; "custom_chain_data";
   "customChainData"].

Definition response_visit_str (value : string) : outcome de_error ResponseField :=
  if decide (value ∈ ["aggchainProof"; "aggchain_proof"])
    then Ok Response_AggchainProof
  else if decide (value ∈ ["lastProvenBlock"; "last_proven_block"])
    then Ok Response_LastProvenBlock
  else if decide (value ∈ ["endBlock"; "end_block"]) then Ok Response_EndBlock
  else if decide (value ∈ ["localExitRootHash"; "local_exit_root_hash"])
    then Ok Response_LocalExitRootHash
  else if decide (value ∈ ["customChainData"; "custom_chain_data"])
    then Ok Response_CustomChainData
  else Err (UnknownField value response_FIELDS).

(** The name a duplicate is reported under, which is the one that is written. *)
Definition response_name (f : ResponseField) : string :=
  match f with
  | Response_AggchainProof => "aggchainProof"
  | Response_LastProvenBlock => "lastProvenBlock"
  | Response_EndBlock => "endBlock"
  | Response_LocalExitRootHash => "localExitRootHash"
  | Response_CustomChainData => "customChainData"
  end.

Definition response_ty (f : ResponseField) : Type :=
  match f with
  | Response_AggchainProof => AggchainProofMessage
  | Response_LastProvenBlock => Z
  | Response_EndBlock => Z
  | Response_LocalExitRootHash => FixedBytes
  | Response_CustomChainData => bytes
  end.

Definition response_next_value (f : ResponseField) (c : content)
    : outcome de_error (option (response_ty f)) :=
  match f return outcome de_error (option (response_ty f)) with
  | Response_AggchainProof => option_deserialize deserialize c
  | Response_LastProvenBlock => Some <$> number_deserialize c
  | Response_EndBlock => Some <$> number_deserialize c
  | Response_LocalExitRootHash => option_deserialize deserialize c
  | Response_CustomChainData => Some <$> bytes_deserialize c
  end.

Definition response_finish (st : slots response_ty) : GenerateAggchainProofResponse :=
  {| gr_aggchain_proof := st Response_AggchainProof;
     gr_last_proven_block := default 0 (st Response_LastProvenBlock);
     gr_end_block := default 0 (st Response_EndBlock);
     gr_local_exit_root_hash := st Response_LocalExitRootHash;
     gr_custom_chain_data := default [] (st Response_CustomChainData) |}.

#[export] Instance response_deserialize : Deserialize GenerateAggchainProofResponse :=
  deserialize_struct response_ty response_visit_str response_name response_next_value
    response_finish "aggkit.prover.v1.GenerateAggchainProofResponse".

#[export] Instance response_serialize : Serialize GenerateAggchainProofResponse := λ self,
  let len := (count_if (is_some (gr_aggchain_proof self)) +
    count_if (nonzero (gr_last_proven_block self)) +
    count_if (nonzero (gr_end_block self)) +
    count_if (is_some (gr_local_exit_root_hash self)) +
    count_if (nonempty (gr_custom_chain_data self)))%nat in
  struct_ser ← serialize_struct "aggkit.prover.v1.GenerateAggchainProofResponse" len;
  struct_ser ← field_some (gr_aggchain_proof self) "aggchainProof" serialize struct_ser;
  struct_ser ← field_if (nonzero (gr_last_proven_block self)) "lastProvenBlock"
    (serialize (to_string (gr_last_proven_block self))) struct_ser;
  struct_ser ← field_if (nonzero (gr_end_block self)) "endBlock"
    (serialize (to_string (gr_end_block self))) struct_ser;
  struct_ser ← field_some (gr_local_exit_root_hash self) "localExitRootHash" serialize struct_ser;
  struct_ser ← field_if (nonempty (gr_custom_chain_data self)) "customChainData"
    (serialize (base64_encode (gr_custom_chain_data self))) struct_ser;
  ss_end struct_ser.

(** *** [GenerateOptimisticAggchainProofResponse] *)

Inductive OptimisticResponseField : Type :=
  | OptimisticResponse_AggchainProof | OptimisticResponse_LocalExitRootHash
  | OptimisticResponse_CustomChainData.

#[export] Instance OptimisticResponseField_eq_dec : EqDecision OptimisticResponseField.
Proof. solve_decision. Defined.

Definition optimistic_response_FIELDS : list string :=
  ["aggchain_proof"; "aggchainProof"; "local_exit_root_hash"; "localExitRootHash";
   "custom_chain_data"; "customChainData"].

Definition optimistic_response_visit_str (value : string) : outcome de_error OptimisticResponseField :=
  if decide (value ∈ ["aggchainProof"; "aggchain_proof"])
    then Ok OptimisticResponse_AggchainProof
  else if decide (value ∈ ["localExitRootHash"; "local_exit_root_hash"])
    then Ok OptimisticResponse_LocalExitRootHash
  else if decide (value ∈ ["customChainData"; "custom_chain_data"])
    then Ok OptimisticResponse_CustomChainData
  else Err (UnknownField value optimistic_response_FIELDS).

(** The name a duplicate is reported under, which is the one that is written. *)
Definition optimistic_response_name (f : OptimisticResponseField) : string :=
  match f with
  | OptimisticResponse_AggchainProof => "aggchainProof"
  | OptimisticResponse_LocalExitRootHash => "localExitRootHash"
  | OptimisticResponse_CustomChainData => "customChainData"
  end.

Definition optimistic_response_ty (f : OptimisticResponseField) : Type :=
  match f with
  | OptimisticResponse_AggchainProof => AggchainProofMessage
  | OptimisticResponse_LocalExitRootHash => FixedBytes
  | OptimisticResponse_CustomChainData => bytes
  end.

Definition optimistic_response_next_value (f : OptimisticResponseField) (c : content)
    : outcome de_error (option (optimistic_response_ty f)) :=
  match f return outcome de_error (option (optimistic_response_ty f)) with
  | OptimisticResponse_AggchainProof => option_deserialize deserialize c
  | OptimisticResponse_LocalExitRootHash => option_deserialize deserialize c
  | OptimisticResponse_CustomChainData => Some <$> bytes_deserialize c
  end.

Definition optimistic_response_finish (st : slots optimistic_response_ty) : GenerateOptimisticAggchainProofResponse :=
  {| or_aggchain_proof := st OptimisticResponse_AggchainProof;
     or_local_exit_root_hash := st OptimisticResponse_LocalExitRootHash;
     or_custom_chain_data := default [] (st OptimisticResponse_CustomChainData) |}.

#[export] Instance optimistic_response_deserialize : Deserialize GenerateOptimisticAggchainProofResponse :=
  deserialize_struct optimistic_response_ty optimistic_response_visit_str optimistic_response_name optimistic_response_next_value
    optimistic_response_finish "aggkit.prover.v1.GenerateOptimisticAggchainProofResponse".

#[export] Instance optimistic_response_serialize : Serialize GenerateOptimisticAggchainProofResponse := λ self,
  let len := (count_if (is_some (or_aggchain_proof self)) +
    count_if (is_some (or_local_exit_root_hash self)) +
    count_if (nonempty (or_custom_chain_data self)))%nat in
  struct_ser ← serialize_struct "aggkit.prover.v1.GenerateOptimisticAggchainProofResponse" len;
  struct_ser ← field_some (or_aggchain_proof self) "aggchainProof" serialize struct_ser;
  struct_ser ← field_some (or_local_exit_root_hash self) "localExitRootHash" serialize struct_ser;
  struct_ser ← field_if (nonempty (or_custom_chain_data self)) "customChainData"
    (serialize (base64_encode (or_custom_chain_data self))) struct_ser;
  ss_end struct_ser.

End messages.

(** ** What is written is read back *)

Section round_trips.
Context `{!UnifiedBridge, !Ecdsa, !GlobalIndices, !InteropGrpc, !InteropSerde, !Pbjson}.
Context {orders : UnspecifiedOrders}.
Context `{!InteropSerdeLaws, !PbjsonLaws, !UnspecifiedOrdersLaws orders}.

Lemma fixed_bytes32_round_trip (x : FixedBytes) : round_trips serialize deserialize x.
Proof. by apply round_trip. Qed.
Lemma leaf_round_trip (x : L1InfoTreeLeafWithContext) : round_trips serialize deserialize x.
Proof. by apply round_trip. Qed.
Lemma merkle_proof_round_trip (x : MerkleProofMessage) : round_trips serialize deserialize x.
Proof. by apply round_trip. Qed.
Lemma aggchain_proof_round_trip (x : AggchainProofMessage) : round_trips serialize deserialize x.
Proof. by apply round_trip. Qed.
#[local] Hint Resolve fixed_bytes32_round_trip leaf_round_trip merkle_proof_round_trip
  aggchain_proof_round_trip fixed_bytes65_round_trips : serde.

(** *** [ImportedBridgeExitWithBlockNumber] *)

Definition bridge_exit_valid (self : ImportedBridgeExitMessage) : Prop :=
  in_width 64 (im_block_number self).

Definition bridge_exit_written (self : ImportedBridgeExitMessage) (f : BridgeExitField)
    : option content :=
  match f with
  | BridgeExit_BlockNumber => if nonzero (im_block_number self)
      then ok_content ((λ n, serialize (to_string n)) (im_block_number self)) else None
  | BridgeExit_GlobalIndex => im_global_index self ≫= λ v, ok_content (serialize v)
  | BridgeExit_BridgeExitHash => im_bridge_exit_hash self ≫= λ v, ok_content (serialize v)
  end.

Definition bridge_exit_slots (self : ImportedBridgeExitMessage) : slots bridge_exit_ty := λ f,
  match f return option (bridge_exit_ty f) with
  | BridgeExit_BlockNumber => if nonzero (im_block_number self)
      then Some (im_block_number self) else None
  | BridgeExit_GlobalIndex => im_global_index self
  | BridgeExit_BridgeExitHash => im_bridge_exit_hash self
  end.

Lemma bridge_exit_extensional : extensional bridge_exit_ty bridge_exit_finish.
Proof. intros st1 st2 Heq. unfold bridge_exit_finish. by rewrite !Heq. Qed.

Lemma bridge_exit_well_written self :
  bridge_exit_valid self → well_written serialize deserialize self.
Proof.
  intros Hv.
  apply (struct_well_written _ (bridge_exit_written self) (bridge_exit_slots self)
    [BridgeExit_BlockNumber; BridgeExit_GlobalIndex; BridgeExit_BridgeExitHash]);
    try struct_fields.
  - apply bridge_exit_extensional.
  - intros f. split; [by destruct f|]. destruct f.
    + apply (reads_if _ (λ n, serialize (to_string n))). eauto with serde.
    + apply reads_option. eauto with serde.
    + apply reads_option. eauto with serde.
  - destruct self. unfold bridge_exit_finish. simpl. by rewrite ?default_nonzero.
  - unfold serialize at 1, bridge_exit_serialize. struct_written.
    cbn [bridge_exit_written]. struct_lengths.
Qed.

#[export] Instance bridge_exit_round_trips : RoundTrips _ bridge_exit_valid.
Proof. intros x Hx. by apply well_written_round_trips, bridge_exit_well_written. Qed.

Lemma bridge_exit_round_trip (self : ImportedBridgeExitMessage) :
  bridge_exit_valid self → round_trips serialize deserialize self.
Proof. by apply round_trip. Qed.
#[local] Hint Resolve bridge_exit_round_trip : serde.

(** *** [ProvenInsertedGer] *)

Definition proven_ger_valid (self : ProvenInsertedGer) : Prop :=
  True.

Definition proven_ger_written (self : ProvenInsertedGer) (f : ProvenGerField)
    : option content :=
  match f with
  | ProvenGer_ProofGerL1root => pm_proof_ger_l1root self ≫= λ v, ok_content (serialize v)
  | ProvenGer_L1Leaf => pm_l1_leaf self ≫= λ v, ok_content (serialize v)
  end.

Definition proven_ger_slots (self : ProvenInsertedGer) : slots proven_ger_ty := λ f,
  match f return option (proven_ger_ty f) with
  | ProvenGer_ProofGerL1root => pm_proof_ger_l1root self
  | ProvenGer_L1Leaf => pm_l1_leaf self
  end.

Lemma proven_ger_extensional : extensional proven_ger_ty proven_ger_finish.
Proof. intros st1 st2 Heq. unfold proven_ger_finish. by rewrite !Heq. Qed.

Lemma proven_ger_well_written self :
  proven_ger_valid self → well_written serialize deserialize self.
Proof.
  intros _.
  apply (struct_well_written _ (proven_ger_written self) (proven_ger_slots self)
    [ProvenGer_ProofGerL1root; ProvenGer_L1Leaf]); try struct_fields.
  - apply proven_ger_extensional.
  - intros f. split; [by destruct f|]. destruct f.
    + apply reads_option. eauto with serde.
    + apply reads_option. eauto with serde.
  - destruct self. unfold proven_ger_finish. simpl. done.
  - unfold serialize at 1, proven_ger_serialize. struct_written.
    cbn [proven_ger_written]. struct_lengths.
Qed.

#[export] Instance proven_ger_round_trips : RoundTrips _ proven_ger_valid.
Proof. intros x Hx. by apply well_written_round_trips, proven_ger_well_written. Qed.

Lemma proven_ger_round_trip (self : ProvenInsertedGer) :
  round_trips serialize deserialize self.
Proof. by apply round_trip. Qed.
#[local] Hint Resolve proven_ger_round_trip : serde.

(** *** [ProvenInsertedGerWithBlockNumber] *)

Definition ger_block_valid (self : ProvenInsertedGerWithBlockNumber) : Prop :=
  in_width 64 (pmb_block_number self) ∧
  in_width 64 (pmb_block_index self).

Definition ger_block_written (self : ProvenInsertedGerWithBlockNumber) (f : GerBlockField)
    : option content :=
  match f with
  | GerBlock_BlockNumber => if nonzero (pmb_block_number self)
      then ok_content ((λ n, serialize (to_string n)) (pmb_block_number self)) else None
  | GerBlock_ProvenInsertedGer => pmb_proven_inserted_ger self ≫= λ v, ok_content (serialize v)
  | GerBlock_BlockIndex => if nonzero (pmb_block_index self)
      then ok_content ((λ n, serialize (to_string n)) (pmb_block_index self)) else None
  end.

Definition ger_block_slots (self : ProvenInsertedGerWithBlockNumber)
    : slots ger_block_ty := λ f,
  match f return option (ger_block_ty f) with
  | GerBlock_BlockNumber => if nonzero (pmb_block_number self)
      then Some (pmb_block_number self) else None
  | GerBlock_ProvenInsertedGer => pmb_proven_inserted_ger self
  | GerBlock_BlockIndex => if nonzero (pmb_block_index self)
      then Some (pmb_block_index self) else None
  end.

Lemma ger_block_extensional : extensional ger_block_ty ger_block_finish.
Proof. intros st1 st2 Heq. unfold ger_block_finish. by rewrite !Heq. Qed.

Lemma ger_block_well_written self :
  ger_block_valid self → well_written serialize deserialize self.
Proof.
  intros (Hv0 & Hv1).
  apply (struct_well_written _ (ger_block_written self) (ger_block_slots self)
    [GerBlock_BlockNumber; GerBlock_ProvenInsertedGer; GerBlock_BlockIndex]); try struct_fields.
  - apply ger_block_extensional.
  - intros f. split; [by destruct f|]. destruct f.
    + apply (reads_if _ (λ n, serialize (to_string n))). eauto with serde.
    + apply reads_option. eauto with serde.
    + apply (reads_if _ (λ n, serialize (to_string n))). eauto with serde.
  - destruct self. unfold ger_block_finish. simpl. by rewrite ?default_nonzero.
  - unfold serialize at 1, ger_block_serialize. struct_written.
    cbn [ger_block_written]. struct_lengths.
Qed.

#[export] Instance ger_block_round_trips : RoundTrips _ ger_block_valid.
Proof. intros x Hx. by apply well_written_round_trips, ger_block_well_written. Qed.

Lemma ger_block_round_trip (self : ProvenInsertedGerWithBlockNumber) :
  ger_block_valid self → round_trips serialize deserialize self.
Proof. by apply round_trip. Qed.
#[local] Hint Resolve ger_block_round_trip : serde.

Lemma ger_leaves_round_trip (m : gmap string ProvenInsertedGerWithBlockNumber) :
  map_Forall (λ _, ger_block_valid) m → round_trips serialize deserialize m.
Proof. apply round_trip. Qed.

Lemma bridge_exits_round_trip (l : list ImportedBridgeExitMessage) :
  Forall bridge_exit_valid l → round_trips serialize deserialize l.
Proof. apply round_trip. Qed.
#[local] Hint Resolve ger_leaves_round_trip bridge_exits_round_trip : serde.

(** *** [GenerateAggchainProofRequest] *)

Definition request_valid (self : GenerateAggchainProofRequest) : Prop :=
  in_width 64 (gm_last_proven_block self) ∧
  in_width 64 (gm_requested_end_block self) ∧
  map_Forall (λ _, ger_block_valid) (gm_ger_leaves self) ∧
  Forall bridge_exit_valid (gm_imported_bridge_exits self).

Definition request_written (self : GenerateAggchainProofRequest) (f : RequestField)
    : option content :=
  match f with
  | Request_LastProvenBlock => if nonzero (gm_last_proven_block self)
      then ok_content ((λ n, serialize (to_string n)) (gm_last_proven_block self)) else None
  | Request_RequestedEndBlock => if nonzero (gm_requested_end_block self)
      then ok_content ((λ n, serialize (to_string n)) (gm_requested_end_block self)) else None
  | Request_L1InfoTreeRootHash => gm_l1_info_tree_root_hash self ≫=
      λ v, ok_content (serialize v)
  | Request_L1InfoTreeLeaf => gm_l1_info_tree_leaf self ≫= λ v, ok_content (serialize v)
  | Request_L1InfoTreeMerkleProof => gm_l1_info_tree_merkle_proof self ≫=
      λ v, ok_content (serialize v)
  | Request_GerLeaves => if bool_decide (gm_ger_leaves self ≠ ∅)
      then ok_content (serialize (gm_ger_leaves self)) else None
  | Request_ImportedBridgeExits => if nonempty (gm_imported_bridge_exits self)
      then ok_content (serialize (gm_imported_bridge_exits self)) else None
  end.

Definition request_slots (self : GenerateAggchainProofRequest) : slots request_ty := λ f,
  match f return option (request_ty f) with
  | Request_LastProvenBlock => if nonzero (gm_last_proven_block self)
      then Some (gm_last_proven_block self) else None
  | Request_RequestedEndBlock => if nonzero (gm_requested_end_block self)
      then Some (gm_requested_end_block self) else None
  | Request_L1InfoTreeRootHash => gm_l1_info_tree_root_hash self
  | Request_L1InfoTreeLeaf => gm_l1_info_tree_leaf self
  | Request_L1InfoTreeMerkleProof => gm_l1_info_tree_merkle_proof self
  | Request_GerLeaves => if bool_decide (gm_ger_leaves self ≠ ∅)
      then Some (gm_ger_leaves self) else None
  | Request_ImportedBridgeExits => if nonempty (gm_imported_bridge_exits self)
      then Some (gm_imported_bridge_exits self) else None
  end.

Lemma request_extensional : extensional request_ty request_finish.
Proof. intros st1 st2 Heq. unfold request_finish. by rewrite !Heq. Qed.

Lemma request_well_written self :
  request_valid self → well_written serialize deserialize self.
Proof.
  intros (Hv0 & Hv1 & Hv2 & Hv3).
  apply (struct_well_written _ (request_written self) (request_slots self)
    [Request_LastProvenBlock; Request_RequestedEndBlock; Request_L1InfoTreeRootHash;
     Request_L1InfoTreeLeaf; Request_L1InfoTreeMerkleProof; Request_GerLeaves;
     Request_ImportedBridgeExits]); try struct_fields.
  - apply request_extensional.
  - intros f. split; [by destruct f|]. destruct f.
    + apply (reads_if _ (λ n, serialize (to_string n))). eauto with serde.
    + apply (reads_if _ (λ n, serialize (to_string n))). eauto with serde.
    + apply reads_option. eauto with serde.
    + apply reads_option. eauto with serde.
    + apply reads_option. eauto with serde.
    + apply (reads_if _ serialize). eauto with serde.
    + apply (reads_if _ serialize). eauto with serde.
  - destruct self. unfold request_finish. simpl. 
    by rewrite ?default_nonzero, ?default_nonempty_map, ?default_nonempty.
  - unfold serialize at 1, request_serialize. struct_written.
    cbn [request_written]. struct_lengths.
Qed.

#[export] Instance request_round_trips : RoundTrips _ request_valid.
Proof. intros x Hx. by apply well_written_round_trips, request_well_written. Qed.

Lemma request_round_trip (self : GenerateAggchainProofRequest) :
  request_valid self → round_trips serialize deserialize self.
Proof. by apply round_trip. Qed.
#[local] Hint Resolve request_round_trip : serde.

(** *** [GenerateOptimisticAggchainProofRequest] *)

Definition optimistic_request_valid (self : GenerateOptimisticAggchainProofRequest) : Prop :=
  from_option request_valid True (om_aggchain_proof_request self).

Definition optimistic_request_written (self : GenerateOptimisticAggchainProofRequest) (f : OptimisticRequestField)
    : option content :=
  match f with
  | OptimisticRequest_AggchainProofRequest => om_aggchain_proof_request self ≫=
      λ v, ok_content (serialize v)
  | OptimisticRequest_OptimisticModeSignature => om_optimistic_mode_signature self ≫=
      λ v, ok_content (fixed_bytes65_serialize v)
  end.

Definition optimistic_request_slots (self : GenerateOptimisticAggchainProofRequest)
    : slots optimistic_request_ty := λ f,
  match f return option (optimistic_request_ty f) with
  | OptimisticRequest_AggchainProofRequest => om_aggchain_proof_request self
  | OptimisticRequest_OptimisticModeSignature => om_optimistic_mode_signature self
  end.

Lemma optimistic_request_extensional : extensional optimistic_request_ty optimistic_request_finish.
Proof. intros st1 st2 Heq. unfold optimistic_request_finish. by rewrite !Heq. Qed.

Lemma optimistic_request_well_written self :
  optimistic_request_valid self → well_written serialize deserialize self.
Proof.
  intros Hv. assert (∀ r, om_aggchain_proof_request self = Some r → request_valid r) as Hr.
  { intros r Hr. unfold optimistic_request_valid in Hv. by rewrite Hr in Hv. }
  apply (struct_well_written _ (optimistic_request_written self) (optimistic_request_slots self)
    [OptimisticRequest_AggchainProofRequest; OptimisticRequest_OptimisticModeSignature]);
    try struct_fields.
  - apply optimistic_request_extensional.
  - intros f. split; [by destruct f|]. destruct f.
    + apply reads_option. eauto with serde.
    + apply reads_option. eauto with serde.
  - destruct self. unfold optimistic_request_finish. simpl. done.
  - unfold serialize at 1, optimistic_request_serialize. struct_written.
    cbn [optimistic_request_written]. struct_lengths.
Qed.

#[export] Instance optimistic_request_round_trips : RoundTrips _ optimistic_request_valid.
Proof. intros x Hx. by apply well_written_round_trips, optimistic_request_well_written. Qed.

Lemma optimistic_request_round_trip (self : GenerateOptimisticAggchainProofRequest) :
  optimistic_request_valid self → round_trips serialize deserialize self.
Proof. by apply round_trip. Qed.
#[local] Hint Resolve optimistic_request_round_trip : serde.

(** *** [GenerateAggchainProofResponse] *)

Definition response_valid (self : GenerateAggchainProofResponse) : Prop :=
  in_width 64 (gr_last_proven_block self) ∧
  in_width 64 (gr_end_block self).

Definition response_written (self : GenerateAggchainProofResponse) (f : ResponseField)
    : option content :=
  match f with
  | Response_AggchainProof => gr_aggchain_proof self ≫= λ v, ok_content (serialize v)
  | Response_LastProvenBlock => if nonzero (gr_last_proven_block self)
      then ok_content ((λ n, serialize (to_string n)) (gr_last_proven_block self)) else None
  | Response_EndBlock => if nonzero (gr_end_block self)
      then ok_content ((λ n, serialize (to_string n)) (gr_end_block self)) else None
  | Response_LocalExitRootHash => gr_local_exit_root_hash self ≫= λ v, ok_content (serialize v)
  | Response_CustomChainData => if nonempty (gr_custom_chain_data self)
      then ok_content ((λ bs, serialize (base64_encode bs)) (gr_custom_chain_data self)) else None
  end.

Definition response_slots (self : GenerateAggchainProofResponse) : slots response_ty := λ f,
  match f return option (response_ty f) with
  | Response_AggchainProof => gr_aggchain_proof self
  | Response_LastProvenBlock => if nonzero (gr_last_proven_block self)
      then Some (gr_last_proven_block self) else None
  | Response_EndBlock => if nonzero (gr_end_block self) then Some (gr_end_block self) else None
  | Response_LocalExitRootHash => gr_local_exit_root_hash self
  | Response_CustomChainData => if nonempty (gr_custom_chain_data self)
      then Some (gr_custom_chain_data self) else None
  end.

Lemma response_extensional : extensional response_ty response_finish.
Proof. intros st1 st2 Heq. unfold response_finish. by rewrite !Heq. Qed.

Lemma response_well_written self :
  response_valid self → well_written serialize deserialize self.
Proof.
  intros (Hv0 & Hv1).
  apply (struct_well_written _ (response_written self) (response_slots self)
    [Response_AggchainProof; Response_LastProvenBlock; Response_EndBlock;
     Response_LocalExitRootHash; Response_CustomChainData]); try struct_fields.
  - apply response_extensional.
  - intros f. split; [by destruct f|]. destruct f.
    + apply reads_option. eauto with serde.
    + apply (reads_if _ (λ n, serialize (to_string n))). eauto with serde.
    + apply (reads_if _ (λ n, serialize (to_string n))). eauto with serde.
    + apply reads_option. eauto with serde.
    + apply (reads_if _ (λ bs, serialize (base64_encode bs))). eauto with serde.
  - destruct self. unfold response_finish. simpl. 
    by rewrite ?default_nonzero, ?default_nonempty.
  - unfold serialize at 1, response_serialize. struct_written.
    cbn [response_written]. struct_lengths.
Qed.

#[export] Instance response_round_trips : RoundTrips _ response_valid.
Proof. intros x Hx. by apply well_written_round_trips, response_well_written. Qed.

Lemma response_round_trip (self : GenerateAggchainProofResponse) :
  response_valid self → round_trips serialize deserialize self.
Proof. by apply round_trip. Qed.
#[local] Hint Resolve response_round_trip : serde.

(** *** [GenerateOptimisticAggchainProofResponse] *)

Definition optimistic_response_valid (self : GenerateOptimisticAggchainProofResponse) : Prop :=
  True.

Definition optimistic_response_written (self : GenerateOptimisticAggchainProofResponse) (f : OptimisticResponseField)
    : option content :=
  match f with
  | OptimisticResponse_AggchainProof => or_aggchain_proof self ≫= λ v, ok_content (serialize v)
  | OptimisticResponse_LocalExitRootHash => or_local_exit_root_hash self ≫=
      λ v, ok_content (serialize v)
  | OptimisticResponse_CustomChainData => if nonempty (or_custom_chain_data self)
      then ok_content ((λ bs, serialize (base64_encode bs)) (or_custom_chain_data self)) else None
  end.

Definition optimistic_response_slots (self : GenerateOptimisticAggchainProofResponse)
    : slots optimistic_response_ty := λ f,
  match f return option (optimistic_response_ty f) with
  | OptimisticResponse_AggchainProof => or_aggchain_proof self
  | OptimisticResponse_LocalExitRootHash => or_local_exit_root_hash self
  | OptimisticResponse_CustomChainData => if nonempty (or_custom_chain_data self)
      then Some (or_custom_chain_data self) else None
  end.

Lemma optimistic_response_extensional : extensional optimistic_response_ty optimistic_response_finish.
Proof. intros st1 st2 Heq. unfold optimistic_response_finish. by rewrite !Heq. Qed.

Lemma optimistic_response_well_written self :
  optimistic_response_valid self → well_written serialize deserialize self.
Proof.
  intros _.
  apply (struct_well_written _ (optimistic_response_written self) (optimistic_response_slots self)
    [OptimisticResponse_AggchainProof; OptimisticResponse_LocalExitRootHash;
     OptimisticResponse_CustomChainData]); try struct_fields.
  - apply optimistic_response_extensional.
  - intros f. split; [by destruct f|]. destruct f.
    + apply reads_option. eauto with serde.
    + apply reads_option. eauto with serde.
    + apply (reads_if _ (λ bs, serialize (base64_encode bs))). eauto with serde.
  - destruct self. unfold optimistic_response_finish. simpl. by rewrite ?default_nonempty.
  - unfold serialize at 1, optimistic_response_serialize. struct_written.
    cbn [optimistic_response_written]. struct_lengths.
Qed.

#[export] Instance optimistic_response_round_trips : RoundTrips _ optimistic_response_valid.
Proof. intros x Hx. by apply well_written_round_trips, optimistic_response_well_written. Qed.

Lemma optimistic_response_round_trip (self : GenerateOptimisticAggchainProofResponse) :
  round_trips serialize deserialize self.
Proof. by apply round_trip. Qed.
#[local] Hint Resolve optimistic_response_round_trip : serde.

(** ** Properties *)

(** C21: every message of the aggkit prover is written in order and read back, the three
    messages inside the requests included: its serializer declares as many fields as it writes
    and writes none of them twice, and the deserializer reads the message from what was written,
    whatever the iteration order of the map of GERs.  Numbers must fit in 64 bits. *)
Theorem messages_well_written :
  (∀ m : GenerateAggchainProofRequest, request_valid m → well_written serialize deserialize m) ∧
  (∀ m : GenerateOptimisticAggchainProofRequest,
     optimistic_request_valid m → well_written serialize deserialize m) ∧
  (∀ m : GenerateAggchainProofResponse, response_valid m → well_written serialize deserialize m) ∧
  (∀ m : GenerateOptimisticAggchainProofResponse, well_written serialize deserialize m) ∧
  (∀ m : ImportedBridgeExitMessage, bridge_exit_valid m → well_written serialize deserialize m) ∧
  (∀ m : ProvenInsertedGerWithBlockNumber,
     ger_block_valid m → well_written serialize deserialize m) ∧
  (∀ m : ProvenInsertedGer, well_written serialize deserialize m).
Proof.
  split_and!; intros; by first [apply request_well_written | apply optimistic_request_well_written
    | apply response_well_written | apply optimistic_response_well_written
    | apply bridge_exit_well_written | apply ger_block_well_written
    | apply proven_ger_well_written].
Qed.
End round_trips.

Section reading.
Context `{!UnifiedBridge, !Ecdsa, !GlobalIndices, !InteropGrpc, !InteropSerde, !Pbjson}.
Context {orders : UnspecifiedOrders}.

(** *** What an object says

    The names of the fields of a request: in JSON, and in the schema. *)
Definition request_names : list (string * string) :=
  [("lastProvenBlock", "last_proven_block"); ("requestedEndBlock", "requested_end_block");
   ("l1InfoTreeRootHash", "l1_info_tree_root_hash"); ("l1InfoTreeLeaf", "l1_info_tree_leaf");
   ("l1InfoTreeMerkleProof", "l1_info_tree_merkle_proof"); ("gerLeaves", "ger_leaves");
   ("importedBridgeExits", "imported_bridge_exits")].

(** The field that a key names, under either of its names. *)
Definition json_name (names : list (string * string)) (key : string) : option string :=
  fst <$> List.find (λ p, bool_decide (key = p.1 ∨ key = p.2)) names.

(** What an object has under the names of a field. *)
Definition json_value (names : list (string * string)) (entries : list (string * content))
    (name : string) : option content :=
  snd <$> List.find (λ e, bool_decide (json_name names e.1 = Some name)) entries.

(** A value that is read, or the default of a field that is absent. *)
Definition read_as {A} (read : content → outcome de_error A) (absent : A)
    (value : option content) (x : A) : Prop :=
  match value with
  | Some c => read c = Ok x
  | None => x = absent
  end.

Lemma request_name_of key :
  json_name request_names key =
    match request_visit_str key with Ok f => Some (request_name f) | _ => None end.
Proof.
  destruct (decide (key ∈ request_FIELDS)) as [Hk|Hk].
  - unfold request_FIELDS in Hk. rewrite !elem_of_cons, elem_of_nil in Hk.
    destruct_or! Hk; try done; subst key; reflexivity.
  - unfold request_FIELDS in Hk. rewrite !not_elem_of_cons in Hk. destruct_and! Hk.
    unfold json_name, request_names, request_visit_str. simpl.
    rewrite !bool_decide_false by tauto. by rewrite !decide_False by set_solver.
Qed.

#[local] Instance request_name_inj : Inj (=) (=) request_name.
Proof. intros f g. by destruct f, g. Qed.

Lemma request_fields_named (entries : list (string * content)) keys :
  mapM (json_name request_names) entries.*1 = Some keys → NoDup keys →
  ∃ fields, traverse (λ e, request_visit_str e.1) entries = Ok fields ∧ NoDup fields.
Proof.
  intros Hk Hnd. assert (∃ fields, traverse (λ e, request_visit_str e.1) entries = Ok fields ∧
    keys = request_name <$> fields) as (fields & Hf & ->).
  { clear Hnd. revert keys Hk. induction entries as [|e entries IH]; intros keys Hk; simpl in Hk.
    - injection Hk as <-. by exists [].
    - rewrite request_name_of in Hk. simpl.
      destruct (request_visit_str e.1) as [f| |]; [|done..]. simpl in Hk.
      destruct (mapM _ _) as [keys'|] eqn:Hm; [|done]. simpl in Hk. injection Hk as <-.
      destruct (IH keys' eq_refl) as (fields & -> & ->). by exists (f :: fields). }
  exists fields. split; [done|]. by apply NoDup_fmap_1 in Hnd.
Qed.

Lemma request_value_of entries f :
  value_of request_visit_str entries f = json_value request_names entries (request_name f).
Proof.
  unfold value_of, json_value. f_equal. induction entries as [|e entries IH]; [done|]. simpl.
  assert (names request_visit_str f e =
          bool_decide (json_name request_names e.1 = Some (request_name f))) as ->; [|by rewrite IH].
  unfold names. rewrite request_name_of. destruct (request_visit_str e.1) as [g| |].
  - apply bool_decide_ext. split; [congruence|]. by intros [= ->%request_name_inj].
  - by rewrite bool_decide_false.
  - by rewrite bool_decide_false.
Qed.

(** The slot of a field that is always given a value, or a default. *)
Lemma read_as_default {A} (de : content → outcome de_error A) absent value slot :
  reads (λ c, Some <$> de c) value slot → read_as de absent value (default absent slot).
Proof. destruct value as [c|]; simpl; [|by intros ->]. destruct (de c); naive_solver. Qed.

Lemma read_as_slot {A} (de : content → outcome de_error A) absent value x :
  read_as de absent value x →
  reads (λ c, Some <$> de c) value ((λ _, x) <$> value) ∧ default absent ((λ _, x) <$> value) = x.
Proof. destruct value as [c|]; simpl; [by intros ->|done]. Qed.

(** C34: a request is read from an object by the names of its fields, whatever the order of its
    entries: when every key is one of the two names of a field, and no field is named twice,
    the object is read as a request exactly when each field of the request is what the value
    under one of its names is read as, or the default when neither is there. *)
Theorem request_read_by_name (entries : list (string * content)) keys (m : GenerateAggchainProofRequest) :
  mapM (json_name request_names) entries.*1 = Some keys → NoDup keys →
  let value := json_value request_names entries in
  deserialize (CMap entries) = Ok m ↔
    read_as number_deserialize 0 (value "lastProvenBlock") (gm_last_proven_block m) ∧
    read_as number_deserialize 0 (value "requestedEndBlock") (gm_requested_end_block m) ∧
    read_as (option_deserialize deserialize) None (value "l1InfoTreeRootHash")
      (gm_l1_info_tree_root_hash m) ∧
    read_as (option_deserialize deserialize) None (value "l1InfoTreeLeaf")
      (gm_l1_info_tree_leaf m) ∧
    read_as (option_deserialize deserialize) None (value "l1InfoTreeMerkleProof")
      (gm_l1_info_tree_merkle_proof m) ∧
    read_as deserialize ∅ (value "gerLeaves") (gm_ger_leaves m) ∧
    read_as deserialize [] (value "importedBridgeExits") (gm_imported_bridge_exits m).
Proof.
  intros Hk Hnd value.
  destruct (request_fields_named entries keys Hk Hnd) as (fields & Hf & Hfnd).
  assert (∀ st, filled request_ty request_visit_str request_next_value entries
      (no_slots request_ty) st ↔
    ∀ f, reads (request_next_value f) (value (request_name f)) (st f)) as Hfill.
  { intros st. split; intros Hs f; specialize (Hs f); rewrite request_value_of in *; exact Hs. }
  transitivity (∃ st, filled request_ty request_visit_str request_next_value entries
                        (no_slots request_ty) st ∧ request_finish st = m).
  { exact (deserialize_fields _ _ _ _ _ _ _ _ _ request_extensional Hf Hfnd). }
  split.
  - intros (st & Hst & <-). pose proof (proj1 (Hfill st) Hst) as Hs. simpl.
    split_and!; first [by apply read_as_default, (Hs Request_LastProvenBlock)
      |by apply read_as_default, (Hs Request_RequestedEndBlock)
      |exact (Hs Request_L1InfoTreeRootHash) |exact (Hs Request_L1InfoTreeLeaf)
      |exact (Hs Request_L1InfoTreeMerkleProof)
      |by apply read_as_default, (Hs Request_GerLeaves)
      |by apply read_as_default, (Hs Request_ImportedBridgeExits)].
  - intros (Hl%read_as_slot & He%read_as_slot & Hr & Hlf & Hp & Hg%read_as_slot & Hx%read_as_slot).
    exists (λ f, match f return option (request_ty f) with
      | Request_LastProvenBlock => (λ _, gm_last_proven_block m) <$> value "lastProvenBlock"
      | Request_RequestedEndBlock => (λ _, gm_requested_end_block m) <$> value "requestedEndBlock"
      | Request_L1InfoTreeRootHash => gm_l1_info_tree_root_hash m
      | Request_L1InfoTreeLeaf => gm_l1_info_tree_leaf m
      | Request_L1InfoTreeMerkleProof => gm_l1_info_tree_merkle_proof m
      | Request_GerLeaves => (λ _, gm_ger_leaves m) <$> value "gerLeaves"
      | Request_ImportedBridgeExits =>
          (λ _, gm_imported_bridge_exits m) <$> value "importedBridgeExits"
      end). split.
    + apply Hfill. intros []; [apply Hl|apply He|exact Hr|exact Hlf|exact Hp|apply Hg|apply Hx].
    + destruct m. unfold request_finish. simpl in *.
      f_equal; [exact (proj2 Hl)|exact (proj2 He)|exact (proj2 Hg)|exact (proj2 Hx)].
Qed.

Abbreviation refused_for :=
  (refused_for request_ty request_visit_str request_name request_next_value).

(** A request is refused for its first entry that cannot be taken, and with the error of
    that entry: an unknown key, a field that has a value already, under either of its names,
    or a value that cannot be read.  Anything but an object is refused for its type. *)
Theorem request_refusals (c : content) e :
  deserialize (T:=GenerateAggchainProofRequest) c = Err e ↔
  match c with
  | CMap entries | CStruct _ _ entries =>
      ∃ before entry after, entries = before ++ entry :: after ∧ refused_for before entry e
  | _ => e = InvalidType "struct aggkit.prover.v1.GenerateAggchainProofRequest"
  end.
Proof.
  destruct c as [| | | | | |entries|name len entries].
  1-6: (split; [by intros [= <-]|by intros ->]).
  all: exact (deserialize_refuses _ _ _ _ _ "aggkit.prover.v1.GenerateAggchainProofRequest"
    entries e).
Qed.
End reading.

(** ** Concrete messages *)

Module SerdeSample.
Import Toy ToyOrders ToyPbjson.

(** Interop messages that are written as the number that encodes them. *)
#[export] Program Instance byte_countable : Countable byte := inj_countable' b2z z2b _.
Next Obligation. apply z2b_b2z. Qed.

#[export] Instance FixedBytes_eq_dec : EqDecision FixedBytes.
Proof. solve_decision. Defined.
#[export] Program Instance FixedBytes_countable : Countable FixedBytes :=
  inj_countable' value (λ value, {| value := value |}) _.
Next Obligation. by intros []. Qed.

#[export] Instance Sp1StarkProof_eq_dec : EqDecision Sp1StarkProof.
Proof. solve_decision. Defined.
#[export] Program Instance Sp1StarkProof_countable : Countable Sp1StarkProof :=
  inj_countable' (λ p, (stark_version p, stark_proof p, stark_vkey p))
    (λ '(v, p, k), {| stark_version := v; stark_proof := p; stark_vkey := k |}) _.
Next Obligation. by intros []. Qed.

#[export] Instance AggchainProofMessage_eq_dec : EqDecision AggchainProofMessage.
Proof. solve_decision. Defined.
#[export] Program Instance AggchainProofMessage_countable : Countable AggchainProofMessage :=
  inj_countable' (λ m, (ap_aggchain_params m, ap_signature m, ap_context m, ap_proof m))
    (λ '(p, s, c, pr), {| ap_aggchain_params := p; ap_signature := s; ap_context := c;
                          ap_proof := pr |}) _.
Next Obligation. by intros []. Qed.

Definition number_serialize `{Countable T} (x : T) : outcome ser_error content :=
  Ok (CU64 (Zpos (encode x))).

Definition code_deserialize `{Countable T} (c : content) : outcome de_error T :=
  match c with
  | CU64 (Zpos p) => ok_or (DeCustom "code") (decode p)
  | _ => Err (DeCustom "code")
  end.

Lemma number_round_trips `{Countable T} (x : T) : round_trips number_serialize code_deserialize x.
Proof. eexists. split_and!; [done|done|]. simpl. by rewrite decode_encode. Qed.

#[export] Instance interop_grpc : InteropGrpc := {|
  L1InfoTreeLeafWithContext := Z;
  MerkleProofMessage := Z;
  digest_try_from m := ok_or (ReportMsg "digest") (to_array 32 (value m));
  global_index_try_from m := Ok (be_value (value m) : GlobalIndex);
  l1_info_tree_leaf_try_from _ := Err (ReportMsg "leaf");
  merkle_proof_try_from _ := Err (ReportMsg "proof");
  signature_try_from bs := Ok (to_array 20 bs : Signature);
|}.

#[export] Instance interop_serde : InteropSerde := {|
  fixed_bytes32_serialize := number_serialize;
  fixed_bytes32_deserialize := code_deserialize;
  fixed_bytes65_serialize := number_serialize;
  fixed_bytes65_deserialize := code_deserialize;
  leaf_serialize := number_serialize (T:=Z);
  leaf_deserialize := code_deserialize (T:=Z);
  merkle_proof_serialize := number_serialize (T:=Z);
  merkle_proof_deserialize := code_deserialize (T:=Z);
  aggchain_proof_serialize := number_serialize;
  aggchain_proof_deserialize := code_deserialize;
|}.

#[export] Instance interop_serde_laws : InteropSerdeLaws.
Proof. split; intros x; try intros _; apply number_round_trips. Qed.

Definition request : GenerateAggchainProofRequest :=
  {| gm_last_proven_block := 50;
     gm_requested_end_block := 60;
     gm_l1_info_tree_root_hash := Some {| value := be_bytes 32 7 |};
     gm_l1_info_tree_leaf := Some 8;
     gm_l1_info_tree_merkle_proof := None;
     gm_ger_leaves :=
       {[ "a" := {| pmb_block_number := 55;
                    pmb_proven_inserted_ger :=
                      Some {| pm_proof_ger_l1root := Some 1; pm_l1_leaf := None |};
                    pmb_block_index := 0 |} ]};
     gm_imported_bridge_exits :=
       [{| im_block_number := 51; im_global_index := None; im_bridge_exit_hash := None |}] |}.

Lemma request_fits : request_valid request.
Proof.
  split_and!; [by vm_compute; split|by vm_compute; split| |].
  - apply map_Forall_singleton. by vm_compute; split.
  - constructor; [by vm_compute; split|constructor].
Qed.

Definition ger_message : ProvenInsertedGer :=
  {| pm_proof_ger_l1root := Some 1; pm_l1_leaf := Some 2 |}.

Lemma messages_well_written_witness :
  well_written serialize deserialize request ∧ well_written serialize deserialize ger_message.
Proof.
  pose proof messages_well_written as (Hrequest & _ & _ & _ & _ & _ & Hger).
  split; [exact (Hrequest request request_fits)|exact (Hger ger_message)].
Defined.

(** Out of order, and under both kinds of names. *)
Definition entries : list (string * content) :=
  [("requested_end_block", CU64 60); ("l1InfoTreeLeaf", CNull); ("lastProvenBlock", CStr "50")].

Definition read_request : GenerateAggchainProofRequest :=
  {| gm_last_proven_block := 50; gm_requested_end_block := 60; gm_l1_info_tree_root_hash := None;
     gm_l1_info_tree_leaf := None; gm_l1_info_tree_merkle_proof := None; gm_ger_leaves := ∅;
     gm_imported_bridge_exits := [] |}.

Lemma request_read_by_name_witness : deserialize (CMap entries) = Ok read_request.
Proof.
  apply (request_read_by_name entries
    ["requestedEndBlock"; "l1InfoTreeLeaf"; "lastProvenBlock"] read_request).
  - reflexivity.
  - apply (bool_decide_unpack _). vm_compute. exact I.
  - split_and!; reflexivity.
Defined.

(** A field may not be given under both of its names. *)
Example duplicate_refused :
  deserialize (T:=GenerateAggchainProofRequest)
    (CMap [("lastProvenBlock", CStr "50"); ("last_proven_block", CStr "50")]) =
  Err (DuplicateField "lastProvenBlock").
Proof. reflexivity. Qed.

(** A null leaves an optional field open. *)
Example null_then_value :
  is_ok (deserialize (T:=GenerateAggchainProofRequest)
    (CMap [("l1InfoTreeLeaf", CNull); ("l1_info_tree_leaf", CU64 3)])) = true.
Proof. reflexivity. Qed.
End SerdeSample.
