(* ===== verification/AgglayerSerde.v ===== *)
(** The JSON form of the agglayer prover's messages, and its error kinds:
    [crates/agglayer-prover-types/src/generated/agglayer.prover.v1.serde.rs] and
    [agglayer.prover.v1.rs] next to it. *)

From S2P Require Import Prelude Bytes Panics Interop Abi StaticCall Config Executor Vkey Builder ProofInputs Rpc AgglayerRpc Text Serde.

(** ** Error kinds *)

#[export] Instance ErrorKind_eq_dec : EqDecision ErrorKind.
Proof. solve_decision. Defined.

(** [ErrorKind::as_str_name] and [ErrorKind::from_str_name]. *)
Definition as_str_name (self : ErrorKind) : string :=
  match self with
  | KindUnspecified => "ERROR_KIND_UNSPECIFIED"
  | KindUnableToExecuteProver => "ERROR_KIND_UNABLE_TO_EXECUTE_PROVER"
  | KindProverFailed => "ERROR_KIND_PROVER_FAILED"
  | KindProofVerificationFailed => "ERROR_KIND_PROOF_VERIFICATION_FAILED"
  | KindExecutorFailed => "ERROR_KIND_EXECUTOR_FAILED"
  end.

Definition from_str_name (value : string) : option ErrorKind :=
  if decide (value = "ERROR_KIND_UNSPECIFIED") then Some KindUnspecified
  else if decide (value = "ERROR_KIND_UNABLE_TO_EXECUTE_PROVER")
    then Some KindUnableToExecuteProver
  else if decide (value = "ERROR_KIND_PROVER_FAILED") then Some KindProverFailed
  else if decide (value = "ERROR_KIND_PROOF_VERIFICATION_FAILED")
    then Some KindProofVerificationFailed
  else if decide (value = "ERROR_KIND_EXECUTOR_FAILED") then Some KindExecutorFailed
  else None.

(** The derived [TryFrom<i32>]: the number of a variant. *)
Definition error_kind_try_from (n : Z) : outcome Z ErrorKind :=
  match n with
  | 0 => Ok KindUnspecified
  | 1 => Ok KindUnableToExecuteProver
  | 2 => Ok KindProverFailed
  | 3 => Ok KindProofVerificationFailed
  | 4 => Ok KindExecutorFailed
  | _ => Err n
  end.

#[export] Instance error_kind_serialize : Serialize ErrorKind := λ self,
  let variant :=
    match self with
    | KindUnspecified => "ERROR_KIND_UNSPECIFIED"
    | KindUnableToExecuteProver => "ERROR_KIND_UNABLE_TO_EXECUTE_PROVER"
    | KindProverFailed => "ERROR_KIND_PROVER_FAILED"
    | KindProofVerificationFailed => "ERROR_KIND_PROOF_VERIFICATION_FAILED"
    | KindExecutorFailed => "ERROR_KIND_EXECUTOR_FAILED"
    end in
  Ok (CStr variant).

Definition error_kind_FIELDS : list string :=
  ["ERROR_KIND_UNSPECIFIED"; "ERROR_KIND_UNABLE_TO_EXECUTE_PROVER"; "ERROR_KIND_PROVER_FAILED";
   "ERROR_KIND_PROOF_VERIFICATION_FAILED"; "ERROR_KIND_EXECUTOR_FAILED"].

(** [visit_i64] and [visit_u64]: [i32::try_from(v).ok().and_then(|x| x.try_into().ok())]. *)
Definition error_kind_visit_integer (v : Z) : outcome de_error ErrorKind :=
  if decide (- 2 ^ 31 <= v < 2 ^ 31) then map_err InvalidValue (error_kind_try_from v)
  else Err (InvalidValue v).

Definition error_kind_visit_str (value : string) : outcome de_error ErrorKind :=
  if decide (value = "ERROR_KIND_UNSPECIFIED") then Ok KindUnspecified
  else if decide (value = "ERROR_KIND_UNABLE_TO_EXECUTE_PROVER")
    then Ok KindUnableToExecuteProver
  else if decide (value = "ERROR_KIND_PROVER_FAILED") then Ok KindProverFailed
  else if decide (value = "ERROR_KIND_PROOF_VERIFICATION_FAILED")
    then Ok KindProofVerificationFailed
  else if decide (value = "ERROR_KIND_EXECUTOR_FAILED") then Ok KindExecutorFailed
  else Err (UnknownVariant value error_kind_FIELDS).

(** [deserialize_any]. *)
#[export] Instance error_kind_deserialize : Deserialize ErrorKind := λ c,
  match c with
  | CI64 v | CU64 v => error_kind_visit_integer v
  | CStr value => error_kind_visit_str value
  | _ => Err (InvalidType ("expected one of: " +:+ debug_list (quoted <$> error_kind_FIELDS)))
  end.

(** How the number of a kind is written. *)
Definition error_type_serialize (error_type : Z) : outcome ser_error content :=
  v ← map_err (λ _, SerCustom ("Invalid variant " +:+ to_string error_type))
        (error_kind_try_from error_type);
  serialize v.

(** ** The messages *)

Section messages.
Context `{!Pbjson}.

(** *** [GenerateProofError] *)

Inductive ProofErrorField : Type :=
  | ProofError_Error | ProofError_ErrorType.

#[export] Instance ProofErrorField_eq_dec : EqDecision ProofErrorField.
Proof. solve_decision. Defined.

Definition proof_error_FIELDS : list string :=
  ["error"; "error_type"; "errorType"].

Definition proof_error_visit_str (value : string) : outcome de_error ProofErrorField :=
  if decide (value ∈ ["error"]) then Ok ProofError_Error
  else if decide (value ∈ ["errorType"; "error_type"]) then Ok ProofError_ErrorType
  else Err (UnknownField value proof_error_FIELDS).

(** The name a duplicate is reported under, which is the one that is written. *)
Definition proof_error_name (f : ProofErrorField) : string :=
  match f with
  | ProofError_Error => "error"
  | ProofError_ErrorType => "errorType"
  end.

Definition proof_error_ty (f : ProofErrorField) : Type :=
  match f with
  | ProofError_Error => bytes
  | ProofError_ErrorType => Z
  end.

Definition proof_error_next_value (f : ProofErrorField) (c : content)
    : outcome de_error (option (proof_error_ty f)) :=
  match f return outcome de_error (option (proof_error_ty f)) with
  | ProofError_Error => Some <$> bytes_deserialize c
  | ProofError_ErrorType => (λ kind : ErrorKind, Some (error_kind_into kind)) <$> deserialize c
  end.

Definition proof_error_finish (st : slots proof_error_ty) : GenerateProofError :=
  {| ge_error := default [] (st ProofError_Error);
     ge_error_type := default 0 (st ProofError_ErrorType) |}.

#[export] Instance proof_error_deserialize : Deserialize GenerateProofError :=
  deserialize_struct proof_error_ty proof_error_visit_str proof_error_name proof_error_next_value
    proof_error_finish "agglayer.prover.v1.GenerateProofError".

#[export] Instance proof_error_serialize : Serialize GenerateProofError := λ self,
  let len := (count_if (nonempty (ge_error self)) +
    count_if (nonzero (ge_error_type self)))%nat in
  struct_ser ← serialize_struct "agglayer.prover.v1.GenerateProofError" len;
  struct_ser ← field_if (nonempty (ge_error self)) "error"
    (serialize (base64_encode (ge_error self))) struct_ser;
  struct_ser ← field_if (nonzero (ge_error_type self)) "errorType"
    (error_type_serialize (ge_error_type self)) struct_ser;
  ss_end struct_ser.

(** *** [GenerateProofRequest] *)

Inductive ProofRequestField : Type :=
  | ProofRequest_Sp1Stdin.

#[export] Instance ProofRequestField_eq_dec : EqDecision ProofRequestField.
Proof. solve_decision. Defined.

Definition proof_request_FIELDS : list string :=
  ["sp1_stdin"; "sp1Stdin"].

Definition proof_request_visit_str (value : string) : outcome de_error ProofRequestField :=
  if decide (value ∈ ["sp1Stdin"; "sp1_stdin"]) then Ok ProofRequest_Sp1Stdin
  else Err (UnknownField value proof_request_FIELDS).

(** The name a duplicate is reported under, which is the one that is written. *)
Definition proof_request_name (f : ProofRequestField) : string :=
  match f with
  | ProofRequest_Sp1Stdin => "sp1Stdin"
  end.

Definition proof_request_ty (f : ProofRequestField) : Type :=
  match f with
  | ProofRequest_Sp1Stdin => bytes
  end.

Definition proof_request_next_value (f : ProofRequestField) (c : content)
    : outcome de_error (option (proof_request_ty f)) :=
  match f return outcome de_error (option (proof_request_ty f)) with
  | ProofRequest_Sp1Stdin => option_deserialize bytes_deserialize c
  end.

Definition proof_request_finish (st : slots proof_request_ty) : GenerateProofRequest :=
  {| gp_stdin := st ProofRequest_Sp1Stdin |}.

#[export] Instance proof_request_deserialize : Deserialize GenerateProofRequest :=
  deserialize_struct proof_request_ty proof_request_visit_str proof_request_name proof_request_next_value
    proof_request_finish "agglayer.prover.v1.GenerateProofRequest".

#[export] Instance proof_request_serialize : Serialize GenerateProofRequest := λ self,
  let len := (count_if (is_some (gp_stdin self)))%nat in
  struct_ser ← serialize_struct "agglayer.prover.v1.GenerateProofRequest" len;
  struct_ser ← field_some (gp_stdin self) "sp1Stdin" (λ v, serialize (base64_encode v)) struct_ser;
  ss_end struct_ser.

(** *** [GenerateProofResponse] *)

Inductive ProofResponseField : Type :=
  | ProofResponse_Proof.

#[export] Instance ProofResponseField_eq_dec : EqDecision ProofResponseField.
Proof. solve_decision. Defined.

Definition proof_response_FIELDS : list string :=
  ["proof"].

Definition proof_response_visit_str (value : string) : outcome de_error ProofResponseField :=
  if decide (value ∈ ["proof"]) then Ok ProofResponse_Proof
  else Err (UnknownField value proof_response_FIELDS).

(** The name a duplicate is reported under, which is the one that is written. *)
Definition proof_response_name (f : ProofResponseField) : string :=
  match f with
  | ProofResponse_Proof => "proof"
  end.

Definition proof_response_ty (f : ProofResponseField) : Type :=
  match f with
  | ProofResponse_Proof => bytes
  end.

Definition proof_response_next_value (f : ProofResponseField) (c : content)
    : outcome de_error (option (proof_response_ty f)) :=
  match f return outcome de_error (option (proof_response_ty f)) with
  | ProofResponse_Proof => Some <$> bytes_deserialize c
  end.

Definition proof_response_finish (st : slots proof_response_ty) : GenerateProofResponse :=
  {| gp_proof := default [] (st ProofResponse_Proof) |}.

#[export] Instance proof_response_deserialize : Deserialize GenerateProofResponse :=
  deserialize_struct proof_response_ty proof_response_visit_str proof_response_name proof_response_next_value
    proof_response_finish "agglayer.prover.v1.GenerateProofResponse".

#[export] Instance proof_response_serialize : Serialize GenerateProofResponse := λ self,
  let len := (count_if (nonempty (gp_proof self)))%nat in
  struct_ser ← serialize_struct "agglayer.prover.v1.GenerateProofResponse" len;
  struct_ser ← field_if (nonempty (gp_proof self)) "proof"
    (serialize (base64_encode (gp_proof self))) struct_ser;
  ss_end struct_ser.

End messages.

(** ** What is written is read back *)

Lemma error_kind_numbers n : 0 <= n <= 4 → ∃ k, error_kind_try_from n = Ok k ∧ error_kind_into k = n.
Proof.
  intros. assert (n = 0 ∨ n = 1 ∨ n = 2 ∨ n = 3 ∨ n = 4) as Hn by lia.
  by destruct Hn as [->|[->|[->|[->| ->]]]]; eexists.
Qed.

Lemma error_kind_try_from_into k : error_kind_try_from (error_kind_into k) = Ok k.
Proof. by destruct k. Qed.

Lemma error_kind_try_from_ok n k : error_kind_try_from n = Ok k ↔ n = error_kind_into k.
Proof.
  split; [|intros ->; apply error_kind_try_from_into].
  destruct n as [|[[p|p|]|[p|p|]|]|]; try (by intros [= <-]); destruct p; by intros [= <-].
Qed.

Lemma error_kind_round_trip (k : ErrorKind) : round_trips serialize deserialize k.
Proof. eexists. split_and!; [done|done|]. by destruct k. Qed.

Section round_trips.
Context `{!Pbjson, !PbjsonLaws}.

Lemma reads_error_type n :
  0 <= n <= 4 →
  reads (λ c, (λ kind : ErrorKind, Some (error_kind_into kind)) <$> deserialize c)
    (if nonzero n then ok_content (error_type_serialize n) else None)
    (if nonzero n then Some n else None).
Proof.
  intros (k & Hk & <-)%error_kind_numbers. unfold error_type_serialize. rewrite Hk.
  by destruct k.
Qed.

Lemma error_type_ok n : 0 <= n <= 4 → is_ok (error_type_serialize n) = true.
Proof.
  intros (k & Hk & _)%error_kind_numbers. unfold error_type_serialize. by rewrite Hk.
Qed.

(** *** [GenerateProofError] *)

Definition proof_error_valid (self : GenerateProofError) : Prop :=
  0 <= ge_error_type self <= 4.

Definition proof_error_written (self : GenerateProofError) (f : ProofErrorField)
    : option content :=
  match f with
  | ProofError_Error => if nonempty (ge_error self)
      then ok_content ((λ bs, serialize (base64_encode bs)) (ge_error self)) else None
  | ProofError_ErrorType => if nonzero (ge_error_type self)
      then ok_content (error_type_serialize (ge_error_type self)) else None
  end.

Definition proof_error_slots (self : GenerateProofError) : slots proof_error_ty := λ f,
  match f return option (proof_error_ty f) with
  | ProofError_Error => if nonempty (ge_error self) then Some (ge_error self) else None
  | ProofError_ErrorType => if nonzero (ge_error_type self)
      then Some (ge_error_type self) else None
  end.

Lemma proof_error_extensional : extensional proof_error_ty proof_error_finish.
Proof. intros st1 st2 Heq. unfold proof_error_finish. by rewrite !Heq. Qed.

Lemma proof_error_well_written self :
  proof_error_valid self → well_written serialize deserialize self.
Proof.
  intros Hv. pose proof (error_type_ok _ Hv) as Ht.
  apply (struct_well_written _ (proof_error_written self) (proof_error_slots self)
    [ProofError_Error; ProofError_ErrorType]); try struct_fields.
  - apply proof_error_extensional.
  - intros f. split; [by destruct f|]. destruct f.
    + apply (reads_if _ (λ bs, serialize (base64_encode bs))). eauto with serde.
    + by apply reads_error_type.
  - destruct self. unfold proof_error_finish. simpl. 
    by rewrite ?default_nonempty, ?default_nonzero.
  - unfold serialize at 1, proof_error_serialize. struct_written.
    cbn [proof_error_written]. struct_lengths.
Qed.

#[export] Instance proof_error_round_trips : RoundTrips _ proof_error_valid.
Proof. intros x Hx. by apply well_written_round_trips, proof_error_well_written. Qed.

Lemma proof_error_round_trip (self : GenerateProofError) :
  proof_error_valid self → round_trips serialize deserialize self.
Proof. by apply round_trip. Qed.
#[local] Hint Resolve proof_error_round_trip : serde.

(** *** [GenerateProofRequest] *)

Definition proof_request_valid (self : GenerateProofRequest) : Prop :=
  True.

Definition proof_request_written (self : GenerateProofRequest) (f : ProofRequestField)
    : option content :=
  match f with
  | ProofRequest_Sp1Stdin => gp_stdin self ≫=
      λ v, ok_content ((λ bs, serialize (base64_encode bs)) v)
  end.

Definition proof_request_slots (self : GenerateProofRequest) : slots proof_request_ty := λ f,
  match f return option (proof_request_ty f) with
  | ProofRequest_Sp1Stdin => gp_stdin self
  end.

Lemma proof_request_extensional : extensional proof_request_ty proof_request_finish.
Proof. intros st1 st2 Heq. unfold proof_request_finish. by rewrite !Heq. Qed.

Lemma proof_request_well_written self :
  proof_request_valid self → well_written serialize deserialize self.
Proof.
  intros _.
  apply (struct_well_written _ (proof_request_written self) (proof_request_slots self)
    [ProofRequest_Sp1Stdin]); try struct_fields.
  - apply proof_request_extensional.
  - intros f. split; [by destruct f|]. destruct f.
    + apply reads_option. eauto with serde.
  - destruct self. unfold proof_request_finish. simpl. done.
  - unfold serialize at 1, proof_request_serialize. struct_written.
    cbn [proof_request_written]. struct_lengths.
Qed.

#[export] Instance proof_request_round_trips : RoundTrips _ proof_request_valid.
Proof. intros x Hx. by apply well_written_round_trips, proof_request_well_written. Qed.

Lemma proof_request_round_trip (self : GenerateProofRequest) :
  round_trips serialize deserialize self.
Proof. by apply round_trip. Qed.
#[local] Hint Resolve proof_request_round_trip : serde.

(** *** [GenerateProofResponse] *)

Definition proof_response_valid (self : GenerateProofResponse) : Prop :=
  True.

Definition proof_response_written (self : GenerateProofResponse) (f : ProofResponseField)
    : option content :=
  match f with
  | ProofResponse_Proof => if nonempty (gp_proof self)
      then ok_content ((λ bs, serialize (base64_encode bs)) (gp_proof self)) else None
  end.

Definition proof_response_slots (self : GenerateProofResponse) : slots proof_response_ty := λ f,
  match f return option (proof_response_ty f) with
  | ProofResponse_Proof => if nonempty (gp_proof self) then Some (gp_proof self) else None
  end.

Lemma proof_response_extensional : extensional proof_response_ty proof_response_finish.
Proof. intros st1 st2 Heq. unfold proof_response_finish. by rewrite !Heq. Qed.

Lemma proof_response_well_written self :
  proof_response_valid self → well_written serialize deserialize self.
Proof.
  intros _.
  apply (struct_well_written _ (proof_response_written self) (proof_response_slots self)
    [ProofResponse_Proof]); try struct_fields.
  - apply proof_response_extensional.
  - intros f. split; [by destruct f|]. destruct f.
    + apply (reads_if _ (λ bs, serialize (base64_encode bs))). eauto with serde.
  - destruct self. unfold proof_response_finish. simpl. by rewrite ?default_nonempty.
  - unfold serialize at 1, proof_response_serialize. struct_written.
    cbn [proof_response_written]. struct_lengths.
Qed.

#[export] Instance proof_response_round_trips : RoundTrips _ proof_response_valid.
Proof. intros x Hx. by apply well_written_round_trips, proof_response_well_written. Qed.

Lemma proof_response_round_trip (self : GenerateProofResponse) :
  round_trips serialize deserialize self.
Proof. by apply round_trip. Qed.
#[local] Hint Resolve proof_response_round_trip : serde.

(** *** What is accepted *)

Lemma error_kind_visit_str_ok value k :
  error_kind_visit_str value = Ok k ↔ value = as_str_name k.
Proof.
  split; [|intros ->; by destruct k].
  unfold error_kind_visit_str. repeat case_decide; by intros [= <-].
Qed.

Lemma error_kind_visit_integer_ok v k :
  error_kind_visit_integer v = Ok k ↔ v = error_kind_into k.
Proof.
  unfold error_kind_visit_integer. split.
  - case_decide; [|done]. by intros ->%map_err_ok%error_kind_try_from_ok.
  - intros ->. rewrite error_kind_try_from_into. by destruct k.
Qed.

Lemma error_kind_accepts k c :
  deserialize c = Ok k ↔
  c = CStr (as_str_name k) ∨ c = CU64 (error_kind_into k) ∨ c = CI64 (error_kind_into k).
Proof.
  unfold deserialize, error_kind_deserialize. split.
  - destruct c; try done; intros Hc.
    + apply error_kind_visit_integer_ok in Hc as ->. by right; left.
    + apply error_kind_visit_integer_ok in Hc as ->. by right; right.
    + apply error_kind_visit_str_ok in Hc as ->. by left.
  - intros [->|[->| ->]]; by first [apply error_kind_visit_str_ok
      | apply error_kind_visit_integer_ok].
Qed.

Lemma proof_error_serializable self c :
  serialize self = Ok c → proof_error_valid self.
Proof.
  unfold serialize, proof_error_serialize, proof_error_valid, field_if. intros Hs.
  destruct (nonzero (ge_error_type self)) eqn:Hz.
  - apply outcome_bind_ok in Hs as (s0 & _ & (s1 & _ & (s2 & Hs & _)%outcome_bind_ok)%outcome_bind_ok).
    unfold serialize_field, error_type_serialize in Hs.
    apply outcome_bind_ok in Hs as (x & (k & Hk%map_err_ok%error_kind_try_from_ok & _)%outcome_bind_ok & _).
    rewrite Hk. by destruct k.
  - apply bool_decide_eq_false, dec_stable in Hz. lia.
Qed.

(** ** Properties *)

(** The error kinds have one number and one name each.  A kind is written as its name
    and read from its name or its number, and from nothing else; a message of the agglayer
    prover is written in order and read back.  An error message whose number is not that of
    a kind cannot be written as JSON at all. *)
Theorem agglayer_messages_well_written :
  (∀ k, from_str_name (as_str_name k) = Some k ∧ serialize k = Ok (CStr (as_str_name k)) ∧
     ∀ c, deserialize c = Ok k ↔
       c = CStr (as_str_name k) ∨ c = CU64 (error_kind_into k) ∨ c = CI64 (error_kind_into k)) ∧
  (∀ m : GenerateProofRequest, well_written serialize deserialize m) ∧
  (∀ m : GenerateProofResponse, well_written serialize deserialize m) ∧
  (∀ m : GenerateProofError,
     well_written serialize deserialize m ↔ 0 <= ge_error_type m <= 4).
Proof.
  split_and!.
  - intros k. split_and!; [by destruct k..|]. apply error_kind_accepts.
  - intros m. by apply proof_request_well_written.
  - intros m. by apply proof_response_well_written.
  - intros m. split; [|apply proof_error_well_written].
    intros (name & fields & Hs & _). by eapply proof_error_serializable.
Qed.
End round_trips.

Module AgglayerSerdeSample.
Import ToyPbjson.

(** An unknown kind, under a name and as a number. *)
Example unknown_name : error_kind_visit_str "ERROR_KIND_OTHER" =
  Err (UnknownVariant "ERROR_KIND_OTHER" error_kind_FIELDS).
Proof. reflexivity. Qed.

Example unknown_number : deserialize (T:=ErrorKind) (CU64 5) = Err (InvalidValue 5).
Proof. reflexivity. Qed.

(** The message of the agglayer prover's verification failures. *)
Definition failure : GenerateProofError :=
  {| ge_error := [x01]; ge_error_type := error_kind_into KindProofVerificationFailed |}.

Lemma agglayer_messages_well_written_witness :
  well_written serialize deserialize failure ∧
  from_str_name (as_str_name KindProverFailed) = Some KindProverFailed.
Proof.
  destruct agglayer_messages_well_written as (Hk & _ & _ & He). split; [|apply Hk].
  apply (He failure). simpl. split; discriminate.
Defined.
End AgglayerSerdeSample.
