(* ===== verification/DescriptorSets.v ===== *)
(** The encoded file descriptor sets of the two message crates, which the reflection services
    hand out: [FILE_DESCRIPTOR_SET] of
    [crates/aggkit-prover-types/src/generated/aggkit.prover.v1.rs] and of
    [crates/agglayer-prover-types/src/generated/agglayer.prover.v1.rs], and the file
    [generated/agglayer.prover.bin] that [crates/agglayer-prover-types/src/lib.rs] includes. *)

From S2P Require Import Prelude Bytes.

(** [aggkit_prover_types::v1::FILE_DESCRIPTOR_SET]. *)
Definition aggkit_v1_FILE_DESCRIPTOR_SET : bytes := [
   x0a; xda; x2e; x0a; x30; x61; x67; x67; x6b; x69; x74; x2f; x70; x72; x6f; x76;
   x65; x72; x2f; x76; x31; x2f; x61; x67; x67; x63; x68; x61; x69; x6e; x5f; x70;
   x72; x6f; x6f; x66; x5f; x67; x65; x6e; x65; x72; x61; x74; x69; x6f; x6e; x2e;
   x70; x72; x6f; x74; x6f; x12; x10; x61; x67; x67; x6b; x69; x74; x2e; x70; x72;
   x6f; x76; x65; x72; x2e; x76; x31; x1a; x28; x61; x67; x67; x6c; x61; x79; x65;
   x72; x2f; x69; x6e; x74; x65; x72; x6f; x70; x2f; x74; x79; x70; x65; x73; x2f;
   x76; x31; x2f; x61; x67; x67; x63; x68; x61; x69; x6e; x2e; x70; x72; x6f; x74;
   x6f; x1a; x25; x61; x67; x67; x6c; x61; x79; x65; x72; x2f; x69; x6e; x74; x65;
   x72; x6f; x70; x2f; x74; x79; x70; x65; x73; x2f; x76; x31; x2f; x62; x79; x74;
   x65; x73; x2e; x70; x72; x6f; x74; x6f; x1a; x25; x61; x67; x67; x6c; x61; x79;
   x65; x72; x2f; x69; x6e; x74; x65; x72; x6f; x70; x2f; x74; x79; x70; x65; x73;
   x2f; x76; x31; x2f; x63; x6c; x61; x69; x6d; x2e; x70; x72; x6f; x74; x6f; x1a;
   x2c; x61; x67; x67; x6c; x61; x79; x65; x72; x2f; x69; x6e; x74; x65; x72; x6f;
   x70; x2f; x74; x79; x70; x65; x73; x2f; x76; x31; x2f; x6d; x65; x72; x6b; x6c;
   x65; x5f; x70; x72; x6f; x6f; x66; x2e; x70; x72; x6f; x74; x6f; x22; xd3; x05;
   x0a; x1c; x47; x65; x6e; x65; x72; x61; x74; x65; x41; x67; x67; x63; x68; x61;
   x69; x6e; x50; x72; x6f; x6f; x66; x52; x65; x71; x75; x65; x73; x74; x12; x2a;
   x0a; x11; x6c; x61; x73; x74; x5f; x70; x72; x6f; x76; x65; x6e; x5f; x62; x6c;
   x6f; x63; x6b; x18; x01; x20; x01; x28; x04; x52; x0f; x6c; x61; x73; x74; x50;
   x72; x6f; x76; x65; x6e; x42; x6c; x6f; x63; x6b; x12; x2e; x0a; x13; x72; x65;
   x71; x75; x65; x73; x74; x65; x64; x5f; x65; x6e; x64; x5f; x62; x6c; x6f; x63;
   x6b; x18; x02; x20; x01; x28; x04; x52; x11; x72; x65; x71; x75; x65; x73; x74;
   x65; x64; x45; x6e; x64; x42; x6c; x6f; x63; x6b; x12; x5b; x0a; x16; x6c; x31;
   x5f; x69; x6e; x66; x6f; x5f; x74; x72; x65; x65; x5f; x72; x6f; x6f; x74; x5f;
   x68; x61; x73; x68; x18; x03; x20; x01; x28; x0b; x32; x27; x2e; x61; x67; x67;
   x6c; x61; x79; x65; x72; x2e; x69; x6e; x74; x65; x72; x6f; x70; x2e; x74; x79;
   x70; x65; x73; x2e; x76; x31; x2e; x46; x69; x78; x65; x64; x42; x79; x74; x65;
   x73; x33; x32; x52; x12; x6c; x31; x49; x6e; x66; x6f; x54; x72; x65; x65; x52;
   x6f; x6f; x74; x48; x61; x73; x68; x12; x5f; x0a; x11; x6c; x31; x5f; x69; x6e;
   x66; x6f; x5f; x74; x72; x65; x65; x5f; x6c; x65; x61; x66; x18; x04; x20; x01;
   x28; x0b; x32; x34; x2e; x61; x67; x67; x6c; x61; x79; x65; x72; x2e; x69; x6e;
   x74; x65; x72; x6f; x70; x2e; x74; x79; x70; x65; x73; x2e; x76; x31; x2e; x4c;
   x31; x49; x6e; x66; x6f; x54; x72; x65; x65; x4c; x65; x61; x66; x57; x69; x74;
   x68; x43; x6f; x6e; x74; x65; x78; x74; x52; x0e; x6c; x31; x49; x6e; x66; x6f;
   x54; x72; x65; x65; x4c; x65; x61; x66; x12; x60; x0a; x19; x6c; x31; x5f; x69;
   x6e; x66; x6f; x5f; x74; x72; x65; x65; x5f; x6d; x65; x72; x6b; x6c; x65; x5f;
   x70; x72; x6f; x6f; x66; x18; x05; x20; x01; x28; x0b; x32; x26; x2e; x61; x67;
   x67; x6c; x61; x79; x65; x72; x2e; x69; x6e; x74; x65; x72; x6f; x70; x2e; x74;
   x79; x70; x65; x73; x2e; x76; x31; x2e; x4d; x65; x72; x6b; x6c; x65; x50; x72;
   x6f; x6f; x66; x52; x15; x6c; x31; x49; x6e; x66; x6f; x54; x72; x65; x65; x4d;
   x65; x72; x6b; x6c; x65; x50; x72; x6f; x6f; x66; x12; x5c; x0a; x0a; x67; x65;
   x72; x5f; x6c; x65; x61; x76; x65; x73; x18; x06; x20; x03; x28; x0b; x32; x3d;
   x2e; x61; x67; x67; x6b; x69; x74; x2e; x70; x72; x6f; x76; x65; x72; x2e; x76;
   x31; x2e; x47; x65; x6e; x65; x72; x61; x74; x65; x41; x67; x67; x63; x68; x61;
   x69; x6e; x50; x72; x6f; x6f; x66; x52; x65; x71; x75; x65; x73; x74; x2e; x47;
   x65; x72; x4c; x65; x61; x76; x65; x73; x45; x6e; x74; x72; x79; x52; x09; x67;
   x65; x72; x4c; x65; x61; x76; x65; x73; x12; x67; x0a; x15; x69; x6d; x70; x6f;
   x72; x74; x65; x64; x5f; x62; x72; x69; x64; x67; x65; x5f; x65; x78; x69; x74;
   x73; x18; x07; x20; x03; x28; x0b; x32; x33; x2e; x61; x67; x67; x6b; x69; x74;
   x2e; x70; x72; x6f; x76; x65; x72; x2e; x76; x31; x2e; x49; x6d; x70; x6f; x72;
   x74; x65; x64; x42; x72; x69; x64; x67; x65; x45; x78; x69; x74; x57; x69; x74;
   x68; x42; x6c; x6f; x63; x6b; x4e; x75; x6d; x62; x65; x72; x52; x13; x69; x6d;
   x70; x6f; x72; x74; x65; x64; x42; x72; x69; x64; x67; x65; x45; x78; x69; x74;
   x73; x1a; x70; x0a; x0e; x47; x65; x72; x4c; x65; x61; x76; x65; x73; x45; x6e;
   x74; x72; x79; x12; x10; x0a; x03; x6b; x65; x79; x18; x01; x20; x01; x28; x09;
   x52; x03; x6b; x65; x79; x12; x48; x0a; x05; x76; x61; x6c; x75; x65; x18; x02;
   x20; x01; x28; x0b; x32; x32; x2e; x61; x67; x67; x6b; x69; x74; x2e; x70; x72;
   x6f; x76; x65; x72; x2e; x76; x31; x2e; x50; x72; x6f; x76; x65; x6e; x49; x6e;
   x73; x65; x72; x74; x65; x64; x47; x45; x52; x57; x69; x74; x68; x42; x6c; x6f;
   x63; x6b; x4e; x75; x6d; x62; x65; x72; x52; x05; x76; x61; x6c; x75; x65; x3a;
   x02; x38; x01; x22; xf3; x01; x0a; x26; x47; x65; x6e; x65; x72; x61; x74; x65;
   x4f; x70; x74; x69; x6d; x69; x73; x74; x69; x63; x41; x67; x67; x63; x68; x61;
   x69; x6e; x50; x72; x6f; x6f; x66; x52; x65; x71; x75; x65; x73; x74; x12; x64;
   x0a; x16; x61; x67; x67; x63; x68; x61; x69; x6e; x5f; x70; x72; x6f; x6f; x66;
   x5f; x72; x65; x71; x75; x65; x73; x74; x18; x01; x20; x01; x28; x0b; x32; x2e;
   x2e; x61; x67; x67; x6b; x69; x74; x2e; x70; x72; x6f; x76; x65; x72; x2e; x76;
   x31; x2e; x47; x65; x6e; x65; x72; x61; x74; x65; x41; x67; x67; x63; x68; x61;
   x69; x6e; x50; x72; x6f; x6f; x66; x52; x65; x71; x75; x65; x73; x74; x52; x14;
   x61; x67; x67; x63; x68; x61; x69; x6e; x50; x72; x6f; x6f; x66; x52; x65; x71;
   x75; x65; x73; x74; x12; x63; x0a; x19; x6f; x70; x74; x69; x6d; x69; x73; x74;
   x69; x63; x5f; x6d; x6f; x64; x65; x5f; x73; x69; x67; x6e; x61; x74; x75; x72;
   x65; x18; x02; x20; x01; x28; x0b; x32; x27; x2e; x61; x67; x67; x6c; x61; x79;
   x65; x72; x2e; x69; x6e; x74; x65; x72; x6f; x70; x2e; x74; x79; x70; x65; x73;
   x2e; x76; x31; x2e; x46; x69; x78; x65; x64; x42; x79; x74; x65; x73; x36; x35;
   x52; x17; x6f; x70; x74; x69; x6d; x69; x73; x74; x69; x63; x4d; x6f; x64; x65;
   x53; x69; x67; x6e; x61; x74; x75; x72; x65; x22; xbf; x02; x0a; x1d; x47; x65;
   x6e; x65; x72; x61; x74; x65; x41; x67; x67; x63; x68; x61; x69; x6e; x50; x72;
   x6f; x6f; x66; x52; x65; x73; x70; x6f; x6e; x73; x65; x12; x4f; x0a; x0e; x61;
   x67; x67; x63; x68; x61; x69; x6e; x5f; x70; x72; x6f; x6f; x66; x18; x01; x20;
   x01; x28; x0b; x32; x28; x2e; x61; x67; x67; x6c; x61; x79; x65; x72; x2e; x69;
   x6e; x74; x65; x72; x6f; x70; x2e; x74; x79; x70; x65; x73; x2e; x76; x31; x2e;
   x41; x67; x67; x63; x68; x61; x69; x6e; x50; x72; x6f; x6f; x66; x52; x0d; x61;
   x67; x67; x63; x68; x61; x69; x6e; x50; x72; x6f; x6f; x66; x12; x2a; x0a; x11;
   x6c; x61; x73; x74; x5f; x70; x72; x6f; x76; x65; x6e; x5f; x62; x6c; x6f; x63;
   x6b; x18; x02; x20; x01; x28; x04; x52; x0f; x6c; x61; x73; x74; x50; x72; x6f;
   x76; x65; x6e; x42; x6c; x6f; x63; x6b; x12; x1b; x0a; x09; x65; x6e; x64; x5f;
   x62; x6c; x6f; x63; x6b; x18; x03; x20; x01; x28; x04; x52; x08; x65; x6e; x64;
   x42; x6c; x6f; x63; x6b; x12; x58; x0a; x14; x6c; x6f; x63; x61; x6c; x5f; x65;
   x78; x69; x74; x5f; x72; x6f; x6f; x74; x5f; x68; x61; x73; x68; x18; x04; x20;
   x01; x28; x0b; x32; x27; x2e; x61; x67; x67; x6c; x61; x79; x65; x72; x2e; x69;
   x6e; x74; x65; x72; x6f; x70; x2e; x74; x79; x70; x65; x73; x2e; x76; x31; x2e;
   x46; x69; x78; x65; x64; x42; x79; x74; x65; x73; x33; x32; x52; x11; x6c; x6f;
   x63; x61; x6c; x45; x78; x69; x74; x52; x6f; x6f; x74; x48; x61; x73; x68; x12;
   x2a; x0a; x11; x63; x75; x73; x74; x6f; x6d; x5f; x63; x68; x61; x69; x6e; x5f;
   x64; x61; x74; x61; x18; x05; x20; x01; x28; x0c; x52; x0f; x63; x75; x73; x74;
   x6f; x6d; x43; x68; x61; x69; x6e; x44; x61; x74; x61; x22; x80; x02; x0a; x27;
   x47; x65; x6e; x65; x72; x61; x74; x65; x4f; x70; x74; x69; x6d; x69; x73; x74;
   x69; x63; x41; x67; x67; x63; x68; x61; x69; x6e; x50; x72; x6f; x6f; x66; x52;
   x65; x73; x70; x6f; x6e; x73; x65; x12; x4f; x0a; x0e; x61; x67; x67; x63; x68;
   x61; x69; x6e; x5f; x70; x72; x6f; x6f; x66; x18; x01; x20; x01; x28; x0b; x32;
   x28; x2e; x61; x67; x67; x6c; x61; x79; x65; x72; x2e; x69; x6e; x74; x65; x72;
   x6f; x70; x2e; x74; x79; x70; x65; x73; x2e; x76; x31; x2e; x41; x67; x67; x63;
   x68; x61; x69; x6e; x50; x72; x6f; x6f; x66; x52; x0d; x61; x67; x67; x63; x68;
   x61; x69; x6e; x50; x72; x6f; x6f; x66; x12; x58; x0a; x14; x6c; x6f; x63; x61;
   x6c; x5f; x65; x78; x69; x74; x5f; x72; x6f; x6f; x74; x5f; x68; x61; x73; x68;
   x18; x02; x20; x01; x28; x0b; x32; x27; x2e; x61; x67; x67; x6c; x61; x79; x65;
   x72; x2e; x69; x6e; x74; x65; x72; x6f; x70; x2e; x74; x79; x70; x65; x73; x2e;
   x76; x31; x2e; x46; x69; x78; x65; x64; x42; x79; x74; x65; x73; x33; x32; x52;
   x11; x6c; x6f; x63; x61; x6c; x45; x78; x69; x74; x52; x6f; x6f; x74; x48; x61;
   x73; x68; x12; x2a; x0a; x11; x63; x75; x73; x74; x6f; x6d; x5f; x63; x68; x61;
   x69; x6e; x5f; x64; x61; x74; x61; x18; x03; x20; x01; x28; x0c; x52; x0f; x63;
   x75; x73; x74; x6f; x6d; x43; x68; x61; x69; x6e; x44; x61; x74; x61; x22; xe5;
   x01; x0a; x21; x49; x6d; x70; x6f; x72; x74; x65; x64; x42; x72; x69; x64; x67;
   x65; x45; x78; x69; x74; x57; x69; x74; x68; x42; x6c; x6f; x63; x6b; x4e; x75;
   x6d; x62; x65; x72; x12; x21; x0a; x0c; x62; x6c; x6f; x63; x6b; x5f; x6e; x75;
   x6d; x62; x65; x72; x18; x01; x20; x01; x28; x04; x52; x0b; x62; x6c; x6f; x63;
   x6b; x4e; x75; x6d; x62; x65; x72; x12; x4a; x0a; x0c; x67; x6c; x6f; x62; x61;
   x6c; x5f; x69; x6e; x64; x65; x78; x18; x02; x20; x01; x28; x0b; x32; x27; x2e;
   x61; x67; x67; x6c; x61; x79; x65; x72; x2e; x69; x6e; x74; x65; x72; x6f; x70;
   x2e; x74; x79; x70; x65; x73; x2e; x76; x31; x2e; x46; x69; x78; x65; x64; x42;
   x79; x74; x65; x73; x33; x32; x52; x0b; x67; x6c; x6f; x62; x61; x6c; x49; x6e;
   x64; x65; x78; x12; x51; x0a; x10; x62; x72; x69; x64; x67; x65; x5f; x65; x78;
   x69; x74; x5f; x68; x61; x73; x68; x18; x03; x20; x01; x28; x0b; x32; x27; x2e;
   x61; x67; x67; x6c; x61; x79; x65; x72; x2e; x69; x6e; x74; x65; x72; x6f; x70;
   x2e; x74; x79; x70; x65; x73; x2e; x76; x31; x2e; x46; x69; x78; x65; x64; x42;
   x79; x74; x65; x73; x33; x32; x52; x0e; x62; x72; x69; x64; x67; x65; x45; x78;
   x69; x74; x48; x61; x73; x68; x22; xbb; x01; x0a; x20; x50; x72; x6f; x76; x65;
   x6e; x49; x6e; x73; x65; x72; x74; x65; x64; x47; x45; x52; x57; x69; x74; x68;
   x42; x6c; x6f; x63; x6b; x4e; x75; x6d; x62; x65; x72; x12; x21; x0a; x0c; x62;
   x6c; x6f; x63; x6b; x5f; x6e; x75; x6d; x62; x65; x72; x18; x01; x20; x01; x28;
   x04; x52; x0b; x62; x6c; x6f; x63; x6b; x4e; x75; x6d; x62; x65; x72; x12; x53;
   x0a; x13; x70; x72; x6f; x76; x65; x6e; x5f; x69; x6e; x73; x65; x72; x74; x65;
   x64; x5f; x67; x65; x72; x18; x02; x20; x01; x28; x0b; x32; x23; x2e; x61; x67;
   x67; x6b; x69; x74; x2e; x70; x72; x6f; x76; x65; x72; x2e; x76; x31; x2e; x50;
   x72; x6f; x76; x65; x6e; x49; x6e; x73; x65; x72; x74; x65; x64; x47; x45; x52;
   x52; x11; x70; x72; x6f; x76; x65; x6e; x49; x6e; x73; x65; x72; x74; x65; x64;
   x47; x65; x72; x12; x1f; x0a; x0b; x62; x6c; x6f; x63; x6b; x5f; x69; x6e; x64;
   x65; x78; x18; x03; x20; x01; x28; x04; x52; x0a; x62; x6c; x6f; x63; x6b; x49;
   x6e; x64; x65; x78; x22; xb4; x01; x0a; x11; x50; x72; x6f; x76; x65; x6e; x49;
   x6e; x73; x65; x72; x74; x65; x64; x47; x45; x52; x12; x50; x0a; x10; x70; x72;
   x6f; x6f; x66; x5f; x67; x65; x72; x5f; x6c; x31; x72; x6f; x6f; x74; x18; x01;
   x20; x01; x28; x0b; x32; x26; x2e; x61; x67; x67; x6c; x61; x79; x65; x72; x2e;
   x69; x6e; x74; x65; x72; x6f; x70; x2e; x74; x79; x70; x65; x73; x2e; x76; x31;
   x2e; x4d; x65; x72; x6b; x6c; x65; x50; x72; x6f; x6f; x66; x52; x0e; x70; x72;
   x6f; x6f; x66; x47; x65; x72; x4c; x31; x72; x6f; x6f; x74; x12; x4d; x0a; x07;
   x6c; x31; x5f; x6c; x65; x61; x66; x18; x02; x20; x01; x28; x0b; x32; x34; x2e;
   x61; x67; x67; x6c; x61; x79; x65; x72; x2e; x69; x6e; x74; x65; x72; x6f; x70;
   x2e; x74; x79; x70; x65; x73; x2e; x76; x31; x2e; x4c; x31; x49; x6e; x66; x6f;
   x54; x72; x65; x65; x4c; x65; x61; x66; x57; x69; x74; x68; x43; x6f; x6e; x74;
   x65; x78; x74; x52; x06; x6c; x31; x4c; x65; x61; x66; x32; xa9; x02; x0a; x14;
   x41; x67; x67; x63; x68; x61; x69; x6e; x50; x72; x6f; x6f; x66; x53; x65; x72;
   x76; x69; x63; x65; x12; x78; x0a; x15; x47; x65; x6e; x65; x72; x61; x74; x65;
   x41; x67; x67; x63; x68; x61; x69; x6e; x50; x72; x6f; x6f; x66; x12; x2e; x2e;
   x61; x67; x67; x6b; x69; x74; x2e; x70; x72; x6f; x76; x65; x72; x2e; x76; x31;
   x2e; x47; x65; x6e; x65; x72; x61; x74; x65; x41; x67; x67; x63; x68; x61; x69;
   x6e; x50; x72; x6f; x6f; x66; x52; x65; x71; x75; x65; x73; x74; x1a; x2f; x2e;
   x61; x67; x67; x6b; x69; x74; x2e; x70; x72; x6f; x76; x65; x72; x2e; x76; x31;
   x2e; x47; x65; x6e; x65; x72; x61; x74; x65; x41; x67; x67; x63; x68; x61; x69;
   x6e; x50; x72; x6f; x6f; x66; x52; x65; x73; x70; x6f; x6e; x73; x65; x12; x96;
   x01; x0a; x1f; x47; x65; x6e; x65; x72; x61; x74; x65; x4f; x70; x74; x69; x6d;
   x69; x73; x74; x69; x63; x41; x67; x67; x63; x68; x61; x69; x6e; x50; x72; x6f;
   x6f; x66; x12; x38; x2e; x61; x67; x67; x6b; x69; x74; x2e; x70; x72; x6f; x76;
   x65; x72; x2e; x76; x31; x2e; x47; x65; x6e; x65; x72; x61; x74; x65; x4f; x70;
   x74; x69; x6d; x69; x73; x74; x69; x63; x41; x67; x67; x63; x68; x61; x69; x6e;
   x50; x72; x6f; x6f; x66; x52; x65; x71; x75; x65; x73; x74; x1a; x39; x2e; x61;
   x67; x67; x6b; x69; x74; x2e; x70; x72; x6f; x76; x65; x72; x2e; x76; x31; x2e;
   x47; x65; x6e; x65; x72; x61; x74; x65; x4f; x70; x74; x69; x6d; x69; x73; x74;
   x69; x63; x41; x67; x67; x63; x68; x61; x69; x6e; x50; x72; x6f; x6f; x66; x52;
   x65; x73; x70; x6f; x6e; x73; x65; x42; x96; x01; x0a; x14; x63; x6f; x6d; x2e;
   x61; x67; x67; x6b; x69; x74; x2e; x70; x72; x6f; x76; x65; x72; x2e; x76; x31;
   x42; x1c; x41; x67; x67; x63; x68; x61; x69; x6e; x50; x72; x6f; x6f; x66; x47;
   x65; x6e; x65; x72; x61; x74; x69; x6f; x6e; x50; x72; x6f; x74; x6f; x50; x01;
   xa2; x02; x03; x41; x50; x58; xaa; x02; x10; x41; x67; x67; x6b; x69; x74; x2e;
   x50; x72; x6f; x76; x65; x72; x2e; x56; x31; xca; x02; x10; x41; x67; x67; x6b;
   x69; x74; x5c; x50; x72; x6f; x76; x65; x72; x5c; x56; x31; xe2; x02; x1c; x41;
   x67; x67; x6b; x69; x74; x5c; x50; x72; x6f; x76; x65; x72; x5c; x56; x31; x5c;
   x47; x50; x42; x4d; x65; x74; x61; x64; x61; x74; x61; xea; x02; x12; x41; x67;
   x67; x6b; x69; x74; x3a; x3a; x50; x72; x6f; x76; x65; x72; x3a; x3a; x56; x31;
   x4a; xb2; x18; x0a; x06; x12; x04; x00; x00; x6e; x01; x0a; x08; x0a; x01; x0c;
   x12; x03; x00; x00; x12; x0a; x08; x0a; x01; x02; x12; x03; x02; x00; x19; x0a;
   x09; x0a; x02; x03; x00; x12; x03; x04; x00; x32; x0a; x09; x0a; x02; x03; x01;
   x12; x03; x05; x00; x2f; x0a; x09; x0a; x02; x03; x02; x12; x03; x06; x00; x2f;
   x0a; x09; x0a; x02; x03; x03; x12; x03; x07; x00; x36; x0a; x34; x0a; x02; x06;
   x00; x12; x04; x0a; x00; x10; x01; x1a; x28; x20; x53; x65; x72; x76; x69; x63;
   x65; x20; x66; x6f; x72; x20; x67; x65; x6e; x65; x72; x61; x74; x69; x6e; x67;
   x20; x61; x67; x67; x63; x68; x61; x69; x6e; x20; x70; x72; x6f; x6f; x66; x2e;
   x0a; x0a; x0a; x0a; x03; x06; x00; x01; x12; x03; x0a; x08; x1c; x0a; x48; x0a;
   x04; x06; x00; x02; x00; x12; x03; x0c; x02; x62; x1a; x3b; x20; x47; x65; x6e;
   x65; x72; x61; x74; x65; x73; x20; x61; x20; x61; x67; x67; x63; x68; x61; x69;
   x6e; x20; x70; x72; x6f; x6f; x66; x20; x66; x6f; x72; x20; x61; x20; x67; x69;
   x76; x65; x6e; x20; x6c; x61; x73; x74; x5f; x70; x72; x6f; x76; x65; x6e; x5f;
   x62; x6c; x6f; x63; x6b; x2e; x0a; x0a; x0c; x0a; x05; x06; x00; x02; x00; x01;
   x12; x03; x0c; x06; x1b; x0a; x0c; x0a; x05; x06; x00; x02; x00; x02; x12; x03;
   x0c; x1c; x38; x0a; x0c; x0a; x05; x06; x00; x02; x00; x03; x12; x03; x0c; x43;
   x60; x0a; x55; x0a; x04; x06; x00; x02; x01; x12; x04; x0f; x02; x80; x01; x1a;
   x47; x20; x47; x65; x6e; x65; x72; x61; x74; x65; x73; x20; x61; x6e; x20; x6f;
   x70; x74; x69; x6d; x69; x73; x74; x69; x63; x20; x61; x67; x67; x63; x68; x61;
   x69; x6e; x20; x70; x72; x6f; x6f; x66; x20; x66; x6f; x72; x20; x61; x20; x67;
   x69; x76; x65; x6e; x20; x6c; x61; x73; x74; x5f; x70; x72; x6f; x76; x65; x6e;
   x5f; x62; x6c; x6f; x63; x6b; x2e; x0a; x0a; x0c; x0a; x05; x06; x00; x02; x01;
   x01; x12; x03; x0f; x06; x25; x0a; x0c; x0a; x05; x06; x00; x02; x01; x02; x12;
   x03; x0f; x26; x4c; x0a; x0c; x0a; x05; x06; x00; x02; x01; x03; x12; x03; x0f;
   x57; x7e; x0a; x40; x0a; x02; x04; x00; x12; x04; x13; x00; x28; x01; x1a; x34;
   x20; x54; x68; x65; x20; x72; x65; x71; x75; x65; x73; x74; x20; x6d; x65; x73;
   x73; x61; x67; x65; x20; x66; x6f; x72; x20; x67; x65; x6e; x65; x72; x61; x74;
   x69; x6e; x67; x20; x61; x67; x67; x63; x68; x61; x69; x6e; x20; x70; x72; x6f;
   x6f; x66; x2e; x0a; x0a; x0a; x0a; x03; x04; x00; x01; x12; x03; x13; x08; x24;
   x0a; x48; x0a; x04; x04; x00; x02; x00; x12; x03; x15; x02; x1f; x1a; x3b; x20;
   x54; x68; x65; x20; x6c; x61; x73; x74; x20; x70; x72; x6f; x76; x65; x6e; x20;
   x62; x6c; x6f; x63; x6b; x20; x62; x65; x66; x6f; x72; x65; x20; x74; x68; x65;
   x20; x72; x65; x71; x75; x65; x73; x74; x65; x64; x20; x61; x67; x67; x63; x68;
   x61; x69; x6e; x20; x70; x72; x6f; x66; x2e; x0a; x0a; x0c; x0a; x05; x04; x00;
   x02; x00; x05; x12; x03; x15; x02; x08; x0a; x0c; x0a; x05; x04; x00; x02; x00;
   x01; x12; x03; x15; x09; x1a; x0a; x0c; x0a; x05; x04; x00; x02; x00; x03; x12;
   x03; x15; x1d; x1e; x0a; x4b; x0a; x04; x04; x00; x02; x01; x12; x03; x18; x02;
   x21; x1a; x3e; x20; x54; x68; x65; x20; x6d; x61; x78; x20; x65; x6e; x64; x20;
   x62; x6c; x6f; x63; x6b; x20; x66; x6f; x72; x20; x77; x68; x69; x63; x68; x20;
   x74; x68; x65; x20; x61; x67; x67; x63; x68; x61; x69; x6e; x20; x70; x72; x6f;
   x6f; x66; x20; x69; x73; x20; x72; x65; x71; x75; x65; x73; x74; x65; x64; x2e;
   x0a; x0a; x0c; x0a; x05; x04; x00; x02; x01; x05; x12; x03; x18; x02; x08; x0a;
   x0c; x0a; x05; x04; x00; x02; x01; x01; x12; x03; x18; x09; x1c; x0a; x0c; x0a;
   x05; x04; x00; x02; x01; x03; x12; x03; x18; x1f; x20; x0a; x28; x0a; x04; x04;
   x00; x02; x02; x12; x03; x1b; x02; x44; x1a; x1b; x20; x4c; x31; x20; x49; x6e;
   x66; x6f; x20; x74; x72; x65; x65; x20; x72; x6f; x6f; x74; x2e; x20; x28; x68;
   x61; x73; x68; x29; x0a; x0a; x0c; x0a; x05; x04; x00; x02; x02; x06; x12; x03;
   x1b; x02; x28; x0a; x0c; x0a; x05; x04; x00; x02; x02; x01; x12; x03; x1b; x29;
   x3f; x0a; x0c; x0a; x05; x04; x00; x02; x02; x03; x12; x03; x1b; x42; x43; x0a;
   x20; x0a; x04; x04; x00; x02; x03; x12; x03; x1e; x02; x4c; x1a; x13; x20; x4c;
   x31; x20; x49; x6e; x66; x6f; x20; x74; x72; x65; x65; x20; x6c; x65; x61; x66;
   x0a; x0a; x0c; x0a; x05; x04; x00; x02; x03; x06; x12; x03; x1e; x02; x35; x0a;
   x0c; x0a; x05; x04; x00; x02; x03; x01; x12; x03; x1e; x36; x47; x0a; x0c; x0a;
   x05; x04; x00; x02; x03; x03; x12; x03; x1e; x4a; x4b; x0a; x2d; x0a; x04; x04;
   x00; x02; x04; x12; x03; x21; x02; x46; x1a; x20; x20; x4c; x31; x20; x49; x6e;
   x66; x6f; x20; x74; x72; x65; x65; x20; x70; x72; x6f; x6f; x66; x2e; x20; x28;
   x5b; x33; x32; x5d; x68; x61; x73; x68; x29; x0a; x0a; x0c; x0a; x05; x04; x00;
   x02; x04; x06; x12; x03; x21; x02; x27; x0a; x0c; x0a; x05; x04; x00; x02; x04;
   x01; x12; x03; x21; x28; x41; x0a; x0c; x0a; x05; x04; x00; x02; x04; x03; x12;
   x03; x21; x44; x45; x0a; x77; x0a; x04; x04; x00; x02; x05; x12; x03; x24; x02;
   x3f; x1a; x6a; x20; x4d; x61; x70; x20; x6f; x66; x20; x74; x68; x65; x20; x47;
   x45; x52; x20; x77; x69; x74; x68; x20; x74; x68; x65; x69; x72; x20; x67; x65;
   x72; x20; x6c; x65; x61; x66; x2e; x20; x4e; x6f; x74; x65; x3a; x20; x74; x68;
   x65; x20; x47; x45; x52; x20; x28; x73; x74; x72; x69; x6e; x67; x29; x20; x69;
   x73; x20; x61; x20; x62; x61; x73; x65; x36; x34; x20; x65; x6e; x63; x6f; x64;
   x65; x64; x20; x73; x74; x72; x69; x6e; x67; x20; x6f; x66; x20; x74; x68; x65;
   x20; x47; x45; x52; x20; x64; x69; x67; x65; x73; x74; x2e; x0a; x0a; x0c; x0a;
   x05; x04; x00; x02; x05; x06; x12; x03; x24; x02; x2f; x0a; x0c; x0a; x05; x04;
   x00; x02; x05; x01; x12; x03; x24; x30; x3a; x0a; x0c; x0a; x05; x04; x00; x02;
   x05; x03; x12; x03; x24; x3d; x3e; x0a; x1b; x0a; x04; x04; x00; x02; x06; x12;
   x03; x27; x02; x47; x1a; x0e; x20; x62; x72; x69; x64; x67; x65; x20; x65; x78;
   x69; x74; x73; x0a; x0a; x0c; x0a; x05; x04; x00; x02; x06; x04; x12; x03; x27;
   x02; x0a; x0a; x0c; x0a; x05; x04; x00; x02; x06; x06; x12; x03; x27; x0b; x2c;
   x0a; x0c; x0a; x05; x04; x00; x02; x06; x01; x12; x03; x27; x2d; x42; x0a; x0c;
   x0a; x05; x04; x00; x02; x06; x03; x12; x03; x27; x45; x46; x0a; x4b; x0a; x02;
   x04; x01; x12; x04; x2b; x00; x2f; x01; x1a; x3f; x20; x54; x68; x65; x20; x72;
   x65; x71; x75; x65; x73; x74; x20; x6d; x65; x73; x73; x61; x67; x65; x20; x66;
   x6f; x72; x20; x67; x65; x6e; x65; x72; x61; x74; x69; x6e; x67; x20; x6f; x70;
   x74; x69; x6d; x69; x73; x74; x69; x63; x20; x61; x67; x67; x63; x68; x61; x69;
   x6e; x20; x70; x72; x6f; x6f; x66; x2e; x0a; x0a; x0a; x0a; x03; x04; x01; x01;
   x12; x03; x2b; x08; x2e; x0a; x0b; x0a; x04; x04; x01; x02; x00; x12; x03; x2c;
   x02; x3a; x0a; x0c; x0a; x05; x04; x01; x02; x00; x06; x12; x03; x2c; x02; x1e;
   x0a; x0c; x0a; x05; x04; x01; x02; x00; x01; x12; x03; x2c; x1f; x35; x0a; x0c;
   x0a; x05; x04; x01; x02; x00; x03; x12; x03; x2c; x38; x39; x0a; x36; x0a; x04;
   x04; x01; x02; x01; x12; x03; x2e; x02; x47; x1a; x29; x20; x53; x69; x67; x6e;
   x61; x74; x75; x72; x65; x20; x69; x6e; x20; x74; x68; x65; x20; x22; x4f; x70;
   x74; x69; x6d; x69; x73; x74; x69; x63; x4d; x6f; x64; x65; x22; x20; x63; x61;
   x73; x65; x2e; x0a; x0a; x0c; x0a; x05; x04; x01; x02; x01; x06; x12; x03; x2e;
   x02; x28; x0a; x0c; x0a; x05; x04; x01; x02; x01; x01; x12; x03; x2e; x29; x42;
   x0a; x0c; x0a; x05; x04; x01; x02; x01; x03; x12; x03; x2e; x45; x46; x0a; x32;
   x0a; x02; x04; x02; x12; x04; x32; x00; x41; x01; x1a; x26; x20; x54; x68; x65;
   x20; x61; x67; x67; x63; x68; x61; x69; x6e; x20; x70; x72; x6f; x6f; x66; x20;
   x72; x65; x73; x70; x6f; x6e; x73; x65; x20; x6d; x65; x73; x73; x61; x67; x65;
   x2e; x0a; x0a; x0a; x0a; x03; x04; x02; x01; x12; x03; x32; x08; x25; x0a; x1e;
   x0a; x04; x04; x02; x02; x00; x12; x03; x34; x02; x3d; x1a; x11; x20; x41; x67;
   x67; x63; x68; x61; x69; x6e; x20; x70; x72; x6f; x6f; x66; x2e; x0a; x0a; x0c;
   x0a; x05; x04; x02; x02; x00; x06; x12; x03; x34; x02; x29; x0a; x0c; x0a; x05;
   x04; x02; x02; x00; x01; x12; x03; x34; x2a; x38; x0a; x0c; x0a; x05; x04; x02;
   x02; x00; x03; x12; x03; x34; x3b; x3c; x0a; x48; x0a; x04; x04; x02; x02; x01;
   x12; x03; x37; x02; x1f; x1a; x3b; x20; x54; x68; x65; x20; x6c; x61; x73; x74;
   x20; x70; x72; x6f; x76; x65; x6e; x20; x62; x6c; x6f; x63; x6b; x20; x62; x65;
   x66; x6f; x72; x65; x20; x74; x68; x65; x20; x63; x6f; x6d; x70; x75; x74; x65;
   x64; x20; x61; x67; x67; x63; x68; x61; x69; x6e; x20; x70; x72; x6f; x6f; x66;
   x2e; x0a; x0a; x0c; x0a; x05; x04; x02; x02; x01; x05; x12; x03; x37; x02; x08;
   x0a; x0c; x0a; x05; x04; x02; x02; x01; x01; x12; x03; x37; x09; x1a; x0a; x0c;
   x0a; x05; x04; x02; x02; x01; x03; x12; x03; x37; x1d; x1e; x0a; x33; x0a; x04;
   x04; x02; x02; x02; x12; x03; x3a; x02; x17; x1a; x26; x20; x54; x68; x65; x20;
   x65; x6e; x64; x20; x62; x6c; x6f; x63; x6b; x20; x6f; x66; x20; x74; x68; x65;
   x20; x61; x67; x67; x63; x68; x61; x69; x6e; x20; x70; x72; x6f; x6f; x66; x2e;
   x0a; x0a; x0c; x0a; x05; x04; x02; x02; x02; x05; x12; x03; x3a; x02; x08; x0a;
   x0c; x0a; x05; x04; x02; x02; x02; x01; x12; x03; x3a; x09; x12; x0a; x0c; x0a;
   x05; x04; x02; x02; x02; x03; x12; x03; x3a; x15; x16; x0a; x24; x0a; x04; x04;
   x02; x02; x03; x12; x03; x3d; x02; x42; x1a; x17; x20; x4c; x6f; x63; x61; x6c;
   x20; x65; x78; x69; x74; x20; x72; x6f; x6f; x74; x20; x68; x61; x73; x68; x2e;
   x0a; x0a; x0c; x0a; x05; x04; x02; x02; x03; x06; x12; x03; x3d; x02; x28; x0a;
   x0c; x0a; x05; x04; x02; x02; x03; x01; x12; x03; x3d; x29; x3d; x0a; x0c; x0a;
   x05; x04; x02; x02; x03; x03; x12; x03; x3d; x40; x41; x0a; x21; x0a; x04; x04;
   x02; x02; x04; x12; x03; x40; x02; x1e; x1a; x14; x20; x43; x75; x73; x74; x6f;
   x6d; x20; x63; x68; x61; x69; x6e; x20; x64; x61; x74; x61; x2e; x0a; x0a; x0c;
   x0a; x05; x04; x02; x02; x04; x05; x12; x03; x40; x02; x07; x0a; x0c; x0a; x05;
   x04; x02; x02; x04; x01; x12; x03; x40; x08; x19; x0a; x0c; x0a; x05; x04; x02;
   x02; x04; x03; x12; x03; x40; x1c; x1d; x0a; x3d; x0a; x02; x04; x03; x12; x04;
   x44; x00; x4d; x01; x1a; x31; x20; x54; x68; x65; x20; x6f; x70; x74; x69; x6d;
   x69; x73; x74; x69; x63; x20; x61; x67; x67; x63; x68; x61; x69; x6e; x20; x70;
   x72; x6f; x6f; x66; x20; x72; x65; x73; x70; x6f; x6e; x73; x65; x20; x6d; x65;
   x73; x73; x61; x67; x65; x2e; x0a; x0a; x0a; x0a; x03; x04; x03; x01; x12; x03;
   x44; x08; x2f; x0a; x1e; x0a; x04; x04; x03; x02; x00; x12; x03; x46; x02; x3d;
   x1a; x11; x20; x41; x67; x67; x63; x68; x61; x69; x6e; x20; x70; x72; x6f; x6f;
   x66; x2e; x0a; x0a; x0c; x0a; x05; x04; x03; x02; x00; x06; x12; x03; x46; x02;
   x29; x0a; x0c; x0a; x05; x04; x03; x02; x00; x01; x12; x03; x46; x2a; x38; x0a;
   x0c; x0a; x05; x04; x03; x02; x00; x03; x12; x03; x46; x3b; x3c; x0a; x24; x0a;
   x04; x04; x03; x02; x01; x12; x03; x49; x02; x42; x1a; x17; x20; x4c; x6f; x63;
   x61; x6c; x20; x65; x78; x69; x74; x20; x72; x6f; x6f; x74; x20; x68; x61; x73;
   x68; x2e; x0a; x0a; x0c; x0a; x05; x04; x03; x02; x01; x06; x12; x03; x49; x02;
   x28; x0a; x0c; x0a; x05; x04; x03; x02; x01; x01; x12; x03; x49; x29; x3d; x0a;
   x0c; x0a; x05; x04; x03; x02; x01; x03; x12; x03; x49; x40; x41; x0a; x21; x0a;
   x04; x04; x03; x02; x02; x12; x03; x4c; x02; x1e; x1a; x14; x20; x43; x75; x73;
   x74; x6f; x6d; x20; x63; x68; x61; x69; x6e; x20; x64; x61; x74; x61; x2e; x0a;
   x0a; x0c; x0a; x05; x04; x03; x02; x02; x05; x12; x03; x4c; x02; x07; x0a; x0c;
   x0a; x05; x04; x03; x02; x02; x01; x12; x03; x4c; x08; x19; x0a; x0c; x0a; x05;
   x04; x03; x02; x02; x03; x12; x03; x4c; x1c; x1d; x0a; x35; x0a; x02; x04; x04;
   x12; x04; x50; x00; x59; x01; x1a; x29; x20; x49; x6d; x70; x6f; x72; x74; x65;
   x64; x20; x62; x72; x69; x64; x67; x65; x20; x65; x78; x69; x74; x20; x77; x69;
   x74; x68; x20; x62; x6c; x6f; x63; x6b; x20; x6e; x75; x6d; x62; x65; x72; x2e;
   x0a; x0a; x0a; x0a; x03; x04; x04; x01; x12; x03; x50; x08; x29; x0a; x3c; x0a;
   x04; x04; x04; x02; x00; x12; x03; x52; x02; x1a; x1a; x2f; x20; x54; x68; x65;
   x20; x62; x6c; x6f; x63; x6b; x20; x6e; x75; x6d; x62; x65; x72; x20; x6f; x66;
   x20; x74; x68; x65; x20; x69; x6d; x70; x6f; x72; x74; x65; x64; x20; x62; x72;
   x69; x64; x67; x65; x20; x65; x78; x69; x74; x2e; x0a; x0a; x0c; x0a; x05; x04;
   x04; x02; x00; x05; x12; x03; x52; x02; x08; x0a; x0c; x0a; x05; x04; x04; x02;
   x00; x01; x12; x03; x52; x09; x15; x0a; x0c; x0a; x05; x04; x04; x02; x00; x03;
   x12; x03; x52; x18; x19; x0a; x38; x0a; x04; x04; x04; x02; x01; x12; x03; x55;
   x02; x3a; x1a; x2b; x20; x47; x6c; x6f; x62; x61; x6c; x20; x69; x6e; x64; x65;
   x78; x20; x6f; x66; x20; x74; x68; x65; x20; x69; x6d; x70; x6f; x72; x74; x65;
   x64; x20; x62; x72; x69; x64; x67; x65; x20; x65; x78; x69; x74; x2e; x0a; x0a;
   x0c; x0a; x05; x04; x04; x02; x01; x06; x12; x03; x55; x02; x28; x0a; x0c; x0a;
   x05; x04; x04; x02; x01; x01; x12; x03; x55; x29; x35; x0a; x0c; x0a; x05; x04;
   x04; x02; x01; x03; x12; x03; x55; x38; x39; x0a; x20; x0a; x04; x04; x04; x02;
   x02; x12; x03; x58; x02; x3e; x1a; x13; x20; x42; x72; x69; x64; x67; x65; x20;
   x65; x78; x69; x74; x20; x68; x61; x73; x68; x2e; x0a; x0a; x0c; x0a; x05; x04;
   x04; x02; x02; x06; x12; x03; x58; x02; x28; x0a; x0c; x0a; x05; x04; x04; x02;
   x02; x01; x12; x03; x58; x29; x39; x0a; x0c; x0a; x05; x04; x04; x02; x02; x03;
   x12; x03; x58; x3c; x3d; x0a; x2d; x0a; x02; x04; x05; x12; x04; x5c; x00; x65;
   x01; x1a; x21; x20; x49; x6e; x73; x65; x72; x74; x65; x64; x20; x47; x45; x52;
   x20; x77; x69; x74; x68; x20; x62; x6c; x6f; x63; x6b; x20; x6e; x75; x6d; x62;
   x65; x72; x2e; x0a; x0a; x0a; x0a; x03; x04; x05; x01; x12; x03; x5c; x08; x28;
   x0a; x2b; x0a; x04; x04; x05; x02; x00; x12; x03; x5e; x02; x1a; x1a; x1e; x20;
   x54; x68; x65; x20; x62; x6c; x6f; x63; x6b; x20; x6e; x75; x6d; x62; x65; x72;
   x20; x6f; x66; x20; x74; x68; x65; x20; x67; x65; x72; x2e; x0a; x0a; x0c; x0a;
   x05; x04; x05; x02; x00; x05; x12; x03; x5e; x02; x08; x0a; x0c; x0a; x05; x04;
   x05; x02; x00; x01; x12; x03; x5e; x09; x15; x0a; x0c; x0a; x05; x04; x05; x02;
   x00; x03; x12; x03; x5e; x18; x19; x0a; x1e; x0a; x04; x04; x05; x02; x01; x12;
   x03; x61; x02; x2c; x1a; x11; x20; x54; x68; x65; x20; x69; x6e; x73; x65; x72;
   x74; x20; x47; x45; x52; x2e; x0a; x0a; x0c; x0a; x05; x04; x05; x02; x01; x06;
   x12; x03; x61; x02; x13; x0a; x0c; x0a; x05; x04; x05; x02; x01; x01; x12; x03;
   x61; x14; x27; x0a; x0c; x0a; x05; x04; x05; x02; x01; x03; x12; x03; x61; x2a;
   x2b; x0a; x3b; x0a; x04; x04; x05; x02; x02; x12; x03; x64; x02; x19; x1a; x2e;
   x20; x54; x68; x65; x20; x69; x6e; x64; x65; x78; x20; x6f; x66; x20; x74; x68;
   x65; x20; x69; x6e; x6a; x65; x63; x74; x65; x64; x20; x47; x45; x52; x20; x65;
   x76; x65; x6e; x74; x20; x69; x6e; x20; x62; x6c; x6f; x63; x6b; x0a; x0a; x0c;
   x0a; x05; x04; x05; x02; x02; x05; x12; x03; x64; x02; x08; x0a; x0c; x0a; x05;
   x04; x05; x02; x02; x01; x12; x03; x64; x09; x14; x0a; x0c; x0a; x05; x04; x05;
   x02; x02; x03; x12; x03; x64; x17; x18; x0a; x22; x0a; x02; x04; x06; x12; x04;
   x68; x00; x6e; x01; x1a; x16; x20; x50; x72; x6f; x76; x65; x6e; x20; x69; x6e;
   x73; x65; x72; x74; x65; x64; x20; x47; x45; x52; x2e; x0a; x0a; x0a; x0a; x03;
   x04; x06; x01; x12; x03; x68; x08; x19; x0a; x27; x0a; x04; x04; x06; x02; x00;
   x12; x03; x6a; x02; x3d; x1a; x1a; x20; x50; x72; x6f; x6f; x66; x20; x66; x72;
   x6f; x6d; x20; x47; x45; x52; x20; x74; x6f; x20; x4c; x31; x52; x6f; x6f; x74;
   x0a; x0a; x0c; x0a; x05; x04; x06; x02; x00; x06; x12; x03; x6a; x02; x27; x0a;
   x0c; x0a; x05; x04; x06; x02; x00; x01; x12; x03; x6a; x28; x38; x0a; x0c; x0a;
   x05; x04; x06; x02; x00; x03; x12; x03; x6a; x3b; x3c; x0a; x1e; x0a; x04; x04;
   x06; x02; x01; x12; x03; x6d; x02; x42; x1a; x11; x20; x4c; x31; x49; x6e; x66;
   x6f; x54; x72; x65; x65; x20; x6c; x65; x61; x66; x0a; x0a; x0c; x0a; x05; x04;
   x06; x02; x01; x06; x12; x03; x6d; x02; x35; x0a; x0c; x0a; x05; x04; x06; x02;
   x01; x01; x12; x03; x6d; x36; x3d; x0a; x0c; x0a; x05; x04; x06; x02; x01; x03;
   x12; x03; x6d; x40; x41; x62; x06; x70; x72; x6f; x74; x6f; x33].

(** [agglayer_prover_types::v1::FILE_DESCRIPTOR_SET]. *)
Definition agglayer_v1_FILE_DESCRIPTOR_SET : bytes := [
   x0a; xd4; x10; x0a; x29; x61; x67; x67; x6c; x61; x79; x65; x72; x2f; x70; x72;
   x6f; x76; x65; x72; x2f; x76; x31; x2f; x70; x72; x6f; x6f; x66; x5f; x67; x65;
   x6e; x65; x72; x61; x74; x69; x6f; x6e; x2e; x70; x72; x6f; x74; x6f; x12; x12;
   x61; x67; x67; x6c; x61; x79; x65; x72; x2e; x70; x72; x6f; x76; x65; x72; x2e;
   x76; x31; x22; x3e; x0a; x14; x47; x65; x6e; x65; x72; x61; x74; x65; x50; x72;
   x6f; x6f; x66; x52; x65; x71; x75; x65; x73; x74; x12; x1d; x0a; x09; x73; x70;
   x31; x5f; x73; x74; x64; x69; x6e; x18; x01; x20; x01; x28; x0c; x48; x00; x52;
   x08; x73; x70; x31; x53; x74; x64; x69; x6e; x42; x07; x0a; x05; x73; x74; x64;
   x69; x6e; x22; x2d; x0a; x15; x47; x65; x6e; x65; x72; x61; x74; x65; x50; x72;
   x6f; x6f; x66; x52; x65; x73; x70; x6f; x6e; x73; x65; x12; x14; x0a; x05; x70;
   x72; x6f; x6f; x66; x18; x01; x20; x01; x28; x0c; x52; x05; x70; x72; x6f; x6f;
   x66; x22; x68; x0a; x12; x47; x65; x6e; x65; x72; x61; x74; x65; x50; x72; x6f;
   x6f; x66; x45; x72; x72; x6f; x72; x12; x14; x0a; x05; x65; x72; x72; x6f; x72;
   x18; x01; x20; x01; x28; x0c; x52; x05; x65; x72; x72; x6f; x72; x12; x3c; x0a;
   x0a; x65; x72; x72; x6f; x72; x5f; x74; x79; x70; x65; x18; x02; x20; x01; x28;
   x0e; x32; x1d; x2e; x61; x67; x67; x6c; x61; x79; x65; x72; x2e; x70; x72; x6f;
   x76; x65; x72; x2e; x76; x31; x2e; x45; x72; x72; x6f; x72; x4b; x69; x6e; x64;
   x52; x09; x65; x72; x72; x6f; x72; x54; x79; x70; x65; x2a; xb8; x01; x0a; x09;
   x45; x72; x72; x6f; x72; x4b; x69; x6e; x64; x12; x1a; x0a; x16; x45; x52; x52;
   x4f; x52; x5f; x4b; x49; x4e; x44; x5f; x55; x4e; x53; x50; x45; x43; x49; x46;
   x49; x45; x44; x10; x00; x12; x27; x0a; x23; x45; x52; x52; x4f; x52; x5f; x4b;
   x49; x4e; x44; x5f; x55; x4e; x41; x42; x4c; x45; x5f; x54; x4f; x5f; x45; x58;
   x45; x43; x55; x54; x45; x5f; x50; x52; x4f; x56; x45; x52; x10; x01; x12; x1c;
   x0a; x18; x45; x52; x52; x4f; x52; x5f; x4b; x49; x4e; x44; x5f; x50; x52; x4f;
   x56; x45; x52; x5f; x46; x41; x49; x4c; x45; x44; x10; x02; x12; x28; x0a; x24;
   x45; x52; x52; x4f; x52; x5f; x4b; x49; x4e; x44; x5f; x50; x52; x4f; x4f; x46;
   x5f; x56; x45; x52; x49; x46; x49; x43; x41; x54; x49; x4f; x4e; x5f; x46; x41;
   x49; x4c; x45; x44; x10; x03; x12; x1e; x0a; x1a; x45; x52; x52; x4f; x52; x5f;
   x4b; x49; x4e; x44; x5f; x45; x58; x45; x43; x55; x54; x4f; x52; x5f; x46; x41;
   x49; x4c; x45; x44; x10; x04; x32; x7f; x0a; x17; x50; x65; x73; x73; x69; x6d;
   x69; x73; x74; x69; x63; x50; x72; x6f; x6f; x66; x53; x65; x72; x76; x69; x63;
   x65; x12; x64; x0a; x0d; x47; x65; x6e; x65; x72; x61; x74; x65; x50; x72; x6f;
   x6f; x66; x12; x28; x2e; x61; x67; x67; x6c; x61; x79; x65; x72; x2e; x70; x72;
   x6f; x76; x65; x72; x2e; x76; x31; x2e; x47; x65; x6e; x65; x72; x61; x74; x65;
   x50; x72; x6f; x6f; x66; x52; x65; x71; x75; x65; x73; x74; x1a; x29; x2e; x61;
   x67; x67; x6c; x61; x79; x65; x72; x2e; x70; x72; x6f; x76; x65; x72; x2e; x76;
   x31; x2e; x47; x65; x6e; x65; x72; x61; x74; x65; x50; x72; x6f; x6f; x66; x52;
   x65; x73; x70; x6f; x6e; x73; x65; x42; x98; x01; x0a; x16; x63; x6f; x6d; x2e;
   x61; x67; x67; x6c; x61; x79; x65; x72; x2e; x70; x72; x6f; x76; x65; x72; x2e;
   x76; x31; x42; x14; x50; x72; x6f; x6f; x66; x47; x65; x6e; x65; x72; x61; x74;
   x69; x6f; x6e; x50; x72; x6f; x74; x6f; x50; x01; xa2; x02; x03; x41; x50; x58;
   xaa; x02; x12; x41; x67; x67; x6c; x61; x79; x65; x72; x2e; x50; x72; x6f; x76;
   x65; x72; x2e; x56; x31; xca; x02; x12; x41; x67; x67; x6c; x61; x79; x65; x72;
   x5c; x50; x72; x6f; x76; x65; x72; x5c; x56; x31; xe2; x02; x1e; x41; x67; x67;
   x6c; x61; x79; x65; x72; x5c; x50; x72; x6f; x76; x65; x72; x5c; x56; x31; x5c;
   x47; x50; x42; x4d; x65; x74; x61; x64; x61; x74; x61; xea; x02; x14; x41; x67;
   x67; x6c; x61; x79; x65; x72; x3a; x3a; x50; x72; x6f; x76; x65; x72; x3a; x3a;
   x56; x31; x4a; xda; x0a; x0a; x06; x12; x04; x00; x00; x2d; x01; x0a; x08; x0a;
   x01; x0c; x12; x03; x00; x00; x12; x0a; x08; x0a; x01; x02; x12; x03; x02; x00;
   x1b; x0a; x37; x0a; x02; x06; x00; x12; x04; x05; x00; x08; x01; x1a; x2b; x20;
   x53; x65; x72; x76; x69; x63; x65; x20; x66; x6f; x72; x20; x67; x65; x6e; x65;
   x72; x61; x74; x69; x6e; x67; x20; x70; x65; x73; x73; x69; x6d; x69; x73; x74;
   x69; x63; x20; x70; x72; x6f; x6f; x66; x2e; x0a; x0a; x0a; x0a; x03; x06; x00;
   x01; x12; x03; x05; x08; x1f; x0a; x37; x0a; x04; x06; x00; x02; x00; x12; x03;
   x07; x02; x4a; x1a; x2a; x20; x54; x72; x69; x67; x67; x65; x72; x73; x20; x61;
   x20; x70; x65; x73; x73; x69; x6d; x69; x73; x74; x69; x63; x2d; x70; x72; x6f;
   x6f; x66; x20; x67; x65; x6e; x65; x72; x61; x74; x69; x6f; x6e; x2e; x0a; x0a;
   x0c; x0a; x05; x06; x00; x02; x00; x01; x12; x03; x07; x06; x13; x0a; x0c; x0a;
   x05; x06; x00; x02; x00; x02; x12; x03; x07; x14; x28; x0a; x0c; x0a; x05; x06;
   x00; x02; x00; x03; x12; x03; x07; x33; x48; x0a; x42; x0a; x02; x04; x00; x12;
   x04; x0b; x00; x11; x01; x1a; x36; x20; x54; x79; x70; x65; x20; x75; x73; x65;
   x64; x20; x74; x6f; x20; x72; x65; x71; x75; x65; x73; x74; x20; x61; x20; x70;
   x65; x73; x73; x69; x6d; x69; x73; x74; x69; x63; x20; x70; x72; x6f; x6f; x66;
   x20; x67; x65; x6e; x65; x72; x61; x74; x69; x6f; x6e; x2e; x0a; x0a; x0a; x0a;
   x03; x04; x00; x01; x12; x03; x0b; x08; x1c; x0a; x3b; x0a; x04; x04; x00; x08;
   x00; x12; x04; x0d; x02; x10; x03; x1a; x2d; x20; x52; x65; x70; x72; x65; x73;
   x65; x6e; x74; x73; x20; x74; x68; x65; x20; x74; x79; x70; x65; x20; x6f; x66;
   x20; x73; x74; x64; x69; x6e; x20; x6f; x66; x20; x74; x68; x65; x20; x72; x65;
   x71; x75; x65; x73; x74; x0a; x0a; x0c; x0a; x05; x04; x00; x08; x00; x01; x12;
   x03; x0d; x08; x0d; x0a; x25; x0a; x04; x04; x00; x02; x00; x12; x03; x0f; x04;
   x18; x1a; x18; x20; x53; x54; x44; x49; x4e; x20; x75; x73; x69; x6e; x67; x20;
   x73; x70; x31; x20; x66; x6f; x72; x6d; x61; x74; x0a; x0a; x0c; x0a; x05; x04;
   x00; x02; x00; x05; x12; x03; x0f; x04; x09; x0a; x0c; x0a; x05; x04; x00; x02;
   x00; x01; x12; x03; x0f; x0a; x13; x0a; x0c; x0a; x05; x04; x00; x02; x00; x03;
   x12; x03; x0f; x16; x17; x0a; x46; x0a; x02; x04; x01; x12; x04; x14; x00; x17;
   x01; x1a; x3a; x20; x54; x79; x70; x65; x20; x75; x73; x65; x64; x20; x61; x73;
   x20; x72; x65; x73; x70; x6f; x6e; x73; x65; x20; x74; x6f; x20; x61; x20; x70;
   x65; x73; x73; x69; x6d; x69; x73; x74; x69; x63; x20; x70; x72; x6f; x6f; x66;
   x20; x67; x65; x6e; x65; x72; x61; x74; x69; x6f; x6e; x2e; x0a; x0a; x0a; x0a;
   x03; x04; x01; x01; x12; x03; x14; x08; x1d; x0a; x23; x0a; x04; x04; x01; x02;
   x00; x12; x03; x16; x02; x12; x1a; x16; x20; x54; x68; x65; x20; x67; x65; x6e;
   x65; x72; x61; x74; x65; x64; x20; x70; x72; x6f; x6f; x66; x2e; x0a; x0a; x0c;
   x0a; x05; x04; x01; x02; x00; x05; x12; x03; x16; x02; x07; x0a; x0c; x0a; x05;
   x04; x01; x02; x00; x01; x12; x03; x16; x08; x0d; x0a; x0c; x0a; x05; x04; x01;
   x02; x00; x03; x12; x03; x16; x10; x11; x0a; x53; x0a; x02; x05; x00; x12; x04;
   x1a; x00; x25; x01; x1a; x47; x20; x54; x68; x65; x20; x6b; x69; x6e; x64; x20;
   x6f; x66; x20; x65; x72; x72; x6f; x72; x20; x74; x68; x61; x74; x20; x6f; x63;
   x63; x75; x72; x72; x65; x64; x20; x61; x6e; x64; x20; x74; x68; x61; x74; x20;
   x61; x72; x65; x20; x72; x65; x70; x6f; x72; x74; x65; x64; x20; x62; x79; x20;
   x74; x68; x65; x20; x73; x65; x72; x76; x69; x63; x65; x2e; x0a; x0a; x0a; x0a;
   x03; x05; x00; x01; x12; x03; x1a; x05; x0e; x0a; x21; x0a; x04; x05; x00; x02;
   x00; x12; x03; x1c; x02; x1d; x1a; x14; x20; x55; x6e; x73; x70; x65; x63; x69;
   x66; x69; x65; x64; x20; x65; x72; x72; x6f; x72; x2e; x0a; x0a; x0c; x0a; x05;
   x05; x00; x02; x00; x01; x12; x03; x1c; x02; x18; x0a; x0c; x0a; x05; x05; x00;
   x02; x00; x02; x12; x03; x1c; x1b; x1c; x0a; x30; x0a; x04; x05; x00; x02; x01;
   x12; x03; x1e; x02; x2a; x1a; x23; x20; x54; x68; x65; x20; x70; x72; x6f; x76;
   x65; x72; x20; x77; x61; x73; x20; x75; x6e; x61; x62; x6c; x65; x20; x74; x6f;
   x20; x65; x78; x65; x63; x75; x74; x65; x2e; x0a; x0a; x0c; x0a; x05; x05; x00;
   x02; x01; x01; x12; x03; x1e; x02; x25; x0a; x0c; x0a; x05; x05; x00; x02; x01;
   x02; x12; x03; x1e; x28; x29; x0a; x36; x0a; x04; x05; x00; x02; x02; x12; x03;
   x20; x02; x1f; x1a; x29; x20; x54; x68; x65; x20; x70; x72; x6f; x76; x65; x72;
   x20; x66; x61; x69; x6c; x65; x64; x20; x74; x6f; x20; x67; x65; x6e; x65; x72;
   x61; x74; x65; x20; x74; x68; x65; x20; x70; x72; x6f; x6f; x66; x0a; x0a; x0c;
   x0a; x05; x05; x00; x02; x02; x01; x12; x03; x20; x02; x1a; x0a; x0c; x0a; x05;
   x05; x00; x02; x02; x02; x12; x03; x20; x1d; x1e; x0a; x39; x0a; x04; x05; x00;
   x02; x03; x12; x03; x22; x02; x2b; x1a; x2c; x20; x54; x68; x65; x20; x67; x65;
   x6e; x65; x72; x61; x74; x65; x64; x20; x70; x72; x6f; x6f; x66; x20; x66; x61;
   x69; x6c; x65; x64; x20; x74; x6f; x20; x62; x65; x20; x76; x65; x72; x69; x66;
   x69; x65; x64; x2e; x0a; x0a; x0c; x0a; x05; x05; x00; x02; x03; x01; x12; x03;
   x22; x02; x26; x0a; x0c; x0a; x05; x05; x00; x02; x03; x02; x12; x03; x22; x29;
   x2a; x0a; x3f; x0a; x04; x05; x00; x02; x04; x12; x03; x24; x02; x21; x1a; x32;
   x20; x54; x68; x65; x20; x65; x78; x65; x63; x75; x74; x6f; x72; x20; x66; x61;
   x69; x6c; x65; x64; x20; x64; x75; x72; x69; x6e; x67; x20; x74; x68; x65; x20;
   x70; x72; x6f; x6f; x66; x20; x67; x65; x6e; x65; x72; x61; x74; x69; x6f; x6e;
   x2e; x0a; x0a; x0c; x0a; x05; x05; x00; x02; x04; x01; x12; x03; x24; x02; x1c;
   x0a; x0c; x0a; x05; x05; x00; x02; x04; x02; x12; x03; x24; x1f; x20; x0a; x52;
   x0a; x02; x04; x02; x12; x04; x28; x00; x2d; x01; x1a; x46; x20; x45; x72; x72;
   x6f; x72; x20; x6d; x65; x73; x73; x61; x67; x65; x20; x72; x65; x74; x75; x72;
   x6e; x65; x64; x20; x77; x68; x65; x6e; x20; x61; x6e; x20; x65; x72; x72; x6f;
   x72; x20; x6f; x63; x63; x75; x72; x73; x20; x64; x75; x72; x69; x6e; x67; x20;
   x70; x72; x6f; x6f; x66; x20; x67; x65; x6e; x65; x72; x61; x74; x69; x6f; x6e;
   x2e; x0a; x0a; x0a; x0a; x03; x04; x02; x01; x12; x03; x28; x08; x1a; x0a; x2a;
   x0a; x04; x04; x02; x02; x00; x12; x03; x2a; x02; x12; x1a; x1d; x20; x54; x68;
   x65; x20; x65; x72; x72; x6f; x72; x20; x6d; x65; x73; x73; x61; x67; x65; x20;
   x61; x73; x20; x62; x79; x74; x65; x73; x2e; x0a; x0a; x0c; x0a; x05; x04; x02;
   x02; x00; x05; x12; x03; x2a; x02; x07; x0a; x0c; x0a; x05; x04; x02; x02; x00;
   x01; x12; x03; x2a; x08; x0d; x0a; x0c; x0a; x05; x04; x02; x02; x00; x03; x12;
   x03; x2a; x10; x11; x0a; x2f; x0a; x04; x04; x02; x02; x01; x12; x03; x2c; x02;
   x1b; x1a; x22; x20; x54; x68; x65; x20; x6b; x69; x6e; x64; x20; x6f; x66; x20;
   x65; x72; x72; x6f; x72; x20; x74; x68; x61; x74; x20; x6f; x63; x63; x75; x72;
   x72; x65; x64; x2e; x0a; x0a; x0c; x0a; x05; x04; x02; x02; x01; x06; x12; x03;
   x2c; x02; x0b; x0a; x0c; x0a; x05; x04; x02; x02; x01; x01; x12; x03; x2c; x0c;
   x16; x0a; x0c; x0a; x05; x04; x02; x02; x01; x03; x12; x03; x2c; x19; x1a; x62;
   x06; x70; x72; x6f; x74; x6f; x33].

(** [agglayer_prover_types::FILE_DESCRIPTOR_SET]. *)
Definition agglayer_FILE_DESCRIPTOR_SET : bytes := [
   x0a; xa9; x0f; x0a; x19; x76; x31; x2f; x70; x72; x6f; x6f; x66; x5f; x67; x65;
   x6e; x65; x72; x61; x74; x69; x6f; x6e; x2e; x70; x72; x6f; x74; x6f; x12; x12;
   x61; x67; x67; x6c; x61; x79; x65; x72; x2e; x70; x72; x6f; x76; x65; x72; x2e;
   x76; x31; x22; x3e; x0a; x14; x47; x65; x6e; x65; x72; x61; x74; x65; x50; x72;
   x6f; x6f; x66; x52; x65; x71; x75; x65; x73; x74; x12; x1d; x0a; x09; x73; x70;
   x31; x5f; x73; x74; x64; x69; x6e; x18; x01; x20; x01; x28; x0c; x48; x00; x52;
   x08; x73; x70; x31; x53; x74; x64; x69; x6e; x42; x07; x0a; x05; x73; x74; x64;
   x69; x6e; x22; x2d; x0a; x15; x47; x65; x6e; x65; x72; x61; x74; x65; x50; x72;
   x6f; x6f; x66; x52; x65; x73; x70; x6f; x6e; x73; x65; x12; x14; x0a; x05; x70;
   x72; x6f; x6f; x66; x18; x01; x20; x01; x28; x0c; x52; x05; x70; x72; x6f; x6f;
   x66; x22; x68; x0a; x12; x47; x65; x6e; x65; x72; x61; x74; x65; x50; x72; x6f;
   x6f; x66; x45; x72; x72; x6f; x72; x12; x14; x0a; x05; x65; x72; x72; x6f; x72;
   x18; x01; x20; x01; x28; x0c; x52; x05; x65; x72; x72; x6f; x72; x12; x3c; x0a;
   x0a; x65; x72; x72; x6f; x72; x5f; x74; x79; x70; x65; x18; x02; x20; x01; x28;
   x0e; x32; x1d; x2e; x61; x67; x67; x6c; x61; x79; x65; x72; x2e; x70; x72; x6f;
   x76; x65; x72; x2e; x76; x31; x2e; x45; x72; x72; x6f; x72; x4b; x69; x6e; x64;
   x52; x09; x65; x72; x72; x6f; x72; x54; x79; x70; x65; x2a; xb8; x01; x0a; x09;
   x45; x72; x72; x6f; x72; x4b; x69; x6e; x64; x12; x1a; x0a; x16; x45; x52; x52;
   x4f; x52; x5f; x4b; x49; x4e; x44; x5f; x55; x4e; x53; x50; x45; x43; x49; x46;
   x49; x45; x44; x10; x00; x12; x27; x0a; x23; x45; x52; x52; x4f; x52; x5f; x4b;
   x49; x4e; x44; x5f; x55; x4e; x41; x42; x4c; x45; x5f; x54; x4f; x5f; x45; x58;
   x45; x43; x55; x54; x45; x5f; x50; x52; x4f; x56; x45; x52; x10; x01; x12; x1c;
   x0a; x18; x45; x52; x52; x4f; x52; x5f; x4b; x49; x4e; x44; x5f; x50; x52; x4f;
   x56; x45; x52; x5f; x46; x41; x49; x4c; x45; x44; x10; x02; x12; x28; x0a; x24;
   x45; x52; x52; x4f; x52; x5f; x4b; x49; x4e; x44; x5f; x50; x52; x4f; x4f; x46;
   x5f; x56; x45; x52; x49; x46; x49; x43; x41; x54; x49; x4f; x4e; x5f; x46; x41;
   x49; x4c; x45; x44; x10; x03; x12; x1e; x0a; x1a; x45; x52; x52; x4f; x52; x5f;
   x4b; x49; x4e; x44; x5f; x45; x58; x45; x43; x55; x54; x4f; x52; x5f; x46; x41;
   x49; x4c; x45; x44; x10; x04; x32; x7f; x0a; x17; x50; x65; x73; x73; x69; x6d;
   x69; x73; x74; x69; x63; x50; x72; x6f; x6f; x66; x53; x65; x72; x76; x69; x63;
   x65; x12; x64; x0a; x0d; x47; x65; x6e; x65; x72; x61; x74; x65; x50; x72; x6f;
   x6f; x66; x12; x28; x2e; x61; x67; x67; x6c; x61; x79; x65; x72; x2e; x70; x72;
   x6f; x76; x65; x72; x2e; x76; x31; x2e; x47; x65; x6e; x65; x72; x61; x74; x65;
   x50; x72; x6f; x6f; x66; x52; x65; x71; x75; x65; x73; x74; x1a; x29; x2e; x61;
   x67; x67; x6c; x61; x79; x65; x72; x2e; x70; x72; x6f; x76; x65; x72; x2e; x76;
   x31; x2e; x47; x65; x6e; x65; x72; x61; x74; x65; x50; x72; x6f; x6f; x66; x52;
   x65; x73; x70; x6f; x6e; x73; x65; x4a; xda; x0a; x0a; x06; x12; x04; x00; x00;
   x2d; x01; x0a; x08; x0a; x01; x0c; x12; x03; x00; x00; x12; x0a; x08; x0a; x01;
   x02; x12; x03; x02; x00; x1b; x0a; x37; x0a; x02; x06; x00; x12; x04; x05; x00;
   x08; x01; x1a; x2b; x20; x53; x65; x72; x76; x69; x63; x65; x20; x66; x6f; x72;
   x20; x67; x65; x6e; x65; x72; x61; x74; x69; x6e; x67; x20; x70; x65; x73; x73;
   x69; x6d; x69; x73; x74; x69; x63; x20; x70; x72; x6f; x6f; x66; x2e; x0a; x0a;
   x0a; x0a; x03; x06; x00; x01; x12; x03; x05; x08; x1f; x0a; x37; x0a; x04; x06;
   x00; x02; x00; x12; x03; x07; x02; x4a; x1a; x2a; x20; x54; x72; x69; x67; x67;
   x65; x72; x73; x20; x61; x20; x70; x65; x73; x73; x69; x6d; x69; x73; x74; x69;
   x63; x2d; x70; x72; x6f; x6f; x66; x20; x67; x65; x6e; x65; x72; x61; x74; x69;
   x6f; x6e; x2e; x0a; x0a; x0c; x0a; x05; x06; x00; x02; x00; x01; x12; x03; x07;
   x06; x13; x0a; x0c; x0a; x05; x06; x00; x02; x00; x02; x12; x03; x07; x14; x28;
   x0a; x0c; x0a; x05; x06; x00; x02; x00; x03; x12; x03; x07; x33; x48; x0a; x42;
   x0a; x02; x04; x00; x12; x04; x0b; x00; x11; x01; x1a; x36; x20; x54; x79; x70;
   x65; x20; x75; x73; x65; x64; x20; x74; x6f; x20; x72; x65; x71; x75; x65; x73;
   x74; x20; x61; x20; x70; x65; x73; x73; x69; x6d; x69; x73; x74; x69; x63; x20;
   x70; x72; x6f; x6f; x66; x20; x67; x65; x6e; x65; x72; x61; x74; x69; x6f; x6e;
   x2e; x0a; x0a; x0a; x0a; x03; x04; x00; x01; x12; x03; x0b; x08; x1c; x0a; x3b;
   x0a; x04; x04; x00; x08; x00; x12; x04; x0d; x02; x10; x03; x1a; x2d; x20; x52;
   x65; x70; x72; x65; x73; x65; x6e; x74; x73; x20; x74; x68; x65; x20; x74; x79;
   x70; x65; x20; x6f; x66; x20; x73; x74; x64; x69; x6e; x20; x6f; x66; x20; x74;
   x68; x65; x20; x72; x65; x71; x75; x65; x73; x74; x0a; x0a; x0c; x0a; x05; x04;
   x00; x08; x00; x01; x12; x03; x0d; x08; x0d; x0a; x25; x0a; x04; x04; x00; x02;
   x00; x12; x03; x0f; x04; x18; x1a; x18; x20; x53; x54; x44; x49; x4e; x20; x75;
   x73; x69; x6e; x67; x20; x73; x70; x31; x20; x66; x6f; x72; x6d; x61; x74; x0a;
   x0a; x0c; x0a; x05; x04; x00; x02; x00; x05; x12; x03; x0f; x04; x09; x0a; x0c;
   x0a; x05; x04; x00; x02; x00; x01; x12; x03; x0f; x0a; x13; x0a; x0c; x0a; x05;
   x04; x00; x02; x00; x03; x12; x03; x0f; x16; x17; x0a; x46; x0a; x02; x04; x01;
   x12; x04; x14; x00; x17; x01; x1a; x3a; x20; x54; x79; x70; x65; x20; x75; x73;
   x65; x64; x20; x61; x73; x20; x72; x65; x73; x70; x6f; x6e; x73; x65; x20; x74;
   x6f; x20; x61; x20; x70; x65; x73; x73; x69; x6d; x69; x73; x74; x69; x63; x20;
   x70; x72; x6f; x6f; x66; x20; x67; x65; x6e; x65; x72; x61; x74; x69; x6f; x6e;
   x2e; x0a; x0a; x0a; x0a; x03; x04; x01; x01; x12; x03; x14; x08; x1d; x0a; x23;
   x0a; x04; x04; x01; x02; x00; x12; x03; x16; x02; x12; x1a; x16; x20; x54; x68;
   x65; x20; x67; x65; x6e; x65; x72; x61; x74; x65; x64; x20; x70; x72; x6f; x6f;
   x66; x2e; x0a; x0a; x0c; x0a; x05; x04; x01; x02; x00; x05; x12; x03; x16; x02;
   x07; x0a; x0c; x0a; x05; x04; x01; x02; x00; x01; x12; x03; x16; x08; x0d; x0a;
   x0c; x0a; x05; x04; x01; x02; x00; x03; x12; x03; x16; x10; x11; x0a; x53; x0a;
   x02; x05; x00; x12; x04; x1a; x00; x25; x01; x1a; x47; x20; x54; x68; x65; x20;
   x6b; x69; x6e; x64; x20; x6f; x66; x20; x65; x72; x72; x6f; x72; x20; x74; x68;
   x61; x74; x20; x6f; x63; x63; x75; x72; x72; x65; x64; x20; x61; x6e; x64; x20;
   x74; x68; x61; x74; x20; x61; x72; x65; x20; x72; x65; x70; x6f; x72; x74; x65;
   x64; x20; x62; x79; x20; x74; x68; x65; x20; x73; x65; x72; x76; x69; x63; x65;
   x2e; x0a; x0a; x0a; x0a; x03; x05; x00; x01; x12; x03; x1a; x05; x0e; x0a; x21;
   x0a; x04; x05; x00; x02; x00; x12; x03; x1c; x02; x1d; x1a; x14; x20; x55; x6e;
   x73; x70; x65; x63; x69; x66; x69; x65; x64; x20; x65; x72; x72; x6f; x72; x2e;
   x0a; x0a; x0c; x0a; x05; x05; x00; x02; x00; x01; x12; x03; x1c; x02; x18; x0a;
   x0c; x0a; x05; x05; x00; x02; x00; x02; x12; x03; x1c; x1b; x1c; x0a; x30; x0a;
   x04; x05; x00; x02; x01; x12; x03; x1e; x02; x2a; x1a; x23; x20; x54; x68; x65;
   x20; x70; x72; x6f; x76; x65; x72; x20; x77; x61; x73; x20; x75; x6e; x61; x62;
   x6c; x65; x20; x74; x6f; x20; x65; x78; x65; x63; x75; x74; x65; x2e; x0a; x0a;
   x0c; x0a; x05; x05; x00; x02; x01; x01; x12; x03; x1e; x02; x25; x0a; x0c; x0a;
   x05; x05; x00; x02; x01; x02; x12; x03; x1e; x28; x29; x0a; x36; x0a; x04; x05;
   x00; x02; x02; x12; x03; x20; x02; x1f; x1a; x29; x20; x54; x68; x65; x20; x70;
   x72; x6f; x76; x65; x72; x20; x66; x61; x69; x6c; x65; x64; x20; x74; x6f; x20;
   x67; x65; x6e; x65; x72; x61; x74; x65; x20; x74; x68; x65; x20; x70; x72; x6f;
   x6f; x66; x0a; x0a; x0c; x0a; x05; x05; x00; x02; x02; x01; x12; x03; x20; x02;
   x1a; x0a; x0c; x0a; x05; x05; x00; x02; x02; x02; x12; x03; x20; x1d; x1e; x0a;
   x39; x0a; x04; x05; x00; x02; x03; x12; x03; x22; x02; x2b; x1a; x2c; x20; x54;
   x68; x65; x20; x67; x65; x6e; x65; x72; x61; x74; x65; x64; x20; x70; x72; x6f;
   x6f; x66; x20; x66; x61; x69; x6c; x65; x64; x20; x74; x6f; x20; x62; x65; x20;
   x76; x65; x72; x69; x66; x69; x65; x64; x2e; x0a; x0a; x0c; x0a; x05; x05; x00;
   x02; x03; x01; x12; x03; x22; x02; x26; x0a; x0c; x0a; x05; x05; x00; x02; x03;
   x02; x12; x03; x22; x29; x2a; x0a; x3f; x0a; x04; x05; x00; x02; x04; x12; x03;
   x24; x02; x21; x1a; x32; x20; x54; x68; x65; x20; x65; x78; x65; x63; x75; x74;
   x6f; x72; x20; x66; x61; x69; x6c; x65; x64; x20; x64; x75; x72; x69; x6e; x67;
   x20; x74; x68; x65; x20; x70; x72; x6f; x6f; x66; x20; x67; x65; x6e; x65; x72;
   x61; x74; x69; x6f; x6e; x2e; x0a; x0a; x0c; x0a; x05; x05; x00; x02; x04; x01;
   x12; x03; x24; x02; x1c; x0a; x0c; x0a; x05; x05; x00; x02; x04; x02; x12; x03;
   x24; x1f; x20; x0a; x52; x0a; x02; x04; x02; x12; x04; x28; x00; x2d; x01; x1a;
   x46; x20; x45; x72; x72; x6f; x72; x20; x6d; x65; x73; x73; x61; x67; x65; x20;
   x72; x65; x74; x75; x72; x6e; x65; x64; x20; x77; x68; x65; x6e; x20; x61; x6e;
   x20; x65; x72; x72; x6f; x72; x20; x6f; x63; x63; x75; x72; x73; x20; x64; x75;
   x72; x69; x6e; x67; x20; x70; x72; x6f; x6f; x66; x20; x67; x65; x6e; x65; x72;
   x61; x74; x69; x6f; x6e; x2e; x0a; x0a; x0a; x0a; x03; x04; x02; x01; x12; x03;
   x28; x08; x1a; x0a; x2a; x0a; x04; x04; x02; x02; x00; x12; x03; x2a; x02; x12;
   x1a; x1d; x20; x54; x68; x65; x20; x65; x72; x72; x6f; x72; x20; x6d; x65; x73;
   x73; x61; x67; x65; x20; x61; x73; x20; x62; x79; x74; x65; x73; x2e; x0a; x0a;
   x0c; x0a; x05; x04; x02; x02; x00; x05; x12; x03; x2a; x02; x07; x0a; x0c; x0a;
   x05; x04; x02; x02; x00; x01; x12; x03; x2a; x08; x0d; x0a; x0c; x0a; x05; x04;
   x02; x02; x00; x03; x12; x03; x2a; x10; x11; x0a; x2f; x0a; x04; x04; x02; x02;
   x01; x12; x03; x2c; x02; x1b; x1a; x22; x20; x54; x68; x65; x20; x6b; x69; x6e;
   x64; x20; x6f; x66; x20; x65; x72; x72; x6f; x72; x20; x74; x68; x61; x74; x20;
   x6f; x63; x63; x75; x72; x72; x65; x64; x2e; x0a; x0a; x0c; x0a; x05; x04; x02;
   x02; x01; x06; x12; x03; x2c; x02; x0b; x0a; x0c; x0a; x05; x04; x02; x02; x01;
   x01; x12; x03; x2c; x0c; x16; x0a; x0c; x0a; x05; x04; x02; x02; x01; x03; x12;
   x03; x2c; x19; x1a; x62; x06; x70; x72; x6f; x74; x6f; x33].
