(* ===== verification/Descriptor.v ===== *)
(** What the file descriptor sets say: a reader of the protobuf wire format and of the parts of
    [google.protobuf.FileDescriptorSet] that describe messages, enums and services.

    The generated code has the schema in several places: in the descriptor sets, in the
    attributes of the message structs, in the names that their JSON form knows, in the
    numbers and names of the error kinds, and in the paths of the methods.  The theorems
    show that these places agree. *)

From S2P Require Import Prelude Bytes Panics Interop Abi StaticCall FilterValues Bridge Fep AggchainProof ProofInputs Config Executor Contracts Vkey Builder Proposer Service Conversion Rpc Tonic AggkitRpc AgglayerRpc Engine AggkitGrpc AgglayerGrpc Text Serde AggkitSerde AgglayerSerde DescriptorSets.

(** ** The wire format *)

(** The two wire types that descriptors use. *)
Inductive wire_value : Type := WVarint (n : Z) | WLen (bs : bytes).

Definition wire_field : Type := Z * wire_value.

(** Seven bits a byte, the least significant ones first; the last byte is below 128. *)
Fixpoint read_varint (bs : bytes) : option (Z * bytes) :=
  match bs with
  | [] => None
  | b :: bs =>
      if b2z b <? 128 then Some (b2z b, bs)
      else match read_varint bs with
           | Some (n, bs) => Some (b2z b - 128 + 128 * n, bs)
           | None => None
           end
  end.

Definition read_field (bs : bytes) : option (wire_field * bytes) :=
  '(key, bs) ← read_varint bs;
  match key mod 8 with
  | 0 => '(n, bs) ← read_varint bs; Some ((key / 8, WVarint n), bs)
  | 2 =>
      '(len, bs) ← read_varint bs;
      if len <=? Z.of_nat (length bs) then
        Some ((key / 8, WLen (take (Z.to_nat len) bs)), drop (Z.to_nat len) bs)
      else None
  | _ => None
  end.

Fixpoint read_fields (fuel : nat) (bs : bytes) : option (list wire_field) :=
  match fuel with
  | O => None
  | S fuel =>
      match bs with
      | [] => Some []
      | _ => '(f, bs) ← read_field bs; fs ← read_fields fuel bs; Some (f :: fs)
      end
  end.

(** Every field takes a byte. *)
Definition read_message (bs : bytes) : option (list wire_field) :=
  read_fields (S (length bs)) bs.

(** *** Writing *)

Fixpoint write_varint_go (fuel : nat) (n : Z) : bytes :=
  match fuel with
  | O => []
  | S fuel => if n <? 128 then [z2b n] else z2b (128 + n mod 128) :: write_varint_go fuel (n / 128)
  end.

Definition write_varint (n : Z) : bytes := write_varint_go (S (Z.to_nat n)) n.

Definition write_field (f : wire_field) : bytes :=
  match f.2 with
  | WVarint n => write_varint (8 * f.1) ++ write_varint n
  | WLen bs => write_varint (8 * f.1 + 2) ++ write_varint (Z.of_nat (length bs)) ++ bs
  end.

Definition wire_ok (f : wire_field) : Prop :=
  0 <= f.1 ∧ match f.2 with WVarint n => 0 <= n | WLen _ => True end.

Lemma read_varint_write_go fuel n rest :
  0 <= n < Z.of_nat fuel → read_varint (write_varint_go fuel n ++ rest) = Some (n, rest).
Proof.
  revert n. induction fuel as [|fuel IH]; intros n Hn; [lia|]. simpl.
  destruct (Z.ltb_spec n 128) as [Hlt|Hge].
  - simpl. rewrite b2z_z2b, Z.mod_small by lia. by rewrite (proj2 (Z.ltb_lt _ _) Hlt).
  - pose proof (Z.mod_pos_bound n 128 ltac:(lia)). pose proof (Z.div_mod n 128 ltac:(lia)).
    simpl. rewrite b2z_z2b, (Z.mod_small (128 + n mod 128)) by lia.
    rewrite (proj2 (Z.ltb_ge _ _)) by lia. rewrite IH by lia. do 2 f_equal. lia.
Qed.

Lemma read_varint_write n rest : 0 <= n → read_varint (write_varint n ++ rest) = Some (n, rest).
Proof. intros. apply read_varint_write_go. lia. Qed.

Lemma read_field_write f rest :
  wire_ok f → read_field (write_field f ++ rest) = Some (f, rest).
Proof.
  destruct f as [k [n|bs]]; unfold wire_ok, read_field, write_field; simpl; intros [Hk Hv].
  - rewrite <-(assoc_L (++)), read_varint_write by lia. cbn [mbind option_bind].
    rewrite Z.mul_comm, Z.mod_mul, Z.div_mul by lia. by rewrite read_varint_write.
  - rewrite <-!(assoc_L (++)), read_varint_write by lia. cbn [mbind option_bind].
    replace (8 * k + 2) with (2 + k * 8) by lia.
    rewrite Z.mod_add, Z.div_add by lia. change (2 mod 8) with 2. change (2 / 8) with 0.
    rewrite Z.add_0_l. cbv iota. rewrite read_varint_write by lia. cbn [mbind option_bind].
    rewrite length_app, (proj2 (Z.leb_le _ _)) by lia.
    by rewrite Nat2Z.id, take_app_length, drop_app_length.
Qed.

Lemma write_varint_length n : (0 < length (write_varint n))%nat.
Proof. unfold write_varint. simpl. destruct (n <? 128); simpl; lia. Qed.

Lemma write_field_length f : (0 < length (write_field f))%nat.
Proof.
  destruct f as [k [n|bs]]; unfold write_field; simpl; rewrite length_app;
    [pose proof (write_varint_length (8 * k))|pose proof (write_varint_length (8 * k + 2))]; lia.
Qed.

(** Whatever message is written, the reader gets its fields. *)
Lemma read_message_write fs :
  Forall wire_ok fs → read_message (concat (map write_field fs)) = Some fs.
Proof.
  intros Hfs. unfold read_message.
  assert (length fs <= length (concat (map write_field fs)))%nat as Hf.
  { clear Hfs. induction fs as [|f fs IH]; simpl; [lia|]. rewrite length_app.
    pose proof (write_field_length f). lia. }
  revert Hf. generalize (length (concat (map write_field fs))) as fuel.
  induction Hfs as [|f fs Hok _ IH]; intros fuel Hf; [done|].
  destruct fuel as [|fuel]; [simpl in Hf; lia|].
  assert (∀ bs, read_fields (S (S fuel)) (write_field f ++ bs) =
                '(f, bs) ← read_field (write_field f ++ bs);
                fs ← read_fields (S fuel) bs; Some (f :: fs)) as Hstep.
  { intros bs. pose proof (write_field_length f). simpl.
    destruct (write_field f); [simpl in *; lia|]. done. }
  cbn [map concat]. rewrite Hstep, read_field_write by done. cbn [mbind option_bind].
  rewrite IH by (simpl in Hf; lia). done.
Qed.

(** ** Descriptors *)

Record field_descriptor : Type := {
  fd_name : string;
  fd_number : Z;
  fd_label : Z;
  fd_type : Z;
  fd_json_name : string;
}.

Record message_descriptor : Type := { md_name : string; md_fields : list field_descriptor }.

Record enum_descriptor : Type := { ed_name : string; ed_values : list (string * Z) }.

Record method_descriptor : Type := {
  mt_name : string; mt_input_type : string; mt_output_type : string }.

Record service_descriptor : Type := { sd_name : string; sd_methods : list method_descriptor }.

Record file_descriptor : Type := {
  fl_package : string;
  fl_messages : list message_descriptor;
  fl_enums : list enum_descriptor;
  fl_services : list service_descriptor;
}.

(** The values of a field: all submessages, the first text, the first number. *)
Definition submessages (key : Z) (fs : list wire_field) : list bytes :=
  omap (λ f, match f with
             | (k, WLen bs) => if k =? key then Some bs else None
             | _ => None
             end) fs.

Definition text (key : Z) (fs : list wire_field) : option string :=
  option_map String.string_of_list_byte (head (submessages key fs)).

Definition number (key : Z) (fs : list wire_field) : option Z :=
  head (omap (λ f, match f with
                   | (k, WVarint n) => if k =? key then Some n else None
                   | _ => None
                   end) fs).

(** [google/protobuf/descriptor.proto]. *)
Definition read_field_descriptor (bs : bytes) : option field_descriptor :=
  fs ← read_message bs;
  name ← text 1 fs; number_ ← number 3 fs; label ← number 4 fs; type ← number 5 fs;
  json_name ← text 10 fs;
  Some {| fd_name := name; fd_number := number_; fd_label := label; fd_type := type;
          fd_json_name := json_name |}.

Definition read_message_descriptor (bs : bytes) : option message_descriptor :=
  fs ← read_message bs;
  name ← text 1 fs;
  fields ← mapM read_field_descriptor (submessages 2 fs);
  Some {| md_name := name; md_fields := fields |}.

Definition read_enum_value (bs : bytes) : option (string * Z) :=
  fs ← read_message bs; name ← text 1 fs; n ← number 2 fs; Some (name, n).

Definition read_enum_descriptor (bs : bytes) : option enum_descriptor :=
  fs ← read_message bs;
  name ← text 1 fs;
  values ← mapM read_enum_value (submessages 2 fs);
  Some {| ed_name := name; ed_values := values |}.

Definition read_method_descriptor (bs : bytes) : option method_descriptor :=
  fs ← read_message bs;
  name ← text 1 fs; input ← text 2 fs; output ← text 3 fs;
  Some {| mt_name := name; mt_input_type := input; mt_output_type := output |}.

Definition read_service_descriptor (bs : bytes) : option service_descriptor :=
  fs ← read_message bs;
  name ← text 1 fs;
  methods ← mapM read_method_descriptor (submessages 2 fs);
  Some {| sd_name := name; sd_methods := methods |}.

Definition read_file_descriptor (bs : bytes) : option file_descriptor :=
  fs ← read_message bs;
  package ← text 2 fs;
  messages ← mapM read_message_descriptor (submessages 4 fs);
  enums ← mapM read_enum_descriptor (submessages 5 fs);
  services ← mapM read_service_descriptor (submessages 6 fs);
  Some {| fl_package := package; fl_messages := messages; fl_enums := enums;
          fl_services := services |}.

Definition read_file_descriptor_set (bs : bytes) : option (list file_descriptor) :=
  fs ← read_message bs;
  mapM read_file_descriptor (submessages 1 fs).

(** The paths of the methods of a file: [/package.Service/Method]. *)
Definition full_name (file : file_descriptor) (service : service_descriptor) : string :=
  fl_package file +:+ "." +:+ sd_name service.

Definition service_paths (file : file_descriptor) : list string :=
  s ← fl_services file;
  (λ m, "/" +:+ full_name file s +:+ "/" +:+ mt_name m) <$> sd_methods s.

(** ** The schema in the generated code *)

(** The [prost] attributes of the fields of a struct: name, kind and tag.  A [oneof] is listed
    under the name of its variant. *)
Inductive prost_kind : Type :=
  | ProstUint64
  | ProstBytes
  | ProstMessage
  | ProstRepeatedMessage
  | ProstMap
  | ProstEnumeration.

Definition prost_fields : Type := list (string * prost_kind * Z).

Definition prost_request : prost_fields :=
  [("last_proven_block", ProstUint64, 1); ("requested_end_block", ProstUint64, 2);
   ("l1_info_tree_root_hash", ProstMessage, 3); ("l1_info_tree_leaf", ProstMessage, 4);
   ("l1_info_tree_merkle_proof", ProstMessage, 5); ("ger_leaves", ProstMap, 6);
   ("imported_bridge_exits", ProstRepeatedMessage, 7)].

Definition prost_optimistic_request : prost_fields :=
  [("aggchain_proof_request", ProstMessage, 1); ("optimistic_mode_signature", ProstMessage, 2)].

Definition prost_response : prost_fields :=
  [("aggchain_proof", ProstMessage, 1); ("last_proven_block", ProstUint64, 2);
   ("end_block", ProstUint64, 3); ("local_exit_root_hash", ProstMessage, 4);
   ("custom_chain_data", ProstBytes, 5)].

Definition prost_optimistic_response : prost_fields :=
  [("aggchain_proof", ProstMessage, 1); ("local_exit_root_hash", ProstMessage, 2);
   ("custom_chain_data", ProstBytes, 3)].

Definition prost_bridge_exit : prost_fields :=
  [("block_number", ProstUint64, 1); ("global_index", ProstMessage, 2);
   ("bridge_exit_hash", ProstMessage, 3)].

Definition prost_ger_block : prost_fields :=
  [("block_number", ProstUint64, 1); ("proven_inserted_ger", ProstMessage, 2);
   ("block_index", ProstUint64, 3)].

Definition prost_proven_ger : prost_fields :=
  [("proof_ger_l1root", ProstMessage, 1); ("l1_leaf", ProstMessage, 2)].

Definition prost_proof_request : prost_fields := [("sp1_stdin", ProstBytes, 1)].

Definition prost_proof_response : prost_fields := [("proof", ProstBytes, 1)].

Definition prost_proof_error : prost_fields :=
  [("error", ProstBytes, 1); ("error_type", ProstEnumeration, 2)].

(** The label and the type that a kind has in a descriptor: optional or repeated; [TYPE_UINT64],
    [TYPE_BYTES], [TYPE_MESSAGE], [TYPE_ENUM]. *)
Definition label_and_type (kind : prost_kind) : Z * Z :=
  match kind with
  | ProstUint64 => (1, 4)
  | ProstBytes => (1, 12)
  | ProstMessage => (1, 11)
  | ProstRepeatedMessage | ProstMap => (3, 11)
  | ProstEnumeration => (1, 14)
  end.

(** A message as the code has it: its attributes, the names its JSON form lists, and the field
    that a name is read as. *)
Record message_code : Type := {
  mc_name : string;
  mc_prost : prost_fields;
  mc_FIELDS : list string;
  mc_visit_str : string → option string;
}.

Definition code {F} (name : string) (prost : prost_fields) (FIELDS : list string)
    (visit_str : string → outcome de_error F) (field_name : F → string) : message_code :=
  {| mc_name := name;
     mc_prost := prost;
     mc_FIELDS := FIELDS;
     mc_visit_str s := match visit_str s with Ok f => Some (field_name f) | _ => None end |}.

Definition aggkit_messages : list message_code :=
  [code "GenerateAggchainProofRequest" prost_request request_FIELDS request_visit_str
     request_name;
   code "GenerateOptimisticAggchainProofRequest" prost_optimistic_request
     optimistic_request_FIELDS optimistic_request_visit_str optimistic_request_name;
   code "GenerateAggchainProofResponse" prost_response response_FIELDS response_visit_str
     response_name;
   code "GenerateOptimisticAggchainProofResponse" prost_optimistic_response
     optimistic_response_FIELDS optimistic_response_visit_str optimistic_response_name;
   code "ImportedBridgeExitWithBlockNumber" prost_bridge_exit bridge_exit_FIELDS
     bridge_exit_visit_str bridge_exit_name;
   code "ProvenInsertedGERWithBlockNumber" prost_ger_block ger_block_FIELDS
     ger_block_visit_str ger_block_name;
   code "ProvenInsertedGER" prost_proven_ger proven_ger_FIELDS proven_ger_visit_str
     proven_ger_name].

Definition agglayer_messages : list message_code :=
  [code "GenerateProofRequest" prost_proof_request proof_request_FIELDS
     proof_request_visit_str proof_request_name;
   code "GenerateProofResponse" prost_proof_response proof_response_FIELDS
     proof_response_visit_str proof_response_name;
   code "GenerateProofError" prost_proof_error proof_error_FIELDS proof_error_visit_str
     proof_error_name].

(** *** Agreement *)

(** A field has the name, the tag and the type of its attribute. *)
Definition field_agrees (f : field_descriptor) (attribute : string * prost_kind * Z) : Prop :=
  let '(name, kind, tag) := attribute in
  fd_name f = name ∧ fd_number f = tag ∧ (fd_label f, fd_type f) = label_and_type kind.

(** The names of a field in JSON: that of the schema and that of the descriptor. *)
Definition json_names (f : field_descriptor) : list string :=
  if decide (fd_name f = fd_json_name f) then [fd_name f] else [fd_name f; fd_json_name f].

Definition message_agrees (m : message_descriptor) (c : message_code) : Prop :=
  md_name m = mc_name c ∧
  Forall2 field_agrees (md_fields m) (mc_prost c) ∧
  mc_FIELDS c = concat (json_names <$> md_fields m) ∧
  Forall (λ f, Forall (λ s, mc_visit_str c s = Some (fd_json_name f)) (json_names f))
    (md_fields m).

#[export] Instance field_agrees_dec f attribute : Decision (field_agrees f attribute).
Proof. destruct attribute as [[name kind] tag]. unfold field_agrees. apply _. Defined.

#[export] Instance message_agrees_dec m c : Decision (message_agrees m c).
Proof. unfold message_agrees. apply _. Defined.

Section agreement.
Context {W : Type} `{!UnifiedBridge, !Ecdsa, !GlobalIndices, !InteropGrpc, !Encodings,
  !Tonic W}.

(** The service of the aggkit descriptor: its methods, with their input and output types. *)
Definition aggkit_methods : list method_descriptor :=
  [{| mt_name := "GenerateAggchainProof";
      mt_input_type := ".aggkit.prover.v1.GenerateAggchainProofRequest";
      mt_output_type := ".aggkit.prover.v1.GenerateAggchainProofResponse" |};
   {| mt_name := "GenerateOptimisticAggchainProof";
      mt_input_type := ".aggkit.prover.v1.GenerateOptimisticAggchainProofRequest";
      mt_output_type := ".aggkit.prover.v1.GenerateOptimisticAggchainProofResponse" |}].

(** C33: the descriptor set of the aggkit messages describes the generated code: it has the seven
    messages with the tags and types of their attributes; the JSON form of each knows its
    fields under the two names of the descriptor and reads them as that field; and its one
    service has the name of the server, and two methods.  The server hands a request at the
    path of the first one, [/package.Service/Method], to [generate_aggchain_proof] and one at
    the path of the second to [generate_optimistic_aggchain_proof], each with the message
    types that the descriptor gives, and answers any other path as unimplemented. *)
Theorem aggkit_descriptor_describes
    `{!Message GenerateAggchainProofRequest, !Message GenerateAggchainProofResponse,
      !Message GenerateOptimisticAggchainProofRequest,
      !Message GenerateOptimisticAggchainProofResponse, !AggchainProofService W T} :
  ∃ file service p1 p2,
    read_file_descriptor_set aggkit_v1_FILE_DESCRIPTOR_SET = Some [file] ∧
    Forall2 message_agrees (fl_messages file) aggkit_messages ∧
    fl_services file = [service] ∧ full_name file service = AggkitGrpc.SERVICE_NAME ∧
    sd_methods service = aggkit_methods ∧ service_paths file = [p1; p2] ∧
    ∀ (self : GrpcServer T) req w,
      (rq_path req = p1 →
       AggkitGrpc.server_call self req w =
       server_unary (Req:=GenerateAggchainProofRequest) (Res:=GenerateAggchainProofResponse)
         (config_of self) (svc_generate_aggchain_proof (server_inner self)) req w) ∧
      (rq_path req = p2 →
       AggkitGrpc.server_call self req w =
       server_unary (Req:=GenerateOptimisticAggchainProofRequest)
         (Res:=GenerateOptimisticAggchainProofResponse)
         (config_of self) (svc_generate_optimistic_aggchain_proof (server_inner self)) req w) ∧
      (rq_path req ∉ [p1; p2] → AggkitGrpc.server_call self req w = (Ok unimplemented, w)).
Proof.
  destruct (read_file_descriptor_set aggkit_v1_FILE_DESCRIPTOR_SET) as [[|file []]|] eqn:Hr;
    vm_compute in Hr; try discriminate Hr.
  injection Hr as <-. eexists _, _, _, _.
  split; [reflexivity|]. split; [by apply (bool_decide_unpack _); vm_compute|].
  split; [reflexivity|]. split; [reflexivity|]. split; [reflexivity|].
  split; [vm_compute; reflexivity|]. intros self req w. split_and!.
  - intros Hp. unfold AggkitGrpc.server_call. by rewrite decide_True.
  - intros Hp. unfold AggkitGrpc.server_call.
    rewrite decide_False by (by rewrite Hp). by rewrite decide_True.
  - intros [Hn1 [Hn2 _]%not_elem_of_cons]%not_elem_of_cons.
    unfold AggkitGrpc.server_call. by rewrite !decide_False.
Qed.

(** The same of both descriptor sets of the agglayer messages: the one in the generated code
    and the one that the crate includes and that the test servers register.  The one enum
    lists the error kinds, by the names and the numbers of the code. *)
Lemma agglayer_descriptors_describe
    `{!Message GenerateProofRequest, !Message GenerateProofResponse,
      !PessimisticProofService W T} :
  ∃ file service enum,
    read_file_descriptor_set agglayer_v1_FILE_DESCRIPTOR_SET = Some [file] ∧
    read_file_descriptor_set agglayer_FILE_DESCRIPTOR_SET = Some [file] ∧
    Forall2 message_agrees (fl_messages file) agglayer_messages ∧
    fl_enums file = [enum] ∧
    ed_values enum =
      ((λ k, (as_str_name k, error_kind_into k)) <$>
        [KindUnspecified; KindUnableToExecuteProver; KindProverFailed;
         KindProofVerificationFailed; KindExecutorFailed]) ∧
    fl_services file = [service] ∧ full_name file service = AgglayerGrpc.SERVICE_NAME ∧
    service_paths file = ["/agglayer.prover.v1.PessimisticProofService/GenerateProof"] ∧
    ∀ (self : GrpcServer T) req w,
      rq_path req ∉ service_paths file →
      AgglayerGrpc.server_call self req w = (Ok unimplemented, w).
Proof.
  destruct (read_file_descriptor_set agglayer_v1_FILE_DESCRIPTOR_SET) as [[|file []]|] eqn:Hr;
    vm_compute in Hr; try discriminate Hr.
  injection Hr as <-. eexists _, _, _.
  split; [reflexivity|]. split; [by vm_compute|].
  split; [by apply (bool_decide_unpack _); vm_compute|].
  split; [reflexivity|]. split; [reflexivity|]. split; [reflexivity|]. split; [reflexivity|].
  match goal with |- ?paths = _ ∧ _ => assert (paths =
    ["/agglayer.prover.v1.PessimisticProofService/GenerateProof"]) as -> by reflexivity end.
  split; [done|]. intros self req w [Hn _]%not_elem_of_cons. by apply agglayer_unimplemented.
Qed.
End agreement.
