(* ===== verification/BuildScripts.v ===== *)
(** The build scripts: [crates/prover-elf-utils/src/elf_info.rs], which emits the
    verification keys of embedded programs as Rust source, its use in
    [crates/proposer-elfs/build.rs], [crates/aggchain-proof-core/build.rs], which emits
    the version of the guest program, and the two scripts that only call other tools.

    The scripts write Rust source; [read_modules] is the reader of the constants in such a
    file, as [include!] puts them into a crate. *)

From S2P Require Import Prelude Bytes Panics Interop Abi StaticCall Fep Config Executor Vkey Text.

(** ** The build environment *)

Class BuildEnv := {
  OUT_DIR : option string;
  path_join : string → string → string;
  file_create : string → outcome string ();
  file_write : string → string → outcome string ();
  fs_read : string → outcome string bytes;
  fs_read_to_string : string → outcome string string;
  color_eyre_install : outcome string ();
}.

(** What a script has printed, for cargo and for its log, and the files it has written. *)
Record build : Type := {
  stdout : list string;
  stderr : list string;
  files : gmap string string;
}.

Definition println {E} (line : string) : io build E () := λ w,
  (Ok (), {| stdout := stdout w ++ [line]; stderr := stderr w; files := files w |}).

Definition eprintln {E} (line : string) : io build E () := λ w,
  (Ok (), {| stdout := stdout w; stderr := stderr w ++ [line]; files := files w |}).

(** [fs::File::create]: an empty file, whatever was there before. *)
Definition create `{!BuildEnv} (path : string) : io build string () := λ w,
  match file_create path with
  | Ok _ => (Ok (), {| stdout := stdout w; stderr := stderr w; files := <[path := ""]> (files w) |})
  | Err e => (Err e, w)
  | Panic p => (Panic p, w)
  end.

(** [write!(file, ..)]: text goes to the end of the file. *)
Definition write `{!BuildEnv} (path text : string) : io build string () := λ w,
  match file_write path text with
  | Ok _ => (Ok (), {| stdout := stdout w; stderr := stderr w;
                       files := <[path := default "" (files w !! path) +:+ text]> (files w) |})
  | Err e => (Err e, w)
  | Panic p => (Panic p, w)
  end.

(** [.unwrap()] and [.expect(..)] on a computation. *)
Definition io_unwrap {W E A} (msg : string → string) (m : io W string A) : io W E A := λ w,
  let '(r, w') := m w in (unwrap msg r, w').

Definition newline : string := String (Ascii.ascii_of_nat 10) EmptyString.

(** [sp1_prover::SP1Prover] and the encodings of a key that the scripts print. *)
Class ElfPrimitives (W : Type) `{VKeyHashes W} := {
  SP1Prover : Type;
  SP1Prover_new : SP1Prover;
  setup : SP1Prover → bytes → outcome Empty_set SP1VerifyingKey;
  (** [bincode_codec().serialize]. *)
  serialize_vkey : SP1VerifyingKey → outcome string bytes;
}.

Class ElfPrimitivesLaws (W : Type) `{ElfPrimitives W} : Prop := {
  vkey_of_bytes vkey bs : serialize_vkey vkey = Ok bs → deserialize_vkey bs = Some vkey;
  hash_u32_range vkey h : hash_u32 vkey = Ok h → Forall (in_width 32) (vec_to_list h);
}.

(** ** [ElfInfo] and [Emitter] *)

Section elf_info.
Context {W : Type} `{!BuildEnv, !Sp1Sdk W, !P3Fields, !VKeyHashes W, !ElfPrimitives W}.

Record ElfInfo : Type := { ei_prover : option SP1Prover; ei_output : string }.

Record Emitter : Type := {
  em_context : ElfInfo;
  em_elf : bytes;
  em_vkey : option SP1VerifyingKey;
}.

Definition writing_to (file_name : string) : io build Empty_set ElfInfo :=
  _ ← println "cargo::rerun-if-changed=build.rs";
  dir ← lift (unwrap (λ _, "output directory") (ok_or () OUT_DIR));
  let path := path_join dir file_name in
  _ ← io_unwrap (λ e, "elf info output file: " +:+ e) (create path);
  mret {| ei_prover := None; ei_output := path |}.

(** [.unwrap()] on the writes. *)
Definition emit_line (self : Emitter) (text : string) : io build Empty_set () :=
  io_unwrap (λ e, e) (write (ei_output (em_context self)) text).

Definition emitter_new (context : ElfInfo) (name : string) (elf : bytes)
    : io build Empty_set Emitter :=
  _ ← io_unwrap (λ e, e)
        (write (ei_output context) ("pub mod " +:+ name +:+ " {" +:+ newline));
  mret {| em_context := context; em_elf := elf; em_vkey := None |}.

(** [ElfInfo::module] and [ElfInfo::module_from_file]. *)
Definition elf_module (self : ElfInfo) (module_name : string) (elf_bytes : bytes)
    : io build Empty_set Emitter :=
  emitter_new self module_name elf_bytes.

Definition module_from_file (self : ElfInfo) (module_name elf_path : string)
    : io build Empty_set Emitter :=
  _ ← println ("cargo::rerun-if-changed=" +:+ elf_path);
  elf_bytes ← lift (unwrap (λ e, e) (fs_read elf_path));
  elf_module self module_name elf_bytes.

Definition emitter_finish (self : Emitter) : io build Empty_set ElfInfo :=
  _ ← emit_line self ("}" +:+ newline);
  mret (em_context self).

(** [ElfInfo::prover]: created on first use. *)
Definition elf_prover (self : ElfInfo) : SP1Prover * ElfInfo :=
  match ei_prover self with
  | Some prover => (prover, self)
  | None => (SP1Prover_new, {| ei_prover := Some SP1Prover_new; ei_output := ei_output self |})
  end.

(** [Emitter::vkey]: the key is set up on first use. *)
Definition emitter_vkey (self : Emitter) : io build Empty_set (SP1VerifyingKey * Emitter) :=
  match em_vkey self with
  | Some vkey => mret (vkey, self)
  | None =>
      let '(prover, context) := elf_prover (em_context self) in
      vkey ← lift (setup prover (em_elf self));
      mret (vkey, {| em_context := context; em_elf := em_elf self; em_vkey := Some vkey |})
  end.

Definition emit_vkey_bytes (self : Emitter) : io build Empty_set Emitter :=
  '(vkey, self) ← emitter_vkey self;
  bytes ← lift (unwrap (λ e, e) (serialize_vkey vkey));
  _ ← emit_line self ("    pub const VKEY_BYTES: &[u8] = &" +:+ debug_array (b2z <$> bytes) +:+
                      ";" +:+ newline);
  mret self.

Definition emit_vkey_hash (self : Emitter) : io build Empty_set Emitter :=
  '(vkey, self) ← emitter_vkey self;
  hash ← lift (hash_u32 vkey);
  _ ← emit_line self ("    pub const VKEY_HASH: [u32; 8] = " +:+
                      debug_array (vec_to_list hash) +:+ ";" +:+ newline);
  mret self.

Definition emit_vkey_commitment (self : Emitter) : io build Empty_set Emitter :=
  '(vkey, self) ← emitter_vkey self;
  commitment ← lift (hash_bytes vkey);
  _ ← emit_line self ("    pub const VKEY_COMMITMENT: [u8; 32] = " +:+
                      debug_array (b2z <$> vec_to_list commitment) +:+ ";" +:+ newline);
  mret self.

(** *** [crates/proposer-elfs/build.rs] *)

(** The programs [./cdk-range] and [./aggregation-elf] next to the script. *)
Definition proposer_elfs_main (erigon_bytes erigon_agg : bytes) : io build Empty_set () :=
  _ ← lift (unwrap (λ e, e) color_eyre_install);
  info ← writing_to "vkeys_raw.rs";
  emitter ← elf_module info "aggregation" erigon_agg;
  emitter ← emit_vkey_bytes emitter;
  emitter ← emit_vkey_hash emitter;
  info ← emitter_finish emitter;
  emitter ← elf_module info "range" erigon_bytes;
  emitter ← emit_vkey_bytes emitter;
  emitter ← emit_vkey_hash emitter;
  emitter ← emit_vkey_commitment emitter;
  _ ← emitter_finish emitter;
  mret ().
End elf_info.

(** ** The version of the guest program *)

(** [toml::Value], of which tables and strings matter, and the parsers of [toml] and
    [semver]. *)
Inductive toml_value : Type :=
  | TomlTable (entries : list (string * toml_value))
  | TomlString (s : string)
  | TomlOther.

Class TomlSemver := {
  toml_parse : string → outcome string toml_value;
  (** [Version::parse], of which the major number matters. *)
  version_parse : string → outcome string Z;
}.

Definition toml_get (v : toml_value) (key : string) : option toml_value :=
  match v with
  | TomlTable entries => snd <$> List.find (λ '(k, _), bool_decide (k = key)) entries
  | _ => None
  end.

Definition toml_as_str (v : toml_value) : option string :=
  match v with TomlString s => Some s | _ => None end.

Section version.
Context `{!BuildEnv, !TomlSemver}.

(** The value of [version]; the inner [expect] panics on a version that does not parse, the
    outer one when there is none. *)
Definition extract_version (parsed_toml : toml_value) : outcome Empty_set Z :=
  match toml_get parsed_toml "package" ≫= (λ pkg, toml_get pkg "version") with
  | None => Panic (PayloadStr "Unable to extract version")
  | Some v =>
      match toml_as_str v with
      | None => Panic (PayloadStr "Unable to extract version")
      | Some s => unwrap (λ e, "Unable to extract version: " +:+ e) (version_parse s)
      end
  end.

Definition proof_core_main : io build Empty_set () :=
  _ ← lift (unwrap (λ e, e) color_eyre_install);
  _ ← println "cargo:rerun-if-changed=Cargo.toml";
  let cargo_toml_path := "../aggchain-proof-program/Cargo.toml" in
  _ ← println ("cargo:rerun-if-changed=" +:+ cargo_toml_path);
  cargo_toml ← lift (unwrap (λ e, "Failed to read Cargo.toml: " +:+ e)
    (fs_read_to_string cargo_toml_path));
  parsed_toml ← lift (unwrap (λ e, "Failed to parse Cargo.toml: " +:+ e)
    (toml_parse cargo_toml));
  version ← lift (extract_version parsed_toml);
  let major_version := to_string version in
  dir ← lift (unwrap (λ _, "OUT_DIR not set") (ok_or () OUT_DIR));
  let dest_path := path_join dir "version.rs" in
  io_unwrap (λ e, "Failed to write aggchain-proof-core version.rs: " +:+ e)
    (_ ← create dest_path;
     write dest_path ("pub const AGGCHAIN_PROOF_PROGRAM_VERSION: u16 = " +:+ major_version +:+
                      ";" +:+ newline)).
End version.

(** ** Scripts that only call tools

    [crates/aggchain-proof-builder/build.rs] has the guest program built, and
    [crates/aggkit-prover/build.rs] the version variables emitted. *)

(** [agglayer_elf_build::build_program], and [vergen_git2]: the builders of a set of
    instructions and of an emitter; their effects are on the output for cargo. *)
Class BuildTools := {
  build_program : string → io build string string;
  Git2Builder : Type;
  git2_default : Git2Builder;
  git2_describe : Git2Builder → bool → bool → option string → Git2Builder;
  git2_commit_timestamp : Git2Builder → bool → Git2Builder;
  Git2 : Type;
  git2_build : Git2Builder → outcome string Git2;
  Emitter_git : Type;
  emitter_git_new : Emitter_git;
  add_instructions : Emitter_git → Git2 → outcome string Emitter_git;
  emit : Emitter_git → io build string ();
}.

Section tools.
Context `{!BuildEnv, !BuildTools}.

Definition builder_build_main : io build string () :=
  _ ← lift color_eyre_install;
  elf_path ← build_program "crates/aggchain-proof-program";
  _ ← eprintln ("ELF_PATH=" +:+ elf_path);
  mret ().

Definition aggkit_build_main : io build string () :=
  _ ← lift color_eyre_install;
  git2 ← lift (git2_build
    (git2_commit_timestamp (git2_describe git2_default true true None) true));
  emitter ← lift (add_instructions emitter_git_new git2);
  _ ← emit emitter;
  mret ().

(** The guest is built once, and its path is the last thing logged. *)
Lemma builder_build_logs w w' :
  builder_build_main w = (Ok (), w') →
  ∃ elf_path w1, build_program "crates/aggchain-proof-program" w = (Ok elf_path, w1) ∧
    stderr w' = stderr w1 ++ ["ELF_PATH=" +:+ elf_path] ∧
    stdout w' = stdout w1 ∧ files w' = files w1.
Proof.
  unfold builder_build_main. intros Hm. io_step Hm as u w0 Hu. apply lift_ok in Hu as [_ ->].
  io_step Hm as elf_path w1 Hb. io_step Hm as u' w2 Hp. injection Hp as _ <-.
  injection Hm as <-. by exists elf_path, w1.
Qed.
End tools.

(** ** Reading the emitted source *)

Definition is_ident (c : Ascii.ascii) : bool :=
  let n := Z.of_N (Ascii.N_of_ascii c) in
  is_digit c || ((65 <=? n) && (n <=? 90)) || ((97 <=? n) && (n <=? 122)) || (n =? 95).

Definition not_equals (c : Ascii.ascii) : bool := negb (Z.of_N (Ascii.N_of_ascii c) =? 61).

(** A constant: its name, its type, and an array, by value or by reference. *)
Record rust_const : Type := {
  rc_name : string;
  rc_type : string;
  rc_ref : bool;
  rc_value : list Z;
}.

Definition print_const (c : rust_const) : string :=
  "    pub const " +:+ rc_name c +:+ ": " +:+ rc_type c +:+ " = " +:+
  (if rc_ref c then "&" else "") +:+ debug_array (rc_value c) +:+ ";" +:+ newline.

Definition read_const (s : string) : option ((string * list Z) * string) :=
  s ← strip_prefix "    pub const " s;
  let '(name, s) := span is_ident s in
  s ← strip_prefix ": " s;
  let '(_, s) := span not_equals s in
  s ← strip_prefix "= " s;
  '(value, s) ← read_array (default s (strip_prefix "&" s));
  s ← strip_prefix (";" +:+ newline) s;
  Some ((name, value), s).

Fixpoint read_consts (fuel : nat) (s : string) : option (list (string * list Z) * string) :=
  match fuel with
  | O => None
  | S fuel =>
      match strip_prefix ("}" +:+ newline) s with
      | Some s => Some ([], s)
      | None =>
          '(c, s) ← read_const s;
          '(cs, s) ← read_consts fuel s;
          Some (c :: cs, s)
      end
  end.

(** A file of modules of constants; every constant and module takes a character. *)
Fixpoint read_modules (fuel : nat) (s : string)
    : option (list (string * list (string * list Z))) :=
  match fuel with
  | O => None
  | S fuel =>
      if decide (s = "") then Some [] else
      s ← strip_prefix "pub mod " s;
      let '(name, s) := span is_ident s in
      s ← strip_prefix (" {" +:+ newline) s;
      '(cs, s) ← read_consts (String.length s) s;
      ms ← read_modules fuel s;
      Some ((name, cs) :: ms)
  end.

Definition read_file (s : string) : option (list (string * list (string * list Z))) :=
  read_modules (S (String.length s)) s.

Definition print_module (m : string * list rust_const) : string :=
  "pub mod " +:+ m.1 +:+ " {" +:+ newline +:+
  foldr (λ c s, print_const c +:+ s) ("}" +:+ newline) m.2.

Definition print_file (ms : list (string * list rust_const)) : string :=
  foldr (λ m s, print_module m +:+ s) "" ms.

(** The constants of a module, without their types. *)
Definition consts_of (m : string * list rust_const) : string * list (string * list Z) :=
  (m.1, map (λ c, (rc_name c, rc_value c)) m.2).

Definition const_ok (c : rust_const) : Prop :=
  all_chars is_ident (rc_name c) ∧ all_chars not_equals (rc_type c) ∧
  Forall (λ n, 0 <= n) (rc_value c).

Lemma all_chars_app P s1 s2 : all_chars P s1 → all_chars P s2 → all_chars P (s1 +:+ s2).
Proof. unfold all_chars. rewrite list_ascii_of_string_app, Forall_app. done. Qed.

Lemma read_const_print c rest :
  const_ok c → read_const (print_const c +:+ rest) = Some ((rc_name c, rc_value c), rest).
Proof.
  intros (Hn & Ht & Hv). unfold read_const, print_const. rewrite <-!string_app_assoc.
  rewrite strip_prefix_app. cbn [mbind option_bind].
  rewrite span_app by done. cbv beta iota.
  rewrite strip_prefix_app. cbn [mbind option_bind].
  change (" = " +:+ ?s) with (" " +:+ "= " +:+ s). rewrite string_app_assoc.
  rewrite span_app by (done || by apply all_chars_app; [|repeat constructor]). cbv beta iota.
  rewrite strip_prefix_app. cbn [mbind option_bind].
  assert (∀ s, default ((if rc_ref c then "&" else "") +:+ debug_array (rc_value c) +:+ s)
      (strip_prefix "&" ((if rc_ref c then "&" else "") +:+ debug_array (rc_value c) +:+ s)) =
    debug_array (rc_value c) +:+ s) as ->.
  { intros s. by destruct (rc_ref c). }
  rewrite read_array_debug by done. cbn [mbind option_bind].
  rewrite (string_app_assoc ";" newline rest), strip_prefix_app. done.
Qed.

Lemma print_const_length c : (0 < String.length (print_const c))%nat.
Proof. unfold print_const. rewrite string_app_length. simpl. lia. Qed.

Lemma read_consts_print cs rest fuel :
  Forall const_ok cs → (length cs < fuel)%nat →
  read_consts fuel (foldr (λ c s, print_const c +:+ s) ("}" +:+ newline) cs +:+ rest) =
  Some (map (λ c, (rc_name c, rc_value c)) cs, rest).
Proof.
  intros Hcs. revert fuel. induction Hcs as [|c cs Hc _ IH]; intros fuel Hf.
  - destruct fuel as [|fuel]; [simpl in Hf; lia|]. cbn [foldr read_consts].
    by rewrite strip_prefix_app.
  - destruct fuel as [|fuel]; [simpl in Hf; lia|]. cbn [foldr read_consts].
    rewrite <-string_app_assoc, read_const_print by done. cbn [mbind option_bind].
    rewrite IH by (simpl in Hf; lia). done.
Qed.

Lemma foldr_length_le cs tail :
  (length cs + String.length tail <=
   String.length (foldr (λ c s, print_const c +:+ s) tail cs))%nat.
Proof.
  induction cs as [|c cs IH]; [done|]. cbn [foldr length]. rewrite string_app_length.
  pose proof (print_const_length c). lia.
Qed.

(** Whatever file of such modules is printed, the reader gets its constants. *)
Lemma read_file_print ms :
  Forall (λ m, all_chars is_ident m.1 ∧ Forall const_ok m.2) ms →
  read_file (print_file ms) = Some (map consts_of ms).
Proof.
  intros Hms. unfold read_file.
  assert (length ms < S (String.length (print_file ms)))%nat as Hf.
  { clear. induction ms as [|m ms IH]; [simpl; lia|]. cbn [print_file foldr length].
    fold (print_file ms). rewrite string_app_length. unfold print_module.
    rewrite string_app_length. simpl in *. lia. }
  revert Hf. generalize (S (String.length (print_file ms))) as fuel.
  induction Hms as [|[name cs] ms [Hn Hcs] _ IH]; intros fuel Hf.
  - destruct fuel as [|fuel]; [lia|]. done.
  - destruct fuel as [|fuel]; [lia|]. cbn [print_file foldr]. fold (print_file ms).
    unfold print_module. cbn [fst snd read_modules]. rewrite <-!string_app_assoc.
    rewrite decide_False by done. rewrite strip_prefix_app. cbn [mbind option_bind].
    rewrite span_app by done. cbv beta iota.
    rewrite (string_app_assoc " {" newline), strip_prefix_app. cbn [mbind option_bind].
    rewrite read_consts_print; [|done|].
    + cbn [mbind option_bind]. rewrite IH by (simpl in Hf; lia). done.
    + rewrite string_app_length. pose proof (foldr_length_le cs ("}" +:+ newline)).
      simpl String.length in *. lia.
Qed.

(** ** The constants of [proposer_elfs] *)

(** The literals of the arrays are checked against their types. *)
Definition u8_literals (l : list Z) : option bytes :=
  if forallb (λ n, (0 <=? n) && (n <? 256)) l then Some (z2b <$> l) else None.

Definition u32_literals (l : list Z) : option (vec Z 8) :=
  if forallb (λ n, (0 <=? n) && (n <? 2 ^ 32)) l then
    match l with
    | [a; b; c; d; e; f; g; h] => Some [# a; b; c; d; e; f; g; h]
    | _ => None
    end
  else None.

Definition assoc_get {A} (key : string) (l : list (string * A)) : option A :=
  option_map snd (List.find (λ kv, String.eqb kv.1 key) l).

Definition find_const (ms : list (string * list (string * list Z))) (module name : string)
    : option (list Z) :=
  match assoc_get module ms with
  | Some cs => assoc_get name cs
  | None => None
  end.

Definition u8_const ms (module name : string) : option bytes :=
  match find_const ms module name with Some l => u8_literals l | None => None end.
Definition u32_const ms (module name : string) : option (vec Z 8) :=
  match find_const ms module name with Some l => u32_literals l | None => None end.

(** [mod vkeys_raw], included from the output directory. *)
Record vkeys_raw : Type := {
  raw_aggregation_bytes : bytes;
  raw_aggregation_hash : vec Z 8;
  raw_range_bytes : bytes;
  raw_range_hash : vec Z 8;
  raw_range_commitment : u8s 32;
}.

Definition include_vkeys_raw (source : string) : option vkeys_raw :=
  ms ← read_file source;
  aggregation_bytes ← u8_const ms "aggregation" "VKEY_BYTES";
  aggregation_hash ← u32_const ms "aggregation" "VKEY_HASH";
  range_bytes ← u8_const ms "range" "VKEY_BYTES";
  range_hash ← u32_const ms "range" "VKEY_HASH";
  commitment ← u8_const ms "range" "VKEY_COMMITMENT";
  range_commitment ← to_array 32 commitment;
  Some {| raw_aggregation_bytes := aggregation_bytes;
          raw_aggregation_hash := aggregation_hash;
          raw_range_bytes := range_bytes;
          raw_range_hash := range_hash;
          raw_range_commitment := range_commitment |}.

Lemma u8_literals_bytes bs : u8_literals (b2z <$> bs) = Some bs.
Proof.
  unfold u8_literals.
  assert (forallb (λ n, (0 <=? n) && (n <? 256)) (b2z <$> bs) = true) as ->.
  { apply forallb_forall. intros n Hn. apply list_elem_of_In, list_elem_of_fmap in Hn as (b & -> & _).
    pose proof (b2z_range b). apply andb_true_intro. split; [apply Z.leb_le|apply Z.ltb_lt]; lia. }
  f_equal. rewrite <-list_fmap_compose. rewrite <-(list_fmap_id bs) at 2.
  apply list_fmap_ext. intros i b _. apply z2b_b2z.
Qed.

Lemma u32_literals_hash (h : vec Z 8) :
  Forall (in_width 32) (vec_to_list h) → u32_literals (vec_to_list h) = Some h.
Proof.
  intros Hh. unfold u32_literals.
  assert (forallb (λ n, (0 <=? n) && (n <? 2 ^ 32)) (vec_to_list h) = true) as ->.
  { apply forallb_forall. intros n Hn. apply list_elem_of_In in Hn.
    rewrite list.Forall_forall in Hh. specialize (Hh n Hn). unfold in_width in Hh.
    apply andb_true_intro. split; [apply Z.leb_le|apply Z.ltb_lt]; lia. }
  clear Hh. do 8 (apply (Vector.caseS' h); clear h; intros ? h). pattern h. by apply Vector.case0.
Qed.

Section elfs.
Context {W : Type} `{!BuildEnv, !Sp1Sdk W, !P3Fields, !VKeyHashes W, !ElfPrimitives W}.

(** [proposer_elfs]: [aggregation::{VKEY, VKEY_HASH}], [range::{VKEY, VKEY_HASH,
    VKEY_COMMITMENT}]. *)
Definition raw_elfs (raw : vkeys_raw) : ProposerElfs W := {|
  aggregation_VKEY_BYTES := raw_aggregation_bytes raw;
  aggregation_VKEY_HASH_U32 := raw_aggregation_hash raw;
  range_VKEY_COMMITMENT := raw_range_commitment raw;
|}.

Definition range_VKEY (raw : vkeys_raw) : outcome Empty_set SP1VerifyingKey :=
  (lazy_vkey (from_unparsed_bytes (raw_range_bytes raw))).1.

Definition range_VKEY_HASH (raw : vkeys_raw) : VKeyHash := from_hash_u32 (raw_range_hash raw).

(** *** What an emitter appends *)

Definition file_text (w : build) (path : string) : string := default "" (files w !! path).

(** An emitter that holds the key of its program, if any. *)
Definition emitter_wf (self : Emitter) : Prop :=
  (∀ vkey, em_vkey self = Some vkey → setup SP1Prover_new (em_elf self) = Ok vkey) ∧
  (∀ prover, ei_prover (em_context self) = Some prover → prover = SP1Prover_new).

Definition info_wf (self : ElfInfo) : Prop :=
  ∀ prover, ei_prover self = Some prover → prover = SP1Prover_new.

Lemma io_unwrap_ok {W' E A} msg (m : io W' string A) w a w' :
  io_unwrap (E:=E) msg m w = (Ok a, w') ↔ m w = (Ok a, w').
Proof. unfold io_unwrap. destruct (m w) as [[?|?|?] ?]; simpl; naive_solver. Qed.

Lemma write_text path text w w' :
  write path text w = (Ok tt, w') → file_text w' path = file_text w path +:+ text.
Proof.
  unfold write. destruct (file_write path text); [|done..]. intros [= <-].
  unfold file_text. simpl. by rewrite lookup_insert_eq.
Qed.

(** The three emitters are one, that renders the key. *)
Definition emit_const (render : SP1VerifyingKey → outcome Empty_set rust_const)
    (self : Emitter) : io build Empty_set Emitter :=
  '(vkey, self) ← emitter_vkey self;
  c ← lift (render vkey);
  _ ← emit_line self (print_const c);
  mret self.

Definition bytes_const (vkey : SP1VerifyingKey) : outcome Empty_set rust_const :=
  (λ bytes, {| rc_name := "VKEY_BYTES"; rc_type := "&[u8]"; rc_ref := true;
               rc_value := b2z <$> bytes |}) <$> unwrap (λ e, e) (serialize_vkey vkey).
Definition hash_const (vkey : SP1VerifyingKey) : outcome Empty_set rust_const :=
  (λ hash, {| rc_name := "VKEY_HASH"; rc_type := "[u32; 8]"; rc_ref := false;
              rc_value := vec_to_list hash |}) <$> hash_u32 vkey.
Definition commitment_const (vkey : SP1VerifyingKey) : outcome Empty_set rust_const :=
  (λ commitment, {| rc_name := "VKEY_COMMITMENT"; rc_type := "[u8; 32]"; rc_ref := false;
                    rc_value := b2z <$> vec_to_list commitment |}) <$> hash_bytes vkey.

Lemma emit_is_const self w :
  emit_vkey_bytes self w = emit_const bytes_const self w ∧
  emit_vkey_hash self w = emit_const hash_const self w ∧
  emit_vkey_commitment self w = emit_const commitment_const self w.
Proof.
  unfold emit_vkey_bytes, emit_vkey_hash, emit_vkey_commitment, emit_const, bytes_const,
    hash_const, commitment_const, mbind, io_bind, lift.
  destruct (emitter_vkey self w) as [[[vkey self']|?|?] w']; [|done..]. split_and!.
  - by destruct (serialize_vkey vkey).
  - by destruct (hash_u32 vkey).
  - by destruct (hash_bytes vkey).
Qed.

Lemma emitter_vkey_ok self w vkey self' w' :
  emitter_wf self → emitter_vkey self w = (Ok (vkey, self'), w') →
  setup SP1Prover_new (em_elf self) = Ok vkey ∧ w' = w ∧ emitter_wf self' ∧
  em_elf self' = em_elf self ∧ ei_output (em_context self') = ei_output (em_context self).
Proof.
  intros [Hk Hp]. unfold emitter_vkey. destruct (em_vkey self) as [k|] eqn:Hvk.
  { intros [= -> -> ->]. split_and!; [by apply Hk|done| |done..]. split; [|done].
    intros ? Hs. rewrite Hvk in Hs. by apply Hk. }
  unfold elf_prover. destruct (ei_prover (em_context self)) as [prover|] eqn:Hpr.
  - pose proof (Hp _ eq_refl) as ->. intros Hr. io_step Hr as k w1 Hs.
    apply lift_ok in Hs as [Hs ->]. injection Hr as <- <- <-. split_and!; [done|done| |done..].
    split; simpl; [by intros ? [= <-]|]. intros ? Hpr'. rewrite Hpr in Hpr'. by apply Hp.
  - intros Hr. io_step Hr as k w1 Hs. apply lift_ok in Hs as [Hs ->].
    injection Hr as <- <- <-. split_and!; [done|done| |done..].
    split; simpl; [by intros ? [= <-]|by intros ? [= <-]].
Qed.

Lemma emit_const_ok render self w self' w' :
  emitter_wf self → emit_const render self w = (Ok self', w') →
  ∃ vkey c, setup SP1Prover_new (em_elf self) = Ok vkey ∧ render vkey = Ok c ∧
    emitter_wf self' ∧ em_elf self' = em_elf self ∧
    ei_output (em_context self') = ei_output (em_context self) ∧
    file_text w' (ei_output (em_context self)) =
      file_text w (ei_output (em_context self)) +:+ print_const c.
Proof.
  intros Hwf Hr. unfold emit_const in Hr.
  apply io_bind_ok in Hr as ([vkey em] & w1 & Hv & Hr).
  apply emitter_vkey_ok in Hv as (Hs & -> & Hwf' & He & Ho); [|done].
  io_step Hr as c w2 Hc. apply lift_ok in Hc as [Hc ->].
  io_step Hr as u w3 Hw. injection Hr as <- <-. destruct u.
  apply io_unwrap_ok, write_text in Hw. rewrite Ho in Hw.
  exists vkey, c. by split_and!.
Qed.

Lemma writing_to_ok file_name w info w' :
  writing_to file_name w = (Ok info, w') →
  info_wf info ∧ ∃ dir, OUT_DIR = Some dir ∧ ei_output info = path_join dir file_name ∧
  file_text w' (path_join dir file_name) = "".
Proof.
  unfold writing_to. intros Hr. io_step Hr as u w1 Hp. io_step Hr as dir w2 Hd.
  apply lift_ok in Hd as [Hd%unwrap_ok%ok_or_ok ->].
  io_step Hr as u' w3 Hc. injection Hr as <- <-. split; [by intros ?|].
  exists dir. split_and!; [done..|]. apply io_unwrap_ok in Hc.
  unfold create in Hc. destruct (file_create _); [|done..]. injection Hc as _ <-.
  unfold file_text. simpl. by rewrite lookup_insert_eq.
Qed.

Lemma elf_module_ok info name elf w em w' :
  info_wf info → elf_module info name elf w = (Ok em, w') →
  emitter_wf em ∧ em_elf em = elf ∧ ei_output (em_context em) = ei_output info ∧
  file_text w' (ei_output info) =
    file_text w (ei_output info) +:+ "pub mod " +:+ name +:+ " {" +:+ newline.
Proof.
  intros Hwf. unfold elf_module, emitter_new. intros Hr. io_step Hr as u w1 Hw.
  injection Hr as <- <-. destruct u. apply io_unwrap_ok, write_text in Hw.
  split_and!; [|done..]. split; [by intros ?|done].
Qed.

Lemma emitter_finish_ok em w info w' :
  emitter_wf em → emitter_finish em w = (Ok info, w') →
  info_wf info ∧ ei_output info = ei_output (em_context em) ∧
  file_text w' (ei_output (em_context em)) =
    file_text w (ei_output (em_context em)) +:+ "}" +:+ newline.
Proof.
  intros [_ Hwf]. unfold emitter_finish. intros Hr. io_step Hr as u w1 Hw.
  injection Hr as <- <-. destruct u. apply io_unwrap_ok, write_text in Hw. done.
Qed.

(** The text of the file after a successful run. *)
Lemma proposer_elfs_main_text erigon_bytes erigon_agg w w' :
  proposer_elfs_main erigon_bytes erigon_agg w = (Ok tt, w') →
  ∃ dir agg range agg_bytes agg_hash range_bytes range_hash range_commitment,
    OUT_DIR = Some dir ∧
    setup SP1Prover_new erigon_agg = Ok agg ∧ setup SP1Prover_new erigon_bytes = Ok range ∧
    bytes_const agg = Ok agg_bytes ∧ hash_const agg = Ok agg_hash ∧
    bytes_const range = Ok range_bytes ∧ hash_const range = Ok range_hash ∧
    commitment_const range = Ok range_commitment ∧
    file_text w' (path_join dir "vkeys_raw.rs") =
      print_file [("aggregation", [agg_bytes; agg_hash]);
                  ("range", [range_bytes; range_hash; range_commitment])].
Proof.
  unfold proposer_elfs_main. intros Hr. io_step Hr as u0 w0 Hc.
  io_step Hr as info w1 Hi. apply writing_to_ok in Hi as (Hwf1 & dir & Hdir & Ho1 & Ht1).
  io_step Hr as em2 w2 Hm. apply elf_module_ok in Hm as (Hwf2 & He2 & Ho2 & Ht2); [|done].
  io_step Hr as em3 w3 H3. rewrite (proj1 (emit_is_const _ _)) in H3.
  apply emit_const_ok in H3 as (agg & c3 & Hs & Hc3 & Hwf3 & He3 & Ho3 & Ht3); [|done].
  io_step Hr as em4 w4 H4. rewrite (proj1 (proj2 (emit_is_const _ _))) in H4.
  apply emit_const_ok in H4 as (agg' & c4 & Hs' & Hc4 & Hwf4 & He4 & Ho4 & Ht4); [|done].
  io_step Hr as info5 w5 H5. apply emitter_finish_ok in H5 as (Hwf5 & Ho5 & Ht5); [|done].
  io_step Hr as em6 w6 Hm. apply elf_module_ok in Hm as (Hwf6 & He6 & Ho6 & Ht6); [|done].
  io_step Hr as em7 w7 H7. rewrite (proj1 (emit_is_const _ _)) in H7.
  apply emit_const_ok in H7 as (range & c7 & Hs7 & Hc7 & Hwf7 & He7 & Ho7 & Ht7); [|done].
  io_step Hr as em8 w8 H8. rewrite (proj1 (proj2 (emit_is_const _ _))) in H8.
  apply emit_const_ok in H8 as (range' & c8 & Hs8 & Hc8 & Hwf8 & He8 & Ho8 & Ht8); [|done].
  io_step Hr as em9 w9 H9. rewrite (proj2 (proj2 (emit_is_const _ _))) in H9.
  apply emit_const_ok in H9 as (range'' & c9 & Hs9 & Hc9 & Hwf9 & He9 & Ho9 & Ht9); [|done].
  io_step Hr as info10 w10 H10. apply emitter_finish_ok in H10 as (_ & _ & Ht10); [|done].
  injection Hr as <-.
  rewrite He2 in Hs. rewrite He3, He2, Hs in Hs'. injection Hs' as <-.
  rewrite He6 in Hs7. rewrite He7, He6, Hs7 in Hs8. injection Hs8 as <-.
  rewrite He8, He7, He6, Hs7 in Hs9. injection Hs9 as <-.
  exists dir, agg, range, c3, c4, c7, c8, c9. split_and!; [done..|].
  rewrite Ho9, Ho8, Ho7, Ho6, Ho5, Ho4, Ho3, Ho2, Ho1 in Ht10.
  rewrite Ho8, Ho7, Ho6, Ho5, Ho4, Ho3, Ho2, Ho1 in Ht9.
  rewrite Ho7, Ho6, Ho5, Ho4, Ho3, Ho2, Ho1 in Ht8.
  rewrite Ho6, Ho5, Ho4, Ho3, Ho2, Ho1 in Ht7. rewrite Ho5, Ho4, Ho3, Ho2, Ho1 in Ht6.
  rewrite Ho4, Ho3, Ho2, Ho1 in Ht5. rewrite Ho3, Ho2, Ho1 in Ht4.
  rewrite Ho2, Ho1 in Ht3. rewrite Ho1 in Ht2.
  rewrite Ht10, Ht9, Ht8, Ht7, Ht6, Ht5, Ht4, Ht3, Ht2, Ht1.
  unfold print_file, print_module. cbn [foldr fst snd].
  by rewrite <-!string_app_assoc.
Qed.
End elfs.

(** ** Properties *)

Section properties.
Context {W : Type} `{!BuildEnv, !Sp1Sdk W, !P3Fields, !VKeyHashes W, !ElfPrimitives W,
  !ElfPrimitivesLaws W}.

Lemma nonneg_bytes bs : Forall (λ n, 0 <= n) (b2z <$> bs).
Proof. rewrite Forall_fmap. apply Forall_true. intros b. apply b2z_range. Qed.

(** What the three kinds of constants hold, and that they can be read. *)
Lemma bytes_const_ok vkey c :
  bytes_const vkey = Ok c → const_ok c ∧ rc_name c = "VKEY_BYTES" ∧
  ∃ bs, rc_value c = b2z <$> bs ∧ deserialize_vkey bs = Some vkey.
Proof.
  intros (bs & Hs%unwrap_ok & ->)%outcome_fmap_ok. split_and!; [|done|].
  - split_and!; [by repeat constructor..|apply nonneg_bytes].
  - exists bs. split; [done|]. by apply vkey_of_bytes.
Qed.

Lemma hash_const_ok vkey c :
  hash_const vkey = Ok c → const_ok c ∧ rc_name c = "VKEY_HASH" ∧
  ∃ h, rc_value c = vec_to_list h ∧ hash_u32 vkey = Ok h ∧ u32_literals (vec_to_list h) = Some h.
Proof.
  intros (h & Hs & ->)%outcome_fmap_ok. pose proof (hash_u32_range _ _ Hs) as Hh.
  split_and!; [|done|].
  - split_and!; [by repeat constructor..|]. simpl. revert Hh. apply Forall_impl.
    by intros n [Hn _].
  - exists h. split_and!; [done..|]. by apply u32_literals_hash.
Qed.

Lemma commitment_const_ok vkey c :
  commitment_const vkey = Ok c → const_ok c ∧ rc_name c = "VKEY_COMMITMENT" ∧
  ∃ v, rc_value c = b2z <$> vec_to_list v ∧ hash_bytes vkey = Ok v.
Proof.
  intros (v & Hs & ->)%outcome_fmap_ok. split_and!; [|done|by exists v].
  split_and!; [by repeat constructor..|apply nonneg_bytes].
Qed.

(** C35: the constants that the build script of [proposer_elfs] writes as Rust source are
    read back, by the crate that includes them, as those of the two programs: the lazy keys
    decode, without a panic, to the keys set up from the programs, the hash constants are
    the hashes of these keys, and the commitment is that of the range key. *)
Theorem proposer_elfs_consistent erigon_bytes erigon_agg w w' :
  proposer_elfs_main erigon_bytes erigon_agg w = (Ok tt, w') →
  ∃ dir raw agg range, OUT_DIR = Some dir ∧
    include_vkeys_raw (file_text w' (path_join dir "vkeys_raw.rs")) = Some raw ∧
    setup SP1Prover_new erigon_agg = Ok agg ∧ setup SP1Prover_new erigon_bytes = Ok range ∧
    aggregation_VKEY (H1:=raw_elfs raw) = Ok agg ∧
    from_vkey agg = Ok (aggregation_VKEY_HASH (H1:=raw_elfs raw)) ∧
    range_VKEY raw = Ok range ∧ from_vkey range = Ok (range_VKEY_HASH raw) ∧
    hash_bytes range = Ok (raw_range_commitment raw).
Proof.
  intros (dir & agg & range & c1 & c2 & c3 & c4 & c5 & Hdir & Hagg & Hrange & H1 & H2 & H3 &
    H4 & H5 & Htext)%proposer_elfs_main_text.
  apply bytes_const_ok in H1 as (Hok1 & Hn1 & agg_bytes & Hv1 & Hd1).
  apply hash_const_ok in H2 as (Hok2 & Hn2 & agg_hash & Hv2 & Hh2 & Hl2).
  apply bytes_const_ok in H3 as (Hok3 & Hn3 & range_bytes & Hv3 & Hd3).
  apply hash_const_ok in H4 as (Hok4 & Hn4 & range_hash & Hv4 & Hh4 & Hl4).
  apply commitment_const_ok in H5 as (Hok5 & Hn5 & commitment & Hv5 & Hb5).
  exists dir, {| raw_aggregation_bytes := agg_bytes; raw_aggregation_hash := agg_hash;
    raw_range_bytes := range_bytes; raw_range_hash := range_hash;
    raw_range_commitment := commitment |}, agg, range.
  split_and!; [done| |done|done|..].
  - rewrite Htext. unfold include_vkeys_raw. rewrite read_file_print.
    2:{ apply Forall_cons; [split; [by repeat constructor|by repeat (apply Forall_cons; [done|])]|].
        apply Forall_cons; [|done].
        split; [by repeat constructor|by repeat (apply Forall_cons; [done|])]. }
    unfold consts_of. cbn [map fst snd mbind option_bind].
    rewrite Hn1, Hn2, Hn3, Hn4, Hn5, Hv1, Hv2, Hv3, Hv4, Hv5.
    unfold u8_const, u32_const, find_const, assoc_get. cbn -[to_array].
    rewrite !u8_literals_bytes, Hl2, Hl4. cbn -[to_array]. by rewrite to_array_vec.
  - unfold aggregation_VKEY, lazy_vkey. simpl. by rewrite Hd1.
  - unfold from_vkey. by rewrite Hh2.
  - unfold range_VKEY, lazy_vkey. simpl. by rewrite Hd3.
  - unfold from_vkey. by rewrite Hh4.
  - done.
Qed.
End properties.

(** [include!(concat!(env!("OUT_DIR"), "/version.rs"))]: the constant, when it fits its
    type. *)
Definition include_version (source : string) : option Z :=
  s ← strip_prefix "pub const AGGCHAIN_PROOF_PROGRAM_VERSION: u16 = " source;
  let '(digits, s) := span is_digit s in
  n ← parse_decimal digits;
  _ ← strip_prefix (";" +:+ newline) s;
  if n <? 2 ^ 16 then Some n else None.

Section version_properties.
Context `{!BuildEnv, !TomlSemver}.

Lemma include_version_print n :
  0 <= n →
  include_version ("pub const AGGCHAIN_PROOF_PROGRAM_VERSION: u16 = " +:+ to_string n +:+
                   ";" +:+ newline) = if n <? 2 ^ 16 then Some n else None.
Proof.
  intros Hn. unfold include_version. rewrite strip_prefix_app. cbn [mbind option_bind].
  rewrite span_app by (done || by apply (parse_decimal_digits _ n), parse_to_string).
  cbv beta iota. rewrite parse_to_string by done. cbn [mbind option_bind].
  reflexivity.
Qed.

(** What the guest's manifest has to be for a version to be extracted. *)
Definition manifest_version (cargo_toml : string) (major : Z) : Prop :=
  ∃ toml pkg s, toml_parse cargo_toml = Ok toml ∧ toml_get toml "package" = Some pkg ∧
    toml_get pkg "version" = Some (TomlString s) ∧ version_parse s = Ok major.

Lemma extract_version_ok toml major :
  extract_version toml = Ok major ↔
  ∃ pkg s, toml_get toml "package" = Some pkg ∧ toml_get pkg "version" = Some (TomlString s) ∧
    version_parse s = Ok major.
Proof.
  unfold extract_version. split.
  - destruct (toml_get toml "package") as [pkg|]; [|done]. cbn [mbind option_bind].
    destruct (toml_get pkg "version") as [[|s|]|] eqn:Hv; [done| |done..].
    intros Hm%unwrap_ok. by exists pkg, s.
  - intros (pkg & s & -> & Hv & Hm). cbn [mbind option_bind]. rewrite Hv. by apply unwrap_ok.
Qed.

(** The program version constant that [aggchain_proof_core] is compiled with is the
    major version of the guest program's manifest: a run of its build script that does not
    panic has read a manifest with such a version, and the emitted source defines the
    constant to be it; a major version beyond 16 bits does not compile. *)
Theorem proof_core_version w w' :
  (∀ s major, version_parse s = Ok major → 0 <= major) →
  proof_core_main w = (Ok tt, w') →
  ∃ dir cargo_toml major, OUT_DIR = Some dir ∧
    fs_read_to_string "../aggchain-proof-program/Cargo.toml" = Ok cargo_toml ∧
    manifest_version cargo_toml major ∧
    include_version (file_text w' (path_join dir "version.rs")) =
      if major <? 2 ^ 16 then Some major else None.
Proof.
  intros Hparse Hr. unfold proof_core_main in Hr.
  io_step Hr as u0 w0 Hc. io_step Hr as u1 w1 H1. io_step Hr as u2 w2 H2.
  io_step Hr as cargo_toml w3 Hf. apply lift_ok in Hf as [Hf%unwrap_ok _].
  io_step Hr as toml w4 Ht. apply lift_ok in Ht as [Ht%unwrap_ok _].
  io_step Hr as major w5 Hv. apply lift_ok in Hv as [(pkg & s & Hp & Hs & Hm)%extract_version_ok _].
  io_step Hr as dir w6 Hd. apply lift_ok in Hd as [Hd%unwrap_ok%ok_or_ok _].
  apply io_unwrap_ok in Hr. io_step Hr as u3 w7 Hcr.
  exists dir, cargo_toml, major. split_and!; [done..|by exists toml, pkg, s|].
  apply write_text in Hr. rewrite Hr. unfold create in Hcr.
  destruct (file_create _); [|done..]. injection Hcr as _ <-.
  unfold file_text at 1. simpl files. rewrite lookup_insert_eq. cbn [default].
  apply include_version_print. by eapply Hparse.
Qed.
End version_properties.

(** ** A sample build *)

Module BuildSample.
Import ToyAbi ToySdk.

#[export] Instance env : BuildEnv := {|
  OUT_DIR := Some "out";
  path_join dir name := dir +:+ "/" +:+ name;
  file_create _ := Ok ();
  file_write _ _ := Ok ();
  fs_read path := Err (path +:+ ": not found");
  fs_read_to_string path := Ok "guest manifest";
  color_eyre_install := Ok ();
|}.

(** A key is the length of its program; it is encoded as a byte. *)
#[export] Instance vkeys : VKeyHashes Z := {|
  hash_u32 vkey := Ok (vmap (λ n, n mod 2 ^ 32) [# vkey; 2; 3; 4; 5; 6; 7; 8]);
  hash_babybear vkey := Ok (ToyKeys.digest_of vkey : vec Z 8);
  bytes32_raw vkey := Ok (be_array 32 vkey);
  hash_bytes vkey := Ok (be_array 32 vkey);
  VKeyHash := vec Z 8;
  from_hash_u32 h := h;
  deserialize_vkey bs := if decide (length bs = 1%nat) then Some (be_value bs) else None;
|}.

#[export] Instance primitives : ElfPrimitives Z := {|
  SP1Prover := ();
  SP1Prover_new := ();
  setup _ program := Ok (Z.of_nat (length program));
  serialize_vkey vkey :=
    if (0 <=? vkey) && (vkey <? 256) then Ok [z2b vkey] else Err "key too large";
|}.

#[export] Instance primitives_laws : ElfPrimitivesLaws Z.
Proof.
  split.
  - intros vkey bs. simpl. destruct ((0 <=? vkey) && (vkey <? 256)) eqn:Hr; [|done].
    intros [= <-]. apply andb_true_iff in Hr as [H1%Z.leb_le H2%Z.ltb_lt].
    simpl. f_equal. unfold be_value. simpl. rewrite b2z_z2b, Z.mod_small by lia. lia.
  - intros vkey h Hh. injection Hh as <-. unfold in_width.
    by repeat (apply Forall_cons; [apply Z.mod_pos_bound|]).
Qed.

#[export] Instance toml : TomlSemver := {|
  toml_parse s :=
    Ok (TomlTable [("package", TomlTable [("name", TomlString "guest");
                                          ("version", TomlString "7.0.0")])]);
  version_parse s := if String.eqb s "7.0.0" then Ok 7 else Err "unexpected version";
|}.

Definition start : build := {| stdout := []; stderr := []; files := ∅ |}.

Lemma proposer_elfs_consistent_witness : ∃ w' raw,
  proposer_elfs_main [x01; x02] [x03] start = (Ok tt, w') ∧
  include_vkeys_raw (file_text w' "out/vkeys_raw.rs") = Some raw ∧
  range_VKEY raw = Ok 2.
Proof.
  destruct (proposer_elfs_main [x01; x02] [x03] start) as [r w'] eqn:Hr.
  assert (r = Ok tt) as ->.
  { transitivity (proposer_elfs_main [x01; x02] [x03] start).1; [by rewrite Hr|reflexivity]. }
  destruct (proposer_elfs_consistent [x01; x02] [x03] start w' Hr)
    as (dir & raw & agg & range & Hd & Hraw & _ & Hk & _ & _ & Hv & _).
  exists w', raw. injection Hd as <-. injection Hk as <-. split; [reflexivity|].
  split; [exact Hraw|exact Hv].
Defined.

Lemma proof_core_version_witness : ∃ w',
  proof_core_main start = (Ok tt, w') ∧
  ∃ dir cargo_toml major, OUT_DIR = Some dir ∧
    fs_read_to_string "../aggchain-proof-program/Cargo.toml" = Ok cargo_toml ∧
    manifest_version cargo_toml major ∧
    include_version (file_text w' (path_join dir "version.rs")) =
      if major <? 2 ^ 16 then Some major else None.
Proof.
  destruct (proof_core_main start) as [r w'] eqn:Hr.
  assert (r = Ok tt) as ->.
  { transitivity (proof_core_main start).1; [by rewrite Hr|reflexivity]. }
  exists w'. split; [reflexivity|]. apply (proof_core_version start w'); [|exact Hr].
  simpl. intros s major. destruct (String.eqb s "7.0.0"); [|done]. by intros [= <-].
Defined.
End BuildSample.
