(* ===== verification/Binaries.v ===== *)
(** The executables: [crates/aggkit-prover/src/{main,lib,cli/mod}.rs],
    [crates/agglayer-prover/src/lib.rs], and the test servers of the latter
    ([Prover::start] in [prover.rs], [start_prover], [FakeProver::spawn_at] in [fake.rs]).

    A process has the world of the services, the events of the engine, and its two output
    streams.  The runtimes load the configuration, create the service, put the generated
    server around it and hand it to the engine. *)

From S2P Require Import Prelude Bytes Panics Interop Abi StaticCall FilterValues Bridge Fep AggchainProof ProofInputs Config Executor Contracts Vkey Builder Proposer Service Conversion Rpc Tonic AggkitRpc AgglayerRpc Engine AggkitGrpc AgglayerGrpc.

(** ** Processes *)

Record process (W : Type) : Type := {
  p_world : W;
  p_events : list event;
  p_stdout : list string;
  p_stderr : list string;
}.
Arguments p_world {W}. Arguments p_events {W}. Arguments p_stdout {W}. Arguments p_stderr {W}.

Section process.
Context {W E A : Type}.

(** A computation of the services, and one of the engine. *)
Definition on_world (m : io W E A) : io (process W) E A := λ p,
  let '(r, w) := m (p_world p) in
  (r, {| p_world := w; p_events := p_events p; p_stdout := p_stdout p;
         p_stderr := p_stderr p |}).

Definition on_events (m : io (list event) E A) : io (process W) E A := λ p,
  let '(r, t) := m (p_events p) in
  (r, {| p_world := p_world p; p_events := t; p_stdout := p_stdout p;
         p_stderr := p_stderr p |}).

(** [println!] and [eprintln!]. *)
Definition println (line : string) : io (process W) E () := λ p,
  (Ok (), {| p_world := p_world p; p_events := p_events p;
             p_stdout := p_stdout p ++ [line]; p_stderr := p_stderr p |}).

Definition eprintln (line : string) : io (process W) E () := λ p,
  (Ok (), {| p_world := p_world p; p_events := p_events p;
             p_stdout := p_stdout p; p_stderr := p_stderr p ++ [line] |}).

Lemma on_world_ok (m : io W E A) p a p' :
  on_world m p = (Ok a, p') → m (p_world p) = (Ok a, p_world p') ∧ p_events p' = p_events p.
Proof. unfold on_world. destruct (m (p_world p)). by intros [= -> <-]. Qed.

Lemma on_events_ok (m : io (list event) E A) p a p' :
  on_events m p = (Ok a, p') → m (p_events p) = (Ok a, p_events p') ∧ p_world p' = p_world p.
Proof. unfold on_events. destruct (m (p_events p)). by intros [= -> <-]. Qed.
End process.

(** [aggkit_prover::version]: the variables are set by the build script. *)
Definition aggkit_version (CARGO_PKG_NAME VERGEN_GIT_DESCRIBE VERGEN_GIT_COMMIT_TIMESTAMP : string)
    : string :=
  CARGO_PKG_NAME +:+ " (" +:+ VERGEN_GIT_DESCRIBE +:+ ") [git commit timestamp: " +:+
  VERGEN_GIT_COMMIT_TIMESTAMP +:+ "]".

(** The commands of [cli/mod.rs]. *)
Inductive Commands : Type :=
  | Run (config_path : string)
  | Config
  | ValidateConfig (config_path : string)
  | Vkey
  | VkeySelector.

(** [ConfigurationError] as text. *)
Class ConfigErrors := {
  IoError : Type;
  TomlError : Type;
  configuration_error_display : ConfigurationError IoError TomlError → string;
}.

(** What the loaders are linked with: the file system, the TOML parser and printer, the
    logger (which panics when it is set up twice) and the [hex] crate. *)
Class BinaryDeps (C : Type) `{ConfigErrors} := {
  read_to_string : string → outcome IoError string;
  toml_deserialize : string → outcome TomlError C;
  toml_to_string_pretty : C → outcome report string;
  init_logger : Log → outcome Empty_set ();
  hex_encode : bytes → string;
}.

Definition load `{BinaryDeps C} (path : string)
    : outcome (ConfigurationError IoError TomlError) C :=
  try_load read_to_string toml_deserialize path.

(** ** The aggkit prover *)

Section aggkit.
Context {W : Type} `{!P3Fields, !Ecdsa, !UnifiedBridge, !Hashing, !SolAbi, !GlobalIndices,
  !UnspecifiedOrders, !EvmClient, !Urls, !Node W, !HostExecutor W, !Sp1Sdk W, !Sp1Proofs W,
  !Tokio W, !TowerLayers W, !BuilderDeps W, !VKeyHashes W, !ProposerElfs W,
  !ProposerGrpc W, !AggregationSdk W, !ProposerDeps (W:=W), !InteropGrpc, !RpcDeps}.
Context `{!Encodings, !Tonic W, !Message GenerateAggchainProofRequest,
  !Message GenerateAggchainProofResponse, !Message GenerateOptimisticAggchainProofRequest,
  !Message GenerateOptimisticAggchainProofResponse}.
Context `{Axum}.

Definition AggkitConfig : Type := Aggkit.AggkitProverConfig (AggchainProofServiceConfig (W:=W)).

Context `{!ConfigErrors, !BinaryDeps AggkitConfig}.

(** Build-time constants: the program and its version, the compilation flags, the embedded
    ELF of the proposer's program, the descriptor set of the messages. *)
Variables (program_version : Z) (overflow_checks info_enabled debug_assertions : bool).
Variable client_error_text : ProposerClientError W → string.
Variables (erigon_elf AGGCHAIN_PROOF_ELF FILE_DESCRIPTOR_SET : bytes).

(** The process environment and the operating system. *)
Variables (env : Env) (os : Environment).

(** axum's boxed service of a tonic server. *)
Variable boxed : (http_request Body → io W Empty_set (http_response Body)) → Handler.

Definition aggkit_rpc_service (server : GrpcServer (GrpcService (W:=W))) : rpc_service :=
  {| NAME := AggkitGrpc.SERVICE_NAME; handler := boxed (AggkitGrpc.server_call server) |}.

(** [runtime], once the configuration is loaded. *)
Definition runtime_with (config : AggkitConfig) : io (process W) report Router :=
  _ ← lift (never (init_logger (Aggkit.ak_log _ config)));
  _ ← on_events (attempt (env_runtime os AggkitRuntime) (BuiltRuntime AggkitRuntime));
  _ ← on_events (attempt (env_runtime os MetricsRuntime) (BuiltRuntime MetricsRuntime));
  grpc_service ← io_map_err (λ e, ReportMsg (service_error_display e))
    (on_world (grpc_service_new program_version overflow_checks info_enabled debug_assertions
       client_error_text env erigon_elf AGGCHAIN_PROOF_ELF
       (Aggkit.ak_aggchain_proof_service _ config)));
  let aggchain_proof_service := server_new grpc_service in
  engine ← lift (never
    (aggkit_engine config (aggkit_rpc_service aggchain_proof_service) FILE_DESCRIPTOR_SET));
  on_events (start os engine).

Definition runtime (cfg : string) : io (process W) report Router :=
  config ← lift (map_err (λ e, ReportMsg (configuration_error_display e)) (load cfg));
  runtime_with config.

(** [main], from the parsed command.  [Run] ends where the engine waits for a signal. *)
Definition main (service_default : outcome report (AggchainProofServiceConfig (W:=W)))
    (cmd : Commands) : io (process W) report () :=
  let to_toml config := map_err (ReportContext "Failed to serialize ProverConfig to TOML")
                          (toml_to_string_pretty config) in
  match cmd with
  | Run config_path =>
      _ ← runtime config_path;
      mret ()
  | Config =>
      config ← lift (Aggkit.aggkit_prover_config_default env service_default);
      config ← lift (to_toml config);
      println config
  | ValidateConfig config_path =>
      match load config_path with
      | Ok config =>
          config ← lift (to_toml config);
          println config
      | Err error => eprintln (configuration_error_display error)
      | Panic p => lift (Panic p)
      end
  | Vkey =>
      _ ← on_events (attempt (env_runtime os MainRuntime) (BuiltRuntime MainRuntime));
      executor ← on_world
        (executor_new (CpuProver cpu_prover_config_default) None AGGCHAIN_PROOF_ELF);
      vkey_hash ← lift (never (hash_bytes (get_vkey executor)));
      println ("0x" +:+ hex_encode (vec_to_list vkey_hash))
  | VkeySelector =>
      println ("0x" +:+ hex_encode
        (vec_to_list (selector_to_be_bytes (AGGCHAIN_VKEY_SELECTOR program_version))))
  end.
End aggkit.

(** ** The agglayer prover *)

Section agglayer.
Context {W : Type} `{!Sp1Sdk W, !Tokio W, !TowerLayers W, !Urls, !AgglayerWire W,
  !Metrics W, !P3Fields, !Ecdsa, !UnifiedBridge, !EvmClient, !Sp1Proofs W, !BuilderDeps W}.
Context `{!Encodings, !Tonic W, !Message GenerateProofRequest, !Message GenerateProofResponse}.
Context `{Axum, !ConfigErrors, !BinaryDeps Agglayer.AgglayerProverConfig}.

Variables (FILE_DESCRIPTOR_SET : bytes) (os : Environment).
Variable boxed : (http_request Body → io W Empty_set (http_response Body)) → Handler.

Definition agglayer_rpc_service `{!PessimisticProofService W T} (server : GrpcServer T)
    : rpc_service :=
  {| NAME := AgglayerGrpc.SERVICE_NAME; handler := boxed (AgglayerGrpc.server_call server) |}.

(** [agglayer_prover::main], once the configuration is loaded. *)
Definition agglayer_main_with (config : Agglayer.AgglayerProverConfig) (program : bytes)
    : io (process W) report Router :=
  _ ← lift (never (init_logger (Agglayer.al_log config)));
  _ ← on_events (attempt (env_runtime os AgglayerRuntime) (BuiltRuntime AgglayerRuntime));
  _ ← on_events (attempt (env_runtime os MetricsRuntime) (BuiltRuntime MetricsRuntime));
  pp_service ← io_map_err (ReportContext "Failed to create PP service")
    (on_world (create_service config program));
  engine ← lift (never (agglayer_engine config (agglayer_rpc_service pp_service)));
  on_events (start os engine).

Definition agglayer_main (cfg : string) (program : bytes) : io (process W) report Router :=
  config ← lift (map_err (λ e, ReportMsg (configuration_error_display e)) (load cfg));
  agglayer_main_with config program.

(** *** Test servers *)

(** A tonic server on a task of its own, until the token is cancelled: what it serves, and
    where. *)
Record TonicServer : Type := { ts_services : list rpc_service; ts_addr : SocketAddr }.

(** The server of both: reflection over the descriptors of the crate, health, the service. *)
Definition spawn_server `{!PessimisticProofService W T} {E} (svc : GrpcServer T)
    (addr : SocketAddr) : io (process W) E TonicServer :=
  _ ← on_events (emit (ServingStatus AgglayerGrpc.SERVICE_NAME));
  reflection ← lift (unwrap (λ e, "Cannot build gRPC because of FILE_DESCRIPTOR_SET error: " +:+
                                  report_display e)
    (build_v1alpha [FILE_DESCRIPTOR_SET]));
  mret {| ts_services :=
            [{| NAME := reflection_v1alpha_name; handler := reflection |};
             {| NAME := health_name; handler := health_handler |};
             agglayer_rpc_service svc];
          ts_addr := addr |}.

(** [Prover::start]. *)
Record Prover : Type := { prover_handle : TonicServer }.

Definition prover_start (config : Agglayer.AgglayerProverConfig) (program : bytes)
    : io (process W) report Prover :=
  svc ← io_map_err (ReportContext "Failed creating PessimisticProofServiceServer")
    (on_world (create_service config program));
  handle ← spawn_server svc (Agglayer.al_grpc_endpoint config);
  mret {| prover_handle := handle |}.

(** [Prover::await_shutdown]: [join] waits for the end of the server's task, whichever it
    is. *)
Definition await_shutdown (join : TonicServer → io (process W) Empty_set (outcome report ()))
    (self : Prover) : io (process W) Empty_set () :=
  _ ← join (prover_handle self);
  mret ().

(** [start_prover]: the test prover from its start to its end; [report_debug] is the [Debug]
    of a report. *)
Definition start_prover (report_debug : report → string)
    (join : TonicServer → io (process W) Empty_set (outcome report ()))
    (config : Agglayer.AgglayerProverConfig) (program : bytes) : io (process W) Empty_set () :=
  prover ← (λ p, let '(r, p') := prover_start config program p in
                 (unwrap (λ e, "called `Result::unwrap()` on an `Err` value: " +:+
                               report_debug e) r, p'));
  await_shutdown join prover.

(** [FakeProver::spawn_at]. *)
Definition fake_spawn_at (fake_prover : FakeProver (W:=W)) (endpoint : SocketAddr)
    : io (process W) () TonicServer :=
  let svc := accept_compressed Zstd (send_compressed Zstd (server_new fake_prover)) in
  spawn_server svc endpoint.
End agglayer.

(** ** Properties *)

Section routes.
Context `{AxumLaws}.

Lemma route_service_ok r path s r' :
  route_service r path s = Ok r' → routes r' = routes r ++ [(path, s)].
Proof.
  intros Hr. destruct (decide (path ∈ (routes r).*1)) as [Hp|Hp].
  - apply (route_service_overlap r path s) in Hp. by rewrite Hr in Hp.
  - destruct (route_service_fresh r path s Hp) as (r1 & Hr1 & Hrs). congruence.
Qed.

(** An engine that has started serves the services added to it, on its RPC socket. *)
Lemma start_routes os (engine : ProverEngine) trace router trace' :
  start os engine trace = (Ok router, trace') →
  (∃ more, routes router = routes (rpc_server engine) ++ more) ∧
  Bound (rpc_socket_addr engine) ∈ trace'.
Proof.
  unfold start. destruct (start_servers os engine _ trace) as [[r|e|p] t] eqn:Hst; [|done..].
  intros [= <- <-]. unfold start_servers in Hst.
  io_step Hst as u1 t1 E1. io_step Hst as u2 t2 E2. io_step Hst as u3 t3 E3.
  io_step Hst as u4 t4 E4. io_step Hst as u5 t5 E5. apply attempt_ok in E5 as ->.
  io_step Hst as v1 t6 E6. apply lift_ok in E6 as [_ ->].
  io_step Hst as v1a t7 E7. apply lift_ok in E7 as [_ ->].
  io_step Hst as u8 t8 E8. rewrite for_each_emit in E8. injection E8 as _ <-.
  io_step Hst as r1 t9 E9. apply lift_ok in E9 as [E9%never_ok%route_service_ok ->].
  io_step Hst as r2 t10 E10. apply lift_ok in E10 as [E10%never_ok%route_service_ok ->].
  io_step Hst as r3 t11 E11. apply lift_ok in E11 as [E11%never_ok%route_service_ok ->].
  io_step Hst as u12 t12 E12. injection E12 as _ <-.
  io_step Hst as u13 t13 E13. apply attempt_ok in E13 as ->. injection Hst as <- <-.
  split.
  - rewrite E11, E10, E9, <-!(assoc_L (++)). by eexists.
  - rewrite !elem_of_app, !list_elem_of_singleton. tauto.
Qed.

Lemma add_rpc_service_routes (self engine : ProverEngine) (s : rpc_service) :
  add_rpc_service self s = Ok engine →
  (service_path (NAME s), s) ∈ routes (rpc_server engine) ∧
  rpc_socket_addr engine = rpc_socket_addr self.
Proof.
  intros (r & Hr%route_service_ok & [= <-])%outcome_bind_ok. split; [|done]. simpl.
  rewrite Hr, elem_of_app, list_elem_of_singleton. by right.
Qed.
End routes.

Section aggkit_properties.
Context {W : Type} `{!P3Fields, !Ecdsa, !UnifiedBridge, !Hashing, !SolAbi, !GlobalIndices}
  {orders : UnspecifiedOrders} `{!UnspecifiedOrdersLaws orders}
  `{!EvmClient, !Urls, !Node W, !HostExecutor W, !Sp1Sdk W, !Sp1Proofs W,
  !Tokio W, !TowerLayers W, !BuilderDeps W, !VKeyHashes W, !ProposerElfs W,
  !ProposerGrpc W, !AggregationSdk W, !ProposerDeps (W:=W), !InteropGrpc, !RpcDeps}.
Context `{!Encodings, !Tonic W, !Message GenerateAggchainProofRequest,
  !Message GenerateAggchainProofResponse, !Message GenerateOptimisticAggchainProofRequest,
  !Message GenerateOptimisticAggchainProofResponse}.
Context `{AxumLaws, !ConfigErrors, !BinaryDeps (AggkitConfig (W:=W))}.
Variables (program_version : Z) (overflow_checks info_enabled debug_assertions : bool).
Variable client_error_text : ProposerClientError W → string.
Variables (erigon_elf AGGCHAIN_PROOF_ELF FILE_DESCRIPTOR_SET : bytes).
Variables (env : Env) (os : Environment).
Variable boxed : (http_request Body → io W Empty_set (http_response Body)) → Handler.

Abbreviation runtime_with := (runtime_with program_version overflow_checks info_enabled
  debug_assertions client_error_text erigon_elf AGGCHAIN_PROOF_ELF FILE_DESCRIPTOR_SET env os
  boxed).
Abbreviation runtime := (runtime program_version overflow_checks info_enabled
  debug_assertions client_error_text erigon_elf AGGCHAIN_PROOF_ELF FILE_DESCRIPTOR_SET env os
  boxed).
Abbreviation main := (main program_version overflow_checks info_enabled
  debug_assertions client_error_text erigon_elf AGGCHAIN_PROOF_ELF FILE_DESCRIPTOR_SET env os
  boxed).

(** A runtime that has started serves the generated server around a service that was created
    from the configuration, at the configured address. *)
Lemma runtime_serves cfg p router p' :
  runtime cfg p = (Ok router, p') →
  ∃ config self, load cfg = Ok config ∧
    grpc_service_new program_version overflow_checks info_enabled debug_assertions
      client_error_text env erigon_elf AGGCHAIN_PROOF_ELF
      (Aggkit.ak_aggchain_proof_service _ config) (p_world p) = (Ok self, p_world p') ∧
    (service_path AggkitGrpc.SERVICE_NAME, aggkit_rpc_service boxed (server_new self))
      ∈ routes router ∧
    Bound (Aggkit.ak_grpc_endpoint _ config) ∈ p_events p'.
Proof.
  intros Hr. unfold Binaries.runtime in Hr. io_step Hr as config w0 Hc.
  apply lift_ok in Hc as [Hc%map_err_ok ->]. unfold Binaries.runtime_with in Hr.
  io_step Hr as u1 p1 E1. io_step Hr as u2 p2 E2. io_step Hr as u3 p3 E3.
  apply lift_ok in E1 as [_ ->]. apply on_events_ok in E2 as [_ E2], E3 as [_ E3].
  io_step Hr as self p4 E4. apply io_map_err_ok, on_world_ok in E4 as [E4 _].
  io_step Hr as engine p5 E5. apply lift_ok in E5 as [E5%never_ok ->].
  apply on_events_ok in Hr as [[[more Hm] Hb]%start_routes Hw].
  rewrite E3, E2, <-Hw in E4.
  unfold aggkit_engine in E5. apply outcome_bind_ok in E5 as (e & He & [= <-]).
  apply add_rpc_service_routes in He as [Hroute Haddr]. simpl in *.
  exists config, self. split_and!; [done|done| |].
  - rewrite Hm, elem_of_app. by left.
  - by rewrite Haddr in Hb.
Qed.

(** From the command line to the proof: when the aggkit prover runs with a
    configuration file, it serves, on the configured address, a server at whose generated
    client every response stems from a response with a proof that the SDK's verifier
    accepted under a key of the built-in program, and whose aggchain params are the ones
    that the public values of this proof commit to. *)
Theorem aggkit_prover_end_to_end `{!TonicLaws W, !TokioLaws (W:=W), !TowerLayersLaws W,
    !BuilderDepsLaws W} cfg p router p' :
  runtime cfg p = (Ok router, p') →
  ∃ config server, load cfg = Ok config ∧
    Bound (Aggkit.ak_grpc_endpoint _ config) ∈ p_events p' ∧
    (service_path AggkitGrpc.SERVICE_NAME, aggkit_rpc_service boxed server) ∈ routes router ∧
    let client := client_new (over_wire (AggkitGrpc.server_call server)) in
    ∀ request resp w w', encodable request →
      client_generate_aggchain_proof client request w = (Ok resp, w') →
      ∃ sent msg pr pv, Tonic.decode (encode_to_vec sent) = Some resp ∧
        gr_aggchain_proof sent = Some msg ∧ verified AGGCHAIN_PROOF_ELF pr ∧
        deserialize_public_values (proof_public_values pr) = Ok pv ∧
        ap_aggchain_params msg = Some (digest_into (apv_aggchain_params pv)).
Proof.
  intros (config & self & Hc & Hn & Hroute & Hb)%runtime_serves.
  exists config, (server_new self). split_and!; [done..|].
  intros client request resp w w' He Hr.
  destruct (AggkitGrpc.client_genuine (server_new self)) as [Hg _].
  destruct (Hg request resp w w' He Hr) as (sent & Hs & Hd).
  assert (∃ msg, gr_aggchain_proof sent = Some msg) as [msg Hmsg].
  { apply generate_inv in Hs as (_ & inputs & res & bs & w2 & _ & _ & _ & _ & ->).
    by eexists. }
  destruct (rpc_message_verified _ _ _ _ _ _ _ _ _ _ _ _ w msg w' Hn)
    as (pr & pv & bs & Hv & Hpv & Hp & _).
  { left. by exists request, sent. }
  by exists sent, msg, pr, pv.
Qed.

(** The runtime depends on five sections of the configuration: the limits of the [grpc]
    section and the two provers at the top level are not used. *)
Lemma runtime_unused_sections (config : AggkitConfig (W:=W)) grpc primary fallback :
  runtime_with {|
    Aggkit.ak_grpc_endpoint := Aggkit.ak_grpc_endpoint _ config;
    Aggkit.ak_grpc := grpc;
    Aggkit.ak_log := Aggkit.ak_log _ config;
    Aggkit.ak_telemetry := Aggkit.ak_telemetry _ config;
    Aggkit.ak_shutdown := Aggkit.ak_shutdown _ config;
    Aggkit.ak_aggchain_proof_service := Aggkit.ak_aggchain_proof_service _ config;
    Aggkit.ak_primary_prover := primary;
    Aggkit.ak_fallback_prover := fallback |} = runtime_with config.
Proof. done. Qed.

(** Validating a configuration that does not load prints the error and succeeds. *)
Lemma validate_config_succeeds service_default path p e :
  load path = Err e →
  main service_default (ValidateConfig path) p =
    (Ok (), {| p_world := p_world p; p_events := p_events p; p_stdout := p_stdout p;
               p_stderr := p_stderr p ++ [configuration_error_display e] |}).
Proof. unfold Binaries.main, AggkitConfig. cbv iota zeta beta. by intros ->. Qed.

(** The printed selector is the version of the program and the type of the aggchain, as
    two big-endian 16-bit numbers. *)
Lemma vkey_selector_printed service_default p :
  in_width 16 program_version →
  (main service_default VkeySelector p).2 =
    {| p_world := p_world p; p_events := p_events p;
       p_stdout := p_stdout p ++
         ["0x" +:+ hex_encode ((be_bytes 2 program_version : bytes) ++ be_bytes 2 AGGCHAIN_TYPE)];
       p_stderr := p_stderr p |}.
Proof. intros Hv. rewrite <-selector_value; [done|done|by vm_compute; split]. Qed.
End aggkit_properties.

Section agglayer_properties.
Context {W : Type} `{!Sp1Sdk W, !Tokio W, !TowerLayers W, !Urls, !AgglayerWire W,
  !Metrics W, !P3Fields, !Ecdsa, !UnifiedBridge, !EvmClient, !Sp1Proofs W, !BuilderDeps W}.
Context `{!Encodings, !Tonic W, !Message GenerateProofRequest, !Message GenerateProofResponse}.
Context `{AxumLaws, !ConfigErrors, !BinaryDeps Agglayer.AgglayerProverConfig}.
Variables (FILE_DESCRIPTOR_SET : bytes) (os : Environment).
Variable boxed : (http_request Body → io W Empty_set (http_response Body)) → Handler.

(** The agglayer prover serves the server that was created from its configuration. *)
Lemma agglayer_main_serves cfg program p router p' :
  agglayer_main os boxed cfg program p = (Ok router, p') →
  ∃ config server w0 w1, load cfg = Ok config ∧
    create_service config program w0 = (Ok server, w1) ∧
    (service_path AgglayerGrpc.SERVICE_NAME, agglayer_rpc_service boxed server)
      ∈ routes router ∧
    Bound (Agglayer.al_grpc_endpoint config) ∈ p_events p'.
Proof.
  intros Hr. unfold agglayer_main in Hr. io_step Hr as config w0 Hc.
  apply lift_ok in Hc as [Hc%map_err_ok ->]. unfold agglayer_main_with in Hr.
  io_step Hr as u1 p1 E1. io_step Hr as u2 p2 E2. io_step Hr as u3 p3 E3.
  io_step Hr as server p4 E4. apply io_map_err_ok, on_world_ok in E4 as [E4 _].
  io_step Hr as engine p5 E5. apply lift_ok in E5 as [E5%never_ok ->].
  apply on_events_ok in Hr as [[[more Hm] Hb]%start_routes _].
  unfold agglayer_engine in E5. apply outcome_bind_ok in E5 as (e & He & [= <-]).
  apply add_rpc_service_routes in He as [Hroute Haddr]. simpl in *.
  exists config, server, (p_world p3), (p_world p4). split_and!; [done|done| |].
  - rewrite Hm, elem_of_app. by left.
  - by rewrite Haddr in Hb.
Qed.

(** The test server of the same configuration offers the same service, and reports it
    healthy. *)
Lemma prover_start_serves config program p prover p' :
  prover_start FILE_DESCRIPTOR_SET boxed config program p = (Ok prover, p') →
  ∃ server, create_service config program (p_world p) = (Ok server, p_world p') ∧
    agglayer_rpc_service boxed server ∈ ts_services (prover_handle prover) ∧
    ts_addr (prover_handle prover) = Agglayer.al_grpc_endpoint config ∧
    ServingStatus AgglayerGrpc.SERVICE_NAME ∈ p_events p'.
Proof.
  intros Hr. unfold prover_start in Hr.
  io_step Hr as server p1 E1. apply io_map_err_ok, on_world_ok in E1 as [E1 _].
  io_step Hr as handle p2 E2. injection Hr as <- <-. unfold spawn_server in E2.
  io_step E2 as u p3 E3. apply on_events_ok in E3 as [E3 Hw]. injection E3 as _ E3.
  io_step E2 as reflection p4 E4. apply lift_ok in E4 as [_ ->]. injection E2 as <- <-.
  exists server. split_and!; [by rewrite Hw| |done|].
  - simpl. rewrite !elem_of_cons. tauto.
  - rewrite <-E3, elem_of_app, list_elem_of_singleton. by right.
Qed.
End agglayer_properties.

(** ** A sample process *)

Module BinariesSample.
Import Toy ToyAbi ToyEvm ToyOrders ToyNode ConfigSample BuilderSample ServiceSample
  ConversionSample RpcSample ToyTonic AggkitGrpcSample EngineSample.
Import (hints) ToyProposer.

Definition config : AggkitConfig (W:=world) := {|
  Aggkit.ak_grpc_endpoint := Aggkit.aggkit_socket_addr;
  Aggkit.ak_grpc := {| max_decoding_message_size := 1; max_encoding_message_size := 1 |};
  Aggkit.ak_log := log_default;
  Aggkit.ak_telemetry := Aggkit.aggkit_telemetry_default;
  Aggkit.ak_shutdown := Aggkit.aggkit_shutdown_default;
  Aggkit.ak_aggchain_proof_service := service_config;
  Aggkit.ak_primary_prover := prover None;
  Aggkit.ak_fallback_prover := None |}.

#[export] Instance config_errors : ConfigErrors := {|
  IoError := string;
  TomlError := string;
  configuration_error_display e :=
    match e with
    | UnableToReadConfigFile path source => "Unable to read " +:+ path +:+ ": " +:+ source
    | DeserializationError e => e
    end;
|}.

#[export] Instance binary_deps : BinaryDeps (AggkitConfig (W:=world)) := {|
  read_to_string path :=
    if String.eqb path "aggkit-prover.toml" then Ok "sample" else Err "not found";
  toml_deserialize s := Ok config;
  toml_to_string_pretty _ := Ok "sample";
  init_logger _ := Ok ();
  hex_encode bs := String.string_of_list_byte bs;
|}.

Definition idle : process world :=
  {| p_world := []; p_events := []; p_stdout := []; p_stderr := [] |}.

Definition boxed
    (_ : http_request toy_body → io world Empty_set (http_response toy_body)) : Handler := ().

Definition run (cfg : string) : outcome report Router * process world :=
  runtime 7 true true true (λ _, "") [x00] [x00; x01] [] (λ _, Some "key") calm boxed cfg idle.

Example missing_file :
  (run "other.toml").1 = Err (ReportMsg "Unable to read other.toml: not found").
Proof. reflexivity. Qed.

Example runs : is_ok (run "aggkit-prover.toml").1 = true.
Proof. vm_compute. reflexivity. Qed.

Lemma aggkit_prover_end_to_end_witness :
  ∃ router p' server, run "aggkit-prover.toml" = (Ok router, p') ∧
    Bound Aggkit.aggkit_socket_addr ∈ p_events p' ∧
    (service_path AggkitGrpc.SERVICE_NAME, aggkit_rpc_service boxed server) ∈ routes router.
Proof.
  pose proof runs as Hok. destruct (run "aggkit-prover.toml") as [r p'] eqn:Hr.
  destruct r as [router| |]; [|discriminate Hok..].
  destruct (aggkit_prover_end_to_end (Tonic0:=tonic) 7 true true true (λ _, "") [x00] [x00; x01] []
              (λ _, Some "key") calm boxed "aggkit-prover.toml" idle router p' Hr)
    as (c & server & Hc & Hb & Hs & _).
  injection Hc as <-. exists router, p', server.
  split; [reflexivity|]. split; [exact Hb|exact Hs].
Defined.
End BinariesSample.
