(* ===== verification/AgglayerAnswers.v ===== *)
(** Which requests the agglayer prover answers, and with what.

    From the entry point ([crates/agglayer-prover/src/lib.rs]) to the generated client: when
    SP1 proves what the pessimistic proof program commits, and only that, a client gets a
    response exactly when the program commits public values on the input it sent, and the
    proof in the response carries these public values. *)

From S2P Require Import Prelude Bytes Panics Interop Abi StaticCall Fep AggchainProof Config Executor Contracts Vkey Builder Runs Rpc Tonic AgglayerRpc Engine AgglayerGrpc Binaries.

Section answers.
Context {W : Type} `{!Sp1Sdk W, !Tokio W, !TowerLayers W, !Urls, !AgglayerWire W,
  !Metrics W, !P3Fields, !Ecdsa, !UnifiedBridge, !EvmClient, !Sp1Proofs W, !BuilderDeps W}.
Context `{!Encodings, !Tonic W, !Message GenerateProofRequest, !Message GenerateProofResponse}.
Context `{!TonicLaws W, !MessageLaws GenerateProofRequest, !MessageLaws GenerateProofResponse}.
Context `{!TokioLaws (W:=W), !TowerLayersLaws W, !BuilderDepsLaws W}.
Variables (program : bytes) (commits : SP1Stdin → bytes → Prop).

(** ** Answers are proofs of executions *)

Section sound.
Context `{!RunsSound W program commits}.

Lemma generate_proof_commits config w0 self w1 request w resp w' :
  create_service config program w0 = (Ok self, w1) →
  generate_proof (server_inner self) request w = (Ok resp, w') →
  ∃ stdin p, read_stdin request = Ok stdin ∧ verified program p ∧
    commits stdin (proof_public_values p) ∧ wire_proof p = Ok (gp_proof resp).
Proof.
  intros Hn Hg.
  destruct (generate_proof_proved _ _ _ _ _ _ _ _ _ Hn Hg) as (s & p & Hs & Hp & Hw).
  exists s, p. split_and!; [done|by eapply proved_on_verified| |done].
  by apply (proved_on_commits program commits) in Hp.
Qed.
End sound.

(** ** Executions are answered *)

(** A proof that the server can send to a client. *)
Definition sendable (config : Agglayer.AgglayerProverConfig) (p : SP1ProofWithPublicValues)
    : Prop :=
  ∃ bs, wire_proof p = Ok bs ∧
    let size := encoded_len {| gp_proof := bs |} in
    size <= max_encoding_message_size (Agglayer.al_grpc config) ∧
    size <= DEFAULT_MAX_RECV_MESSAGE_SIZE.

Section complete.
Context `{!PromptRuntime W} (config : Agglayer.AgglayerProverConfig)
  `{!RunsComplete W program PlonkProof commits (sendable config)}.

Lemma generate_proof_complete w0 self w1 request stdin bs w :
  create_service config program w0 = (Ok self, w1) →
  read_stdin request = Ok stdin → commits stdin bs →
  ∃ resp p w', generate_proof (server_inner self) request w = (Ok resp, w') ∧
    wire_proof p = Ok (gp_proof resp) ∧ proof_public_values p = bs ∧ sendable config p.
Proof.
  intros Hn Hs Hc. unfold create_service in Hn. io_step Hn as ex w2 Hex.
  injection Hn as <- _. apply io_map_err_ok in Hex. simpl.
  assert (proves_runs PlonkProof commits (sendable config)
    (buffer (concurrency_limit_layer (Agglayer.al_max_concurrency_limit config)
               (Executor.executor_service ex)) (Agglayer.al_max_buffered_queries config)))
    as [Hready Hprove].
  { apply proves_runs_buffer, proves_runs_limit. by eapply executor_proves_runs. }
  destruct (Hready (metric_add PROVING_REQUEST_RECV w)) as [w3 Hw3].
  destruct (Hprove stdin bs w3 Hc) as (p & w4 & Hcall & Hpv & Hsend).
  pose proof Hsend as (enc & Henc & _).
  exists {| gp_proof := enc |}, p, (metric_add PROVING_REQUEST_SUCCEEDED w4).
  split_and!; [|done..]. unfold generate_proof.
  erewrite io_bind_eq_ok by reflexivity.
  erewrite io_bind_eq_ok; [|by apply lift_ok; split].
  erewrite io_bind_eq_ok; [|by apply io_map_err_ok, Hw3]. simpl. rewrite Hcall. simpl.
  erewrite io_bind_eq_ok; [|apply lift_ok; split; [|reflexivity];
    by apply flatten_sp1_fast_ok, Henc]. reflexivity.
Qed.
End complete.

(** ** From the entry point to the client *)

Context `{AxumLaws, !ConfigErrors, !BinaryDeps Agglayer.AgglayerProverConfig}.
Variables (os : Environment).
Variable boxed : (http_request Body → io W Empty_set (http_response Body)) → Handler.
Context `{!RunsSound W program commits, !PromptRuntime W}.

(** C8: what the agglayer prover answers, as far as SP1 keeps its promises: when it runs with a
    configuration file, it serves at the configured address a server such that a client
    whose request is within the configured size gets a response exactly when the request
    has an input on which the program commits public values; and the response then carries
    a verified proof of the program, with public values that the program commits on the
    input that was sent.

    The assumptions on SP1: a proof of the program that verifies, made for an input, is of
    a run of the program on this input ([RunsSound]: what a response says, and that a
    response needs a run); each of the configured provers, network or local, proves every
    input on which the program commits, with a Plonk proof that verifies and whose encoding
    is within the configured size of a response and the default limit of a client
    ([RunsComplete] with [sendable]: that every run gets a response).  The assumption on the
    runtime: nothing times out ([PromptRuntime]). *)
Theorem agglayer_answers_executions cfg config p router p' :
  load cfg = Ok config →
  RunsComplete W program PlonkProof commits (sendable config) →
  agglayer_main os boxed cfg program p = (Ok router, p') →
  ∃ server : PessimisticProofServiceServer (W:=W),
    Bound (Agglayer.al_grpc_endpoint config) ∈ p_events p' ∧
    (service_path AgglayerGrpc.SERVICE_NAME, agglayer_rpc_service boxed server)
      ∈ routes router ∧
    let client := client_new (over_wire (AgglayerGrpc.server_call server)) in
    ∀ request w,
      encoded_len request <= max_decoding_message_size (Agglayer.al_grpc config) →
      ((∃ resp w', client_generate_proof client request w = (Ok resp, w')) ↔
       ∃ stdin bs, read_stdin request = Ok stdin ∧ commits stdin bs) ∧
      (∀ resp w', client_generate_proof client request w = (Ok resp, w') →
       ∃ stdin pr, read_stdin request = Ok stdin ∧ verified program pr ∧
         commits stdin (proof_public_values pr) ∧ wire_proof pr = Ok (gp_proof resp)).
Proof.
  intros Hl Hcomplete (config' & server & w0 & w1 & Hl' & Hn & Hroute & Hb)%agglayer_main_serves.
  rewrite Hl in Hl'. injection Hl' as <-. exists server. split; [done|]. split; [done|].
  intros client request w Hlen.
  destruct (agglayer_client_reaches_service server) as [Hd Hg].
  destruct (create_service_limits _ _ _ _ _ Hn) as [Hdec Henc].
  assert (∀ resp w', client_generate_proof client request w = (Ok resp, w') →
    ∃ stdin pr, read_stdin request = Ok stdin ∧ verified program pr ∧
      commits stdin (proof_public_values pr) ∧ wire_proof pr = Ok (gp_proof resp)) as Hsound.
  { intros resp w' Hr.
    destruct (Hg request resp w w' (encodable_all request) Hr) as (sent & Hs & Hsent).
    rewrite (encodable_all sent) in Hsent. injection Hsent as <-.
    by apply (generate_proof_commits config w0 server w1 request w sent w'). }
  split; [split|exact Hsound].
  - intros (resp & w' & (s & pr & Hs & _ & Hc & _)%Hsound). by exists s, (proof_public_values pr).
  - intros (s & bs & Hs & Hc).
    destruct (generate_proof_complete config _ _ _ _ _ _ w Hn Hs Hc)
      as ([enc] & pr & w' & Hgen & Hw & _ & enc' & Hw' & Hsize & Hmax).
    simpl in Hw. rewrite Hw in Hw'. injection Hw' as <-. exists {| gp_proof := enc |}, w'.
    specialize (Hd request w (encodable_all request)).
    rewrite Hdec, (proj2 (Z.leb_le _ _) Hlen) in Hd.
    change (svc_generate_proof ?s ?r ?v) with (generate_proof s r v) in Hd.
    rewrite Hgen in Hd. rewrite Henc in Hd. by apply Hd; [apply encodable_all|..].
Qed.
End answers.

(** ** A sample process *)

Module AgglayerAnswersSample.
Import ConfigSample Toy ToyAbi ToyEvm ToyTonic AgglayerSample AgglayerGrpcSample EngineSample.

(** The toy program commits its input, unless that is negative, 13 or 14. *)
Definition commits (stdin : Z) (bs : bytes) : Prop :=
  stdin ≠ 13 ∧ stdin ≠ 14 ∧ 0 <= stdin ∧ bs = be_bytes 8 stdin.

#[export] Instance runs_sound : RunsSound counters [x00; x01] commits.
Proof.
  split; intros prover pk vk w0 w1 stdin mode t w p w' _ Hrun Hv;
    simpl in *; unfold run in Hrun; unfold ToySdk.sample_verify in Hv;
    repeat case_decide; simplify_eq; split_and!; try done; lia.
Qed.

#[export] Instance runs_complete usable :
  (∀ p : Z, usable p) → RunsComplete counters [x00; x01] PlonkProof commits usable.
Proof.
  intros Husable. split; intros prover pk vk w0 w1 stdin bs t w _ (H13 & H14 & Hpos & ->);
    exists stdin, w; simpl; unfold run, ToySdk.sample_verify;
    by rewrite !decide_False by (done || lia).
Qed.

#[export] Instance prompt : PromptRuntime counters.
Proof.
  split; try done; try (intros; by apply io_map_err_ok).
  intros R f w r w' Hf. simpl. by rewrite Hf.
Qed.

#[export] Instance config_errors : ConfigErrors := {|
  IoError := string; TomlError := string; configuration_error_display _ := "configuration";
|}.

#[export] Instance binary_deps : BinaryDeps Agglayer.AgglayerProverConfig := {|
  read_to_string path := Ok "";
  toml_deserialize s := map_err (λ _, "default") config;
  toml_to_string_pretty _ := Ok "";
  init_logger _ := Ok ();
  hex_encode bs := String.string_of_list_byte bs;
|}.

Definition idle : process counters :=
  {| p_world := (0, 0, 0); p_events := []; p_stdout := []; p_stderr := [] |}.

Definition boxed
    (_ : http_request toy_body → io counters Empty_set (http_response toy_body)) : Handler := ().

Definition limits (c : Agglayer.AgglayerProverConfig) : Z * Z :=
  (max_decoding_message_size (Agglayer.al_grpc c), max_encoding_message_size (Agglayer.al_grpc c)).

Example loaded_limits :
  match load "agglayer-prover.toml" return _ with
  | Ok c => Some (limits c)
  | _ => None
  end = Some (4 * 1024 * 1024, 4 * 1024 * 1024).
Proof. vm_compute. reflexivity. Qed.

Example agglayer_runs : is_ok (agglayer_main calm boxed "agglayer-prover.toml" [x00; x01] idle).1 = true.
Proof. vm_compute. reflexivity. Qed.

Lemma agglayer_answers_executions_witness :
  ∃ router p' (server : PessimisticProofServiceServer (W:=counters)) resp w' (pr : Z),
    agglayer_main calm boxed "agglayer-prover.toml" [x00; x01] idle = (Ok router, p') ∧
    (service_path AgglayerGrpc.SERVICE_NAME, agglayer_rpc_service boxed server)
      ∈ routes router ∧
    client_generate_proof (client_new (over_wire (AgglayerGrpc.server_call server))) (ask 9)
      (0, 0, 0) = (Ok resp, w') ∧
    verified (W:=counters) [x00; x01] pr ∧ commits 9 (be_bytes 8 pr).
Proof.
  pose proof agglayer_runs as Hok. pose proof loaded_limits as Hlim.
  destruct (agglayer_main _ _ _ _ _) as [[router| |] p'] eqn:Hmain; [|discriminate Hok..].
  destruct (load "agglayer-prover.toml") as [c| |] eqn:Hl; [|discriminate Hlim..].
  apply (inj Some) in Hlim. unfold limits in Hlim.
  apply (inj2 pair) in Hlim as [Hdec Henc].
  destruct (agglayer_answers_executions (Sp1Sdk0:=sdk) (Tonic0:=tonic) [x00; x01] commits calm boxed
              "agglayer-prover.toml" c idle router p' Hl) as (server & _ & Hroute & Hanswers).
  - apply runs_complete. intros p. exists (be_bytes 8 p). split; [reflexivity|].
    rewrite Henc. split; discriminate.
  - exact Hmain.
  - destruct (Hanswers (ask 9) (0, 0, 0)) as [Hiff Hsound]; [rewrite Hdec; discriminate|].
    destruct (proj2 Hiff) as (resp & w' & Hr).
    { exists (9 : Z), (be_bytes 8 9). split; [reflexivity|]. split_and!; [lia..|reflexivity]. }
    destruct (Hsound resp w' Hr) as (stdin & pr & Hs & Hv & Hc & _).
    injection Hs as <-.
    exists router, p', server, resp, w', pr. split; [reflexivity|]. split; [exact Hroute|].
    split; [exact Hr|]. split; [exact Hv|exact Hc].
Defined.
End AgglayerAnswersSample.
