(* ===== verification/ConfigSerde.v ===== *)
(** The configuration files: the derived serde implementations of the structs of
    [prover-utils], [prover-config], [prover-logger], [aggkit-prover-config],
    [agglayer-prover-config], [aggchain-proof-service], [aggchain-proof-builder],
    [aggchain-proof-contracts], [prover-alloy], [proposer-client] and [proposer-service],
    each described by its attributes.

    A default that reads the environment, or unwraps the parsing of a constant, is
    evaluated where serde evaluates it: when the field is missing. *)

From S2P Require Import Prelude Bytes Panics Interop Abi StaticCall FilterValues Bridge Fep AggchainProof ProofInputs Config Executor Contracts Vkey Builder Proposer Service Conversion Rpc Tonic AggkitRpc AgglayerRpc Engine AggkitGrpc AgglayerGrpc Text Serde Derive Binaries.

(** ** Values with a textual form *)

(** *** Socket addresses

    The addresses of the model are IPv4 addresses: [a.b.c.d:port]. *)

Definition octet (digits : string) : option Z :=
  n ← parse_decimal digits;
  if decide (to_string n = digits) then if decide (n < 256) then Some n else None else None.

(** An octet without leading zeros, and the character after it. *)
Definition read_octet (sep s : string) : option (Z * string) :=
  let '(digits, rest) := span is_digit s in
  n ← octet digits;
  rest ← strip_prefix sep rest;
  Some (n, rest).

Definition socket_addr_from_str (s : string) : option SocketAddr :=
  '(a, s) ← read_octet "." s;
  '(b, s) ← read_octet "." s;
  '(c, s) ← read_octet "." s;
  '(d, s) ← read_octet ":" s;
  port ← parse_decimal s;
  if decide (port < 2 ^ 16) then Some {| ip := (a, b, c, d); port := port |} else None.

Definition socket_addr_fmt (self : SocketAddr) : string :=
  let '(a, b, c, d) := ip self in
  to_string a +:+ "." +:+ to_string b +:+ "." +:+ to_string c +:+ "." +:+ to_string d +:+
  ":" +:+ to_string (port self).

Definition valid_addr (self : SocketAddr) : Prop :=
  let '(a, b, c, d) := ip self in
  in_width 8 a ∧ in_width 8 b ∧ in_width 8 c ∧ in_width 8 d ∧ in_width 16 (port self).

Lemma read_octet_fmt sep n s :
  in_width 8 n → stops is_digit (sep +:+ s) →
  read_octet sep (to_string n +:+ sep +:+ s) = Some (n, s).
Proof.
  intros [Hn Hlt] Hs. pose proof (parse_to_string n Hn) as Hp.
  unfold read_octet. rewrite span_app by (done || by eapply parse_decimal_digits).
  unfold octet. rewrite Hp. cbn [mbind option_bind]. rewrite decide_True by done.
  rewrite decide_True by exact Hlt. cbn [mbind option_bind]. by rewrite strip_prefix_app.
Qed.

Lemma socket_addr_roundtrip self :
  valid_addr self → socket_addr_from_str (socket_addr_fmt self) = Some self.
Proof.
  destruct self as [[[[a b] c] d] p]. unfold valid_addr, socket_addr_fmt. simpl ip. simpl port.
  intros (Ha & Hb & Hc & Hd & Hp0 & Hp). unfold socket_addr_from_str.
  rewrite read_octet_fmt by done. cbn [mbind option_bind].
  rewrite read_octet_fmt by done. cbn [mbind option_bind].
  rewrite read_octet_fmt by done. cbn [mbind option_bind].
  rewrite read_octet_fmt by done. cbn [mbind option_bind].
  rewrite parse_to_string by done. cbn [mbind option_bind].
  by rewrite decide_True by exact Hp.
Qed.

(** *** Third-party types *)

(** The [humantime] crate, [serde_with]'s rounding to seconds, and the hexadecimal form of
    an [Address]. *)
Class ConfigText := {
  humantime_parse : string → option Duration;
  humantime_format : Duration → string;
  rounded_secs : Duration → Z;
  address_from_hex : string → option Address;
  address_to_hex : Address → string;
}.

(** The printing of an [http::Uri]. *)
Class UriText (W : Type) `{!ProposerGrpc W} := {
  uri_to_string : Uri → string;
}.

(** [HumanDurationImpl] is untagged: a number of seconds, or else a duration in words. *)
Definition human_duration_impl_deserialize `{!ConfigText} (c : content)
    : outcome de_error HumanDurationImpl :=
  let no_match := DeCustom
    "data did not match any variant of untagged enum HumanDurationImpl" in
  match c with
  | CU64 n | CI64 n => if decide (0 <= n < 2 ^ 64) then Ok (Secs n) else Err no_match
  | CStr s => Human <$> ok_or no_match (humantime_parse s)
  | _ => Err no_match
  end.

Definition human_duration_impl_serialize `{!ConfigText} (self : HumanDurationImpl)
    : outcome ser_error content :=
  match self with
  | Secs secs => Ok (CU64 secs)
  | Human duration => Ok (CStr (humantime_format duration))
  end.

(** [HumanDuration], the conversion that [serde_conv!] defines. *)
Definition human_duration_codec `{!ConfigText} : codec Duration := {|
  c_write d := human_duration_impl_serialize (human_duration_new d);
  c_read c := self ← human_duration_impl_deserialize c; never (human_duration_get self);
|}.

(** [DurationSeconds<u64>]. *)
Definition duration_seconds_codec `{!ConfigText} : codec Duration := {|
  c_write d := Ok (CU64 (rounded_secs d));
  c_read c := from_secs <$> c_read (uint_codec 64) c;
|}.

Definition socket_addr_codec : codec SocketAddr :=
  text_codec socket_addr_fmt socket_addr_from_str.

Definition address_codec `{!ConfigText} : codec Address :=
  text_codec address_to_hex address_from_hex.

Definition url_codec `{!Urls} : codec Url := text_codec url_as_str url_from_str.

(** A transparent struct is its field. *)
Definition l1_rpc_endpoint_codec `{!Urls} : codec L1RpcEndpoint := {|
  c_write self := c_write url_codec (url self);
  c_read c := (λ url, {| url := url |}) <$> c_read url_codec c;
|}.

Definition usize_codec : codec Z := uint_codec 64.

(** ** [prover-logger] *)

Section logger.
Context `{!UnitVariants}.

Definition log_level_codec : codec LogLevel :=
  unit_enum_codec log_level_fmt [LogTrace; LogDebug; LogInfo; LogWarn; LogError; LogFatal].

Definition log_format_name (f : LogFormat) : string :=
  match f with Pretty => "pretty" | Json => "json" end.

Definition log_format_codec : codec LogFormat := unit_enum_codec log_format_name [Pretty; Json].

(** The derived [Serialize], and the [Deserialize] of [log.rs]. *)
Definition log_output_codec : codec LogOutput := {|
  c_write self :=
    match self with
    | Stdout => Ok (CStr "Stdout")
    | Stderr => Ok (CStr "Stderr")
    | File path => Ok (CMap [("File", CStr path)])
    end;
  c_read c := log_output_deserialize <$> c_read string_codec c;
|}.

Definition log_derive : derive Log Log :=
  Build Build_Log
  ⊛ or_default (Ok LogInfo) (required "level" level log_level_codec)
  ⊛ or_default (Ok []) (required "outputs" outputs (vec_codec log_output_codec))
  ⊛ or_default (Ok Pretty) (required "format" format log_format_codec).

Definition log_codec : codec Log := derived "Log" log_derive.
End logger.

(** ** [prover-config] *)

Section prover.
Context `{!UnitVariants, !ConfigText, !Urls} (env : Env).

Definition cpu_prover_derive : derive CpuProverConfig CpuProverConfig :=
  Build Build_CpuProverConfig
  ⊛ or_default (Ok default_max_concurrency_limit)
      (required "max-concurrency-limit" cpu_max_concurrency_limit usize_codec)
  ⊛ or_default (Ok None)
      (optional "proving-request-timeout" cpu_proving_request_timeout human_duration_codec)
  ⊛ or_default (Ok default_local_proving_timeout)
      (required "proving-timeout" cpu_proving_timeout human_duration_codec).

Definition network_prover_derive : derive NetworkProverConfig NetworkProverConfig :=
  Build (Build_NetworkProverConfig _)
  ⊛ or_default (Ok None)
      (optional "proving-request-timeout" net_proving_request_timeout human_duration_codec)
  ⊛ or_default (Ok default_network_proving_timeout)
      (required "proving-timeout" net_proving_timeout human_duration_codec)
  ⊛ or_default (default_sp1_cluster_endpoint env)
      (required "sp1-cluster-endpoint" net_sp1_cluster_endpoint url_codec).

Definition mock_prover_derive : derive MockProverConfig MockProverConfig :=
  Build Build_MockProverConfig
  ⊛ or_default (Ok default_max_concurrency_limit)
      (required "max-concurrency-limit" mock_max_concurrency_limit usize_codec)
  ⊛ or_default (Ok None)
      (optional "proving-request-timeout" mock_proving_request_timeout human_duration_codec)
  ⊛ or_default (Ok default_local_proving_timeout)
      (required "proving-timeout" mock_proving_timeout human_duration_codec).

Definition cpu_prover_codec := derived "CpuProverConfig" cpu_prover_derive.
Definition network_prover_codec := derived "NetworkProverConfig" network_prover_derive.
Definition mock_prover_codec := derived "MockProverConfig" mock_prover_derive.

Definition prover_type_codec : codec ProverType := {|
  c_write self :=
    match self with
    | NetworkProver config =>
        c ← c_write network_prover_codec config; Ok (CMap [("network-prover", c)])
    | CpuProver config => c ← c_write cpu_prover_codec config; Ok (CMap [("cpu-prover", c)])
    | MockProver config => c ← c_write mock_prover_codec config; Ok (CMap [("mock-prover", c)])
    end;
  c_read c :=
    '(variant, value) ← enum_entry c;
    if decide (variant = "network-prover") then
      c ← newtype_value value; NetworkProver <$> c_read network_prover_codec c
    else if decide (variant = "cpu-prover") then
      c ← newtype_value value; CpuProver <$> c_read cpu_prover_codec c
    else if decide (variant = "mock-prover") then
      c ← newtype_value value; MockProver <$> c_read mock_prover_codec c
    else Err (UnknownVariant variant ["network-prover"; "cpu-prover"; "mock-prover"]);
|}.

(** ** The sections of both configuration crates *)

Definition grpc_derive : derive GrpcConfig GrpcConfig :=
  Build Build_GrpcConfig
  ⊛ skip_if same_as_default_max_decoding_message_size
      (or_default (Ok default_max_decoding_message_size)
        (required "max-decoding-message-size" max_decoding_message_size usize_codec))
  ⊛ skip_if same_as_default_max_encoding_message_size
      (or_default (Ok default_max_encoding_message_size)
        (required "max-encoding-message-size" max_encoding_message_size usize_codec)).

Definition grpc_codec : codec GrpcConfig := derived "GrpcConfig" grpc_derive.

Definition client_prover_derive : derive ClientProverConfig ClientProverConfig :=
  Build Build_ClientProverConfig
  ⊛ or_default (Ok grpc_config_default) (required "grpc" client_grpc grpc_codec).

Definition client_prover_codec := derived "ClientProverConfig" client_prover_derive.

(** [ShutdownConfig] of the two crates, which differ in the default. *)
Definition shutdown_derive (default_timeout : Duration) : derive ShutdownConfig ShutdownConfig :=
  Build Build_ShutdownConfig
  ⊛ or_default (Ok default_timeout)
      (required "runtime-timeout" runtime_timeout human_duration_codec).

Definition aggkit_shutdown_codec :=
  derived "ShutdownConfig" (shutdown_derive Aggkit.default_runtime_shutdown_timeout).
Definition agglayer_shutdown_codec :=
  derived "ShutdownConfig" (shutdown_derive Agglayer.default_shutdown_runtime_timeout).

Definition aggkit_telemetry_derive : derive TelemetryConfig TelemetryConfig :=
  Build Build_TelemetryConfig
  ⊛ or_default (Ok Aggkit.aggkit_metrics_api_addr)
      (required "prometheus-addr" addr socket_addr_codec).

Definition agglayer_telemetry_derive : derive TelemetryConfig TelemetryConfig :=
  Build Build_TelemetryConfig
  ⊛ alias "PrometheusAddr" (or_default (Ok Agglayer.agglayer_metrics_api_addr)
      (required "prometheus-addr" addr socket_addr_codec)).

Definition aggkit_telemetry_codec := derived "TelemetryConfig" aggkit_telemetry_derive.
Definition agglayer_telemetry_codec := derived "TelemetryConfig" agglayer_telemetry_derive.

(** ** [agglayer-prover-config] *)

Definition agglayer_derive
    : derive Agglayer.AgglayerProverConfig Agglayer.AgglayerProverConfig :=
  Build (Agglayer.Build_AgglayerProverConfig _)
  ⊛ or_default (Ok Agglayer.agglayer_socket_addr)
      (required "grpc-endpoint" Agglayer.al_grpc_endpoint socket_addr_codec)
  ⊛ skip_if (is_default grpc_config_default) (or_default (Ok grpc_config_default)
      (required "grpc" Agglayer.al_grpc grpc_codec))
  ⊛ alias "Log" (or_default (Ok log_default) (required "log" Agglayer.al_log log_codec))
  ⊛ alias "Telemetry" (or_default (Ok Agglayer.agglayer_telemetry_default)
      (required "telemetry" Agglayer.al_telemetry agglayer_telemetry_codec))
  ⊛ or_default (Ok Agglayer.agglayer_shutdown_default)
      (required "shutdown" Agglayer.al_shutdown agglayer_shutdown_codec)
  ⊛ or_default (Ok default_max_concurrency_limit)
      (required "max-concurrency-limit" Agglayer.al_max_concurrency_limit usize_codec)
  ⊛ or_default (Ok Agglayer.default_max_request_duration)
      (required "max-request-duration" Agglayer.al_max_request_duration human_duration_codec)
  ⊛ or_default (Ok Agglayer.default_max_buffered_queries)
      (required "max-buffered-queries" Agglayer.al_max_buffered_queries usize_codec)
  ⊛ or_default (prover_type_default env)
      (required "primary-prover" Agglayer.al_primary_prover prover_type_codec)
  ⊛ or_default (Ok None)
      (optional "fallback-prover" Agglayer.al_fallback_prover prover_type_codec).

Definition agglayer_codec : codec Agglayer.AgglayerProverConfig :=
  derived "ProverConfig" agglayer_derive.

(** ** [aggchain-proof-contracts] *)

Definition contracts_derive
    : derive AggchainProofContractsConfig AggchainProofContractsConfig :=
  Build (Build_AggchainProofContractsConfig _)
  ⊛ or_default l1_rpc_endpoint_default
      (required "l1-rpc-endpoint" l1_rpc_endpoint l1_rpc_endpoint_codec)
  ⊛ or_default default_l2_execution_layer_url
      (required "l2-execution-layer-rpc-endpoint" l2_execution_layer_rpc_endpoint url_codec)
  ⊛ or_default default_l2_consensus_layer_url
      (required "l2-consensus-layer-rpc-endpoint" l2_consensus_layer_rpc_endpoint url_codec)
  ⊛ or_default (Ok default_polygon_rollup_manager)
      (required "polygon-rollup-manager" cc_polygon_rollup_manager address_codec)
  ⊛ or_default (Ok default_global_exit_root_manager_v2_sovereign_chain)
      (required "global-exit-root-manager-v2-sovereign-chain"
        cc_global_exit_root_manager_v2_sovereign_chain address_codec)
  ⊛ or_default (Ok default_static_call_caller_address)
      (required "static-call-caller-address" cc_static_call_caller_address address_codec)
  ⊛ or_default (Ok default_evm_sketch_genesis)
      (required "evm-sketch-genesis" cc_evm_sketch_genesis string_codec).

Definition contracts_codec := derived "AggchainProofContractsConfig" contracts_derive.
End prover.

(** ** The sections of the aggchain proof service, and [aggkit-prover-config] *)

Section service.
Context {W : Type} `{!P3Fields, !Ecdsa, !UnifiedBridge, !Hashing, !SolAbi, !GlobalIndices,
  !UnspecifiedOrders, !EvmClient, !Urls, !Node W, !HostExecutor W, !Sp1Sdk W, !Sp1Proofs W,
  !Tokio W, !TowerLayers W, !BuilderDeps W, !VKeyHashes W, !ProposerElfs W,
  !ProposerGrpc W, !AggregationSdk W, !ProposerDeps (W:=W)}.
Context `{!UnitVariants, !ConfigText, !UriText W} (env : Env).

(** [serde_with::DisplayFromStr]. *)
Definition uri_codec : codec Uri := text_codec uri_to_string uri_from_str.

Definition proposer_client_derive
    : derive (ProposerClientConfig (W:=W)) (ProposerClientConfig (W:=W)) :=
  Build Build_ProposerClientConfig
  ⊛ or_default (default_proposer_service_endpoint env)
      (required "proposer-endpoint" pcc_proposer_endpoint uri_codec)
  ⊛ or_default (default_sp1_cluster_endpoint env)
      (required "sp1-cluster-endpoint" pcc_sp1_cluster_endpoint url_codec)
  ⊛ or_default (Ok default_request_timeout)
      (required "request-timeout" pcc_request_timeout duration_seconds_codec)
  ⊛ or_default (Ok default_proving_timeout)
      (required "proving-timeout" pcc_proving_timeout duration_seconds_codec).

Definition proposer_client_codec := derived "ProposerClientConfig" proposer_client_derive.

Definition proposer_service_derive
    : derive (ProposerServiceConfig (W:=W)) (ProposerServiceConfig (W:=W)) :=
  Build Build_ProposerServiceConfig
  ⊛ or_default (Ok false) (required "mock" psc_mock bool_codec)
  ⊛ required "client" psc_client proposer_client_codec
  ⊛ required "l1-rpc-endpoint" psc_l1_rpc_endpoint l1_rpc_endpoint_codec.

Definition proposer_service_codec := derived "ProposerServiceConfig" proposer_service_derive.

Definition builder_derive : derive AggchainProofBuilderConfig AggchainProofBuilderConfig :=
  Build Build_AggchainProofBuilderConfig
  ⊛ required "network-id" cfg_network_id (uint_codec 32)
  ⊛ required "primary-prover" cfg_primary_prover (prover_type_codec env)
  ⊛ optional "fallback-prover" cfg_fallback_prover (prover_type_codec env)
  ⊛ or_default (Ok default_aggchain_prover_timeout)
      (required "proving-timeout" cfg_proving_timeout human_duration_codec)
  ⊛ or_default contracts_config_default
      (required "contracts" cfg_contracts contracts_codec).

Definition builder_codec := derived "AggchainProofBuilderConfig" builder_derive.

Definition service_derive
    : derive (AggchainProofServiceConfig (W:=W)) (AggchainProofServiceConfig (W:=W)) :=
  Build Build_AggchainProofServiceConfig
  ⊛ required "aggchain-proof-builder" asc_aggchain_proof_builder builder_codec
  ⊛ required "proposer-service" asc_proposer_service proposer_service_codec.

Definition service_codec := derived "AggchainProofServiceConfig" service_derive.

Definition aggkit_derive : derive (AggkitConfig (W:=W)) (AggkitConfig (W:=W)) :=
  Build (Aggkit.Build_AggkitProverConfig _ _)
  ⊛ or_default (Ok Aggkit.aggkit_socket_addr)
      (required "grpc-endpoint" (Aggkit.ak_grpc_endpoint _) socket_addr_codec)
  ⊛ skip_if (is_default grpc_config_default) (or_default (Ok grpc_config_default)
      (required "grpc" (Aggkit.ak_grpc _) grpc_codec))
  ⊛ or_default (Ok log_default) (required "log" (Aggkit.ak_log _) log_codec)
  ⊛ or_default (Ok Aggkit.aggkit_telemetry_default)
      (required "telemetry" (Aggkit.ak_telemetry _) aggkit_telemetry_codec)
  ⊛ or_default (Ok Aggkit.aggkit_shutdown_default)
      (required "shutdown" (Aggkit.ak_shutdown _) aggkit_shutdown_codec)
  ⊛ or_default (service_config_default env)
      (required "aggchain-proof-service" (Aggkit.ak_aggchain_proof_service _) service_codec)
  ⊛ or_default (prover_type_default env)
      (required "primary-prover" (Aggkit.ak_primary_prover _) (prover_type_codec env))
  ⊛ or_default (Ok None)
      (optional "fallback-prover" (Aggkit.ak_fallback_prover _) (prover_type_codec env)).

Definition aggkit_codec : codec AggkitConfig := derived "ProverConfig" aggkit_derive.
End service.

(** ** TOML documents *)

(** The [toml] crate: its printer and parser, and the errors it makes of serde's. *)
Class Toml `{ConfigErrors} := {
  toml_print : content → outcome report string;
  toml_parse : string → outcome TomlError content;
  toml_de_error : de_error → TomlError;
  toml_ser_error : ser_error → report;
}.

Class TomlLaws `{Toml} : Prop := {
  toml_reloads c s :
    toml_print c = Ok s → ∃ c', toml_parse s = Ok c' ∧ reloads c c';
}.

Section toml.
Context `{Toml} {C : Type} (K : codec C).

(** [toml::to_string_pretty]. *)
Definition to_string_pretty (config : C) : outcome report string :=
  c ← map_err toml_ser_error (c_write K config);
  toml_print c.

(** [Deserialize::deserialize] from a [toml::de::Deserializer]. *)
Definition from_toml (s : string) : outcome TomlError C :=
  c ← toml_parse s;
  map_err toml_de_error (c_read K c).

(** What survives is loaded as it was before it was printed. *)
Lemma survives_toml `{!TomlLaws} config s :
  survives K config → to_string_pretty config = Ok s → from_toml s = Ok config.
Proof.
  intros (c & Hw & _ & Hr). unfold to_string_pretty. rewrite Hw. simpl. intros Hs.
  destruct (toml_reloads c s Hs) as (c' & Hp & Hc). unfold from_toml. rewrite Hp. simpl.
  by rewrite (Hr c' Hc).
Qed.
End toml.

(** ** Properties *)

Class ConfigTextLaws `{ConfigText} : Prop := {
  humantime_roundtrip d : 0 <= d <= DURATION_MAX → humantime_parse (humantime_format d) = Some d;
  rounded_whole_secs n : in_width 64 n → rounded_secs (from_secs n) = n;
  address_roundtrip a : address_from_hex (address_to_hex a) = Some a;
}.

Class UrlTextLaws `{Urls} : Prop :=
  url_roundtrip u : url_from_str (url_as_str u) = Some u.

Class UriTextLaws W `{UriText W} : Prop :=
  uri_roundtrip u : uri_from_str (uri_to_string u) = Some u.

(** What a file can hold: durations, and sizes within TOML's integers. *)
Definition valid_duration (d : Duration) : Prop := 0 <= d <= DURATION_MAX.

Lemma valid_from_secs n : 0 <= n <= 3600 → valid_duration (from_secs n).
Proof.
  intros Hn. unfold valid_duration, from_secs. change NANOS_PER_SEC with 1000000000.
  assert (3600 * 1000000000 <= DURATION_MAX) by (apply Z.leb_le; vm_compute; reflexivity).
  lia.
Qed.

Definition valid_size (n : Z) : Prop := 0 <= n <= I64_MAX.
Definition whole_secs (d : Duration) : Prop := ∃ n, valid_size n ∧ d = from_secs n.
Definition valid_option {A} (P : A → Prop) (o : option A) : Prop := ∀ x, o = Some x → P x.

Section fields.
Context {S F : Type}.
Implicit Types (f : field S F) (self : S).

Lemma field_written f self :
  f_skip f (f_get f self) = false → survives (f_codec f) (f_get f self) → field_survives f self.
Proof. intros. right. by split; [|left]. Qed.

Lemma field_skipped f self default :
  f_default f = Some (Ok default) →
  (f_skip f (f_get f self) = true → default = f_get f self) →
  survives (f_codec f) (f_get f self) → field_survives f self.
Proof.
  intros Hd Hs Hx. destruct (f_skip f (f_get f self)) eqn:Hskip; [left|right; by split; [|left]].
  split; [done|]. unfold absent. by rewrite Hd, Hs.
Qed.

Lemma field_optional (f : field S (option F)) self K :
  f_codec f = option_codec K → f_skip f (f_get f self) = false → absent f = Ok None →
  valid_option (survives K) (f_get f self) → field_survives f self.
Proof.
  intros HK Hs Ha Hx. right. split; [done|]. rewrite HK, Ha.
  destruct (f_get f self) as [x|]; [left|by right]. by apply survives_option, Hx.
Qed.
End fields.

(** [config_fields] reduces the survival of a struct to that of its fields' values; the
    hints know the values. *)
Create HintDb config.
#[export] Hint Resolve survives_bool survives_string : config.

Ltac config_field :=
  match goal with
  | |- field_survives (skip_if _ _) _ => eapply field_skipped; [reflexivity| |]
  | |- field_survives _ _ => eapply field_optional; [reflexivity..|]
  | |- field_survives _ _ => apply field_written; [reflexivity|]
  end; cbn [f_get f_codec f_skip skip_if alias or_default required optional].

Ltac config_fields :=
  apply survives_derived;
  [ by apply (bool_decide_unpack _); vm_compute
  | cbn [fields_survive]; repeat (split; [|config_field]); [exact I|..]
  | by match goal with |- rebuilt _ ?self = _ => destruct self end ].

Section values.
Context `{!UnitVariants, !ConfigText, !ConfigTextLaws, !Urls, !UrlTextLaws} (env : Env).

Lemma survives_duration d : valid_duration d → survives human_duration_codec d.
Proof.
  intros Hd. exists (CStr (humantime_format d)). split_and!; [done..|]. inversion 1; subst.
  simpl. by rewrite humantime_roundtrip.
Qed.

Lemma survives_size n : valid_size n → survives usize_codec n.
Proof. unfold valid_size, I64_MAX. intros [? ?]. apply survives_uint; unfold I64_MAX; lia. Qed.

Lemma survives_secs d : whole_secs d → survives duration_seconds_codec d.
Proof.
  intros (n & Hn & ->). assert (in_width 64 n) as Hw.
  { unfold valid_size, I64_MAX, in_width in *. lia. }
  exists (CU64 n). split_and!; [simpl; by rewrite rounded_whole_secs|done|].
  inversion 1; subst. simpl. by rewrite decide_True.
Qed.

Lemma survives_addr a : valid_addr a → survives socket_addr_codec a.
Proof. intros. by apply survives_text, socket_addr_roundtrip. Qed.

Lemma survives_address a : survives address_codec a.
Proof. apply survives_text, address_roundtrip. Qed.

Lemma survives_url u : survives url_codec u.
Proof. apply survives_text, url_roundtrip. Qed.

Lemma survives_l1_rpc_endpoint e : survives l1_rpc_endpoint_codec e.
Proof.
  destruct e as [u]. destruct (survives_url u) as (c & Hw & Hn & Hr). exists c.
  split_and!; [done..|]. intros c' Hc. cbn [c_read l1_rpc_endpoint_codec]. by rewrite (Hr c' Hc).
Qed.

Lemma survives_log_level l : survives log_level_codec l.
Proof.
  apply survives_unit_enum; [by intros [] []|]. destruct l; by apply (bool_decide_unpack _).
Qed.

Lemma survives_log_format f : survives log_format_codec f.
Proof.
  apply survives_unit_enum; [by intros [] []|]. destruct f; by apply (bool_decide_unpack _).
Qed.

#[local] Hint Resolve survives_duration survives_size survives_secs survives_addr
  survives_address survives_url survives_l1_rpc_endpoint survives_log_level
  survives_log_format : config.

(** A log section without outputs. *)
Lemma survives_log log : outputs log = [] → survives log_codec log.
Proof.
  intros Ho. config_fields; [eauto with config|..|eauto with config].
  apply survives_vec. rewrite Ho. constructor.
Qed.

Definition valid_prover (p : ProverType) : Prop :=
  valid_option valid_duration (proving_request_timeout p) ∧ valid_duration (proving_timeout p) ∧
  match p with
  | NetworkProver _ => True
  | CpuProver c => valid_size (cpu_max_concurrency_limit c)
  | MockProver c => valid_size (mock_max_concurrency_limit c)
  end.

Lemma survives_variant {A B} (K : codec A) (K' : codec B) (g : A → B) name x :
  survives K x →
  (∀ x, c_write K' (g x) = c ← c_write K x; Ok (CMap [(name, c)])) →
  (∀ c, c_read K' (CMap [(name, c)]) = g <$> c_read K c) →
  survives K' (g x).
Proof.
  intros (c & Hw & Hn & Hr) Hw' Hr'. exists (CMap [(name, c)]).
  split_and!; [by rewrite Hw', Hw|done|]. intros c' Hc. inversion Hc as [| | | |es kept es' Hk Hp|];
    subst. assert (present [(name, c)] = [(name, c)]) as Hpr.
  { unfold present. rewrite filter_cons, decide_True; [done|]. by destruct c. }
  rewrite Hpr in Hk. apply Forall2_cons_inv_l in Hk as ([k c'] & kept' & [Hk Hcc] & Hnil & ->).
  simpl in *. subst k. apply Forall2_nil_inv_l in Hnil as ->.
  apply Permutation_singleton_l in Hp as <-. by rewrite Hr', (Hr c' Hcc).
Qed.

Lemma survives_prover p : valid_prover p → survives (prover_type_codec env) p.
Proof.
  intros (Hr & Ht & Hp). destruct p as [c|c|c]; simpl in *.
  - eapply (survives_variant (network_prover_codec env)); [|done..].
    config_fields; [intros d Hd; by apply survives_duration, Hr|eauto with config..].
  - eapply (survives_variant cpu_prover_codec); [|done..].
    config_fields; [|intros d Hd; by apply survives_duration, Hr|]; eauto with config.
  - eapply (survives_variant mock_prover_codec); [|done..].
    config_fields; [|intros d Hd; by apply survives_duration, Hr|]; eauto with config.
Qed.

Definition valid_grpc (g : GrpcConfig) : Prop :=
  valid_size (max_decoding_message_size g) ∧ valid_size (max_encoding_message_size g).

Lemma survives_grpc g : valid_grpc g → survives grpc_codec g.
Proof.
  intros [Hd He]. config_fields; try (by eauto with config);
    intros Hs; apply Z.eqb_eq in Hs; by symmetry.
Qed.

Lemma survives_shutdown default s :
  valid_duration (runtime_timeout s) →
  survives (derived "ShutdownConfig" (shutdown_derive default)) s.
Proof. intros. config_fields. eauto with config. Qed.

Lemma survives_aggkit_telemetry t : valid_addr (addr t) → survives aggkit_telemetry_codec t.
Proof. intros. config_fields. eauto with config. Qed.

Lemma survives_agglayer_telemetry t : valid_addr (addr t) → survives agglayer_telemetry_codec t.
Proof. intros. config_fields. eauto with config. Qed.

Lemma survives_contracts c : survives contracts_codec c.
Proof. config_fields; eauto with config. Qed.
End values.

#[export] Hint Resolve survives_duration survives_size survives_secs survives_addr
  survives_address survives_url survives_l1_rpc_endpoint survives_log_level
  survives_log_format survives_log survives_prover survives_grpc survives_shutdown
  survives_aggkit_telemetry survives_agglayer_telemetry survives_contracts : config.

(** *** Log outputs

    An output is written by the derived implementation and read by a different one. *)

Section outputs.
Context `{!UnitVariants}.

Lemma log_output_lost o c c' :
  c_write log_output_codec o = Ok c → reloads c c' → c_read log_output_codec c' ≠ Ok o.
Proof. destruct o; intros [= <-]; inversion 1; subst; by vm_compute. Qed.

Lemma log_outputs_lost log c c' :
  c_write log_codec log = Ok c → reloads c c' → c_read log_codec c' = Ok log →
  outputs log = [].
Proof.
  intros Hw Hc Hr.
  destruct (derived_reloaded "Log" log_derive log c c' log) as (es & es' & He & Hes & Hb);
    [by apply (bool_decide_unpack _); vm_compute|done..|].
  cbn [wrote_fields log_derive] in Hes. destruct Hes as [[[_ _] Ho] _].
  cbn [built_from log_derive] in Hb.
  destruct Hb as (g & fmt & (g1 & os & (g2 & lvl & -> & _ & ->) & Hos & ->) & _ & Hlog).
  eapply has_field_reloaded in Ho as (co & Hwo & Hor); [|done|done|exact Hos].
  subst log. simpl in *. apply outcome_fmap_ok in Hwo as (cs & Hcs%traverse_ok & ->).
  destruct Hor as [[? _]|(co' & Hcc & Hro)]; [done|].
  inversion Hcc as [| | |l l' Hl| |]; subst. simpl in Hro. apply traverse_ok in Hro.
  destruct os as [|o os]; [done|].
  inversion Hcs as [|? c0 ? cs0 Hc0]; subst. inversion Hl as [|? c1 ? cs1 Hc1]; subst.
  inversion Hro as [|? ? ? ? Hread]; subst. by destruct (log_output_lost o c0 c1).
Qed.
End outputs.

(** The log section of a configuration that was reloaded: what was written and read of it. *)
Ltac log_of_fields :=
  repeat match goal with
  | H : ∃ _, _ |- _ => destruct H
  | H : _ ∧ _ |- _ => destruct H
  end; subst;
  match goal with
  | Hw : wrote_field ?f _ _, Hr : has_field ?f _ _ |- _ =>
      lazymatch f with context [log_codec] => idtac end;
      eapply has_field_reloaded in Hw as (? & Hw & Hr');
        [simpl in *|eassumption|reflexivity|exact Hr];
      destruct Hr' as [[-> _]|(? & ? & ?)];
        [by apply outcome_bind_ok in Hw as (? & _ & ?)|]
  end.

(** *** The agglayer prover *)

Section agglayer.
Context `{!UnitVariants, !ConfigText, !ConfigTextLaws, !Urls, !UrlTextLaws} (env : Env).
Import Agglayer.

Record valid_agglayer (c : AgglayerProverConfig) : Prop := {
  vl_grpc_endpoint : valid_addr (al_grpc_endpoint c);
  vl_grpc : valid_grpc (al_grpc c);
  vl_telemetry : valid_addr (addr (al_telemetry c));
  vl_shutdown : valid_duration (runtime_timeout (al_shutdown c));
  vl_max_concurrency_limit : valid_size (al_max_concurrency_limit c);
  vl_max_request_duration : valid_duration (al_max_request_duration c);
  vl_max_buffered_queries : valid_size (al_max_buffered_queries c);
  vl_primary_prover : valid_prover (al_primary_prover c);
  vl_fallback_prover : valid_option valid_prover (al_fallback_prover c);
}.

Lemma survives_agglayer c :
  valid_agglayer c → outputs (al_log c) = [] → survives (agglayer_codec env) c.
Proof.
  intros [] Ho. config_fields; try (by eauto with config).
  - intros Hd. by apply bool_decide_eq_true in Hd.
  - intros p Hp. apply survives_prover. auto.
Qed.

Lemma agglayer_outputs_lost c t t' :
  c_write (agglayer_codec env) c = Ok t → reloads t t' →
  c_read (agglayer_codec env) t' = Ok c → outputs (al_log c) = [].
Proof.
  intros Hw Ht Hr.
  destruct (derived_reloaded "ProverConfig" (agglayer_derive env) c t t' c)
    as (es & es' & He & Hes & Hb); [by apply (bool_decide_unpack _); vm_compute|done..|].
  cbn [wrote_fields agglayer_derive] in Hes. cbn [built_from agglayer_derive] in Hb.
  log_of_fields. by eapply log_outputs_lost.
Qed.
End agglayer.

(** *** The aggkit prover *)

Section aggkit.
Context {W : Type} `{!P3Fields, !Ecdsa, !UnifiedBridge, !Hashing, !SolAbi, !GlobalIndices,
  !UnspecifiedOrders, !EvmClient, !Urls, !Node W, !HostExecutor W, !Sp1Sdk W, !Sp1Proofs W,
  !Tokio W, !TowerLayers W, !BuilderDeps W, !VKeyHashes W, !ProposerElfs W,
  !ProposerGrpc W, !AggregationSdk W, !ProposerDeps (W:=W)}.
Context `{!UnitVariants, !ConfigText, !ConfigTextLaws, !UrlTextLaws, !UriText W,
  !UriTextLaws W} (env : Env).
Import Aggkit.

Lemma survives_uri u : survives uri_codec u.
Proof. apply survives_text, uri_roundtrip. Qed.

#[local] Hint Resolve survives_uri : config.

Definition valid_proposer (c : ProposerServiceConfig (W:=W)) : Prop :=
  whole_secs (pcc_request_timeout (psc_client c)) ∧
  whole_secs (pcc_proving_timeout (psc_client c)).

Lemma survives_proposer c : valid_proposer c → survives (proposer_service_codec env) c.
Proof.
  intros [Hr Hp]. config_fields; [eauto with config| |eauto with config].
  config_fields; eauto with config.
Qed.

Definition valid_builder (c : AggchainProofBuilderConfig) : Prop :=
  in_width 32 (cfg_network_id c) ∧ valid_prover (cfg_primary_prover c) ∧
  valid_option valid_prover (cfg_fallback_prover c) ∧ valid_duration (cfg_proving_timeout c).

Lemma survives_builder c : valid_builder c → survives (builder_codec env) c.
Proof.
  intros (Hn & Hp & Hf & Ht). config_fields; try (by eauto with config).
  - unfold in_width in Hn. apply survives_uint; unfold I64_MAX; lia.
  - intros p Hfp. apply survives_prover. auto.
Qed.

Record valid_aggkit (c : AggkitConfig (W:=W)) : Prop := {
  vk_grpc_endpoint : valid_addr (ak_grpc_endpoint _ c);
  vk_grpc : valid_grpc (ak_grpc _ c);
  vk_telemetry : valid_addr (addr (ak_telemetry _ c));
  vk_shutdown : valid_duration (runtime_timeout (ak_shutdown _ c));
  vk_builder : valid_builder (asc_aggchain_proof_builder (ak_aggchain_proof_service _ c));
  vk_proposer : valid_proposer (asc_proposer_service (ak_aggchain_proof_service _ c));
  vk_primary_prover : valid_prover (ak_primary_prover _ c);
  vk_fallback_prover : valid_option valid_prover (ak_fallback_prover _ c);
}.

Lemma survives_aggkit c :
  valid_aggkit c → outputs (ak_log _ c) = [] → survives (aggkit_codec env) c.
Proof.
  intros [] Ho. config_fields; try (by eauto with config).
  - intros Hd. by apply bool_decide_eq_true in Hd.
  - config_fields; [by apply survives_builder|by apply survives_proposer].
  - intros p Hp. apply survives_prover. auto.
Qed.

Lemma aggkit_outputs_lost c t t' :
  c_write (aggkit_codec env) c = Ok t → reloads t t' →
  c_read (aggkit_codec env) t' = Ok c → outputs (ak_log _ c) = [].
Proof.
  intros Hw Ht Hr.
  destruct (derived_reloaded "ProverConfig" (aggkit_derive env) c t t' c)
    as (es & es' & He & Hes & Hb); [by apply (bool_decide_unpack _); vm_compute|done..|].
  cbn [wrote_fields aggkit_derive] in Hes. cbn [built_from aggkit_derive] in Hb.
  log_of_fields. by eapply log_outputs_lost.
Qed.
End aggkit.

(** *** Files *)

Section defaults.
Context {W : Type} `{!P3Fields, !Ecdsa, !UnifiedBridge, !Hashing, !SolAbi, !GlobalIndices,
  !UnspecifiedOrders, !EvmClient, !Urls, !Node W, !HostExecutor W, !Sp1Sdk W, !Sp1Proofs W,
  !Tokio W, !TowerLayers W, !BuilderDeps W, !VKeyHashes W, !ProposerElfs W,
  !ProposerGrpc W, !AggregationSdk W, !ProposerDeps (W:=W)}.
Context `{!UnitVariants, !ConfigText, !UriText W} (env : Env).

(** C38: the defaults of the fields agree with the defaults of the configurations: a file
    with none of the known sections, whatever else it has, is read as
    [ProverConfig::default()], for both provers, and ends as that does when the environment
    makes a default fail. *)
Theorem missing_sections_default :
  (∀ es, Forall (λ e, e.1 ∉ all_names (aggkit_derive env)) es →
     c_read (aggkit_codec env) (CMap es) =
     Aggkit.aggkit_prover_config_default env (service_config_default env)) ∧
  (∀ es, Forall (λ e, e.1 ∉ all_names (agglayer_derive env)) es →
     c_read (agglayer_codec env) (CMap es) = Agglayer.agglayer_prover_config_default env).
Proof.
  split; intros es Hes; unfold aggkit_codec, agglayer_codec; rewrite derived_reads_defaults by done.
  - cbn. unfold Aggkit.aggkit_prover_config_default, prover_type_default.
    destruct (service_config_default env); [|done..]. cbn.
    by destruct (network_prover_config_default env).
  - cbn. unfold Agglayer.agglayer_prover_config_default, prover_type_default.
    by destruct (network_prover_config_default env).
Qed.

(** The default configuration can be written to a file. *)
Lemma default_valid {E} (c : AggkitConfig (W:=W)) :
  Aggkit.aggkit_prover_config_default (E:=E) env (service_config_default env) = Ok c →
  valid_aggkit c ∧ outputs (Aggkit.ak_log _ c) = [].
Proof.
  unfold Aggkit.aggkit_prover_config_default. intros (s & Hs & (n & Hn & [= <-])%outcome_bind_ok)%outcome_bind_ok.
  apply outcome_bind_ok in Hs as (b & Hb & (p & Hp & [= <-])%outcome_bind_ok).
  apply outcome_bind_ok in Hb as (bn & Hbn & (bc & _ & [= <-])%outcome_bind_ok).
  apply outcome_bind_ok in Hp as (cl & Hcl & (l1 & _ & [= <-])%outcome_bind_ok).
  apply outcome_bind_ok in Hcl as (u & _ & (sp & _ & [= <-])%outcome_bind_ok).
  apply outcome_bind_ok in Hn as (u1 & _ & [= <-]).
  apply outcome_bind_ok in Hbn as (u2 & _ & [= <-]).
  assert (∀ u, valid_prover (NetworkProver {| net_proving_request_timeout := None;
    net_proving_timeout := default_network_proving_timeout; net_sp1_cluster_endpoint := u |}))
    as Hprover by (split; [done|]; split; [by apply (valid_from_secs 300)|done]).
  assert (∀ n, n = 600 ∨ n = 3600 → whole_secs (from_secs n)) as Hsecs.
  { intros n Hn. exists n. split; [|done]. unfold valid_size, I64_MAX. lia. }
  split; [|done]. split.
  - by split_and!.
  - by split_and!.
  - by split_and!.
  - by apply (valid_from_secs 30).
  - split; [done|]. split; [apply Hprover|]. split; [done|by apply (valid_from_secs 3600)].
  - split; apply Hsecs; auto.
  - apply Hprover.
  - done.
Qed.
End defaults.

Section process.
Context {W : Type} `{!P3Fields, !Ecdsa, !UnifiedBridge, !Hashing, !SolAbi, !GlobalIndices,
  !UnspecifiedOrders, !EvmClient, !Urls, !Node W, !HostExecutor W, !Sp1Sdk W, !Sp1Proofs W,
  !Tokio W, !TowerLayers W, !BuilderDeps W, !VKeyHashes W, !ProposerElfs W,
  !ProposerGrpc W, !AggregationSdk W, !ProposerDeps (W:=W), !InteropGrpc, !RpcDeps}.
Context `{!Encodings, !Tonic W, !Message GenerateAggchainProofRequest,
  !Message GenerateAggchainProofResponse, !Message GenerateOptimisticAggchainProofRequest,
  !Message GenerateOptimisticAggchainProofResponse}.
Context `{Axum}.
Context `{!UnitVariants, !ConfigText, !ConfigTextLaws, !UrlTextLaws, !UriText W,
  !UriTextLaws W, !ConfigErrors, !Toml, !TomlLaws}.
Variables (program_version : Z) (overflow_checks info_enabled debug_assertions : bool).
Variable client_error_text : ProposerClientError W → string.
Variables (erigon_elf AGGCHAIN_PROOF_ELF FILE_DESCRIPTOR_SET : bytes).
Variables (env : Env) (os : Environment).
Variable boxed : (http_request Body → io W Empty_set (http_response Body)) → Handler.
Variables (read_to_string : string → outcome IoError string)
  (init_logger : Log → outcome Empty_set ()) (hex_encode : bytes → string).

(** The aggkit prover linked with the [toml] crate. *)
Definition aggkit_deps : BinaryDeps (AggkitConfig (W:=W)) := {|
  Binaries.read_to_string := read_to_string;
  toml_deserialize := from_toml (aggkit_codec env);
  toml_to_string_pretty := to_string_pretty (aggkit_codec env);
  Binaries.init_logger := init_logger;
  Binaries.hex_encode := hex_encode;
|}.

Abbreviation load := (load (H0:=aggkit_deps)).
Abbreviation main := (main (BinaryDeps0:=aggkit_deps) program_version overflow_checks info_enabled
  debug_assertions client_error_text erigon_elf AGGCHAIN_PROOF_ELF FILE_DESCRIPTOR_SET env os
  boxed (service_config_default env)).

Lemma load_text path text :
  read_to_string path = Ok text →
  ∀ config, load path = Ok config ↔ from_toml (aggkit_codec env) text = Ok config.
Proof. intros Hp config. unfold Binaries.load, try_load. simpl. rewrite Hp. simpl. apply map_err_ok. Qed.

Lemma reloaded_iff config text :
  valid_aggkit config → to_string_pretty (aggkit_codec env) config = Ok text →
  from_toml (aggkit_codec env) text = Ok config ↔ outputs (Aggkit.ak_log _ config) = [].
Proof.
  intros Hv Ht. split.
  - intros Hr. apply outcome_bind_ok in Ht as (c & Hw%map_err_ok & Hp).
    destruct (toml_reloads c text Hp) as (c' & Hc' & Hcc). unfold from_toml in Hr.
    rewrite Hc' in Hr. simpl in Hr. apply map_err_ok in Hr.
    by apply (aggkit_outputs_lost env config c c').
  - intros Ho. apply (survives_toml (aggkit_codec env) config text); [by apply survives_aggkit|done].
Qed.

(** C37: [validate-config] prints the configuration it loaded, and a file with that text is
    loaded as the same configuration exactly when no log outputs are configured. *)
Theorem validated_config_reloads path config p p' :
  load path = Ok config → valid_aggkit config →
  main (ValidateConfig path) p = (Ok (), p') →
  ∃ text, p_stdout p' = p_stdout p ++ [text] ∧
    ∀ path', read_to_string path' = Ok text →
      (load path' = Ok config ↔ outputs (Aggkit.ak_log _ config) = []).
Proof.
  intros Hl Hv Hm. unfold Binaries.main in Hm. unfold AggkitConfig in *. cbv zeta in Hm.
  rewrite Hl in Hm.
  io_step Hm as text w Ht. apply lift_ok in Ht as [Ht%map_err_ok ->].
  injection Hm as <-. exists text. split; [done|]. intros path' Hp'.
  rewrite (load_text path' text Hp'). by apply reloaded_iff.
Qed.

(** The text that [config] prints is a file of the default configuration. *)
Lemma default_config_reloads p p' :
  main Binaries.Config p = (Ok (), p') →
  ∃ text config, p_stdout p' = p_stdout p ++ [text] ∧
    Aggkit.aggkit_prover_config_default (E:=report) env (service_config_default env) = Ok config ∧
    ∀ path, read_to_string path = Ok text → load path = Ok config.
Proof.
  intros Hm. unfold Binaries.main in Hm. cbv zeta in Hm.
  io_step Hm as config w Hd. apply lift_ok in Hd as [Hd ->].
  io_step Hm as text w Ht. apply lift_ok in Ht as [Ht%map_err_ok ->].
  injection Hm as <-. exists text, config. split_and!; [done|done|]. intros path Hp.
  apply (load_text path text Hp).
  destruct (default_valid env config Hd) as [Hv Ho]. by apply reloaded_iff.
Qed.
End process.

(** ** A sample file *)

Module ConfigSerdeSample.
Import Toy ToyAbi ToyEvm ToyOrders ToyNode ConfigSample BuilderSample ServiceSample
  ConversionSample RpcSample ToyTonic AggkitGrpcSample EngineSample BinariesSample.
Import (hints) ToyProposer.

#[export] Instance unit_variants : UnitVariants := λ c,
  match c with CMap [] => Ok () | _ => Err (InvalidType "an empty table") end.

(** Durations are written as nanoseconds, addresses as their bytes. *)
#[export] Instance config_text : ConfigText := {|
  humantime_parse := parse_decimal;
  humantime_format := to_string;
  rounded_secs d := d / NANOS_PER_SEC;
  address_from_hex s := to_array 20 (String.list_byte_of_string s);
  address_to_hex a := String.string_of_list_byte (vec_to_list a);
|}.

#[export] Instance config_text_laws : ConfigTextLaws.
Proof.
  split.
  - intros d [Hd _]. by apply parse_to_string.
  - intros n _. by apply Z.div_mul.
  - intros a. cbn [address_from_hex address_to_hex config_text].
    by rewrite String.list_byte_of_string_of_list_byte, to_array_vec.
Qed.

#[export] Instance url_text_laws : UrlTextLaws.
Proof. done. Qed.

#[export] Instance uri_text : UriText world := {| uri_to_string s := s |}.

#[export] Instance uri_text_laws : UriTextLaws world.
Proof. done. Qed.

(** Content is compared structurally. *)
Fixpoint content_eqb (a b : content) : bool :=
  let fix seq (l m : list content) : bool :=
    match l, m with
    | [], [] => true
    | x :: l, y :: m => content_eqb x y && seq l m
    | _, _ => false
    end in
  let fix entries (l m : list (string * content)) : bool :=
    match l, m with
    | [], [] => true
    | (j, x) :: l, (k, y) :: m => String.eqb j k && content_eqb x y && entries l m
    | _, _ => false
    end in
  match a, b with
  | CNull, CNull => true
  | CBool x, CBool y => Bool.eqb x y
  | CU64 m, CU64 n | CI64 m, CI64 n => m =? n
  | CStr s, CStr t => String.eqb s t
  | CSeq l, CSeq m => seq l m
  | CMap l, CMap m => entries l m
  | CStruct s i l, CStruct t j m => String.eqb s t && Nat.eqb i j && entries l m
  | _, _ => false
  end.

Lemma content_eqb_eq : ∀ a b, content_eqb a b = true → a = b.
Proof.
  fix IH 1. intros a b.
  assert (∀ l m, (fix entries (l m : list (string * content)) : bool :=
    match l, m with
    | [], [] => true
    | (j, x) :: l, (k, y) :: m => String.eqb j k && content_eqb x y && entries l m
    | _, _ => false
    end) l m = true → l = m) as Hentries.
  { fix IHl 1. intros [|[j x] l] [|[k y] m]; try done.
    intros [[Hk%String.eqb_eq Hx]%andb_prop Hl]%andb_prop.
    f_equal; [f_equal; [exact Hk|by apply IH]|by apply IHl]. }
  destruct a, b; simpl; try done.
  - by intros ->%Bool.eqb_prop.
  - by intros ->%Z.eqb_eq.
  - by intros ->%Z.eqb_eq.
  - by intros ->%String.eqb_eq.
  - intros Hl. f_equal. revert l0 Hl. induction l as [|x l IHl]; intros [|y m]; try done.
    intros [Hx Hl]%andb_prop. f_equal; [by apply IH|by apply IHl].
  - intros Hl. f_equal. by apply Hentries.
  - intros [[->%String.eqb_eq ->%Nat.eqb_eq]%andb_prop Hl]%andb_prop. f_equal. by apply Hentries.
Qed.

(** The table that a tree is written as. *)
Fixpoint table_of (c : content) : content :=
  let entries := omap (λ e : string * content,
    if is_null e.2 then None else Some (e.1, table_of e.2)) in
  match c with
  | CU64 n => CI64 n
  | CSeq l => CSeq (table_of <$> l)
  | CMap es | CStruct _ _ es => CMap (entries es)
  | c => c
  end.

(** The tree of the sample configuration, and the only file there is. *)
Definition env : Env := λ _, None.

Definition sample_tree : content :=
  match c_write (aggkit_codec env) config with Ok c => c | _ => CNull end.

Definition sample_table : content := Eval vm_compute in table_of sample_tree.

#[export] Instance toml : Toml := {|
  toml_print c := if content_eqb c sample_tree then Ok "sample" else Err (ReportMsg "print");
  toml_parse s := if String.eqb s "sample" then Ok sample_table else Err "parse";
  toml_de_error _ := "de";
  toml_ser_error _ := ReportMsg "ser";
|}.

Lemma entries_cons k c c' es es' :
  reloads c c' →
  Forall2 (λ e e' : string * content, e.1 = e'.1 ∧ reloads e.2 e'.2) es es' →
  Forall2 (λ e e' : string * content, e.1 = e'.1 ∧ reloads e.2 e'.2) ((k, c) :: es) ((k, c') :: es').
Proof. intros. by constructor. Qed.

Ltac reload_step :=
  match goal with
  | |- reloads (CBool _) _ => apply reloads_bool
  | |- reloads (CU64 _) _ => apply reloads_int; by vm_compute
  | |- reloads (CStr _) _ => apply reloads_str
  | |- reloads (CSeq _) _ => apply reloads_seq
  | |- reloads (CMap _) _ => eapply reloads_map
  | |- reloads (CStruct _ _ _) _ => eapply reloads_struct
  | |- Forall2 _ (present ?es) _ =>
      let kept := eval vm_compute in (present es) in change (present es) with kept
  | |- Forall2 _ [] _ => apply Forall2_nil_2
  | |- Forall2 _ (_ :: _) _ => eapply entries_cons
  | |- _ ≡ₚ _ => reflexivity
  end.

Lemma sample_reloads : reloads sample_tree sample_table.
Proof.
  assert (sample_tree = ltac:(let c := eval vm_compute in sample_tree in exact c)) as ->
    by (vm_compute; reflexivity).
  unfold sample_table. repeat reload_step.
Qed.
#[export] Instance toml_laws : TomlLaws.
Proof.
  split. intros c s. cbn [toml_print toml].
  destruct (content_eqb c sample_tree) eqn:Hc; [|done]. intros [= <-].
  apply content_eqb_eq in Hc as ->. exists sample_table. split; [reflexivity|].
  exact sample_reloads.
Qed.

Definition read_file (path : string) : outcome IoError string :=
  if String.eqb path "aggkit-prover.toml" then Ok "sample" else Err "not found".

Definition deps : BinaryDeps (AggkitConfig (W:=world)) :=
  aggkit_deps env read_file (λ _, Ok ()) (λ bs, String.string_of_list_byte bs).

Definition validate : outcome report () * process world :=
  main (BinaryDeps0:=deps) 7 true true true (λ _, "") [x00] [x00; x01] [] env calm boxed
    (service_config_default env) (ValidateConfig "aggkit-prover.toml") idle.

Lemma sample_valid : valid_aggkit config.
Proof.
  split.
  - by split_and!.
  - by split_and!.
  - by split_and!.
  - by apply (valid_from_secs 30).
  - split; [done|]. split; [|split; [done|by apply (valid_from_secs 3600)]].
    split; [done|]. split; [by apply (valid_from_secs 9)|done].
  - split; exists 0; by split.
  - split; [done|]. split; [by apply (valid_from_secs 7)|done].
  - done.
Qed.

Lemma sample_loads : load (H0:=deps) "aggkit-prover.toml" = Ok config.
Proof.
  apply (load_text env _ _ _ "aggkit-prover.toml" "sample"); [reflexivity|].
  apply (survives_toml (aggkit_codec env) config "sample"); [|vm_compute; reflexivity].
  apply survives_aggkit; [exact sample_valid|reflexivity].
Qed.

Example validated : validate = (Ok (), {| p_world := []; p_events := []; p_stdout := ["sample"];
  p_stderr := [] |}).
Proof. vm_compute. reflexivity. Qed.

Lemma validated_config_reloads_witness :
  ∃ text, p_stdout validate.2 = [text] ∧
    (text = "sample" → load (H0:=deps) "aggkit-prover.toml" = Ok config).
Proof.
  destruct (validated_config_reloads (W:=world) (Tonic0:=tonic) 7 true true true (λ _, "") [x00] [x00; x01] [] env calm boxed
    read_file (λ _, Ok ()) (λ bs, String.string_of_list_byte bs)
    "aggkit-prover.toml" config idle validate.2) as (text & Ht & Hr).
  - exact sample_loads.
  - exact sample_valid.
  - rewrite validated. reflexivity.
  - exists text. split; [exact Ht|]. intros ->. apply (Hr "aggkit-prover.toml"); reflexivity.
Defined.

(** The outputs that a file may name, and what becomes of them when they are printed. *)
Example outputs_read :
  c_read (vec_codec log_output_codec) (CSeq [CStr "stdout"; CStr "stderr"; CStr "a.log"])
  = Ok [Stdout; Stderr; File "a.log"].
Proof. reflexivity. Qed.

Example stdout_reread : c_read log_output_codec (CStr "Stdout") = Ok (File "Stdout").
Proof. reflexivity. Qed.

Example file_unreadable :
  c_read log_output_codec (CMap [("File", CStr "a.log")]) = Err (InvalidType "a string").
Proof. reflexivity. Qed.

(** The sections of the agglayer prover under their other names, and a name given twice. *)
Example aliases :
  (al ← c_read (agglayer_codec env)
     (CMap [("Telemetry", CMap [("PrometheusAddr", CStr "1.2.3.4:80")])]);
   Ok (addr (Agglayer.al_telemetry al))) = Ok {| ip := (1, 2, 3, 4); port := 80 |}.
Proof. vm_compute. reflexivity. Qed.

Example alias_twice :
  c_read (agglayer_codec env) (CMap [("Log", CMap []); ("log", CMap [])])
  = Err (DuplicateField "log").
Proof. vm_compute. reflexivity. Qed.

(** A section of the service that is present must name its network. *)
Example network_id_required :
  c_read (builder_codec env) (CMap []) = Err (MissingField "network-id").
Proof. vm_compute. reflexivity. Qed.

Lemma missing_sections_default_witness :
  c_read (aggkit_codec env) (CMap [("full-node-rpcs", CMap [])]) =
    Aggkit.aggkit_prover_config_default env (service_config_default env) ∧
  c_read (agglayer_codec env) (CMap [("full-node-rpcs", CMap [])]) =
    Agglayer.agglayer_prover_config_default env.
Proof.
  destruct (missing_sections_default env) as [Hk Hl]. split; [apply Hk|apply Hl];
    apply (bool_decide_unpack _); vm_compute; exact I.
Defined.
End ConfigSerdeSample.
