(* ===== verification/EndToEnd.v ===== *)
(** The aggkit prover as a whole: what its clients learn from a response.

    Everything is composed here: the command line and the engine ([Binaries]), the generated
    client and server ([AggkitGrpc]), the handlers ([AggkitRpc]), the service, the builder and
    the executor, and the guest ([GuestRuns]). *)

From S2P Require Import Prelude Bytes Panics Interop Abi StaticCall FilterValues Bridge Fep AggchainProof Binding ProofInputs Config Executor Contracts Vkey Builder Proposer Service GuestRuns Conversion Rpc Tonic AggkitRpc AgglayerRpc Engine AggkitGrpc AgglayerGrpc Binaries.

(** ** Soundness *)

(** What SP1 promises: a proof that verifies under the key of a program is about an
    execution of this program, on some stdin, that ended with its public values; and the
    program is the guest. *)
Class Sp1Sound (W G : Type) `{!P3Fields, !Ecdsa, !UnifiedBridge, !EvmClient, !Hashing, !SolAbi,
    !Sp1Sdk W, !Sp1Proofs W, !ZkvmIo G, !GuestRuns W G} (elf : bytes) : Prop := {
  verified_committed (p : SP1ProofWithPublicValues) :
    verified elf p → ∃ stdin, guest_commits (G:=G) stdin (proof_public_values p);
}.

Section sound.
Context {W G : Type} `{!P3Fields, !P3FieldsLaws, !Ecdsa, !UnifiedBridge, !Hashing, !SolAbi,
  !SolAbiLaws, !GlobalIndices} {orders : UnspecifiedOrders} `{!UnspecifiedOrdersLaws orders}
  `{!EvmClient, !Urls, !Node W, !HostExecutor W, !Sp1Sdk W, !Sp1Proofs W,
  !Tokio W, !TowerLayers W, !BuilderDeps W, !VKeyHashes W, !ProposerElfs W,
  !ProposerGrpc W, !AggregationSdk W, !ProposerDeps (W:=W), !InteropGrpc, !RpcDeps}.
Context `{!ZkvmIo G, !GuestRuns W G, !GuestRunsLaws W G}.

(** A message is proven when its params and its exit root are those of public values for
    which the guest accepted a witness.  The L2 state of the witness is then as the bridge
    constraints say, its execution was attested, and whoever knows inputs with the params of
    the message knows those of the witness, unless keccak256 collides. *)
Definition message_proven (msg : AggchainProofMessage) : Prop :=
  ∃ pv wit stdin,
    ap_aggchain_params msg = Some (digest_into (apv_aggchain_params pv)) ∧
    ap_context msg !! "local_exit_root_hash" =
      Some (vec_to_list (apv_new_local_exit_root pv)) ∧
    apw_new_local_exit_root wit = apv_new_local_exit_root pv ∧
    bridge_ok (bridge_constraints_input wit) ∧
    fep_accepted Zkvm (syscall_verify_sp1_proof (G:=G) stdin) (apw_fep wit)
      (apv_l1_info_root pv) (apv_new_local_exit_root pv)
      (apv_commit_imported_bridge_exits pv) ∧
    ∀ expected, fep_wf expected →
      aggchain_params (E:=ProofError) expected = Ok (apv_aggchain_params pv) →
      params_agree (apw_fep wit) expected ∨ params_collide (apw_fep wit) expected.

(** A verified proof of the guest stands for a statement. *)
Lemma verified_statement elf `{!Sp1Sound W G elf} p pv :
  verified elf p → deserialize_public_values (proof_public_values p) = Ok pv →
  ∃ stdin wit, witness_wf wit ∧
    aggchain_ok Zkvm (syscall_verify_sp1_proof (G:=G) stdin) wit pv.
Proof.
  intros (stdin & Hc)%verified_committed Hpv.
  apply commits_reads in Hc as (wit & pv' & Hwf & _ & Hok & Hbs).
  pose proof (public_values_fields _ _ (ok_public_values _ _ _ _ Hok)) as (_ & _ & _ & _ & Hnet & _).
  rewrite Hbs, (committed_deserializes W G) in Hpv by (rewrite Hnet; apply Hwf).
  injection Hpv as ->. by exists stdin, wit.
Qed.

Lemma verified_message_proven elf `{!Sp1Sound W G elf} p pv msg :
  verified elf p → deserialize_public_values (proof_public_values p) = Ok pv →
  ap_aggchain_params msg = Some (digest_into (apv_aggchain_params pv)) →
  ap_context msg !! "local_exit_root_hash" = Some (vec_to_list (apv_new_local_exit_root pv)) →
  message_proven msg.
Proof.
  intros Hv Hpv Hparams Hler.
  destruct (verified_statement elf p pv Hv Hpv) as (stdin & wit & Hwf & [Hf Hb Hp]).
  pose proof (public_values_fields _ _ Hp) as (Hap & _ & Hnew & Hroot & _ & Hcommit).
  exists pv, wit, stdin. rewrite Hnew, Hroot, Hcommit in *. split_and!; try done.
  intros expected Hwf' Hexp. by eapply aggchain_params_bind; [apply Hwf| |exact Hap|].
Qed.

Context `{!Encodings, !Tonic W, !Message GenerateAggchainProofRequest,
  !Message GenerateAggchainProofResponse, !Message GenerateOptimisticAggchainProofRequest,
  !Message GenerateOptimisticAggchainProofResponse}.
Context `{AxumLaws, !ConfigErrors, !BinaryDeps (AggkitConfig (W:=W))}.
Context `{!TonicLaws W, !TokioLaws (W:=W), !TowerLayersLaws W, !BuilderDepsLaws W}.
Variables (program_version : Z) (overflow_checks info_enabled debug_assertions : bool).
Variable client_error_text : ProposerClientError W → string.
Variables (erigon_elf AGGCHAIN_PROOF_ELF FILE_DESCRIPTOR_SET : bytes).
Variables (env : Env) (os : Environment).
Variable boxed : (http_request Body → io W Empty_set (http_response Body)) → Handler.
Context `{!Sp1Sound W G AGGCHAIN_PROOF_ELF}.

Abbreviation runtime := (runtime program_version overflow_checks info_enabled
  debug_assertions client_error_text erigon_elf AGGCHAIN_PROOF_ELF FILE_DESCRIPTOR_SET env os
  boxed).

(** C3: what a client learns: when the aggkit prover runs with a configuration file, it has
    created a service from this file and serves it at the configured address, such that
    every response to a client, of either method, carries a proven message: some witness,
    accepted by the guest, has the params and the new local exit root of the message; the
    bridge constraints hold for it, its execution was proven or signed, and it agrees with
    any inputs the client knows to have these params, unless keccak256 collides. *)
Theorem client_learns cfg p router p' :
  runtime cfg p = (Ok router, p') →
  ∃ config self, load cfg = Ok config ∧
    grpc_service_new program_version overflow_checks info_enabled debug_assertions
      client_error_text env erigon_elf AGGCHAIN_PROOF_ELF
      (Aggkit.ak_aggchain_proof_service _ config) (p_world p) = (Ok self, p_world p') ∧
    Bound (Aggkit.ak_grpc_endpoint _ config) ∈ p_events p' ∧
    (service_path AggkitGrpc.SERVICE_NAME, aggkit_rpc_service boxed (server_new self))
      ∈ routes router ∧
    let client := client_new (over_wire (AggkitGrpc.server_call (server_new self))) in
    (∀ request resp w w', encodable request →
       client_generate_aggchain_proof client request w = (Ok resp, w') →
       ∃ sent msg, Tonic.decode (encode_to_vec sent) = Some resp ∧
         gr_aggchain_proof sent = Some msg ∧ message_proven msg) ∧
    (∀ request resp w w', encodable request →
       client_generate_optimistic_aggchain_proof client request w = (Ok resp, w') →
       ∃ sent msg, Tonic.decode (encode_to_vec sent) = Some resp ∧
         or_aggchain_proof sent = Some msg ∧ message_proven msg).
Proof.
  intros (config & self & Hc & Hn & Hroute & Hb)%runtime_serves.
  exists config, self. split_and!; [done..|].
  destruct (AggkitGrpc.client_genuine (server_new self)) as [Hnormal Hoptimistic].
  assert (∀ w msg w', responds self w msg w' → message_proven msg) as Hproven.
  { intros w msg w' Hr.
    destruct (rpc_message_verified _ _ _ _ _ _ _ _ _ _ _ _ w msg w' Hn Hr)
      as (pr & pv & bs & Hv & Hpv & Hparams & Hler & _).
    by apply (verified_message_proven AGGCHAIN_PROOF_ELF pr pv). }
  intros client. split; intros request resp w w' He Hr.
  - destruct (Hnormal request resp w w' He Hr) as (sent & Hs & Hd).
    pose proof (generate_inv _ _ _ _ _ Hs) as (_ & inputs & res & bs & w2 & _ & _ & _ & _ & Hsent).
    assert (∃ msg, gr_aggchain_proof sent = Some msg) as [msg Hmsg] by (rewrite Hsent; by eexists).
    exists sent, msg. split_and!; [done..|]. apply (Hproven w msg w'). left.
    by exists request, sent.
  - destruct (Hoptimistic request resp w w' He Hr) as (sent & Hs & Hd).
    pose proof (generate_optimistic_inv _ _ _ _ _ Hs)
      as (inputs & res & bs & w2 & _ & _ & _ & _ & _ & Hsent).
    assert (∃ msg, or_aggchain_proof sent = Some msg) as [msg Hmsg] by (rewrite Hsent; by eexists).
    exists sent, msg. split_and!; [done..|]. apply (Hproven w msg w'). right.
    by exists request, sent.
Qed.
End sound.

(** ** A sample process *)

Module EndToEndSample.
Import Toy ToyAbi ToyEvm ToyOrders ToyNode ConfigSample BuilderSample ServiceSample
  ConversionSample RpcSample ToyTonic AggkitGrpcSample EngineSample BinariesSample GuestSample.
Import (hints) ToyProposer.

(** A verified proof of the toy SDK is a witness that the guest accepts. *)
Lemma toy_verified_commits (p : toy_proof) (vk : Z) :
  vk ≠ 7 → toy_verify p vk = Ok () →
  ∃ stdin, guest_commits (W:=world) (G:=guest) stdin (toy_values p).
Proof.
  intros Hvk. unfold toy_verify. destruct p as [|wit|pv]; [done| |by rewrite decide_False].
  rewrite decide_False by done. simpl. unfold proven.
  destruct (decide (witness_wf wit)) as [Hwf|]; [|done].
  destruct (verify_aggchain_inputs _ _ _ wit) as [pv| |] eqn:Hv; [|done..]. intros _.
  exists (Some wit). apply (reads_commits (W:=world) (G:=guest) _ wit).
  - exists (None, []). simpl. by rewrite decide_True.
  - exists pv. split; [|done]. by apply (read_unwrap_ok (W:=world) (G:=guest) wit), unwrap_ok.
Qed.

#[export] Instance sound : Sp1Sound world guest [x00; x01].
Proof.
  split. intros p [prover pk vk w w' Hs Hv|prover pk vk w w' Hs Hv];
    (apply (toy_verified_commits p vk); [|done]); cbv in Hs; by simplify_eq.
Qed.

(** What a client of the running sample gets for the optimistic request. *)
Abbreviation client_of self :=
  (client_new (over_wire (AggkitGrpc.server_call (server_new self)))).

Abbreviation client_response :=
  (the_server ≫= λ s,
     sketch_of (client_generate_optimistic_aggchain_proof (client_of s) optimistic_message [])).

Example client_response_some : is_some client_response = true.
Proof. vm_compute. reflexivity. Qed.

Lemma created_is_server (s : GrpcService (W:=world)) w :
  grpc_service_new 7 true true true (λ _, "") (λ _, Some "key") [x00] [x00; x01]
    (Aggkit.ak_aggchain_proof_service _ BinariesSample.config) (p_world idle) = (Ok s, w) →
  the_server = Some s.
Proof. intros Hn. exact (f_equal sketch_of Hn). Qed.

Lemma client_response_answers resp :
  client_response = Some resp →
  ∃ s w', the_server = Some s ∧
    client_generate_optimistic_aggchain_proof (client_of s) optimistic_message []
      = (Ok resp, w').
Proof. intros (s & Hs & [w' Hcr]%sketch_of_ok)%bind_Some. exists s, w'. split; [exact Hs|exact Hcr]. Qed.

Lemma created_answers (s : GrpcService (W:=world)) w :
  grpc_service_new 7 true true true (λ _, "") (λ _, Some "key") [x00] [x00; x01]
    (Aggkit.ak_aggchain_proof_service _ BinariesSample.config) (p_world idle) = (Ok s, w) →
  ∃ resp w', client_generate_optimistic_aggchain_proof (client_of s) optimistic_message []
    = (Ok resp, w').
Proof.
  intros Hn%created_is_server. pose proof client_response_some as Hresp.
  destruct client_response as [resp|] eqn:Hcr; [|discriminate Hresp].
  apply client_response_answers in Hcr as (s' & w' & Hs & Hcr).
  rewrite Hn in Hs. injection Hs as <-. exists resp, w'. exact Hcr.
Qed.

Lemma client_learns_witness :
  ∃ router p' self resp w' sent msg, run "aggkit-prover.toml" = (Ok router, p') ∧
    (service_path AggkitGrpc.SERVICE_NAME, aggkit_rpc_service boxed (server_new self))
      ∈ routes router ∧
    client_generate_optimistic_aggchain_proof (client_of self) optimistic_message []
      = (Ok resp, w') ∧
    or_aggchain_proof sent = Some msg ∧ message_proven (G:=guest) msg.
Proof.
  pose proof BinariesSample.runs as Hok. destruct (run "aggkit-prover.toml") as [r p'] eqn:Hr.
  destruct r as [router| |]; [|discriminate Hok..].
  destruct (client_learns (G:=guest) (Tonic0:=tonic) 7 true true true (λ _, "") [x00] [x00; x01]
              [] (λ _, Some "key") calm boxed "aggkit-prover.toml" idle router p' Hr)
    as (c & self & Hc & Hn & _ & Hs & _ & Hoptimistic).
  injection Hc as <-. destruct (created_answers self (p_world p') Hn) as (resp & w' & Hresp).
  destruct (Hoptimistic optimistic_message resp [] w' (encodable_all optimistic_message) Hresp)
    as (sent & msg & _ & Hmsg & Hp).
  exists router, p', self, resp, w', sent, msg. split; [reflexivity|]. split; [exact Hs|].
  split; [exact Hresp|]. split; [exact Hmsg|exact Hp].
Defined.
End EndToEndSample.
